(* ===== verification/_CoqProject ===== *)
-Q . S2P
Prelude.v
GoStrings.v
GoFloat.v
GoFloatOrder.v
GoDecimal.v
GoTime.v
K8s.v
Policy.v
Utils.v
GoHeap.v
GoMemory.v
Binding.v
HotValue.v
Config.v
Metrics.v
Dynamic.v
ScoreOrder.v
AppAware.v
Prometheus.v
AnnotatorQueue.v
AnnotatorNode.v
AnnotatorEvent.v
AnnotatorApp.v
HotValues.v
Burst.v
Options.v
DeepCopy.v
Conversions.v
Schemes.v
TopologyCache.v
Topology.v
TopologyPlugin.v
TopologyCycle.v
AnnotatorSystem.v
AnnotatorDeltas.v
DeltaUnits.v
AnnotatorDeployments.v
AnnotatorWorkers.v
Programs.v
