(* ===== verification/Prelude.v ===== *)
(** * Crane-scheduler: a Rocq model of the scheduler plugins and the annotator

    crane-scheduler extends the Kubernetes scheduler with load awareness. Its two programs meet
    in the annotations of nodes and deployments:

    - the annotator (pkg/controller/annotator, started by cmd/controller) queries Prometheus and
      writes "value,timestamp" annotations on nodes and deployments, counts recent pod bindings in
      a bounded heap and writes the node's hot value, and keeps per-node deltas of predicted usage
      as pods come and go;
    - the scheduler plugins (pkg/plugins) read them: Dynamic filters and scores nodes by load and
      hot value, ApplicationResourceAware predicts a node's usage with the pod's deployment added,
      and NodeResourceTopologyMatch places guaranteed pods on NUMA zones.

    ** Files and the code they model

    - Prelude: panics ([go]), errors ([result]), 64-bit integers, the loop that stops at the first
      hit ([scan]), sums, tactics and the hint database [crane].
    - GoStrings, GoFloat, GoTime, GoHeap: what the program uses of the Go library (strings and
      strconv, float64 as IEEE binary64 of the Standard Library's SpecFloat, time.Parse, Format
      and Date on the civil calendar, container/heap). GoMemory: a heap of variables, pointers into
      structs and arrays, slices, new, make and copy, for the code that is about sharing.
      GoFloatOrder: rounding is monotone and correct, and five decimals give a float back.
      GoDecimal: sums of five-decimal numbers up to a thousand million are exact.
    - K8s: the fields of API objects the program reads; the interfaces of the libraries that are
      not in the repository as type classes ([QuantityLib], [ResourceLib], [ScoreLib],
      [TopologyNames], [TopologyCodec], [PodKeys], [SortSlice]) with one concrete instance each
      for examples; requests to the API server and the [io] monad that records them.
    - Policy, Config: policy types and the v1alpha1 conversions (pkg/plugins/apis/policy,
      pkg/utils/policyfile.go), plugin arguments with their defaults and conversions
      (pkg/plugins/apis/config). Schemes: what both packages register, and the two schemes, against
      the class [SchemeLib]. DeepCopy: the generated deep copies of all five packages, a Module
      per package. Conversions: the v1alpha1 conversions over pointers and slices.
    - Options: cmd/controller/app, the annotator's options, flags and configuration, and its
      process with the callbacks of the leader election. Metrics: pkg/plugins/metrics, against the
      class [MetricsRegistry]. Programs: cmd/scheduler and cmd/controller, with the plugins'
      factories and what kube-scheduler makes of them for its profiles.
    - Utils: pkg/utils/utils.go. Binding: pkg/controller/annotator/binding.go. HotValue: the loop
      that plugins.go and node.go share.
    - Dynamic: pkg/plugins/dynamic; ScoreOrder: its Score as a function of the loads; Burst: a
      scheduler that goes by its Score while many pods arrive, as a state machine. AppAware:
      pkg/plugins/applicationresourceaware.
    - TopologyCache, Topology, TopologyPlugin: pkg/plugins/noderesourcetopology (cache.go;
      helper.go; plugin.go, filter.go, scorer.go, reserver.go and binder.go). TopologyCycle: a
      cluster that schedules with this plugin, as a state machine: pods are filtered on a
      snapshot, reserved, bound or rolled back, deleted, and assumptions expire.
    - Prometheus: pkg/controller/prometheus; the interface is the class [PromClient], against
      which the annotator is modelled, and [promClient] its implementation.
    - AnnotatorQueue, AnnotatorNode, AnnotatorEvent, AnnotatorApp: pkg/controller/annotator
      (utils.go and the queue loops; node.go; event.go; deployment.go, pod.go and controller.go).
      AnnotatorSystem: the node, event, pod and reset workers as a transition system over what
      the API server stores for the nodes, the node queue and the clock, composed with the
      reading side. AnnotatorDeltas: its deltas as a ledger, specified per pod event and per
      reset; DeltaUnits: the ledger in integers. AnnotatorDeployments: the annotations of the
      deployments added to the state, in all the versions an informer may show.
      AnnotatorWorkers: the pools of goroutines that run each controller's loop on a queue (the
      class [WorkQueue]), one request a step. HotValues: the stores of bindings of the scheduler
      and of the annotator side by side.

    ** Conventions

    Definitions keep the names of the code. A function that can panic returns [go]; one that
    returns an error returns [result]; one that talks to the API server returns [io], the list of
    requests it sent and then its result or panic. Messages keep their format and arguments.
    Integers are Z, wrapped with [wrap64] where the code adds, subtracts or multiplies values it
    does not bound. The conversion of a float out of range to an integer depends on the target and
    is the parameter [oob]. Times are nanoseconds since the epoch; an operation takes its clock
    reading as an argument, and a loop that reads the clock every round takes a function of the
    round, so that the theorems hold for any progress of time, and for any interleaving of other
    goroutines between two locked sections ([recs i], [observe]). Operations that hold a lock for
    their whole body are atomic steps. Go's iteration order over maps is an argument or does not
    matter to the result, which is then proved.

    Recursion is structural, with two exceptions that take fuel: the loops of container/heap run
    with as much fuel as the heap has elements, since every round moves one level, and the
    collector of bindings runs with one more round than the store has bindings, since every round
    pops one; [heap_Pop_spec], [heap_Push_spec] and [gc_loop_spec] prove this is enough.

    ** What the theorems show

    - The two programs together: in every interleaving of the workers, when [Filter] rejects a node
      a turn in the log of the run asked Prometheus for that metric of that node and was answered a
      usage above the threshold, not longer ago than the active duration
      ([rejection_was_measured]); after a tick the workers empty the queue and every metric is
      written again with what Prometheus answered since, as long as finitely many turns fail
      ([annotations_refreshed], [turns_counted]). The hot value each computes is the same once the
      events have arrived ([hot_values_agree]). When the application plugin rejects a node, the
      usages of the node and of the deployment are answers in the logs of the run, and so is every
      usage charged to it ([app_rejection_was_measured], [booked_usages_measured]).
    - Deltas over time: pod events and resets refine a ledger that books an event at once
      ([deltas_refine]), which is what the application plugin then charges
      ([app_filter_charges_events]), in exact decimal arithmetic ([deltas_exact]); a usage that
      has expired is not booked ([expired_usage_unbooked]), and two pod workers with the same
      cached node lose an event ([stale_node_loses_event]).
    - Workers: no key is processed by two workers at once ([one_worker_per_key]), and the
      overlapping turns of the node workers leave what the same turns leave one after the other
      ([overlapping_turns_serialize]).
    - The NUMA plugin over time: no zone is granted more CPU than it has, whatever pods come and go
      ([no_overcommit]), because what [initializeNodeWrapper] charges is what was granted
      ([account_is_grants]); states stay well formed ([cycle_states_typed]), nodes may be filtered
      in any order ([filters_any_order]), and the two conditions on the actions cannot be dropped
      (the two runs of [annotation_and_expiry_overcommit]).
    - Annotations: what the annotator writes the scheduler reads back, until it expires
      ([annotation_roundtrip]); ranges merge position by position and parse back
      ([MergeUsageRange_roundtrip], [queryRange_roundtrip], [pod_reconcile_delta]).
    - Decisions: exactly when [Filter] of the three plugins rejects, and which reason or zone it
      names ([Filter_decides], [Filter_predicts], [Filter_aware]); exact scores and their bounds
      ([Score_value], [Score_in_bounds], [Score_after_Filter]); a node with lower usages and hot
      value scores at least as much, in float64 as it is rounded ([Score_prefers_idle]). Over a
      burst of pods the score of a node is its usage's less the hot value of exactly the pods bound
      to it, which spreads them: no node that got a pod falls behind another one by more than ten
      per policy and bind under way ([burst_spreads]).
    - Stores: the heap of bindings refines a bag and the assumption cache refines one map, over
      any sequence of operations ([run_refines], [cache_refines]); runs never panic and stay
      bounded ([run_safe]); counts are exact while the heap is large enough ([run_count_exact],
      [annotator_counts_exact]).
    - NUMA accounting: CPU is spread exactly ([assign_spreads_cpu]), zones are charged with what
      pods hold ([initialize_accounts]), reservations can be undone and persisted
      ([Reserve_Unreserve], [PreBind_roundtrip]).
    - Controllers: no queue item is lost ([node_item_requeued], [deployment_item_requeued]), a
      scheduled event becomes one binding ([reconcile_scheduled]), the daily reset removes exactly
      the deltas ([delta_reset_removes]).
    - Panics and slips of the code: [GetLocalTime_no_zone_panics], [Score_zero_count_panics],
      [Score_weightless_wraps], [assign_scalar_panics], [zone_memory_is_cpu],
      [empty_answer_written], [unknown_resource_rejects], [AddBinding_size_zero_panics],
      [deployment_malformed_requeued], [zero_period_panics]; a plugin that registers a metric can
      be made once in a process ([plugins_made_once]).
    - Plumbing: deep copies share nothing with their originals ([copies_independent]), converted
      policies share their lists with theirs ([conversions_share]), decoding
      runs the defaults and conversions of its version, when the scheme has no other type under one
      of the kinds, which panics ([registered_decoders]), and the annotator runs only as the leader
      when it is asked to elect one ([annotates_as_leader]).

    ** Not modelled

    Logging and the values of the metrics; informers, listers, work queues, tickers and cron, which
    are libraries (their answers are arguments, what is added to a queue is a result); the parsing
    of the command line; kube-scheduler's own command. The conversions of the plugins' arguments are
    by value.
    White space in event messages is ASCII.

    In AnnotatorSystem the steps are atomic: a worker's requests are served in the order sent,
    before another worker's turn. For the node workers this loses nothing
    ([overlapping_turns_serialize]); for the pod workers it does not, and AnnotatorDeltas asks that
    a pod worker's cached node has caught up with the deltas, which [stale_node_loses_event] shows
    is needed. Its other hypothesis, that cached usages are plain text, holds in every run of
    AnnotatorDeployments ([cluster_run_delta]), where others may change and delete deployments but
    set no usage, and the deployment workers' turns overlap, one deployment a step. Times are those with a
    four-digit year outside the hours at which the zone's offset changes ([fine]). What a lister
    answers, which may be stale, and what Prometheus and the server answer, are chosen at every
    step, and each turn of a node worker and each call of a deployment worker is recorded with
    those choices in the log of the state, which no step reads. The server applies a JSON patch as
    RFC 6902 says ([JSONPatchServer]: a replacement or a removal needs the key to be there) and may
    refuse any request; a step in which the worker is told that a patch succeeded that the server
    could not apply does not exist. The nodes themselves are neither created nor deleted in these
    runs. In TopologyCycle the scheduler's cycles do not overlap, as in kube-scheduler, while binds
    do.

    ** Plan

    What is left is small: the life of the policy file, which the programs read once. The rest of
    the code that is not covered imports packages, logs, and asserts that a plugin implements its
    interfaces. *)

From Stdlib Require Export ZArith Lia Ascii String.
From stdpp Require Export base tactics numbers list strings gmap sorting.

#[export] Set Default Goal Selector "!".

(** The development's own notations live in this scope. *)
Declare Scope crane_scope.
Delimit Scope crane_scope with crane.
Open Scope crane_scope.

(** ** Panics *)

(** A Go call either returns or panics (nil dereference, index out of range, integer
    division by zero, ...); a panic aborts every caller up to the goroutine. *)
Inductive go (A : Type) : Type :=
| Ret (a : A)
| Panic (msg : string).
Arguments Ret {A} _.
Arguments Panic {A} _.

Definition go_bind {A B} (m : go A) (k : A -> go B) : go B :=
  match m with Ret a => k a | Panic s => Panic s end.

Notation "'let!' x ':=' m 'in' k" := (go_bind m (fun x => k))
  (at level 10, x pattern, m at level 100, k at level 200) : crane_scope.

(** ** Errors *)

(** The second result of a Go function. [fmt.Errorf] keeps its format and its rendered
    arguments; a format that ends in an error ([%v] of [err]) keeps the cause. *)
Inductive error : Type :=
| Errorf (format : string) (args : list string)
| Wrapf (format : string) (args : list string) (cause : error)
| NumError (input : string) (range : bool)
| External (msg : string).

(** A Go pair [(T, error)]: callers of this code use the value only when the error is nil. *)
Inductive result (A : Type) : Type :=
| Ok (a : A)
| Err (e : error).
Arguments Ok {A} _.
Arguments Err {A} _.

Definition is_ok {A} (r : result A) : bool :=
  match r with Ok _ => true | Err _ => false end.

#[global] Instance error_eq_dec : EqDecision error.
Proof.
  refine (fix go (x y : error) {struct x} : Decision (x = y) :=
    match x, y with
    | Errorf f a, Errorf f' a' => cast_if_and (decide (f = f')) (decide (a = a'))
    | Wrapf f a c, Wrapf f' a' c' =>
        cast_if_and3 (decide (f = f')) (decide (a = a')) (go c c')
    | NumError i r, NumError i' r' => cast_if_and (decide (i = i')) (decide (r = r'))
    | External m, External m' => cast_if (decide (m = m'))
    | _, _ => right _
    end); try clear go; abstract congruence.
Defined.

#[global] Instance result_eq_dec {A} `{EqDecision A} : EqDecision (result A).
Proof. solve_decision. Defined.

#[global] Instance go_eq_dec {A} `{EqDecision A} : EqDecision (go A).
Proof. solve_decision. Defined.

(** ** Machine integers *)

(** Go's [int64] (and [int] on the 64-bit targets the scheduler is built for). *)
Definition int64_min : Z := -9223372036854775808.
Definition int64_max : Z := 9223372036854775807.
Definition int64_in (z : Z) : bool := (int64_min <=? z)%Z && (z <=? int64_max)%Z.

(** Two's complement wrap-around. *)
Definition wrap64 (z : Z) : Z :=
  ((z + 9223372036854775808) mod 18446744073709551616 - 9223372036854775808)%Z.

(** Integer division: panics on a zero divisor, truncates towards zero, wraps on the one
    overflowing case. *)
Definition int_div (a b : Z) : go Z :=
  if (b =? 0)%Z then Panic "runtime error: integer divide by zero"
  else Ret (wrap64 (Z.quot a b)).

Lemma wrap64_id z : (int64_min <= z <= int64_max)%Z -> wrap64 z = z.
Proof.
  unfold wrap64, int64_min, int64_max. intros H.
  rewrite Z.mod_small; lia.
Qed.

Lemma wrap64_range z : (int64_min <= wrap64 z <= int64_max)%Z.
Proof.
  unfold wrap64, int64_min, int64_max.
  pose proof (Z.mod_pos_bound (z + 9223372036854775808) 18446744073709551616 ltac:(lia)).
  lia.
Qed.

Lemma wrap64_idemp z : wrap64 (wrap64 z) = wrap64 z.
Proof. apply wrap64_id, wrap64_range. Qed.

Lemma int_div_pos a b :
  (0 <= a <= int64_max)%Z -> (0 < b)%Z -> int_div a b = Ret (a / b)%Z.
Proof.
  intros Ha Hb. unfold int_div.
  destruct (Z.eqb_spec b 0); [lia|].
  rewrite Z.quot_div_nonneg by lia. rewrite wrap64_id; [done|].
  unfold int64_min, int64_max in *.
  split; [pose proof (Z.div_pos a b); lia|].
  apply Z.le_trans with a; [|lia]. apply Z.div_le_upper_bound; nia.
Qed.

Lemma int_div_zero a : int_div a 0 = Panic "runtime error: integer divide by zero".
Proof. done. Qed.

(** ** Hints and tactics *)

Create HintDb crane.
Create Rewrite HintDb crane.
#[export] Hint Resolve wrap64_range : crane.
#[export] Hint Rewrite wrap64_idemp : crane.

(** Split a [go_bind] that is known to return. *)
Lemma go_bind_Ret {A B} (m : go A) (k : A -> go B) b :
  go_bind m k = Ret b <-> exists a, m = Ret a /\ k a = Ret b.
Proof. destruct m; simpl; naive_solver. Qed.

Lemma go_bind_assoc {A B C} (m : go A) (f : A -> go B) (g : B -> go C) :
  go_bind (go_bind m f) g = go_bind m (fun a => go_bind (f a) g).
Proof. by destruct m. Qed.

(** Destruct the scrutinee of the first [match]/[if] of the goal (or of a hypothesis). *)
Ltac case_goal :=
  match goal with
  | |- context [match ?x with _ => _ end] => destruct x eqn:?
  end.
Ltac case_hyp H :=
  match type of H with
  | context [match ?x with _ => _ end] => destruct x eqn:?
  end.

(** Turn boolean tests on [Z], [nat] and strings into propositions. *)
Ltac breflect :=
  repeat match goal with
  | H : (_ <? _)%Z = true |- _ => apply Z.ltb_lt in H
  | H : (_ <? _)%Z = false |- _ => apply Z.ltb_ge in H
  | H : (_ <=? _)%Z = true |- _ => apply Z.leb_le in H
  | H : (_ <=? _)%Z = false |- _ => apply Z.leb_gt in H
  | H : (_ =? _)%Z = true |- _ => apply Z.eqb_eq in H
  | H : (_ =? _)%Z = false |- _ => apply Z.eqb_neq in H
  | H : String.eqb _ _ = true |- _ => apply String.eqb_eq in H
  | H : String.eqb _ _ = false |- _ => apply String.eqb_neq in H
  | H : (_ && _) = true |- _ => apply andb_true_iff in H; destruct H
  | H : (_ || _) = false |- _ => apply orb_false_iff in H; destruct H
  | H : negb _ = true |- _ => apply negb_true_iff in H
  | H : negb _ = false |- _ => apply negb_false_iff in H
  end.

(** ** Lists *)

Lemma list_filter_all {A} (P : A -> Prop) `{forall x, Decision (P x)} (l : list A) :
  Forall P l -> filter P l = l.
Proof. induction 1; [done|]. rewrite filter_cons_True by done. by f_equal. Qed.

Lemma list_filter_none {A} (P : A -> Prop) `{forall x, Decision (P x)} (l : list A) :
  Forall (fun x => ~ P x) l -> filter P l = [].
Proof. induction 1; [done|]. by rewrite filter_cons_False. Qed.

(** ** Loops that stop at the first hit *)

(** [check] may panic; round [i] of the loop looks at the [i]-th element from where it starts. *)
Fixpoint scan {A B} (check : nat -> A -> go bool) (hit : A -> B) (miss : B) (i : nat)
    (l : list A) : go B :=
  match l with
  | [] => Ret miss
  | a :: l' =>
      let! b := check i a in
      if b then Ret (hit a) else scan check hit miss (S i) l'
  end.

(** [check] decides [P]. *)
Definition decides {A} (check : nat -> A -> go bool) (P : nat -> A -> Prop) : Prop :=
  forall i a, check i a = Ret true /\ P i a \/ check i a = Ret false /\ ~ P i a.

Lemma scan_spec {A B} (check : nat -> A -> go bool) (P : nat -> A -> Prop)
    (hit : A -> B) (miss : B) (i : nat) (l : list A) :
  decides check P ->
  (exists l1 a l2, l = (l1 ++ a :: l2)%list /\ P (i + length l1)%nat a /\
     (forall j b, l1 !! j = Some b -> ~ P (i + j)%nat b) /\
     scan check hit miss i l = Ret (hit a)) \/
  ((forall j b, l !! j = Some b -> ~ P (i + j)%nat b) /\
   scan check hit miss i l = Ret miss).
Proof.
  intros Hc. revert i. induction l as [|a l IH]; intros i; [by right|]. cbn [scan].
  destruct (Hc i a) as [[-> Ha]|[-> Ha]]; cbn [go_bind].
  { left. exists [], a, l. cbn [length app]. by rewrite Nat.add_0_r. }
  assert (forall l0, (forall j b, l0 !! j = Some b -> ~ P (S i + j)%nat b) ->
    forall j b, (a :: l0) !! j = Some b -> ~ P (i + j)%nat b) as Hcons.
  { intros l0 H [|j] b Hj; simplify_eq/=; [by rewrite Nat.add_0_r|].
    rewrite Nat.add_succ_r. by apply H. }
  destruct (IH (S i)) as [(l1 & b & l2 & -> & Hb & Hl & ->)|[Hl ->]].
  - left. exists (a :: l1), b, l2. cbn [length app]. rewrite Nat.add_succ_r. eauto.
  - right. eauto.
Qed.

(** ** Sums *)

Definition zsum {A} (f : A -> Z) (l : list A) : Z := foldr (fun x acc => f x + acc)%Z 0%Z l.

Lemma zsum_app {A} (f : A -> Z) l k : zsum f (l ++ k) = (zsum f l + zsum f k)%Z.
Proof. induction l as [|x l IH]; simpl; [done|]. rewrite IH. lia. Qed.

#[global] Instance zsum_proper {A} (f : A -> Z) : Proper (Permutation ==> eq) (zsum f).
Proof. induction 1; simpl; lia. Qed.

Lemma zsum_nonneg {A} (f : A -> Z) l : Forall (fun x => 0 <= f x)%Z l -> (0 <= zsum f l)%Z.
Proof. induction 1; simpl; lia. Qed.
