(* ===== verification/GoStrings.v ===== *)
(** * Go strings: what the program uses of [strings] and [strconv]

    A Go string is a sequence of bytes, here Rocq's [string]. [split] is [strings.Split] with
    a one-byte separator (all the separators of the code are), [has_prefix] and [trim_prefix]
    are [strings.HasPrefix] and [strings.TrimPrefix], [Itoa] is [strconv.Itoa], [ParseBool]
    is [strconv.ParseBool]; the decimal printers are shared by [Itoa], the float formatter
    and the time formatter. *)

From S2P Require Import Prelude.

Open Scope string_scope.

#[global] Arguments String.append : simpl nomatch.

(** ** Splitting and joining *)

Fixpoint split (sep : ascii) (s : string) : list string :=
  match s with
  | "" => [""]
  | String c s' =>
      if Ascii.eqb c sep then "" :: split sep s'
      else match split sep s' with
           | [] => [String c ""]
           | p :: ps => String c p :: ps
           end
  end.

Fixpoint no_char (c : ascii) (s : string) : bool :=
  match s with
  | "" => true
  | String c' s' => negb (Ascii.eqb c' c) && no_char c s'
  end.

(** [strings.Join] with a one-byte separator. *)
Fixpoint join (sep : ascii) (l : list string) : string :=
  match l with
  | [] => ""
  | [p] => p
  | p :: ps => p ++ String sep (join sep ps)
  end.

Lemma split_nonempty sep s : split sep s <> [].
Proof. destruct s; simpl; [done|]. repeat case_match; done. Qed.

Lemma split_no_char sep s : no_char sep s = true -> split sep s = [s].
Proof.
  induction s as [|c s IH]; simpl; [done|].
  intros [Hc Hs]%andb_true_iff. apply negb_true_iff in Hc. rewrite Hc, IH; done.
Qed.

Lemma split_app sep a b :
  no_char sep a = true -> split sep (a ++ String sep b) = a :: split sep b.
Proof.
  induction a as [|c a IH]; simpl; intros H.
  - by rewrite Ascii.eqb_refl.
  - apply andb_true_iff in H as [Hc Ha]. apply negb_true_iff in Hc.
    by rewrite Hc, IH.
Qed.

Lemma join_split sep s : join sep (split sep s) = s.
Proof.
  induction s as [|c s IH]; simpl; [done|].
  pose proof (split_nonempty sep s).
  destruct (Ascii.eqb_spec c sep) as [->|Hc].
  - destruct (split sep s); [done|]. simpl in *. by rewrite IH.
  - destruct (split sep s) as [|p [|q ps]]; [done| |].
    + simpl in *. congruence.
    + change (String c (join sep (p :: q :: ps)) = String c s). by rewrite IH.
Qed.

Lemma split_join sep l :
  l <> [] -> forallb (no_char sep) l = true -> split sep (join sep l) = l.
Proof.
  induction l as [|p l IH]; [done|]. intros _ [Hp Hl]%andb_true_iff.
  destruct l as [|q l]; [by apply split_no_char|].
  change (join sep (p :: q :: l)) with (p ++ String sep (join sep (q :: l))).
  rewrite split_app by done. by rewrite IH.
Qed.

Lemma split_parts_no_char sep s : forallb (no_char sep) (split sep s) = true.
Proof.
  induction s as [|c s IH]; simpl; [done|].
  destruct (Ascii.eqb c sep) eqn:Hc; simpl; [done|].
  destruct (split sep s) as [|p ps]; simpl in *; rewrite Hc; [done|].
  by apply andb_true_iff in IH as [-> ->].
Qed.

Lemma split_two sep s a b :
  split sep s = [a; b] <->
  s = a ++ String sep b /\ no_char sep a = true /\ no_char sep b = true.
Proof.
  split.
  - intros H. pose proof (join_split sep s) as Hj. pose proof (split_parts_no_char sep s) as Hp.
    rewrite H in Hj, Hp. simpl in *. rewrite !andb_true_iff in Hp. naive_solver.
  - intros (-> & Ha & Hb). rewrite split_app by done. by rewrite split_no_char.
Qed.

Lemma app_string_assoc (a b c : string) : (a ++ b) ++ c = a ++ (b ++ c).
Proof. induction a; simpl; congruence. Qed.

Lemma app_string_nil_r (a : string) : a ++ "" = a.
Proof. induction a; simpl; congruence. Qed.

Lemma no_char_app c a b : no_char c (a ++ b) = no_char c a && no_char c b.
Proof. induction a; simpl; [done|]. rewrite IHa. by rewrite andb_assoc. Qed.

Lemma app_string_length (a b : string) :
  String.length (a ++ b) = (String.length a + String.length b)%nat.
Proof. induction a; simpl; congruence. Qed.

#[export] Hint Rewrite app_string_assoc app_string_nil_r no_char_app app_string_length : crane.

(** ** Prefixes *)

Fixpoint strip_prefix (p s : string) : option string :=
  match p, s with
  | "", _ => Some s
  | String a p', String b s' => if Ascii.eqb a b then strip_prefix p' s' else None
  | _, _ => None
  end.

Definition has_prefix (s p : string) : bool :=
  match strip_prefix p s with Some _ => true | None => false end.

Definition trim_prefix (s p : string) : string :=
  match strip_prefix p s with Some s' => s' | None => s end.

Lemma strip_prefix_Some p s r : strip_prefix p s = Some r <-> s = p ++ r.
Proof.
  revert s. induction p as [|a p IH]; intros [|b s]; simpl; try naive_solver.
  destruct (Ascii.eqb_spec a b) as [->|Hab]; [|naive_solver].
  rewrite IH. naive_solver.
Qed.

Lemma has_prefix_spec s p : has_prefix s p = true <-> exists r, s = p ++ r.
Proof.
  unfold has_prefix. setoid_rewrite <- strip_prefix_Some.
  destruct (strip_prefix p s); naive_solver.
Qed.

Lemma has_prefix_app p r : has_prefix (p ++ r) p = true.
Proof. apply has_prefix_spec. eauto. Qed.

Lemma trim_prefix_app p r : trim_prefix (p ++ r) p = r.
Proof. unfold trim_prefix. by rewrite (proj2 (strip_prefix_Some _ _ r)). Qed.

(** ** Characters *)

Definition code (c : ascii) : Z := Z.of_N (N_of_ascii c).
Definition is_digit (c : ascii) : bool := (48 <=? code c)%Z && (code c <=? 57)%Z.
Definition digit_val (c : ascii) : Z := (code c - 48)%Z.
Definition digit (d : Z) : ascii := ascii_of_N (Z.to_N (48 + d)).

(** [strconv]'s [lower]: [c | ('x' - 'X')]. *)
Definition lower (c : ascii) : Z := Z.lor (code c) 32.
Definition is_lower (c : ascii) (l : Z) : bool := (lower c =? l)%Z.

Lemma digit_cases (P : Z -> Prop) :
  P 0%Z -> P 1%Z -> P 2%Z -> P 3%Z -> P 4%Z -> P 5%Z -> P 6%Z -> P 7%Z -> P 8%Z -> P 9%Z ->
  forall d, (0 <= d < 10)%Z -> P d.
Proof.
  intros. assert (d = 0 \/ d = 1 \/ d = 2 \/ d = 3 \/ d = 4 \/ d = 5 \/ d = 6 \/ d = 7
    \/ d = 8 \/ d = 9)%Z by lia. naive_solver.
Qed.

Lemma is_digit_digit d : (0 <= d < 10)%Z -> is_digit (digit d) = true.
Proof. revert d. by apply digit_cases. Qed.

Lemma digit_val_digit d : (0 <= d < 10)%Z -> digit_val (digit d) = d.
Proof. revert d. by apply digit_cases. Qed.

Lemma digit_val_range c : is_digit c = true -> (0 <= digit_val c < 10)%Z.
Proof. unfold is_digit, digit_val. intros [?%Z.leb_le ?%Z.leb_le]%andb_true_iff. lia. Qed.

#[export] Hint Resolve is_digit_digit digit_val_digit digit_val_range : crane.

Fixpoint all_digits (s : string) : bool :=
  match s with "" => true | String c s' => is_digit c && all_digits s' end.

(** Value of a digit string read after a prefix of value [acc]. *)
Fixpoint undec (acc : Z) (s : string) : Z :=
  match s with "" => acc | String c s' => undec (acc * 10 + digit_val c) s' end.

Lemma all_digits_app a b : all_digits (a ++ b) = all_digits a && all_digits b.
Proof. induction a; simpl; [done|]. by rewrite IHa, andb_assoc. Qed.

Lemma undec_app acc a b : undec acc (a ++ b) = undec (undec acc a) b.
Proof. revert acc. induction a; simpl; auto. Qed.

Lemma undec_acc acc s : undec acc s = (acc * 10 ^ Z.of_nat (String.length s) + undec 0 s)%Z.
Proof.
  revert acc. induction s as [|c s IH]; intros acc; cbn [undec String.length].
  - rewrite Z.mul_1_r. lia.
  - rewrite (IH (acc * 10 + _)%Z), (IH (0 * 10 + _)%Z), Nat2Z.inj_succ, Z.pow_succ_r by lia. lia.
Qed.

Lemma all_digits_no_char c s :
  all_digits s = true -> is_digit c = false -> no_char c s = true.
Proof.
  intros H Hc. induction s as [|x s IH]; simpl in *; [done|].
  apply andb_true_iff in H as [Hx Hs]. rewrite IH by done.
  destruct (Ascii.eqb_spec x c); [congruence|done].
Qed.

(** ** Decimal printing *)

(** Digits of [n], most significant first, in front of [acc]. *)
Fixpoint dec_aux (fuel : nat) (n : Z) (acc : string) : string :=
  match fuel with
  | O => acc
  | S f =>
      let acc' := String (digit (n mod 10)%Z) acc in
      if (n <? 10)%Z then acc' else dec_aux f (n / 10)%Z acc'
  end.

(** Fuel: a number has at most as many decimal as binary digits. *)
Definition dec (n : Z) : string := dec_aux (S (Z.to_nat (Z.log2 n))) n "".

(** The [w] low decimal digits of [n], zero padded. *)
Fixpoint padw (w : nat) (n : Z) (acc : string) : string :=
  match w with
  | O => acc
  | S w' => padw w' (n / 10)%Z (String (digit (n mod 10)%Z) acc)
  end.

Definition Itoa (z : Z) : string :=
  if (z <? 0)%Z then "-" ++ dec (- z) else dec z.

Lemma undec_dec_aux fuel n acc :
  (0 <= n < 2 ^ Z.of_nat fuel)%Z ->
  undec 0 (dec_aux fuel n acc) = undec n acc.
Proof.
  revert n acc. induction fuel as [|f IH]; intros n acc Hn.
  { simpl in *. assert (n = 0)%Z as -> by lia. done. }
  cbn [dec_aux]. assert (0 <= n mod 10 < 10)%Z by (apply Z.mod_pos_bound; lia).
  destruct (Z.ltb_spec n 10) as [Hlt|Hge].
  - cbn [undec]. rewrite digit_val_digit by done. rewrite Z.mod_small by lia. f_equal; lia.
  - rewrite IH.
    + cbn [undec]. rewrite digit_val_digit by done. f_equal.
      pose proof (Z.div_mod n 10). lia.
    + rewrite Nat2Z.inj_succ, Z.pow_succ_r in Hn by lia.
      split; [apply Z.div_pos; lia|]. apply Z.div_lt_upper_bound; lia.
Qed.

Lemma all_digits_dec_aux fuel n acc :
  all_digits acc = true -> all_digits (dec_aux fuel n acc) = true.
Proof.
  revert n acc. induction fuel as [|f IH]; intros n acc Ha; cbn [dec_aux]; [done|].
  assert (0 <= n mod 10 < 10)%Z by (apply Z.mod_pos_bound; lia).
  assert (all_digits (String (digit (n mod 10)) acc) = true).
  { cbn [all_digits]. by rewrite is_digit_digit, Ha. }
  destruct (n <? 10)%Z; auto.
Qed.

Lemma undec_dec n : (0 <= n)%Z -> undec 0 (dec n) = n.
Proof.
  intros Hn. unfold dec. rewrite undec_dec_aux; [done|].
  rewrite Nat2Z.inj_succ, Z2Nat.id by apply Z.log2_nonneg.
  split; [done|]. destruct (Z.eq_dec n 0%Z) as [->|]; [done|].
  apply Z.log2_spec; lia.
Qed.

Lemma all_digits_dec n : all_digits (dec n) = true.
Proof. by apply all_digits_dec_aux. Qed.

Lemma dec_nonempty n : dec n <> "".
Proof.
  assert (forall f m c a, dec_aux f m (String c a) <> "") as Haux.
  { intros f. induction f; intros m c a; cbn [dec_aux]; [done|].
    destruct (m <? 10)%Z; [done|apply IHf]. }
  unfold dec. cbn [dec_aux]. destruct (n <? 10)%Z; [done|apply Haux].
Qed.

Lemma all_digits_padw w n acc :
  all_digits acc = true -> all_digits (padw w n acc) = true.
Proof.
  revert n acc. induction w as [|w IH]; intros n acc Ha; simpl; [done|].
  apply IH. cbn [all_digits]. rewrite is_digit_digit, Ha; [done|].
  apply Z.mod_pos_bound; lia.
Qed.

Lemma undec_padw w n acc :
  (0 <= n < 10 ^ Z.of_nat w)%Z -> undec 0 (padw w n acc) = undec n acc.
Proof.
  revert n acc. induction w as [|w IH]; intros n acc Hn.
  { simpl in *. f_equal. lia. }
  cbn [padw]. rewrite IH.
  - cbn [undec]. rewrite digit_val_digit by (apply Z.mod_pos_bound; lia). f_equal.
    pose proof (Z.div_mod n 10). lia.
  - rewrite Nat2Z.inj_succ, Z.pow_succ_r in Hn by lia.
    split; [apply Z.div_pos; lia|]. apply Z.div_lt_upper_bound; lia.
Qed.

Lemma padw_app w n acc : padw w n acc = padw w n "" ++ acc.
Proof.
  revert n acc. induction w as [|w IH]; intros n acc; [done|].
  cbn [padw]. rewrite IH, (IH _ (String _ "")). by rewrite app_string_assoc.
Qed.

Lemma padw_length w n acc :
  String.length (padw w n acc) = (w + String.length acc)%nat.
Proof.
  revert n acc. induction w as [|w IH]; intros n acc; [done|].
  cbn [padw]. rewrite IH. simpl. lia.
Qed.

#[export] Hint Resolve all_digits_dec all_digits_padw : crane.

(** ** [strconv.ParseBool] *)

Definition ParseBool (s : string) : result bool :=
  if existsb (String.eqb s) ["1"; "t"; "T"; "TRUE"; "true"; "True"] then Ok true
  else if existsb (String.eqb s) ["0"; "f"; "F"; "FALSE"; "false"; "False"] then Ok false
  else Err (NumError s false).

Example split_ex : split "," "0.65000,2022-01-01T00:00:00Z" = ["0.65000"; "2022-01-01T00:00:00Z"].
Proof. reflexivity. Qed.

Example itoa_ex : (Itoa 120, Itoa 0, Itoa (-7)) = ("120", "0", "-7").
Proof. reflexivity. Qed.

(** ** Byte order on strings *)

(** [a <= b] is [String.ltb b a = false]. *)
Lemma string_ltb_asym a b : String.ltb a b = true -> String.ltb b a = false.
Proof.
  unfold String.ltb. rewrite (String.compare_antisym b a). by destruct (String.compare a b).
Qed.

Lemma string_le_trans a b c :
  String.ltb b a = false -> String.ltb c b = false -> String.ltb c a = false.
Proof.
  unfold String.ltb. revert b c. induction a as [|x a IH]; intros [|y b] [|z c]; try done.
  specialize (IH b c). cbn [String.compare]. unfold Ascii.compare.
  destruct (N.compare_spec (N_of_ascii y) (N_of_ascii x)),
    (N.compare_spec (N_of_ascii z) (N_of_ascii y)),
    (N.compare_spec (N_of_ascii z) (N_of_ascii x)); try done; intros; try lia; by apply IH.
Qed.

(** ** Characters a string literal cannot hold *)

Definition dq : string := String "034" "".
Definition nl : string := String "010" "".
Definition tab : string := String "009" "".
