(* ===== verification/GoFloat.v ===== *)
(** * Go [float64]

    The IEEE 754 binary64 arithmetic of Go is the Standard Library's [SpecFloat] at precision
    53 and exponent bound 1024: [fadd], [fsub], [fmul], [fdiv] are the correctly rounded
    operations, [fltb] and [feqb] the comparisons (false on NaN). [f64_of_Z] is the conversion
    [float64(n)]; [int_of_f64] the conversion [int64(x)], whose result outside [int64] the
    language leaves to the implementation: a parameter [oob]. [ParseFloat] is
    [strconv.ParseFloat(s, 64)] and [FormatFloat5] is [strconv.FormatFloat(x, 'f', 5, 64)],
    which [fmt.Sprintf("%.5f", x)] prints as well. *)

From Stdlib Require Export SpecFloat.
From S2P Require Import Prelude GoStrings.

Open Scope string_scope.
Open Scope Z_scope.

Abbreviation f64 := spec_float.

Definition prec : Z := 53.
Definition emax : Z := 1024.

Definition fadd : f64 -> f64 -> f64 := SFadd prec emax.
Definition fsub : f64 -> f64 -> f64 := SFsub prec emax.
Definition fmul : f64 -> f64 -> f64 := SFmul prec emax.
Definition fdiv : f64 -> f64 -> f64 := SFdiv prec emax.
Definition fltb : f64 -> f64 -> bool := SFltb.
Definition feqb : f64 -> f64 -> bool := SFeqb.
Definition f64_of_Z (n : Z) : f64 := binary_normalize prec emax n 0 false.
Definition f64_zero : f64 := S754_zero false.

Definition is_nan (x : f64) : bool := match x with S754_nan => true | _ => false end.
Definition is_inf (x : f64) : bool := match x with S754_infinity _ => true | _ => false end.

#[global] Instance f64_eq_dec : EqDecision f64.
Proof. intros x y. unfold Decision. decide equality; solve [apply bool_eq_dec | apply Pos.eq_dec
    | apply Z.eq_dec]. Defined.

(** ** Conversion to an integer *)

(** Truncation towards zero of a finite value. *)
Definition f64_trunc (x : f64) : option Z :=
  match x with
  | S754_zero _ => Some 0
  | S754_finite s m e =>
      let a := if 0 <=? e then Zpos m * 2 ^ e else Zpos m / 2 ^ (- e) in
      Some (if s then - a else a)
  | _ => None
  end.

(** [int64(x)] / [int(x)]: [oob x] is what the target produces for NaN, infinities and values
    out of range. *)
Definition int_of_f64 (oob : f64 -> Z) (x : f64) : Z :=
  match f64_trunc x with
  | Some z => if int64_in z then z else wrap64 (oob x)
  | None => wrap64 (oob x)
  end.

Lemma int_of_f64_range oob x : int64_min <= int_of_f64 oob x <= int64_max.
Proof.
  unfold int_of_f64. destruct (f64_trunc x) as [z|]; [|apply wrap64_range].
  destruct (int64_in z) eqn:E; [|apply wrap64_range].
  unfold int64_in in E. breflect. done.
Qed.

(** ** Parsing *)

(** Result of reading a mantissa: its digits as an integer, how many of them are after the
    point, whether there was a digit, whether there was an underscore, the rest. *)
Record mantissa := {
  man_val : Z; man_frac : Z; man_digits : bool; man_under : bool; man_rest : string }.

Definition is_hex_letter (c : ascii) : bool := (97 <=? lower c) && (lower c <=? 102).

Fixpoint scan_mant (hex : bool) (s : string) (m frac : Z) (sawdot sawdigits us : bool)
    : mantissa :=
  let base := if hex then 16 else 10 in
  match s with
  | "" => {| man_val := m; man_frac := frac; man_digits := sawdigits; man_under := us;
             man_rest := "" |}
  | String c s' =>
      let frac' := if sawdot then frac + 1 else frac in
      if Ascii.eqb c "_" then scan_mant hex s' m frac sawdot sawdigits true
      else if Ascii.eqb c "." && negb sawdot then scan_mant hex s' m frac true sawdigits us
      else if is_digit c then
        scan_mant hex s' (m * base + digit_val c) frac' sawdot true us
      else if hex && is_hex_letter c then
        scan_mant hex s' (m * base + (lower c - 97 + 10)) frac' sawdot true us
      else {| man_val := m; man_frac := frac; man_digits := sawdigits; man_under := us;
              man_rest := s |}
  end.

(** Digits and underscores of an exponent; the accumulator stops growing at 10000. *)
Fixpoint scan_exp (s : string) (e : Z) (us : bool) : Z * bool * string :=
  match s with
  | "" => (e, us, "")
  | String c s' =>
      if Ascii.eqb c "_" then scan_exp s' e true
      else if is_digit c then
        scan_exp s' (if e <? 10000 then e * 10 + digit_val c else e) us
      else (e, us, s)
  end.

Fixpoint underscore_scan (hex : bool) (saw : ascii) (s : string) : bool :=
  match s with
  | "" => negb (Ascii.eqb saw "_")
  | String c s' =>
      if is_digit c || (hex && is_hex_letter c) then underscore_scan hex "0" s'
      else if Ascii.eqb c "_" then
        if Ascii.eqb saw "0" then underscore_scan hex "_" s' else false
      else if Ascii.eqb saw "_" then false
      else underscore_scan hex "!" s'
  end.

Definition drop_sign (s : string) : bool * string :=
  match s with
  | String c s' =>
      if Ascii.eqb c "-" then (true, s') else if Ascii.eqb c "+" then (false, s') else (false, s)
  | "" => (false, "")
  end.

Definition underscoreOK (s : string) : bool :=
  let s1 := snd (drop_sign s) in
  match s1 with
  | String z (String x s2) =>
      if Ascii.eqb z "0" && (is_lower x 98 || is_lower x 111 || is_lower x 120)
      then underscore_scan (is_lower x 120) "0" s2
      else underscore_scan false "^" s1
  | _ => underscore_scan false "^" s1
  end.

(** The optional exponent: [None] when it is malformed, or missing in a hexadecimal number. *)
Definition read_exp (hex : bool) (s : string) (us : bool) : option (Z * bool * string) :=
  match s with
  | String c s1 =>
      if is_lower c (if hex then 112 else 101) then
        let '(neg, s2) := drop_sign s1 in
        match s2 with
        | String d _ =>
            if is_digit d then
              let '(e, us', rest) := scan_exp s2 0 us in
              Some (if neg then - e else e, us', rest)
            else None
        | "" => None
        end
      else if hex then None else Some (0, us, s)
  | "" => if hex then None else Some (0, us, s)
  end.

(** Value [(-1)^neg * m * 10^k], correctly rounded. *)
Definition dec_to_f64 (neg : bool) (m k : Z) : f64 :=
  match m with
  | Zpos p =>
      if 0 <=? k then binary_normalize prec emax ((if neg then -1 else 1) * (m * 10 ^ k)) 0 neg
      else
        let '(mz, ez, lz) := SFdiv_core_binary prec emax m 0 (10 ^ (- k)) 0 in
        binary_round_aux prec emax neg mz ez lz
  | _ => S754_zero neg
  end.

Definition hex_to_f64 (neg : bool) (m k : Z) : f64 :=
  match m with
  | Zpos p => binary_round prec emax neg p k
  | _ => S754_zero neg
  end.

(** [strconv]'s [readFloat] on the whole string: [None] is a syntax error. *)
Definition read_float (s : string) : option f64 :=
  let '(neg, s1) := drop_sign s in
  let '(hex, s2) :=
    match s1 with
    | String z (String x (String y r)) =>
        if Ascii.eqb z "0" && is_lower x 120 then (true, String y r) else (false, s1)
    | _ => (false, s1)
    end in
  let mt := scan_mant hex s2 0 0 false false false in
  if negb (man_digits mt) then None else
  match read_exp hex (man_rest mt) (man_under mt) with
  | Some (e, us, "") =>
      if us && negb (underscoreOK s) then None
      else Some (if hex then hex_to_f64 neg (man_val mt) (e - 4 * man_frac mt)
                 else dec_to_f64 neg (man_val mt) (e - man_frac mt))
  | _ => None
  end.

Fixpoint lower_eq (s : string) (p : list Z) : bool :=
  match s, p with
  | "", [] => true
  | String c s', l :: p' => is_lower c l && lower_eq s' p'
  | _, _ => false
  end.

(** [strconv]'s [special]: infinities with an optional sign, NaN without. *)
Definition special (s : string) : option f64 :=
  let '(neg, s1) := drop_sign s in
  if lower_eq s1 [105; 110; 102] || lower_eq s1 [105; 110; 102; 105; 110; 105; 116; 121]
  then Some (S754_infinity neg)
  else if lower_eq s [110; 97; 110] then Some S754_nan
  else None.

Definition ParseFloat (s : string) : result f64 :=
  match special s with
  | Some x => Ok x
  | None =>
      match read_float s with
      | Some x => if is_inf x then Err (NumError s true) else Ok x
      | None => Err (NumError s false)
      end
  end.

(** ** Formatting with five decimals *)

(** Rounding of [m * 2^e * 10^5] to an integer, ties to even. *)
Definition scaled5 (m : positive) (e : Z) : Z :=
  if 0 <=? e then Zpos m * 2 ^ e * 100000
  else
    let n := Zpos m * 100000 in
    let d := 2 ^ (- e) in
    let q := n / d in
    let r := n mod d in
    if 2 * r <? d then q
    else if d <? 2 * r then q + 1
    else if Z.even q then q else q + 1.

Definition print5 (neg : bool) (n : Z) : string :=
  (if neg then "-" else "") ++ dec (n / 100000) ++ String "." (padw 5 (n mod 100000) "").

Definition FormatFloat5 (x : f64) : string :=
  match x with
  | S754_nan => "NaN"
  | S754_infinity s => if s then "-Inf" else "+Inf"
  | S754_zero s => print5 s 0
  | S754_finite s m e => print5 s (scaled5 m e)
  end.

Example parse_ex :
  List.map ParseFloat ["0.65000"; "1e400"; "abc"; "1_0.5"; "0x1p-2"; "-Inf"; ""]
  = [Ok (S754_finite false 5854679515581645 (-53)); Err (NumError "1e400" true);
     Err (NumError "abc" false); Ok (S754_finite false 5910974510923776 (-49));
     Ok (S754_finite false 4503599627370496 (-54)); Ok (S754_infinity true);
     Err (NumError "" false)].
Proof. vm_compute. reflexivity. Qed.

Example format_ex :
  List.map FormatFloat5 [dec_to_f64 false 65 (-2); dec_to_f64 true 1234567 (-6);
                         f64_of_Z 100; S754_zero true; dec_to_f64 false 5 (-6)]
  = ["0.65000"; "-1.23457"; "100.00000"; "-0.00000"; "0.00001"].
Proof. vm_compute. reflexivity. Qed.

(** ** What a formatted value parses to *)

(** Characters of a printed number: digits and the point. *)
Definition num_char (c : ascii) : bool := is_digit c || Ascii.eqb c ".".

Fixpoint all_num (s : string) : bool :=
  match s with "" => true | String c s' => num_char c && all_num s' end.

Lemma num_char_not (c d : ascii) :
  num_char c = true -> num_char d = false -> Ascii.eqb c d = false.
Proof. intros. apply Ascii.eqb_neq. congruence. Qed.

Lemma lor_digit d : 0 <= d < 10 -> Z.lor (48 + d) 32 = 48 + d.
Proof. revert d. by apply digit_cases. Qed.

Lemma num_char_not_letter c l : num_char c = true -> 96 <= l -> is_lower c l = false.
Proof.
  intros H Hl. unfold num_char, is_digit in H. unfold is_lower. apply Z.eqb_neq.
  apply orb_true_iff in H as [H|H].
  - breflect. unfold lower. replace (code c) with (48 + (code c - 48)) by lia.
    rewrite lor_digit; lia.
  - apply Ascii.eqb_eq in H as ->. change (46 <> l). lia.
Qed.

Lemma all_digits_all_num s : all_digits s = true -> all_num s = true.
Proof.
  induction s as [|c s IH]; simpl; [done|]. intros [Hc Hs]%andb_true_iff.
  unfold num_char. by rewrite Hc, IH.
Qed.

Lemma all_num_app a b : all_num (a ++ b) = all_num a && all_num b.
Proof. induction a; simpl; [done|]. by rewrite IHa, andb_assoc. Qed.

Lemma all_num_no_char c s : num_char c = false -> all_num s = true -> no_char c s = true.
Proof.
  intros Hc. induction s as [|x s IH]; simpl; [done|]. intros [Hx Hs]%andb_true_iff.
  by rewrite num_char_not, IH.
Qed.

Lemma scan_mant_digits a r m frac dot sd us :
  all_digits a = true ->
  scan_mant false (a ++ r) m frac dot sd us
  = scan_mant false r (undec m a) (if dot then frac + Z.of_nat (String.length a) else frac)
      dot (sd || negb (String.eqb a "")) us.
Proof.
  revert m frac sd. induction a as [|c a IH]; intros m frac sd Ha.
  { simpl. f_equal; [destruct dot; lia | by rewrite orb_false_r]. }
  simpl in Ha. apply andb_true_iff in Ha as [Hc Ha].
  assert (num_char c = true) as Hn by (unfold num_char; by rewrite Hc).
  cbn [append scan_mant undec]. rewrite (num_char_not c "_") by done.
  assert (Ascii.eqb c "." = false) as -> by (apply Ascii.eqb_neq; intros ->; done).
  rewrite Hc. cbn [andb]. rewrite IH by done. f_equal.
  - destruct dot; [cbn [String.length]; lia|done].
  - by destruct sd.
Qed.

Lemma scan_mant_decimal I F :
  all_digits I = true -> I <> "" -> all_digits F = true ->
  scan_mant false (I ++ String "." F) 0 0 false false false
  = {| man_val := undec (undec 0 I) F; man_frac := Z.of_nat (String.length F);
       man_digits := true; man_under := false; man_rest := "" |}.
Proof.
  intros HI HI0 HF. rewrite scan_mant_digits by done.
  assert (String.eqb I "" = false) as -> by (by apply String.eqb_neq).
  change (scan_mant false F (undec 0 I) 0 true true false
    = {| man_val := undec (undec 0 I) F; man_frac := Z.of_nat (String.length F);
       man_digits := true; man_under := false; man_rest := "" |}).
  rewrite <- (app_string_nil_r F) at 1. rewrite scan_mant_digits by done. done.
Qed.

Definition numeric_head (s : string) : bool :=
  match s with String c _ => num_char c | "" => false end.

Lemma drop_sign_num s : numeric_head s = true -> drop_sign s = (false, s).
Proof.
  destruct s as [|c s]; [done|]. simpl. intros Hc. by rewrite !num_char_not.
Qed.

Lemma special_num (neg : bool) s :
  numeric_head s = true -> special ((if neg then "-" else "") ++ s) = None.
Proof.
  intros Hs. unfold special.
  assert (drop_sign ((if neg then "-" else "") ++ s) = (neg, s)) as ->.
  { destruct neg; simpl; [done|by apply drop_sign_num]. }
  destruct s as [|c s]; [done|]. simpl in Hs. cbn [lower_eq].
  rewrite (num_char_not_letter c 105) by (done || lia). simpl.
  destruct neg; simpl; [done|].
  rewrite (num_char_not_letter c 110) by (done || lia). done.
Qed.

(** A plain decimal [I.F] reads as the integer of its digits scaled by its fraction length. *)
Lemma read_float_decimal (neg : bool) I F :
  all_digits I = true -> I <> "" -> all_digits F = true ->
  read_float ((if neg then "-" else "") ++ I ++ String "." F)
  = Some (dec_to_f64 neg (undec (undec 0 I) F) (- Z.of_nat (String.length F))).
Proof.
  intros HI HI0 HF. unfold read_float.
  assert (numeric_head (I ++ String "." F) = true) as Hh.
  { destruct I as [|c I]; [done|]. simpl in *. unfold num_char.
    by apply andb_true_iff in HI as [-> _]. }
  assert (drop_sign ((if neg then "-" else "") ++ I ++ String "." F)
          = (neg, I ++ String "." F)) as ->.
  { destruct neg; simpl; [done|by apply drop_sign_num]. }
  assert (all_num (I ++ String "." F) = true) as Hall.
  { rewrite all_num_app, all_digits_all_num by done. simpl. by apply all_digits_all_num. }
  assert (match I ++ String "." F with
          | String z (String x (String y r)) =>
              if Ascii.eqb z "0" && is_lower x 120 then (true, String y r)
              else (false, I ++ String "." F)
          | _ => (false, I ++ String "." F)
          end = (false, I ++ String "." F)) as ->.
  { revert Hall. generalize (I ++ String "." F).
    intros [|z [|x [|y r]]] Hz; try done. cbn [all_num] in Hz. breflect.
    rewrite (num_char_not_letter x 120) by (done || lia). by rewrite andb_false_r. }
  rewrite scan_mant_decimal by done. done.
Qed.

Lemma ParseFloat_print5 neg n :
  0 <= n ->
  let x := dec_to_f64 neg n (-5) in
  ParseFloat (print5 neg n) = if is_inf x then Err (NumError (print5 neg n) true) else Ok x.
Proof.
  intros Hn x. unfold ParseFloat, print5.
  assert (0 <= n mod 100000 < 10 ^ Z.of_nat 5) by (apply Z.mod_pos_bound; lia).
  assert (0 <= n / 100000) by (apply Z.div_pos; lia).
  rewrite special_num.
  2:{ pose proof (dec_nonempty (n / 100000)). pose proof (all_digits_dec (n / 100000)) as Hd.
      destruct (dec (n / 100000)) as [|c s]; [done|]. simpl in *. unfold num_char.
      by apply andb_true_iff in Hd as [-> _]. }
  rewrite read_float_decimal by auto using all_digits_dec, dec_nonempty, all_digits_padw.
  rewrite undec_dec by done. rewrite padw_length.
  rewrite undec_acc, undec_padw, padw_length by done. cbn [undec String.length].
  replace (n / 100000 * 10 ^ Z.of_nat (5 + 0) + n mod 100000) with n; [done|].
  pose proof (Z.div_mod n 100000). lia.
Qed.

(** ** Signs *)

Lemma binary_round_aux_sign sx m e l :
  match binary_round_aux prec emax sx m e l with
  | S754_zero s | S754_infinity s | S754_finite s _ _ => s = sx
  | S754_nan => True
  end.
Proof.
  unfold binary_round_aux.
  destruct (shr_fexp prec emax m e l) as [mrs e1].
  destruct (shr_fexp prec emax _ e1 loc_Exact) as [mrs' e2].
  destruct (shr_m mrs'); try done. by destruct (_ <=? _)%Z.
Qed.

Lemma binary_round_sign sx m e :
  match binary_round prec emax sx m e with
  | S754_zero s | S754_infinity s | S754_finite s _ _ => s = sx
  | S754_nan => True
  end.
Proof.
  unfold binary_round. destruct (shl_align _ _ _) as [mz ez]. apply binary_round_aux_sign.
Qed.

Lemma dec_to_f64_nonneg m k : fltb (dec_to_f64 false m k) f64_zero = false.
Proof.
  unfold dec_to_f64. destruct m as [|p|p]; try done.
  destruct (0 <=? k) eqn:Hk.
  - breflect. assert (0 < 1 * (Z.pos p * 10 ^ k)) as Hpos by (pose proof (Z.pow_pos_nonneg 10 k); nia).
    destruct (1 * (Z.pos p * 10 ^ k)) as [|q|q] eqn:Hq; try lia.
    cbn [binary_normalize]. pose proof (binary_round_sign false q 0) as Hs.
    by destruct (binary_round prec emax false q 0) as [[]|[]| |[] ? ?].
  - destruct (SFdiv_core_binary _ _ _ _ _ _) as [[mz ez] lz].
    pose proof (binary_round_aux_sign false mz ez lz) as Hs.
    by destruct (binary_round_aux prec emax false mz ez lz) as [[]|[]| |[] ? ?].
Qed.

Lemma scaled5_nonneg m e : 0 <= scaled5 m e.
Proof.
  unfold scaled5. destruct (0 <=? e) eqn:He; breflect.
  { pose proof (Z.pow_pos_nonneg 2 e). nia. }
  pose proof (Z.pow_pos_nonneg 2 (- e)).
  assert (0 <= Z.pos m * 100000 / 2 ^ (- e)) by (apply Z.div_pos; lia).
  repeat case_match; lia.
Qed.

(** A formatted number never contains a separator of the annotation format. *)
Lemma FormatFloat5_no_char c x :
  is_digit c = false -> no_char c "-+.NaInf" = true -> no_char c (FormatFloat5 x) = true.
Proof.
  intros Hd Hc. cbn [no_char] in Hc. rewrite !andb_true_iff in Hc.
  destruct Hc as (H1 & H2 & H3 & H4 & H5 & H6 & H7 & H8 & _).
  assert (forall neg n, no_char c (print5 neg n) = true) as Hp.
  { intros neg n. unfold print5. rewrite !no_char_app. cbn [no_char]. rewrite H3.
    rewrite (all_digits_no_char c (dec _)), (all_digits_no_char c (padw _ _ _))
      by auto using all_digits_dec, all_digits_padw.
    destruct neg; cbn [no_char]; [by rewrite H1|done]. }
  destruct x as [s|[]| |s m e]; cbn [FormatFloat5 no_char]; auto;
    by rewrite ?H1, ?H2, ?H4, ?H5, ?H6, ?H7, ?H8.
Qed.

#[export] Hint Resolve dec_to_f64_nonneg scaled5_nonneg : crane.

(** ** Five-decimal rounding *)

(** The value a formatted float denotes: rounded to five decimals, then to a float. *)
Definition round5 (x : f64) : f64 :=
  match x with
  | S754_finite s m e => dec_to_f64 s (scaled5 m e) (-5)
  | _ => x
  end.

Lemma ParseFloat_FormatFloat5 x :
  is_inf (round5 x) = is_inf x -> ParseFloat (FormatFloat5 x) = Ok (round5 x).
Proof.
  destruct x as [s|[]| |s m e]; cbn [FormatFloat5 round5]; intros Hi; try reflexivity.
  - rewrite ParseFloat_print5 by done. done.
  - rewrite ParseFloat_print5 by apply scaled5_nonneg. simpl in Hi. by rewrite Hi.
Qed.

Lemma round5_nonneg x : fltb x f64_zero = false -> fltb (round5 x) f64_zero = false.
Proof.
  destruct x as [s|s| |[] m e]; try done. intros _. apply dec_to_f64_nonneg.
Qed.

#[export] Hint Resolve round5_nonneg : crane.

(** ** Integers below 2^53 are exact *)

Lemma digits2_pos_lower p : 2 ^ (Zpos (digits2_pos p) - 1) <= Zpos p.
Proof.
  induction p as [p IH|p IH|]; cbn [digits2_pos]; [| |done];
    rewrite Pos2Z.inj_succ; replace (Z.succ (Z.pos (digits2_pos p)) - 1)
      with (Z.succ (Z.pos (digits2_pos p) - 1)) by lia; rewrite Z.pow_succ_r by lia; lia.
Qed.

Lemma iter_xO_val p n : Zpos (Pos.iter xO p n) = Zpos p * 2 ^ Zpos n.
Proof.
  induction n as [|n IH] using Pos.peano_ind.
  - simpl. lia.
  - rewrite Pos.iter_succ, Pos2Z.inj_succ, Z.pow_succ_r by lia.
    rewrite Pos2Z.inj_xO, IH. lia.
Qed.

Lemma iter_xO_digits p n : Zpos (digits2_pos (Pos.iter xO p n)) = Zpos (digits2_pos p) + Zpos n.
Proof.
  induction n as [|n IH] using Pos.peano_ind.
  - simpl. lia.
  - rewrite Pos.iter_succ. cbn [digits2_pos]. lia.
Qed.

(** A 53-bit mantissa with a small exponent is already rounded. *)
Lemma binary_round_aux_exact s m e :
  Zpos (digits2_pos m) = 53 -> -1074 <= e <= 971 ->
  binary_round_aux prec emax s (Zpos m) e loc_Exact = S754_finite s m e.
Proof.
  intros Hd He. unfold binary_round_aux, shr_fexp. cbn [Zdigits2 shr_record_of_loc].
  assert (fexp prec emax (Z.pos (digits2_pos m) + e) - e = 0) as ->.
  { rewrite Hd. unfold fexp, emin, prec, emax. lia. }
  cbn [shr shr_m loc_of_shr_record round_nearest_even Zdigits2].
  assert (fexp prec emax (Z.pos (digits2_pos m) + e) - e = 0) as ->.
  { rewrite Hd. unfold fexp, emin, prec, emax. lia. }
  cbn [shr shr_m].
  destruct (Z.leb_spec e (emax - prec)); [done|unfold emax, prec in *; lia].
Qed.

Lemma binary_round_trunc s p :
  Zpos p < 2 ^ 53 ->
  f64_trunc (binary_round prec emax s p 0) = Some (if s then - Zpos p else Zpos p).
Proof.
  intros Hp. pose proof (digits2_pos_lower p) as Hl. set (d := Zpos (digits2_pos p)) in *.
  assert (1 <= d <= 53) as Hd.
  { split; [lia|]. apply Z.nlt_ge. intros Hgt.
    pose proof (Z.pow_le_mono_r 2 53 (d - 1)). lia. }
  unfold binary_round. rewrite Z.add_0_r. fold d.
  assert (fexp prec emax d = d - 53) as -> by (unfold fexp, emin, prec, emax; lia).
  unfold shl_align. replace (d - 53 - 0) with (d - 53) by lia.
  destruct (d - 53) as [|n|n] eqn:En; [| lia |].
  - rewrite binary_round_aux_exact by (fold d; lia).
    unfold f64_trunc. cbn [Z.leb Z.compare]. rewrite Z.mul_1_r. done.
  - rewrite binary_round_aux_exact by (rewrite ?iter_xO_digits; fold d; lia).
    unfold f64_trunc. destruct (Z.leb_spec 0 (Z.neg n)); [lia|].
    rewrite iter_xO_val. change (- Z.neg n) with (Z.pos n).
    rewrite Z.div_mul by (pose proof (Z.pow_pos_nonneg 2 (Z.pos n)); lia). done.
Qed.

Lemma f64_of_Z_trunc n : Z.abs n < 2 ^ 53 -> f64_trunc (f64_of_Z n) = Some n.
Proof.
  intros H. unfold f64_of_Z. destruct n as [|p|p]; cbn [binary_normalize].
  - done.
  - by rewrite binary_round_trunc.
  - by rewrite binary_round_trunc.
Qed.

Lemma fadd_zero_r x : (x = f64_zero \/ exists s m e, x = S754_finite s m e) -> fadd x f64_zero = x.
Proof. intros [->|(s & m & e & ->)]; done. Qed.

Lemma f64_of_Z_finite n :
  Z.abs n < 2 ^ 53 -> f64_of_Z n = f64_zero \/ exists s m e, f64_of_Z n = S754_finite s m e.
Proof.
  intros H. pose proof (f64_of_Z_trunc n H) as Ht.
  destruct n as [|p|p]; [by left| |]; right; unfold f64_of_Z in *; cbn [binary_normalize] in *;
    destruct (binary_round prec emax _ p 0); naive_solver lia.
Qed.
