(* ===== verification/GoFloatOrder.v ===== *)
(** * The order of float64 and its operations

    Rounding is monotone: [fadd], [fsub], [fmul] by a weight that is not negative and [fdiv] by a
    positive one preserve the order of valid floats, and so does the truncation to an integer.
    [fval] is the value of a float in units of [2 ^ -scale], with the infinities beyond the
    largest finite value; [near N D x] says that [x] is the float nearest to the non-negative
    rational [N / D] units, without the rule for ties, which monotonicity does not need. *)

From S2P Require Import Prelude GoFloat.

Open Scope Z_scope.

(** More binary places than any exact result of an operation has. *)
Definition scale : Z := 3200.
#[global] Opaque scale.

Lemma scale_big : 3200 <= scale.
Proof. by apply Z.leb_le. Qed.

(** [2 ^ e] in units of [2 ^ -scale]. *)
Definition pw (e : Z) : Z := 2 ^ (e + scale).

Lemma pw_pos e : - scale <= e -> 0 < pw e.
Proof. intros. apply Z.pow_pos_nonneg; lia. Qed.

Lemma pw_add e d : 0 <= d -> - scale <= e -> pw (e + d) = 2 ^ d * pw e.
Proof. intros. unfold pw. rewrite <- Z.pow_add_r by lia. f_equal. lia. Qed.

Lemma pw_succ e : - scale <= e -> pw (e + 1) = 2 * pw e.
Proof. intros. by rewrite pw_add. Qed.

Lemma pw_le e e' : e <= e' -> pw e <= pw e'.
Proof. intros. apply Z.pow_le_mono_r; lia. Qed.

(** ** Digits *)

Lemma digits2_pos_bounds p : 2 ^ (Zpos (digits2_pos p) - 1) <= Zpos p < 2 ^ Zpos (digits2_pos p).
Proof.
  split; [apply digits2_pos_lower|].
  induction p as [p IH|p IH|]; cbn [digits2_pos]; [| |done];
    rewrite Pos2Z.inj_succ, Z.pow_succ_r by lia; lia.
Qed.

(** A number of [d] digits below [2 ^ n] has at most [n] digits; one from [2 ^ n] on has more. *)
Lemma digits_upper p n : 0 <= n -> Zpos p < 2 ^ n -> Zpos (digits2_pos p) <= n.
Proof.
  intros Hn Hp. pose proof (digits2_pos_bounds p). apply Z.nlt_ge. intros Hlt.
  pose proof (Z.pow_le_mono_r 2 n (Zpos (digits2_pos p) - 1)). lia.
Qed.

Lemma digits_lower p n : 0 <= n -> 2 ^ n <= Zpos p -> n < Zpos (digits2_pos p).
Proof.
  intros Hn Hp. pose proof (digits2_pos_bounds p). apply Z.nle_gt. intros Hle.
  pose proof (Z.pow_le_mono_r 2 (Zpos (digits2_pos p)) n). lia.
Qed.

Lemma fexp_eq d : fexp prec emax d = Z.max (d - 53) (-1074).
Proof. reflexivity. Qed.

(** ** Shifting right keeps what is known of the exact value *)

(** The exact value [N / D] lies at [l] of the interval from [m * 2 ^ e] to [(m + 1) * 2 ^ e]. *)
Definition located (m e : Z) (l : location) (N D : Z) : Prop :=
  let g := pw e * D in
  match l with
  | loc_Exact => N = m * g
  | loc_Inexact Lt => m * g < N /\ 2 * N < (2 * m + 1) * g
  | loc_Inexact Eq => 2 * N = (2 * m + 1) * g
  | loc_Inexact Gt => (2 * m + 1) * g < 2 * N /\ N < (m + 1) * g
  end.

Lemma located_bounds m e l N D :
  0 < D -> - scale <= e -> located m e l N D -> m * (pw e * D) <= N < (m + 1) * (pw e * D).
Proof.
  intros HD He. pose proof (pw_pos e He). unfold located.
  assert (0 < pw e * D) by (by apply Z.mul_pos_pos). destruct l as [|[]]; lia.
Qed.

Lemma shr_1_half mrs : 0 <= shr_m mrs -> shr_m (shr_1 mrs) = shr_m mrs / 2.
Proof.
  destruct mrs as [[|[p|p|]|p] r s]; cbn [shr_1 shr_m]; intros Hm; [done| | |done|lia].
  - rewrite (Pos2Z.inj_xI p). apply Z.div_unique with 1; lia.
  - rewrite (Pos2Z.inj_xO p). apply Z.div_unique with 0; lia.
Qed.

Lemma shr_1_located mrs e N D :
  0 < D -> - scale <= e -> 0 <= shr_m mrs ->
  located (shr_m mrs) e (loc_of_shr_record mrs) N D ->
  located (shr_m (shr_1 mrs)) (e + 1) (loc_of_shr_record (shr_1 mrs)) N D.
Proof.
  intros HD He. pose proof (pw_pos e He). unfold located. rewrite pw_succ by done.
  set (g := pw e * D). assert (0 < g) by (by apply Z.mul_pos_pos).
  replace (2 * pw e * D) with (2 * g) by (unfold g; lia).
  destruct mrs as [[|[p|p|]|p] r s]; cbn [shr_1 shr_m]; intros Hm; [..|lia];
    rewrite ?(Pos2Z.inj_xI p), ?(Pos2Z.inj_xO p); destruct r, s; cbn; lia.
Qed.

Lemma iter_pos_nat {A} (f : A -> A) n x : iter_pos f n x = Nat.iter (Pos.to_nat n) f x.
Proof.
  revert x. induction n as [n IH|n IH|]; intros x; cbn [iter_pos]; [| |done].
  - rewrite !IH, Pos2Nat.inj_xI. replace (S (2 * Pos.to_nat n)) with (Pos.to_nat n + (Pos.to_nat n + 1))%nat
      by lia. rewrite !Nat.iter_add. done.
  - rewrite !IH, Pos2Nat.inj_xO. replace (2 * Pos.to_nat n)%nat with (Pos.to_nat n + Pos.to_nat n)%nat
      by lia. by rewrite Nat.iter_add.
Qed.

Lemma iter_shr_1 mrs i :
  0 <= shr_m mrs -> shr_m (Nat.iter i shr_1 mrs) = shr_m mrs / 2 ^ Z.of_nat i.
Proof.
  intros Hm. induction i as [|i IH]; [cbn [Nat.iter Z.of_nat]; by rewrite Z.pow_0_r, Z.div_1_r|].
  rewrite Nat.iter_succ, shr_1_half; rewrite IH; [|apply Z.div_pos; lia].
  rewrite Nat2Z.inj_succ, Z.pow_succ_r, Z.div_div by lia. f_equal. lia.
Qed.

Lemma shr_mantissa mrs e n :
  0 <= shr_m mrs -> 0 <= n ->
  (shr mrs e n).2 = e + n /\ shr_m (shr mrs e n).1 = shr_m mrs / 2 ^ n.
Proof.
  intros Hm Hn. destruct n as [|n|n]; [| |lia]; cbn [shr fst snd].
  - by rewrite Z.add_0_r, Z.pow_0_r, Z.div_1_r.
  - rewrite iter_pos_nat, iter_shr_1, positive_nat_Z by done. done.
Qed.

Lemma shr_located mrs e n N D :
  0 < D -> - scale <= e -> 0 <= shr_m mrs -> 0 <= n ->
  located (shr_m mrs) e (loc_of_shr_record mrs) N D ->
  located (shr_m (shr mrs e n).1) (e + n) (loc_of_shr_record (shr mrs e n).1) N D.
Proof.
  intros HD He Hm Hn Hl. destruct n as [|n|n]; [| |lia]; cbn [shr fst snd]; [by rewrite Z.add_0_r|].
  rewrite iter_pos_nat, <- (positive_nat_Z n). generalize (Pos.to_nat n) as i. clear n Hn. intros i.
  induction i as [|i IH]; [by rewrite Z.add_0_r|].
  rewrite Nat.iter_succ, Nat2Z.inj_succ. replace (e + Z.succ (Z.of_nat i)) with (e + Z.of_nat i + 1) by lia.
  apply shr_1_located; [done|lia| |done]. rewrite iter_shr_1 by done. apply Z.div_pos; lia.
Qed.

Lemma shr_record_located m e l N D :
  located m e l N D <->
  located (shr_m (shr_record_of_loc m l)) e (loc_of_shr_record (shr_record_of_loc m l)) N D.
Proof. by destruct l as [|[]]. Qed.

Lemma round_nearest_even_near m e l N D :
  0 < D -> - scale <= e -> located m e l N D ->
  let n := round_nearest_even m l in
  m <= n <= m + 1 /\ 2 * Z.abs (n * (pw e * D) - N) <= pw e * D.
Proof.
  intros HD He. pose proof (pw_pos e He). unfold located.
  assert (0 < pw e * D) by (by apply Z.mul_pos_pos).
  destruct l as [|[]]; cbn [round_nearest_even]; try destruct (Z.even m); lia.
Qed.

(** ** The nearest float *)

(** The magnitude of a float in units; infinity counts as [2 ^ 1024]. *)
Definition mag (x : f64) : Z :=
  match x with
  | S754_finite _ m e => Zpos m * pw e
  | S754_infinity _ => pw 1024
  | _ => 0
  end.

Definition sign_of (x : f64) : bool :=
  match x with
  | S754_zero s | S754_infinity s | S754_finite s _ _ => s
  | S754_nan => false
  end.

Definition fval (x : f64) : Z := if sign_of x then - mag x else mag x.

Definition valid (x : f64) : Prop := valid_binary prec emax x = true /\ is_nan x = false.

(** The grid at [N / D] has step [2 ^ k], and the value is the grid point [n] at most half a step
    away, cut off at [2 ^ 1024]. *)
Definition near (N D : Z) (x : f64) : Prop :=
  exists k n, -1074 <= k /\ 0 <= n /\
    2 * Z.abs (n * (pw k * D) - N) <= pw k * D /\ N < 2 ^ 53 * (pw k * D) /\
    (k = -1074 \/ 2 ^ 52 * (pw k * D) <= N) /\ mag x = Z.min (n * pw k) (pw 1024).

Lemma pw_step k D : -1074 <= k -> 0 < D -> 0 < pw k * D.
Proof. intros. pose proof scale_big. apply Z.mul_pos_pos; [apply pw_pos; lia|done]. Qed.

(** Rounding never leaves the binade upwards by more than its end. *)
Lemma near_end N D k n :
  0 < pw k * D -> 2 * Z.abs (n * (pw k * D) - N) <= pw k * D -> N < 2 ^ 53 * (pw k * D) ->
  n <= 2 ^ 53.
Proof.
  intros Hg Hn HN. apply Z.nlt_ge. intros Hlt.
  assert ((2 ^ 53 + 1) * (pw k * D) <= n * (pw k * D)) by (apply Z.mul_le_mono_nonneg_r; lia). lia.
Qed.

Lemma near_start N D k n :
  0 < pw k * D -> 2 * Z.abs (n * (pw k * D) - N) <= pw k * D -> 2 ^ 52 * (pw k * D) <= N ->
  2 ^ 52 <= n.
Proof.
  intros Hg Hn HN. apply Z.nlt_ge. intros Hlt.
  assert (n * (pw k * D) <= (2 ^ 52 - 1) * (pw k * D)) by (apply Z.mul_le_mono_nonneg_r; lia). lia.
Qed.

(** The nearest floats of two values are in the order of the values. *)
Lemma near_mono N D x N' D' x' :
  0 < D -> 0 < D' -> N * D' < N' * D -> near N D x -> near N' D' x' -> mag x <= mag x'.
Proof.
  intros HD HD' Hlt (k & n & Hk & Hn0 & Hn & Hu & Hl & ->) (k' & n' & Hk' & Hn0' & Hn' & Hu' & Hl' & ->).
  apply Z.min_le_compat_r. pose proof scale_big.
  pose proof (pw_step k D Hk HD) as Hg. pose proof (pw_step k' D' Hk' HD') as Hg'.
  pose proof (pw_pos k ltac:(lia)). pose proof (pw_pos k' ltac:(lia)).
  destruct (Z.lt_trichotomy k k') as [Hkk|[<-|Hkk]].
  - pose proof (near_end N D k n Hg Hn Hu) as Hend.
    destruct Hl' as [->|Hl']; [lia|]. pose proof (near_start N' D' k' n' Hg' Hn' Hl') as Hst.
    pose proof (pw_le (k + 1) k' ltac:(lia)) as Hp. rewrite pw_succ in Hp by lia. nia.
  - apply Z.mul_le_mono_nonneg_r; [lia|]. apply Z.nlt_ge. intros Hnn.
    assert ((n' + 1) * (pw k * D) <= n * (pw k * D)) by (apply Z.mul_le_mono_nonneg_r; lia).
    assert (2 * N' * D <= (2 * n' + 1) * pw k * D' * D) by nia.
    assert ((2 * n - 1) * pw k * D * D' <= 2 * N * D') by nia. nia.
  - exfalso. destruct Hl as [->|Hl]; [lia|].
    pose proof (pw_le (k' + 1) k ltac:(lia)) as Hp. rewrite pw_succ in Hp by lia.
    assert (N' * D < 2 ^ 53 * (pw k' * D') * D) by nia.
    assert (2 ^ 52 * (pw k * D) * D' <= N * D') by nia.
    assert (2 ^ 53 * pw k' * (D * D') <= 2 ^ 52 * pw k * (D * D')) by (apply Z.mul_le_mono_nonneg_r; nia).
    nia.
Qed.

(** ** Correct rounding *)

Lemma Zdigits2_nonneg m : 0 <= Zdigits2 m.
Proof. by destruct m. Qed.

Lemma Zdigits2_bounds m : 0 < m -> 2 ^ (Zdigits2 m - 1) <= m < 2 ^ Zdigits2 m.
Proof. destruct m; [done| |done]. intros _. apply digits2_pos_bounds. Qed.

(** The mantissa after the first shift: at most 53 digits, all of them unless subnormal. *)
Lemma shifted_mantissa m e k :
  0 <= m -> e <= k -> k = fexp prec emax (Zdigits2 m + e) ->
  m / 2 ^ (k - e) < 2 ^ 53 /\ (k = -1074 \/ 2 ^ 52 <= m / 2 ^ (k - e)).
Proof.
  intros Hm He Hk. rewrite fexp_eq in Hk.
  destruct (Z.eq_dec m 0) as [->|Hm0]; [cbn [Zdigits2] in Hk; rewrite Z.div_0_l by (apply Z.pow_nonzero; lia); lia|].
  pose proof (Zdigits2_bounds m ltac:(lia)) as [Hlo Hhi]. set (d := Zdigits2 m) in *.
  assert (1 <= d) as Hd by (destruct m; unfold d; simpl; lia).
  assert (0 < 2 ^ (k - e)) by (apply Z.pow_pos_nonneg; lia). split.
  - apply Z.div_lt_upper_bound; [done|]. rewrite <- Z.pow_add_r by lia.
    apply Z.lt_le_trans with (2 ^ d); [done|]. apply Z.pow_le_mono_r; lia.
  - destruct (Z.eq_dec k (-1074)); [by left|right]. apply Z.div_le_lower_bound; [done|].
    rewrite <- Z.pow_add_r by lia. replace (k - e + 52) with (d - 1) by lia. done.
Qed.

(** The second shift only undoes the carry of the rounding. *)
Lemma renormalize n k :
  0 < n <= 2 ^ 53 -> -1074 <= k -> (k = -1074 \/ 2 ^ 52 <= n) ->
  exists m e, shr_fexp prec emax n k loc_Exact
      = ({| shr_m := Zpos m; shr_r := false; shr_s := false |}, e) /\
    Zpos m * pw e = n * pw k /\ fexp prec emax (Zpos (digits2_pos m) + e) = e /\
    Zpos m < 2 ^ 53 /\ -1074 <= e /\ (e = -1074 \/ 2 ^ 52 <= Zpos m).
Proof.
  intros Hn Hk Hl. pose proof scale_big. destruct (Z.eq_dec n (2 ^ 53)) as [->|Hne].
  - exists (2 ^ 52)%positive, (k + 1). unfold shr_fexp.
    change (Zdigits2 (2 ^ 53)) with 54. rewrite fexp_eq. replace (Z.max (54 + k - 53) (-1074) - k) with 1 by lia.
    split; [reflexivity|]. rewrite pw_succ, fexp_eq by lia.
    change (Z.pos (digits2_pos (2 ^ 52))) with 53. change (Z.pos (2 ^ 52)) with (2 ^ 52). lia.
  - destruct n as [|p|p]; try lia. exists p, k. unfold shr_fexp. cbn [Zdigits2].
    pose proof (digits_upper p 53 ltac:(lia) ltac:(lia)).
    assert (fexp prec emax (Z.pos (digits2_pos p) + k) = k) as Hf.
    { rewrite fexp_eq. destruct Hl as [->|Hl]; [lia|].
      pose proof (digits_lower p 52 ltac:(lia) Hl). lia. }
    rewrite Hf, Z.sub_diag. cbn [shr shr_record_of_loc]. split_and!; (done || lia).
Qed.

(** The float made from a rounded mantissa, the second half of [binary_round_aux]. *)
Definition pack (s : bool) (mrs : shr_record * Z) : f64 :=
  match shr_m mrs.1 with
  | Z0 => S754_zero s
  | Zpos m => if mrs.2 <=? emax - prec then S754_finite s m mrs.2 else S754_infinity s
  | _ => S754_nan
  end.

Lemma pack_mag s n k :
  0 <= n <= 2 ^ 53 -> -1074 <= k -> (k = -1074 \/ 2 ^ 52 <= n) ->
  let x := pack s (shr_fexp prec emax n k loc_Exact) in
  mag x = Z.min (n * pw k) (pw 1024) /\ valid x /\ sign_of x = s.
Proof.
  intros Hn Hk Hl. cbv zeta. pose proof scale_big. pose proof (pw_pos 1024 ltac:(lia)).
  destruct (Z.eq_dec n 0) as [->|Hn0].
  { unfold shr_fexp, shr. cbn [shr_record_of_loc Zdigits2].
    destruct (fexp prec emax (0 + k) - k) eqn:Hsh; rewrite fexp_eq in Hsh; [|lia|];
      (split; [cbn; lia|]; unfold valid; split_and!; reflexivity). }
  destruct (renormalize n k) as (m & e & -> & Hv & Hc & Hm53 & He & Hn52); [lia|done|done|].
  unfold pack. cbn [fst snd shr_m]. change (emax - prec) with 971. pose proof (pw_pos e ltac:(lia)).
  destruct (Z.leb_spec e 971) as [Hle|Hgt]; cbn [mag]; rewrite <- Hv.
  - split; [|split; [split; [|done]|done]].
    + symmetry. apply Z.min_l. pose proof (pw_le e 971 Hle).
      pose proof (pw_add 971 53 ltac:(lia) ltac:(lia)) as Hp. change (971 + 53) with 1024 in Hp. nia.
    + cbn [valid_binary]. unfold bounded, canonical_mantissa.
      apply andb_true_iff. split; [by apply Z.eqb_eq|by apply Z.leb_le].
  - split; [|by repeat split]. symmetry. apply Z.min_r. destruct Hn52 as [->|Hn52]; [lia|].
    pose proof (pw_le 972 e ltac:(lia)) as Hp. pose proof (pw_add 972 52 ltac:(lia) ltac:(lia)) as Hp'.
    change (972 + 52) with 1024 in Hp'. nia.
Qed.

Lemma binary_round_aux_pack s m e l :
  binary_round_aux prec emax s m e l =
  let r := shr_fexp prec emax m e l in
  pack s (shr_fexp prec emax (round_nearest_even (shr_m r.1) (loc_of_shr_record r.1)) r.2 loc_Exact).
Proof.
  unfold binary_round_aux, pack. destruct (shr_fexp prec emax m e l) as [mrs e1]. cbn [fst snd].
  by destruct (shr_fexp _ _ _ _ _).
Qed.

(** Rounding a value known to less than one unit of an exponent that is small enough. *)
Lemma binary_round_aux_near s m e l N D :
  0 < D -> 0 <= m -> - scale <= e -> e <= fexp prec emax (Zdigits2 m + e) -> located m e l N D ->
  let x := binary_round_aux prec emax s m e l in
  near N D x /\ valid x /\ sign_of x = s.
Proof.
  intros HD Hm He Hf Hl. set (k := fexp prec emax (Zdigits2 m + e)) in *. pose proof scale_big.
  assert (-1074 <= k) as Hk by (unfold k; rewrite fexp_eq; lia).
  pose proof (shifted_mantissa m e k Hm Hf eq_refl) as [Hm1 Hm2].
  rewrite binary_round_aux_pack. unfold shr_fexp at 1. fold k. 
  assert (shr_m (shr_record_of_loc m l) = m) as Hrm by (by destruct l as [|[]]).
  rewrite shr_record_located, Hrm in Hl.
  pose proof (shr_located (shr_record_of_loc m l) e (k - e) N D HD He) as Hs2.
  pose proof (shr_mantissa (shr_record_of_loc m l) e (k - e)) as Hs. rewrite Hrm in Hs, Hs2.
  specialize (Hs2 Hm ltac:(lia) Hl). destruct (Hs Hm ltac:(lia)) as [Hs1 Hs3].
  destruct (shr (shr_record_of_loc m l) e (k - e)) as [mrs e1]. cbv zeta. cbn [fst snd] in *.
  replace (e + (k - e)) with k in * by lia. subst e1. rewrite <- Hs3 in Hm1, Hm2.
  pose proof (round_nearest_even_near _ k _ N D HD ltac:(lia) Hs2) as [Hr1 Hr2].
  pose proof (located_bounds _ k _ N D HD ltac:(lia) Hs2) as Hb.
  pose proof (pw_step k D Hk HD) as Hg. set (n := round_nearest_even (shr_m mrs) _) in *.
  assert (0 <= shr_m mrs) by (rewrite Hs3; apply Z.div_pos; [done|apply Z.pow_pos_nonneg; lia]).
  assert (0 <= n <= 2 ^ 53 /\ (k = -1074 \/ 2 ^ 52 <= n)) as [Hn Hn52] by lia.
  destruct (pack_mag s n k Hn Hk Hn52) as (Hmag & Hv). split; [|done].
  exists k, n. split_and!; [done|lia|done|nia| |done].
  destruct Hm2 as [|Hm2]; [by left|right]. nia.
Qed.

(** The result is a float64 whatever the exponent. *)
Lemma binary_round_aux_valid s m e l :
  0 <= m -> e <= fexp prec emax (Zdigits2 m + e) -> valid (binary_round_aux prec emax s m e l).
Proof.
  intros Hm Hf. set (k := fexp prec emax (Zdigits2 m + e)) in *.
  assert (-1074 <= k) as Hk by (unfold k; rewrite fexp_eq; lia).
  pose proof (shifted_mantissa m e k Hm Hf eq_refl) as [Hm1 Hm2].
  rewrite binary_round_aux_pack. unfold shr_fexp at 1. fold k.
  assert (shr_m (shr_record_of_loc m l) = m) as Hrm by (by destruct l as [|[]]).
  destruct (shr_mantissa (shr_record_of_loc m l) e (k - e)) as [Hs1 Hs3]; [by rewrite Hrm|lia|].
  rewrite Hrm in Hs3. destruct (shr (shr_record_of_loc m l) e (k - e)) as [mrs e1]. cbv zeta.
  cbn [fst snd] in *. replace e1 with k in * by lia. rewrite <- Hs3 in Hm1, Hm2.
  assert (0 <= shr_m mrs) by (rewrite Hs3; apply Z.div_pos; [done|apply Z.pow_pos_nonneg; lia]).
  apply pack_mag; [|done|]; unfold round_nearest_even; destruct (loc_of_shr_record mrs) as [|[]];
    try destruct (Z.even _); lia.
Qed.

(** ** Values and the order of valid floats *)

Lemma valid_finite s m e :
  valid (S754_finite s m e) ->
  -1074 <= e <= 971 /\ Zpos m < 2 ^ 53 /\ (e = -1074 \/ 2 ^ 52 <= Zpos m).
Proof.
  intros [Hv _]. cbn [valid_binary] in Hv. unfold bounded, canonical_mantissa in Hv.
  apply andb_true_iff in Hv as [Hc He]. apply Z.eqb_eq in Hc. apply Z.leb_le in He.
  change (emax - prec) with 971 in He. rewrite fexp_eq in Hc. pose proof (digits2_pos_bounds m) as Hd.
  split; [lia|]. split.
  - apply Z.lt_le_trans with (2 ^ Zpos (digits2_pos m)); [lia|]. apply Z.pow_le_mono_r; lia.
  - destruct (Z.eq_dec e (-1074)); [by left|right].
    replace (Zpos (digits2_pos m) - 1) with 52 in Hd by lia. lia.
Qed.

Definition finite (x : f64) : Prop := valid x /\ is_inf x = false.

Lemma finite_shape x :
  finite x -> (exists s, x = S754_zero s) \/ exists s m e, x = S754_finite s m e.
Proof. intros [[_ Hn] Hi]. destruct x; naive_solver. Qed.

Lemma mag_nonneg x : 0 <= mag x.
Proof.
  pose proof scale_big. pose proof (pw_pos 1024 ltac:(lia)). destruct x as [s|s| |s m e]; cbn; try lia.
  apply Z.mul_nonneg_nonneg; [lia|]. unfold pw. apply Z.pow_nonneg. lia.
Qed.

Lemma finite_mag x : finite x -> mag x < pw 1024.
Proof.
  pose proof scale_big. pose proof (pw_pos 1024 ltac:(lia)). intros Hf.
  destruct (finite_shape x Hf) as [[s ->]|(s & m & e & ->)]; [done|].
  destruct Hf as [(He & Hm & _)%valid_finite _]. cbn [mag]. pose proof (pw_le e 971 ltac:(lia)).
  pose proof (pw_pos e ltac:(lia)). pose proof (pw_add 971 53 ltac:(lia) ltac:(lia)) as Hp.
  change (971 + 53) with 1024 in Hp. nia.
Qed.

Lemma finite_fval x : finite x -> - pw 1024 < fval x < pw 1024.
Proof.
  intros Hf. pose proof (finite_mag x Hf). pose proof (mag_nonneg x). unfold fval.
  destruct (sign_of x); lia.
Qed.

Lemma fval_bounds x : valid x -> - pw 1024 <= fval x <= pw 1024.
Proof.
  intros Hv. pose proof (mag_nonneg x). unfold fval. destruct (is_inf x) eqn:Hi.
  - destruct x; try done. cbn [mag sign_of] in *. destruct s; lia.
  - pose proof (finite_mag x (conj Hv Hi)). destruct (sign_of x); lia.
Qed.

(** A float that is its own value. *)
Lemma near_self x : finite x -> near (mag x) 1 x.
Proof.
  pose proof scale_big. pose proof (pw_pos 1024 ltac:(lia)). intros Hf. pose proof (finite_mag x Hf).
  destruct (finite_shape x Hf) as [[s ->]|(s & m & e & ->)].
  - exists (-1074), 0. pose proof (pw_pos (-1074) ltac:(lia)). cbn [mag]. lia.
  - destruct Hf as [(He & Hm & Hn)%valid_finite _]. cbn [mag] in *. pose proof (pw_pos e ltac:(lia)).
    exists e, (Zpos m). cbn [mag]. rewrite !Z.mul_1_r. split_and!; [lia|lia|lia|nia| |lia].
    destruct Hn as [|Hn]; [by left|right; nia].
Qed.

(** [x] is the rounding of the rational [N / D]. *)
Definition rounds (N D : Z) (x : f64) : Prop :=
  valid x /\ near (Z.abs N) D x /\ (0 <= N /\ fval x = mag x \/ N <= 0 /\ fval x = - mag x).

Lemma rounds_mono N D x N' D' x' :
  0 < D -> 0 < D' -> N * D' < N' * D -> rounds N D x -> rounds N' D' x' -> fval x <= fval x'.
Proof.
  intros HD HD' Hlt (_ & Hn & Hs) (_ & Hn' & Hs'). pose proof (mag_nonneg x). pose proof (mag_nonneg x').
  destruct Hs as [[Hs ->]|[Hs ->]], Hs' as [[Hs' ->]|[Hs' ->]].
  - apply (near_mono (Z.abs N) D x (Z.abs N') D' x'); try done. by rewrite !Z.abs_eq.
  - exfalso. nia.
  - lia.
  - pose proof (near_mono (Z.abs N') D' x' (Z.abs N) D x HD' HD) as Hm.
    rewrite !Z.abs_neq in Hm by done. specialize (Hm ltac:(lia)). rewrite !Z.abs_neq in Hn, Hn' by done.
    specialize (Hm Hn' Hn). lia.
Qed.

Lemma rounds_self x : finite x -> rounds (fval x) 1 x.
Proof.
  intros Hf. pose proof (near_self x Hf) as Hn. pose proof (mag_nonneg x).
  split; [apply Hf|]. unfold fval. destruct (sign_of x).
  - rewrite Z.abs_opp, Z.abs_eq by done. split; [done|]. right. lia.
  - rewrite Z.abs_eq by done. split; [done|]. left. lia.
Qed.

Lemma rounds_zero D s : 0 < D -> rounds 0 D (S754_zero s).
Proof.
  intros HD. pose proof scale_big. pose proof (pw_pos 1024 ltac:(lia)).
  pose proof (pw_step (-1074) D ltac:(lia) HD). split; [by split|]. split; [|left; by destruct s].
  exists (-1074), 0. cbn [mag Z.abs]. lia.
Qed.

Lemma rounds_aux (s : bool) m e l N D :
  0 < D -> 0 <= m -> - scale <= e -> e <= fexp prec emax (Zdigits2 m + e) ->
  located m e l (Z.abs N) D -> (if s then N <= 0 else 0 <= N) ->
  rounds N D (binary_round_aux prec emax s m e l).
Proof.
  intros HD Hm He Hf Hl Hs. destruct (binary_round_aux_near s m e l _ D HD Hm He Hf Hl) as (Hn & Hv & Hg).
  split; [done|]. split; [done|]. unfold fval. rewrite Hg. destruct s; [by right|by left].
Qed.

(** ** Addition and subtraction *)

Lemma shl_align_value m e e' :
  e' <= e -> - scale <= e' -> Zpos (fst (shl_align m e e')) * pw e' = Zpos m * pw e.
Proof.
  intros Hle He. unfold shl_align. destruct (e' - e) as [|p|p] eqn:Hd; [|lia|].
  - cbn [fst]. by replace e' with e by lia.
  - cbn [fst]. rewrite iter_xO_val. replace e with (e' + Z.pos p) by lia.
    rewrite pw_add by lia. lia.
Qed.

Lemma binary_normalize_rounds z e sz :
  - scale <= e -> rounds (z * pw e) 1 (binary_normalize prec emax z e sz).
Proof.
  intros He. pose proof scale_big. pose proof (pw_pos e He).
  assert (forall (s : bool) p, (if s then z <= 0 else 0 <= z) -> Z.abs z = Zpos p ->
    rounds (z * pw e) 1 (binary_round prec emax s p e)) as Hr.
  { intros s p Hs Hz. unfold binary_round. set (f := fexp prec emax (Zpos (digits2_pos p) + e)).
    assert (-1074 <= f) by (unfold f; rewrite fexp_eq; lia).
    assert (exists q e', shl_align p e f = (q, e') /\ Zpos q * pw e' = Zpos p * pw e /\
      - scale <= e' /\ Zpos (digits2_pos q) + e' = Zpos (digits2_pos p) + e /\ e' <= f)
      as (q & e' & -> & Hv & He' & Hd & Hle).
    { unfold shl_align. destruct (f - e) as [|n|n] eqn:Hd; [| |];
        [exists p, e; split_and!; (done || lia)..|].
      exists (Pos.iter xO p n), f. rewrite iter_xO_val, iter_xO_digits. split_and!; [done| |lia|lia|lia].
      replace e with (f + Z.pos n) by lia. rewrite pw_add by lia. lia. }
    apply rounds_aux; [done|lia|done| | |].
    - cbn [Zdigits2]. by rewrite Hd.
    - unfold located. rewrite Z.mul_1_r, Z.abs_mul, Hz, (Z.abs_eq (pw e)), Hv by lia. done.
    - destruct s; nia. }
  destruct z as [|p|p]; cbn [binary_normalize].
  - by apply rounds_zero.
  - by apply (Hr false).
  - by apply (Hr true).
Qed.

Lemma fadd_rounds x y : finite x -> finite y -> rounds (fval x + fval y) 1 (fadd x y).
Proof.
  intros Hx Hy. assert (forall s, fval (S754_zero s) = 0) as Hz by by intros [].
  destruct (finite_shape x Hx) as [[sx ->]|(sx & mx & ex & ->)].
  { rewrite Hz. cbn [Z.add]. destruct (finite_shape y Hy) as [[sy ->]|(sy & my & ey & ->)].
    - rewrite Hz. assert (exists s, fadd (S754_zero sx) (S754_zero sy) = S754_zero s) as [s ->]
        by (destruct sx, sy; eexists; done). by apply rounds_zero.
    - by apply (rounds_self (S754_finite sy my ey)). }
  destruct (finite_shape y Hy) as [[sy ->]|(sy & my & ey & ->)].
  { rewrite Hz, Z.add_0_r. by apply (rounds_self (S754_finite sx mx ex)). }
  destruct Hx as [Hx _], Hy as [Hy _]. apply valid_finite in Hx as (Hx & _), Hy as (Hy & _).
  pose proof scale_big. unfold fadd. cbn [SFadd].
  replace (fval (S754_finite sx mx ex) + fval (S754_finite sy my ey))
    with ((cond_Zopp sx (Z.pos (fst (shl_align mx ex (Z.min ex ey)))) +
           cond_Zopp sy (Z.pos (fst (shl_align my ey (Z.min ex ey))))) * pw (Z.min ex ey)).
  { apply binary_normalize_rounds. lia. }
  rewrite Z.mul_add_distr_r. unfold fval. cbn [sign_of mag].
  pose proof (shl_align_value mx ex (Z.min ex ey)) as H1. pose proof (shl_align_value my ey (Z.min ex ey)) as H2.
  specialize (H1 ltac:(lia) ltac:(lia)). specialize (H2 ltac:(lia) ltac:(lia)).
  destruct sx, sy; cbn [cond_Zopp]; rewrite ?Z.mul_opp_l, ?H1, ?H2; done.
Qed.

Lemma fsub_fadd x y : fsub x y = fadd x (SFopp y).
Proof.
  destruct x as [sx|sx| |sx mx ex], y as [sy|sy| |sy my ey]; try done.
  - by destruct sx, sy.
  - by destruct sx, sy.
  - unfold fsub, fadd. cbn [SFsub SFadd SFopp]. f_equal. by destruct sy; cbn [cond_Zopp negb]; lia.
Qed.

Lemma valid_opp x : valid x -> valid (SFopp x).
Proof. by destruct x. Qed.

Lemma fval_opp x : fval (SFopp x) = - fval x.
Proof. unfold fval. destruct x as [[]|[]| |[] ? ?]; cbn [SFopp sign_of negb mag]; lia. Qed.

(** ** Multiplication and division *)

Lemma pw_mul e e' : - scale <= e -> - scale <= e' -> - scale <= e + e' ->
  pw e * pw e' = pw (e + e') * pw 0.
Proof. intros. pose proof scale_big. unfold pw. rewrite <- !Z.pow_add_r by lia. f_equal. lia. Qed.

Lemma sign_product (s s' : bool) a b :
  0 <= a -> 0 <= b ->
  let N := (if s then - a else a) * (if s' then - b else b) in
  Z.abs N = a * b /\ (if xorb s s' then N <= 0 else 0 <= N).
Proof. intros Ha Hb. destruct s, s'; cbn [xorb]; nia. Qed.

Lemma fmul_rounds x y : finite x -> finite y -> rounds (fval x * fval y) (pw 0) (fmul x y).
Proof.
  intros Hx Hy. pose proof scale_big. pose proof (pw_pos 0 ltac:(lia)).
  assert (forall s, fval (S754_zero s) = 0) as Hz by by intros [].
  destruct (finite_shape x Hx) as [[sx ->]|(sx & mx & ex & ->)].
  { rewrite Hz. by destruct (finite_shape y Hy) as [[sy ->]|(sy & my & ey & ->)]; apply rounds_zero. }
  destruct (finite_shape y Hy) as [[sy ->]|(sy & my & ey & ->)].
  { rewrite Hz, Z.mul_0_r. by apply rounds_zero. }
  destruct Hx as [Hx _], Hy as [Hy _]. apply valid_finite in Hx as (Hx & Hmx & Hnx), Hy as (Hy & Hmy & Hny).
  pose proof (pw_pos ex ltac:(lia)). pose proof (pw_pos ey ltac:(lia)).
  destruct (sign_product sx sy (Zpos mx * pw ex) (Zpos my * pw ey)) as [Ha Hs]; [lia|lia|].
  apply rounds_aux; [done|lia|lia| | |done].
  - cbn [Zdigits2]. rewrite fexp_eq.
    assert (ex = -1074 /\ ey = -1074 \/ 2 ^ 52 <= Zpos (mx * my)) as [|Hbig] by nia; [lia|].
    pose proof (digits_lower (mx * my) 52 ltac:(lia) Hbig). lia.
  - unfold located, fval. cbn [sign_of mag]. rewrite Ha, <- pw_mul by lia. lia.
Qed.

Lemma new_location_located q r d e c N D :
  0 < d -> 0 <= r < d -> pw e * D = d * c -> N = (q * d + r) * c -> 0 < c ->
  located q e (new_location d r) N D.
Proof.
  intros Hd Hr HD -> Hc. unfold located. rewrite HD. unfold new_location.
  destruct (Z.even d) eqn:Hev; unfold new_location_even, new_location_odd;
    (destruct (Z.eqb_spec r 0) as [->|Hr0]; [lia|]).
  - destruct (Z.compare_spec (2 * r) d); nia.
  - rewrite <- Z.negb_odd in Hev. apply negb_false_iff, Z.odd_spec in Hev as [h Hh].
    destruct (Z.compare_spec (2 * r + 1) d); nia.
Qed.

(** The quotient's mantissa has enough digits for its exponent. *)
Lemma quotient_exponent m1 e1 m2 e2 e' q :
  0 < m1 -> 0 < m2 ->
  e' = Z.min (fexp prec emax (Zdigits2 m1 + e1 - (Zdigits2 m2 + e2))) (e1 - e2) ->
  q = m1 * 2 ^ (e1 - e2 - e') / m2 -> e' <= fexp prec emax (Zdigits2 q + e').
Proof.
  intros Hm1 Hm2 He Hq. rewrite fexp_eq in *.
  destruct (Z.le_gt_cases e' (-1074)) as [|He74]; [lia|].
  pose proof (Zdigits2_bounds m1 Hm1) as [Hl1 _]. pose proof (Zdigits2_bounds m2 Hm2) as [_ Hu2].
  set (d1 := Zdigits2 m1) in *. set (d2 := Zdigits2 m2) in *. set (s := e1 - e2 - e') in *.
  assert (0 <= s) by lia. assert (53 <= d1 + s - d2) by lia.
  assert (1 <= d1) by (destruct m1; unfold d1; simpl; lia). assert (0 <= d2) by apply Zdigits2_nonneg.
  assert (2 ^ 52 <= q) as Hbig.
  { subst q. apply Z.div_le_lower_bound; [done|]. apply Z.le_trans with (2 ^ d2 * 2 ^ 52); [nia|].
    apply Z.le_trans with (2 ^ (d1 - 1) * 2 ^ s); [|nia].
    rewrite <- !Z.pow_add_r by lia. apply Z.pow_le_mono_r; lia. }
  destruct q as [|p|p]; [lia| |lia]. cbn [Zdigits2]. pose proof (digits_lower p 52 ltac:(lia) Hbig). lia.
Qed.

Lemma fdiv_rounds x y : finite x -> finite y -> 0 < fval y -> rounds (fval x * pw 0) (fval y) (fdiv x y).
Proof.
  intros Hx Hy Hpos. pose proof scale_big. pose proof (pw_pos 0 ltac:(lia)).
  destruct (finite_shape y Hy) as [[[] ->]|([] & my & ey & ->)]; [done|done| |].
  { exfalso. pose proof (mag_nonneg (S754_finite true my ey)). unfold fval in Hpos. cbn [sign_of] in Hpos. lia. }
  destruct (finite_shape x Hx) as [[sx ->]|(sx & mx & ex & ->)].
  { change (fval (S754_zero sx)) with (if sx then - 0 else 0).
    replace ((if sx then - 0 else 0) * pw 0) with 0 by (by destruct sx). by apply rounds_zero. }
  destruct Hx as [Hx _], Hy as [Hy _]. apply valid_finite in Hx as (Hx & _), Hy as (Hy & _).
  pose proof (pw_pos ex ltac:(lia)). pose proof (pw_pos ey ltac:(lia)).
  unfold fdiv. cbn [SFdiv]. unfold SFdiv_core_binary. cbn [Zdigits2].
  set (e' := Z.min _ (ex - ey)). set (s := ex - ey - e').
  assert (0 <= s) by lia. assert (-2045 <= e') by (unfold e'; rewrite fexp_eq; lia).
  assert (match s with 0 => Z.pos mx | Z.pos _ => Z.shiftl (Z.pos mx) s | Z.neg _ => 0 end
    = Z.pos mx * 2 ^ s) as ->.
  { destruct s; [by rewrite Z.mul_1_r|by rewrite Z.shiftl_mul_pow2|lia]. }
  pose proof (Z_div_mod (Z.pos mx * 2 ^ s) (Z.pos my) ltac:(lia)) as Hqr.
  pose proof (Z.div_unique (Z.pos mx * 2 ^ s) (Z.pos my)) as Hun.
  destruct (Z.div_eucl _ _) as [q r]. destruct Hqr as [Hqr Hr]. specialize (Hun q r ltac:(lia) Hqr).
  assert (0 <= q) by nia.
  apply rounds_aux; [done|done|lia| | |].
  - apply (quotient_exponent (Zpos mx) ex (Zpos my) ey e' q); [done|done|done|done].
  - apply new_location_located with (c := pw e' * pw ey); [done|lia| | |].
    + unfold fval. cbn [sign_of mag]. lia.
    + unfold fval. cbn [sign_of mag]. rewrite Z.abs_mul, (Z.abs_eq (pw 0)) by lia.
      replace (Z.abs (if sx then - (Z.pos mx * pw ex) else Z.pos mx * pw ex)) with (Z.pos mx * pw ex)
        by (destruct sx; lia).
      replace (q * Z.pos my + r) with (Z.pos mx * 2 ^ s) by lia.
      replace (pw e' * pw ey) with (pw (e' + ey) * pw 0) by (symmetry; apply pw_mul; lia).
      replace ex with (e' + ey + s) at 1 by lia. rewrite pw_add by lia. ring.
    + apply Z.mul_pos_pos; [apply pw_pos; lia|done].
  - unfold fval. cbn [sign_of mag]. destruct sx; cbn [xorb]; nia.
Qed.

(** ** Monotonicity *)

(** Valid floats of equal value are equal, up to the sign of zero. *)
Lemma fval_inj x y : finite x -> finite y -> fval x = fval y ->
  x = y \/ exists s s', x = S754_zero s /\ y = S754_zero s'.
Proof.
  intros Hx Hy He. pose proof scale_big.
  assert (forall s m e, finite (S754_finite s m e) -> 0 < mag (S754_finite s m e)) as Hp.
  { intros s m e [Hv _]. apply valid_finite in Hv as (? & _). cbn [mag]. pose proof (pw_pos e ltac:(lia)). lia. }
  destruct (finite_shape x Hx) as [[sx ->]|(sx & mx & ex & ->)],
    (finite_shape y Hy) as [[sy ->]|(sy & my & ey & ->)].
  - right. by do 2 eexists.
  - specialize (Hp _ _ _ Hy). unfold fval in He. cbn [sign_of] in He. destruct sx, sy; cbn [mag] in *; lia.
  - specialize (Hp _ _ _ Hx). unfold fval in He. cbn [sign_of] in He. destruct sx, sy; cbn [mag] in *; lia.
  - left. pose proof (Hp _ _ _ Hx). pose proof (Hp _ _ _ Hy). unfold fval in He. cbn [sign_of] in He.
    assert (sx = sy /\ mag (S754_finite sx mx ex) = mag (S754_finite sy my ey)) as [-> Hm]
      by (destruct sx, sy; first [exfalso; lia|split; [done|lia]]).
    destruct Hx as [Hx _], Hy as [Hy _]. apply valid_finite in Hx as (Hx & Hmx & Hnx), Hy as (Hy & Hmy & Hny).
    cbn [mag] in Hm. destruct (Z.lt_trichotomy ex ey) as [Hlt|[->|Hlt]].
    + exfalso. pose proof (pw_le (ex + 1) ey ltac:(lia)) as Hle. rewrite pw_succ in Hle by lia.
      pose proof (pw_pos ex ltac:(lia)). nia.
    + pose proof (pw_pos ey ltac:(lia)). assert (Zpos mx = Zpos my) as [= ->]; [|done].
      apply Z.mul_reg_r with (pw ey); lia.
    + exfalso. pose proof (pw_le (ey + 1) ex ltac:(lia)) as Hle. rewrite pw_succ in Hle by lia.
      pose proof (pw_pos ey ltac:(lia)). nia.
Qed.

Lemma finite_or_inf x : valid x -> finite x \/ exists s, x = S754_infinity s.
Proof. intros Hv. destruct x as [s|s| |s m e]; [by left|right; eauto|by destruct Hv|by left]. Qed.

Lemma fval_inf s : fval (S754_infinity s) = if s then - pw 1024 else pw 1024.
Proof. done. Qed.

Lemma fval_zero s : fval (S754_zero s) = 0.
Proof. by destruct s. Qed.

Lemma infinite_or_finite x : valid x -> finite x \/ x = S754_infinity false \/ x = S754_infinity true.
Proof. intros Hv. destruct (finite_or_inf x Hv) as [|[[] ->]]; auto. Qed.

(** The sign of a finite float's value. *)
Lemma fval_sign x : finite x ->
  (exists s, x = S754_zero s) /\ fval x = 0 \/
  (exists m e, x = S754_finite false m e) /\ 0 < fval x \/
  (exists m e, x = S754_finite true m e) /\ fval x < 0.
Proof.
  intros Hf. destruct (finite_shape x Hf) as [[s ->]|(s & m & e & ->)]; [left; rewrite fval_zero; eauto|].
  destruct Hf as [(? & ?)%valid_finite _]. pose proof scale_big. pose proof (pw_pos e ltac:(lia)).
  right. unfold fval. cbn [sign_of mag]. destruct s; [right|left]; (split; [eauto|lia]).
Qed.

(** Floats of equal value have sums, products and quotients of equal value. *)
Lemma fadd_ext x x' y y' :
  finite x -> finite x' -> finite y -> finite y' -> fval x = fval x' -> fval y = fval y' ->
  fval (fadd x y) = fval (fadd x' y').
Proof.
  intros Hx Hx' Hy Hy' Ex Ey.
  assert (forall s z, finite z -> fval (fadd (S754_zero s) z) = fval z /\
    fval (fadd z (S754_zero s)) = fval z) as Hz.
  { intros s z Hz. by destruct (finite_shape z Hz) as [[s' ->]|(s' & m & e & ->)]; [destruct s, s'|]. }
  destruct (fval_inj x x' Hx Hx' Ex) as [<-|(s & s' & -> & ->)].
  - destruct (fval_inj y y' Hy Hy' Ey) as [<-|(s & s' & -> & ->)]; [done|].
    by rewrite !(proj2 (Hz _ x Hx)).
  - by rewrite (proj1 (Hz s y Hy)), (proj1 (Hz s' y' Hy')).
Qed.

Lemma fmul_ext x x' w : finite x -> finite x' -> finite w -> fval x = fval x' ->
  fval (fmul x w) = fval (fmul x' w).
Proof.
  intros Hx Hx' Hw Ex. destruct (fval_inj x x' Hx Hx' Ex) as [<-|(s & s' & -> & ->)]; [done|].
  destruct (finite_shape w Hw) as [[t ->]|(t & m & e & ->)]; cbn; by rewrite !fval_zero.
Qed.

Lemma fdiv_ext x x' w : finite x -> finite x' -> finite w -> 0 < fval w -> fval x = fval x' ->
  fval (fdiv x w) = fval (fdiv x' w).
Proof.
  intros Hx Hx' Hw Hpos Ex. destruct (fval_inj x x' Hx Hx' Ex) as [<-|(s & s' & -> & ->)]; [done|].
  destruct (fval_sign w Hw) as [[_ ?]|[[(m & e & ->) _]|[_ ?]]]; [lia| |lia].
  cbn. by rewrite !fval_zero.
Qed.

Lemma fadd_valid x y : valid x -> valid y -> is_nan (fadd x y) = false -> valid (fadd x y).
Proof.
  intros Hx Hy Hn. destruct (infinite_or_finite x Hx) as [Fx|[-> | ->]];
    destruct (infinite_or_finite y Hy) as [Fy|[-> | ->]]; try done.
  - by destruct (fadd_rounds x y Fx Fy).
  - by destruct (finite_shape x Fx) as [[s ->]|(s & m & e & ->)].
  - by destruct (finite_shape x Fx) as [[s ->]|(s & m & e & ->)].
  - by destruct (finite_shape y Fy) as [[s ->]|(s & m & e & ->)].
  - by destruct (finite_shape y Fy) as [[s ->]|(s & m & e & ->)].
Qed.

Lemma fmul_valid x y : valid x -> finite y -> is_nan (fmul x y) = false -> valid (fmul x y).
Proof.
  intros Hx Hy Hn. destruct (finite_or_inf x Hx) as [Fx|[s ->]].
  - by destruct (fmul_rounds x y Fx Hy).
  - by destruct (finite_shape y Hy) as [[t ->]|(t & m & e & ->)].
Qed.

(** A sum with a negative infinity is one, unless it is not a number; likewise for positive. *)
Lemma fadd_inf x y s :
  valid x -> valid y -> is_nan (fadd x y) = false -> x = S754_infinity s \/ y = S754_infinity s ->
  fadd x y = S754_infinity s.
Proof.
  intros Hx Hy Hn [-> | ->].
  - by destruct y as [|[]| |], s; try done; destruct Hy.
  - by destruct x as [|[]| |], s; try done; destruct Hx.
Qed.

Lemma valid_nonnan x : is_nan x = false -> valid_binary prec emax x = true -> valid x.
Proof. by split. Qed.

Lemma fval_least x : valid x -> fval (S754_infinity true) <= fval x.
Proof. intros Hv. rewrite fval_inf. by apply fval_bounds. Qed.

Lemma fval_greatest x : valid x -> fval x <= fval (S754_infinity false).
Proof. intros Hv. rewrite fval_inf. by apply fval_bounds. Qed.

(** Only infinities have the value of one. *)
Lemma fval_extreme x s : valid x ->
  (if s : bool then fval x <= fval (S754_infinity s) else fval (S754_infinity s) <= fval x) ->
  x = S754_infinity s.
Proof.
  intros Hv Hx. destruct (finite_or_inf x Hv) as [Hf|[s' ->]].
  - exfalso. pose proof (finite_mag x Hf). pose proof (mag_nonneg x). rewrite fval_inf in Hx.
    unfold fval in Hx. destruct s, (sign_of x); lia.
  - rewrite !fval_inf in Hx. pose proof scale_big. pose proof (pw_pos 1024 ltac:(lia)).
    destruct s, s'; (done || lia).
Qed.

(** Addition is monotone in both arguments, where it gives numbers. *)
Lemma fadd_mono x x' y y' :
  valid x -> valid x' -> valid y -> valid y' -> fval x <= fval x' -> fval y <= fval y' ->
  is_nan (fadd x y) = false -> is_nan (fadd x' y') = false -> fval (fadd x y) <= fval (fadd x' y').
Proof.
  intros Hx Hx' Hy Hy' Ex Ey Hn Hn'.
  pose proof (fadd_valid x y Hx Hy Hn) as Hv. pose proof (fadd_valid x' y' Hx' Hy' Hn') as Hv'.
  destruct (infinite_or_finite x Hx) as [Fx|[-> | ->]].
  2:{ apply (fval_extreme x' false) in Ex as ->; [|done].
      rewrite (fadd_inf _ y' false) by auto. by apply fval_greatest. }
  2:{ rewrite (fadd_inf _ y true) by auto. by apply fval_least. }
  destruct (infinite_or_finite y Hy) as [Fy|[-> | ->]].
  2:{ apply (fval_extreme y' false) in Ey as ->; [|done].
      rewrite (fadd_inf x' _ false) by auto. by apply fval_greatest. }
  2:{ rewrite (fadd_inf x _ true) by auto. by apply fval_least. }
  destruct (infinite_or_finite x' Hx') as [Fx'|[-> | ->]].
  2:{ rewrite (fadd_inf _ y' false) by auto. by apply fval_greatest. }
  2:{ apply (fval_extreme x true) in Ex as ->; [|done]. by destruct Fx. }
  destruct (infinite_or_finite y' Hy') as [Fy'|[-> | ->]].
  2:{ rewrite (fadd_inf x' _ false) by auto. by apply fval_greatest. }
  2:{ apply (fval_extreme y true) in Ey as ->; [|done]. by destruct Fy. }
  destruct (Z.eq_dec (fval x + fval y) (fval x' + fval y')) as [He|He].
  - apply Z.eq_le_incl, fadd_ext; (done || lia).
  - apply (rounds_mono (fval x + fval y) 1 _ (fval x' + fval y') 1); [done|done|lia|by apply fadd_rounds..].
Qed.

Lemma fsub_anti x y y' :
  valid x -> valid y -> valid y' -> fval y <= fval y' ->
  is_nan (fsub x y) = false -> is_nan (fsub x y') = false -> fval (fsub x y') <= fval (fsub x y).
Proof.
  rewrite !fsub_fadd. intros Hx Hy Hy' He Hn Hn'.
  apply fadd_mono; auto using valid_opp; [lia|]. rewrite !fval_opp. lia.
Qed.

Lemma fsub_valid x y : valid x -> valid y -> is_nan (fsub x y) = false -> valid (fsub x y).
Proof. rewrite fsub_fadd. auto using fadd_valid, valid_opp. Qed.

(** Multiplication by a finite float that is not negative is monotone. *)
Lemma fmul_mono x x' w :
  valid x -> valid x' -> finite w -> 0 <= fval w -> fval x <= fval x' ->
  is_nan (fmul x w) = false -> is_nan (fmul x' w) = false -> fval (fmul x w) <= fval (fmul x' w).
Proof.
  intros Hx Hx' Hw Hpos Ex Hn Hn'. pose proof scale_big. pose proof (pw_pos 0 ltac:(lia)).
  pose proof (fmul_valid x w Hx Hw Hn) as Hv. pose proof (fmul_valid x' w Hx' Hw Hn') as Hv'.
  assert (forall s, is_nan (fmul (S754_infinity s) w) = false -> fmul (S754_infinity s) w = S754_infinity s) as Hinf.
  { intros s Hs. destruct (fval_sign w Hw) as [[[t ->] _]|[[(m & e & ->) _]|[_ ?]]]; [done|by destruct s|lia]. }
  destruct (infinite_or_finite x Hx) as [Fx|[-> | ->]].
  2:{ apply (fval_extreme x' false) in Ex as ->; [|done]. lia. }
  2:{ rewrite Hinf by done. by apply fval_least. }
  destruct (infinite_or_finite x' Hx') as [Fx'|[-> | ->]].
  2:{ rewrite (Hinf false) by done. by apply fval_greatest. }
  2:{ apply (fval_extreme x true) in Ex as ->; [|done]. by destruct Fx. }
  destruct (Z.eq_dec (fval x * fval w) (fval x' * fval w)) as [He|He].
  - apply Z.eq_le_incl. destruct (fval_sign w Hw) as [[[t ->] _]|[[_ Hw0]|[_ ?]]]; [| |lia].
    + destruct (finite_shape x Fx) as [[s ->]|(s & m & e & ->)],
        (finite_shape x' Fx') as [[s' ->]|(s' & m' & e' & ->)]; cbn; by rewrite !fval_zero.
    + apply fmul_ext; [done..|]. apply Z.mul_reg_r with (fval w); lia.
  - apply (rounds_mono (fval x * fval w) (pw 0) _ (fval x' * fval w) (pw 0)); [done|done|nia|by apply fmul_rounds..].
Qed.

(** Division by a positive finite float is monotone. *)
Lemma fdiv_mono x x' w :
  valid x -> valid x' -> finite w -> 0 < fval w -> fval x <= fval x' -> fval (fdiv x w) <= fval (fdiv x' w).
Proof.
  intros Hx Hx' Hw Hpos Ex. pose proof scale_big. pose proof (pw_pos 0 ltac:(lia)).
  assert (forall s, fdiv (S754_infinity s) w = S754_infinity s) as Hinf.
  { intros s. destruct (fval_sign w Hw) as [[_ ?]|[[(m & e & ->) _]|[_ ?]]]; [lia|by destruct s|lia]. }
  assert (forall z, valid z -> valid (fdiv z w)) as Hv.
  { intros z Hz. destruct (finite_or_inf z Hz) as [Fz|[s ->]]; [by destruct (fdiv_rounds z w Fz Hw Hpos)|].
    by rewrite Hinf. }
  destruct (infinite_or_finite x Hx) as [Fx|[-> | ->]].
  2:{ apply (fval_extreme x' false) in Ex as ->; [|done]. lia. }
  2:{ rewrite Hinf. by apply fval_least, Hv. }
  destruct (infinite_or_finite x' Hx') as [Fx'|[-> | ->]].
  2:{ rewrite (Hinf false). by apply fval_greatest, Hv. }
  2:{ apply (fval_extreme x true) in Ex as ->; [|done]. by destruct Fx. }
  destruct (Z.eq_dec (fval x) (fval x')) as [He|He]; [by apply Z.eq_le_incl, fdiv_ext|].
  apply (rounds_mono (fval x * pw 0) (fval w) _ (fval x' * pw 0) (fval w)); [done|done| |by apply fdiv_rounds..].
  apply Z.mul_lt_mono_pos_r; [done|]. apply Z.mul_lt_mono_pos_r; lia.
Qed.

(** ** Parsed numbers are float64 values *)

Lemma binary_round_valid s p e : valid (binary_round prec emax s p e).
Proof.
  unfold binary_round, shl_align. set (f := fexp prec emax (Zpos (digits2_pos p) + e)).
  destruct (f - e) as [|n|n] eqn:Hd; apply binary_round_aux_valid; try done; cbn [Zdigits2]; fold f; [lia|lia|].
  rewrite iter_xO_digits. replace (Z.pos (digits2_pos p) + Z.pos n + f) with (Z.pos (digits2_pos p) + e) by lia.
  done.
Qed.

Lemma dec_to_f64_rounds (neg : bool) m k :
  0 <= m -> k < 0 ->
  rounds (if neg then - (m * pw 0) else m * pw 0) (10 ^ (- k)) (dec_to_f64 neg m k).
Proof.
  intros Hm Hk. pose proof scale_big. pose proof (pw_pos 0 ltac:(lia)) as Hp0.
  assert (0 < 10 ^ (- k)) as HD by (apply Z.pow_pos_nonneg; lia).
  unfold dec_to_f64. destruct m as [|p|p]; [|..|lia].
  { replace (if neg then - (0 * pw 0) else 0 * pw 0) with 0 by (by destruct neg). by apply rounds_zero. }
  destruct (Z.leb_spec 0 k); [lia|]. destruct (10 ^ (- k)) as [|d|d]; [lia| |lia]. unfold SFdiv_core_binary.
  set (e' := Z.min _ (0 - 0)). assert (-1074 <= e' <= 0) by (unfold e'; rewrite fexp_eq; lia).
  set (s := 0 - 0 - e').
  assert (match s with 0 => Z.pos p | Z.pos _ => Z.shiftl (Z.pos p) s | Z.neg _ => 0 end
    = Z.pos p * 2 ^ s) as ->.
  { assert (0 <= s) by lia. destruct s; [by rewrite Z.mul_1_r|by rewrite Z.shiftl_mul_pow2|lia]. }
  pose proof (Z_div_mod (Z.pos p * 2 ^ s) (Z.pos d) ltac:(lia)) as Hqr.
  pose proof (Z.div_unique (Z.pos p * 2 ^ s) (Z.pos d)) as Hun.
  assert (0 <= 2 ^ s) by (apply Z.pow_nonneg; lia).
  destruct (Z.div_eucl _ _) as [q r]. destruct Hqr as [Hqr Hr]. specialize (Hun q r ltac:(lia) Hqr).
  apply rounds_aux; [done|nia|lia| | |].
  - by apply (quotient_exponent (Zpos p) 0 (Zpos d) 0 e' q).
  - apply new_location_located with (c := pw e'); [done|lia|lia| |apply pw_pos; lia].
    replace (Z.abs (if neg then - (Z.pos p * pw 0) else Z.pos p * pw 0)) with (Z.pos p * pw 0)
      by (destruct neg; nia).
    replace (q * Z.pos d + r) with (Z.pos p * 2 ^ s) by lia.
    rewrite <- Z.mul_assoc, <- pw_add by lia. by replace (e' + s) with 0 by lia.
  - destruct neg; nia.
Qed.

Lemma dec_to_f64_valid neg m k : valid (dec_to_f64 neg m k).
Proof.
  destruct (Z.leb_spec 0 k) as [Hk|Hk].
  - unfold dec_to_f64. destruct m as [|p|p]; try done. rewrite (proj2 (Z.leb_le 0 k) Hk).
    unfold binary_normalize. destruct (_ * _); [done| |]; apply binary_round_valid.
  - destruct (Z.leb_spec 0 m); [by destruct (dec_to_f64_rounds neg m k)|]. by destruct m.
Qed.

Lemma ParseFloat_valid s x : ParseFloat s = Ok x -> is_nan x = false -> valid x.
Proof.
  unfold ParseFloat. destruct (special s) as [y|] eqn:Hs.
  { intros [= ->] Hn. unfold special in Hs. split; [|done]. repeat case_match; by simplify_eq. }
  destruct (read_float s) as [y|] eqn:Hr; [|done]. destruct (is_inf y); [done|]. intros [= ->] _.
  unfold read_float in Hr. destruct (drop_sign s) as [neg s1]. destruct (match s1 with "" => _ | _ => _ end)%string as [hex s2].
  cbv zeta in Hr. destruct (negb _); [done|]. destruct (read_exp _ _ _) as [[[e us] []]|]; [|done..].
  destruct (_ && _); [done|]. injection Hr as <-. destruct hex; [|apply dec_to_f64_valid].
  unfold hex_to_f64. destruct (man_val _); [done|apply binary_round_valid|done].
Qed.

(** ** Comparison and truncation *)

Definition fleb : f64 -> f64 -> bool := SFleb.

(** Go's [<=] compares values. *)
Lemma fleb_fval x y : valid x -> valid y -> fleb x y = true -> fval x <= fval y.
Proof.
  intros Hx Hy. unfold fleb, SFleb.
  destruct (infinite_or_finite y Hy) as [Fy|[-> | ->]].
  2:{ intros _. by apply fval_greatest. }
  2:{ destruct (infinite_or_finite x Hx) as [Fx|[-> | ->]]; try done.
      by destruct (finite_shape x Fx) as [[s ->]|([] & m & e & ->)]. }
  destruct (infinite_or_finite x Hx) as [Fx|[-> | ->]].
  2:{ by destruct (finite_shape y Fy) as [[s ->]|([] & m & e & ->)]. }
  2:{ intros _. by apply fval_least. }
  destruct (fval_sign x Fx) as [[[s ->] Ex]|[[(m & e & ->) Ex]|[(m & e & ->) Ex]]];
    (destruct (fval_sign y Fy) as [[[s' ->] Ey]|[[(m' & e' & ->) Ey]|[(m' & e' & ->) Ey]]]);
    try (intros _; lia); try done; cbn [SFcompare]; clear Ex Ey;
    destruct Fx as [(He & Hm & Hl)%valid_finite _], Fy as [(He' & Hm' & Hl')%valid_finite _];
    pose proof scale_big; pose proof (pw_pos e ltac:(lia)); pose proof (pw_pos e' ltac:(lia));
    unfold fval; cbn [sign_of mag]; destruct (Z.compare_spec e e') as [->|Hc|Hc]; try done.
  - change (Pos.compare_cont Eq m m') with (Pos.compare m m').
    destruct (Pos.compare_spec m m') as [->|Hmm|Hmm]; [lia| |done]. intros _. nia.
  - intros _. pose proof (pw_le (e + 1) e' ltac:(lia)) as Hp. rewrite pw_succ in Hp by lia. nia.
  - change (Pos.compare_cont Eq m m') with (Pos.compare m m').
    destruct (Pos.compare_spec m m') as [->|Hmm|Hmm]; cbn [CompOpp]; [lia|done|]. intros _. nia.
  - intros _. pose proof (pw_le (e' + 1) e ltac:(lia)) as Hp. rewrite pw_succ in Hp by lia. nia.
Qed.

Lemma f64_trunc_fval x z : valid x -> f64_trunc x = Some z -> z = Z.quot (fval x) (pw 0).
Proof.
  intros Hv. pose proof scale_big. pose proof (pw_pos 0 ltac:(lia)).
  destruct x as [s|s| |s m e]; cbn [f64_trunc]; try done.
  { intros [= <-]. rewrite fval_zero. by rewrite Z.quot_0_l by lia. }
  apply valid_finite in Hv as (He & _). pose proof (pw_pos e ltac:(lia)). intros [= <-].
  assert ((if 0 <=? e then Z.pos m * 2 ^ e else Z.pos m / 2 ^ (- e)) = Z.quot (Z.pos m * pw e) (pw 0)) as ->.
  { rewrite Z.quot_div_nonneg by lia. destruct (Z.leb_spec 0 e).
    - replace (pw e) with (2 ^ e * pw 0) by (rewrite <- pw_add by lia; f_equal; lia).
      rewrite Z.mul_assoc, Z.div_mul by lia. done.
    - replace (pw 0) with (2 ^ (- e) * pw e) by (rewrite <- pw_add by lia; f_equal; lia).
      rewrite Z.div_mul_cancel_r; [done| |lia]. apply Z.pow_nonzero; lia. }
  unfold fval. cbn [sign_of mag]. destruct s; [by rewrite Z.quot_opp_l by lia|done].
Qed.

(** [int(x)] of a larger float is no smaller. *)
Lemma f64_trunc_mono x y zx zy :
  valid x -> valid y -> fval x <= fval y -> f64_trunc x = Some zx -> f64_trunc y = Some zy -> zx <= zy.
Proof.
  intros Hx Hy He ->%f64_trunc_fval ->%f64_trunc_fval; [|done..]. pose proof scale_big.
  apply Z.quot_le_mono; [apply pw_pos; lia|done].
Qed.

(** ** Bounds *)

(** Rounding leaves a value that is a float alone. *)
Lemma rounds_exact m e s D x :
  0 < D -> 0 <= m < 2 ^ 53 -> -1074 <= e -> m * pw e < pw 1024 ->
  let G := if s : bool then - (m * pw e) else m * pw e in rounds (G * D) D x -> fval x = G.
Proof.
  intros HD Hm He Hlt G (Hv & (k & n & Hk & Hn0 & Hn & Hu & Hl & Hmag) & Hs). pose proof scale_big.
  pose proof (pw_pos e ltac:(lia)). pose proof (pw_pos k ltac:(lia)) as Hpk.
  assert (Z.abs (G * D) = m * pw e * D) as Ha by (unfold G; destruct s; nia). rewrite Ha in *.
  assert (n * pw k = m * pw e) as Hnm.
  { destruct (Z.eq_dec m 0) as [->|Hm0].
    { assert (2 * n <= 1) by (apply Z.mul_le_mono_pos_r with (pw k * D); nia). nia. }
    assert (k <= e) as Hke.
    { destruct Hl as [->|Hl]; [lia|]. apply Z.nlt_ge. intros Hek.
      pose proof (pw_le (e + 1) k ltac:(lia)) as Hp. rewrite pw_succ in Hp by lia.
      assert (2 ^ 52 * pw k <= m * pw e) by (apply Z.mul_le_mono_pos_r with D; lia). nia. }
    pose proof (pw_add k (e - k) ltac:(lia) ltac:(lia)) as Hp. replace (k + (e - k)) with e in Hp by lia.
    set (q := m * 2 ^ (e - k)). replace (m * pw e) with (q * pw k) in * by (unfold q; rewrite Hp; ring).
    f_equal. assert (2 * Z.abs (n - q) <= 1) by (apply Z.mul_le_mono_pos_r with (pw k * D); nia). lia. }
  rewrite Hnm, Z.min_l in Hmag by lia. pose proof (mag_nonneg x).
  unfold G in *. destruct s, Hs as [[Hs ->]|[Hs ->]]; nia.
Qed.

(** The value of an integer below [2 ^ 53]. *)
Lemma fval_of_Z n : Z.abs n < 2 ^ 53 -> finite (f64_of_Z n) /\ fval (f64_of_Z n) = n * pw 0.
Proof.
  intros Hn. pose proof scale_big. pose proof (pw_pos 0 ltac:(lia)).
  pose proof (binary_normalize_rounds n 0 false ltac:(lia)) as Hr. fold (f64_of_Z n) in Hr.
  pose proof (pw_add 0 1024 ltac:(lia) ltac:(lia)) as Hp. change (0 + 1024) with 1024 in Hp.
  assert (2 ^ 53 * pw 0 <= 2 ^ 1024 * pw 0) by (apply Z.mul_le_mono_pos_r; [done|by apply Z.leb_le]).
  assert (fval (f64_of_Z n) = n * pw 0) as Hv.
  { replace (n * pw 0) with (if n <? 0 then - (Z.abs n * pw 0) else Z.abs n * pw 0) by
      (destruct (Z.ltb_spec n 0); nia).
    apply (rounds_exact (Z.abs n) 0 (n <? 0) 1); [done|lia|lia|nia|]. rewrite Z.mul_1_r.
    destruct (Z.ltb_spec n 0); [rewrite Z.abs_neq by lia; by rewrite Z.mul_opp_l, Z.opp_involutive|].
    by rewrite Z.abs_eq. }
  split; [|done]. destruct (finite_or_inf (f64_of_Z n) (proj1 Hr)) as [|[s Hi]]; [done|].
  rewrite Hi, fval_inf in Hv. destruct s; nia.
Qed.

(** A finite float between two integers. *)
Definition within (lo hi : Z) (x : f64) : Prop := finite x /\ lo * pw 0 <= fval x <= hi * pw 0.

(** A rounding keeps the bounds of the exact value. *)
Lemma rounds_within lo hi N D x :
  0 < D -> Z.abs lo < 2 ^ 53 -> Z.abs hi < 2 ^ 53 -> lo * pw 0 * D <= N <= hi * pw 0 * D ->
  rounds N D x -> within lo hi x.
Proof.
  intros HD Hlo Hhi HN Hr. destruct (fval_of_Z lo Hlo) as [Fl El], (fval_of_Z hi Hhi) as [Fh Eh].
  assert (forall n, Z.abs n < 2 ^ 53 -> N = n * pw 0 * D -> fval x = n * pw 0) as Heq.
  { intros n Hn ->. pose proof scale_big. pose proof (pw_pos 0 ltac:(lia)).
    assert (fval (f64_of_Z n) < pw 1024 /\ - pw 1024 < fval (f64_of_Z n)) as Hb.
    { destruct (fval_of_Z n Hn) as [Ff _]. pose proof (finite_fval _ Ff). lia. }
    rewrite (proj2 (fval_of_Z n Hn)) in Hb.
    pose proof (rounds_exact (Z.abs n) 0 (n <? 0) D x HD ltac:(lia) ltac:(lia)) as He. cbv zeta in He.
    destruct (Z.ltb_spec n 0).
    - rewrite Z.abs_neq in He by lia. rewrite He; [ring|lia|].
      by replace (- (- n * pw 0) * D) with (n * pw 0 * D) by ring.
    - rewrite Z.abs_eq in He by lia. rewrite He; [done|lia|done]. }
  assert (lo * pw 0 <= fval x <= hi * pw 0) as Hb.
  { split.
    - destruct (Z.eq_dec N (lo * pw 0 * D)) as [He|He]; [by rewrite (Heq lo)|].
      rewrite <- El. apply (rounds_mono (fval (f64_of_Z lo)) 1 _ N D); [done|done| |by apply rounds_self|done].
      rewrite El. lia.
    - destruct (Z.eq_dec N (hi * pw 0 * D)) as [He|He]; [by rewrite (Heq hi)|].
      rewrite <- Eh. apply (rounds_mono N D _ (fval (f64_of_Z hi)) 1); [done|done| |done|by apply rounds_self].
      rewrite Eh. lia. }
  split; [|done]. destruct (finite_or_inf x (proj1 Hr)) as [|[s ->]]; [done|].
  pose proof (finite_fval _ Fl). pose proof (finite_fval _ Fh).
  rewrite fval_inf in Hb. rewrite <- El, <- Eh in Hb. destruct s; lia.
Qed.

Lemma within_fadd a b c d x y :
  within a b x -> within c d y -> Z.abs (a + c) < 2 ^ 53 -> Z.abs (b + d) < 2 ^ 53 ->
  within (a + c) (b + d) (fadd x y).
Proof.
  intros [Hx Bx] [Hy By] H1 H2. apply (rounds_within _ _ (fval x + fval y) 1); [done|done|done|lia|].
  by apply fadd_rounds.
Qed.

Lemma within_opp a b x : within a b x -> within (- b) (- a) (SFopp x).
Proof.
  intros [[Hv Hi] Hx]. split; [split; [by apply valid_opp|by destruct x]|]. rewrite fval_opp. lia.
Qed.

Lemma within_fmul a b c x w :
  within a b x -> within 0 c w -> a <= 0 <= b -> Z.abs (a * c) < 2 ^ 53 -> Z.abs (b * c) < 2 ^ 53 ->
  within (a * c) (b * c) (fmul x w).
Proof.
  intros [Hx Bx] [Hw Bw] Hab H1 H2. pose proof scale_big. pose proof (pw_pos 0 ltac:(lia)).
  apply (rounds_within _ _ (fval x * fval w) (pw 0)); [done|done|done| |by apply fmul_rounds].
  assert (0 <= fval w <= c * pw 0) as Hw' by lia. split.
  - apply Z.le_trans with (a * pw 0 * fval w); [|nia].
    replace (a * c * pw 0 * pw 0) with (a * pw 0 * (c * pw 0)) by ring. nia.
  - apply Z.le_trans with (b * pw 0 * fval w); [nia|].
    replace (b * c * pw 0 * pw 0) with (b * pw 0 * (c * pw 0)) by ring. nia.
Qed.

(** Dividing by at least [1 / d]. *)
Lemma within_fdiv a b d x w :
  within a b x -> finite w -> 0 < d -> pw 0 <= d * fval w -> a <= 0 <= b ->
  Z.abs (a * d) < 2 ^ 53 -> Z.abs (b * d) < 2 ^ 53 -> within (a * d) (b * d) (fdiv x w).
Proof.
  intros [Hx Bx] Hw Hd Hdw Hab H1 H2. pose proof scale_big. pose proof (pw_pos 0 ltac:(lia)).
  assert (0 < fval w) by nia.
  apply (rounds_within _ _ (fval x * pw 0) (fval w)); [done|done|done| |by apply fdiv_rounds]. split.
  - apply Z.le_trans with (a * pw 0 * pw 0); [|nia].
    replace (a * d * pw 0 * fval w) with (a * pw 0 * (d * fval w)) by ring. nia.
  - apply Z.le_trans with (b * pw 0 * pw 0); [nia|].
    replace (b * d * pw 0 * fval w) with (b * pw 0 * (d * fval w)) by ring. nia.
Qed.

Lemma within_trunc a b x : within a b x -> exists z, f64_trunc x = Some z /\ a <= z <= b.
Proof.
  intros [Hf Hb]. pose proof scale_big. pose proof (pw_pos 0 ltac:(lia)).
  assert (exists z, f64_trunc x = Some z) as [z Hz]
    by (destruct (finite_shape x Hf) as [[s ->]|(s & m & e & ->)]; eauto).
  exists z. split; [done|]. apply f64_trunc_fval in Hz as ->; [|apply Hf].
  rewrite <- (Z.quot_mul a (pw 0)), <- (Z.quot_mul b (pw 0)) by lia.
  split; apply Z.quot_le_mono; lia.
Qed.

(** ** Five decimals never overflow *)

(** A value of the type float64: a mantissa and an exponent of that width. *)
Definition is_f64 (x : f64) : bool := valid_binary prec emax x.

(** Printing a float with five decimals and reading it back never makes it infinite. *)
Lemma round5_inf x : is_f64 x = true -> is_inf (round5 x) = is_inf x.
Proof.
  intros Hvb. destruct x as [s|s| |s m e]; try done. cbn [round5 is_inf].
  assert (valid (S754_finite s m e)) as Hv by by split.
  destruct (valid_finite _ _ _ Hv) as (He & Hm & _). pose proof scale_big. pose proof (pw_pos 0 ltac:(lia)) as Hp0.
  pose proof (scaled5_nonneg m e) as Hn.
  pose proof (dec_to_f64_rounds s (scaled5 m e) (-5) Hn ltac:(lia)) as Hr. change (10 ^ (- -5)) with 100000 in Hr.
  set (x := dec_to_f64 s (scaled5 m e) (-5)) in *. assert (finite x) as [_ Hf]; [|exact Hf].
  unfold scaled5 in *. destruct (Z.leb_spec 0 e).
  - pose proof (finite_mag (S754_finite s m e) (conj Hv eq_refl)) as Hmag. cbn [mag] in Hmag.
    pose proof (rounds_exact (Z.pos m) e s 100000 x ltac:(lia) ltac:(lia) ltac:(lia) Hmag) as Hx. cbv zeta in Hx.
    pose proof (pw_add 0 e ltac:(lia) ltac:(lia)) as Hpw. rewrite Z.add_0_l in Hpw.
    assert (fval x = (if s then - (Z.pos m * pw e) else Z.pos m * pw e)) as Hval.
    { apply Hx. rewrite Hpw. destruct s; [|by replace (Z.pos m * (2 ^ e * pw 0) * 100000) with
        (Z.pos m * 2 ^ e * 100000 * pw 0) by ring].
      by replace (- (Z.pos m * (2 ^ e * pw 0)) * 100000) with (- (Z.pos m * 2 ^ e * 100000 * pw 0)) by ring. }
    destruct (finite_or_inf x (proj1 Hr)) as [|[s' Hi]]; [done|]. rewrite Hi, fval_inf in Hval.
    pose proof (pw_pos e ltac:(lia)). destruct s, s'; lia.
  - set (n := if _ <? _ then _ else _) in *.
    assert (n <= Z.pos m * 100000) as Hle.
    { pose proof (Z.pow_pos_nonneg 2 (- e) ltac:(lia) ltac:(lia)).
      assert (2 <= 2 ^ (- e)) by (apply (Z.pow_le_mono_r 2 1); lia).
      assert (Z.pos m * 100000 / 2 ^ (- e) < Z.pos m * 100000) by (apply Z.div_lt_upper_bound; nia).
      unfold n. repeat case_match; lia. }
    destruct s.
    + apply (rounds_within (- Z.pos m) 0 (- (n * pw 0)) 100000); [done|lia|lia|nia|done].
    + apply (rounds_within 0 (Z.pos m) (n * pw 0) 100000); [done|lia|lia|nia|done].
Qed.

(** The operations stay among the float64 values. *)
Lemma valid_or_nan x : is_f64 x = true -> valid x \/ x = S754_nan.
Proof. intros Hv. destruct x; [left..|right|left]; by try split. Qed.

Lemma fadd_closed x y :
  is_f64 x = true -> is_f64 y = true ->
  is_f64 (fadd x y) = true.
Proof.
  intros [Hx| ->]%valid_or_nan [Hy| ->]%valid_or_nan; [|by destruct x|by destruct y|done].
  destruct (is_nan (fadd x y)) eqn:Hn; [by destruct (fadd x y)|]. by apply fadd_valid.
Qed.

Lemma fsub_closed x y :
  is_f64 x = true -> is_f64 y = true ->
  is_f64 (fsub x y) = true.
Proof. intros Hx Hy. rewrite fsub_fadd. apply fadd_closed; [done|]. by destruct y. Qed.

Lemma ParseFloat_closed s x : ParseFloat s = Ok x -> is_f64 x = true.
Proof.
  intros Hp. destruct (is_nan x) eqn:Hn; [by destruct x|]. by apply (ParseFloat_valid s).
Qed.

Lemma round5_closed x : is_f64 x = true -> is_f64 (round5 x) = true.
Proof. intros Hx. destruct x as [s|s| |s m e]; try done. apply dec_to_f64_valid. Qed.

Lemma round5_list_closed xs : forallb is_f64 xs = true -> forallb is_f64 (List.map round5 xs) = true.
Proof.
  intros H. rewrite forallb_forall in *. intros y (x & <- & Hx)%in_map_iff. by apply round5_closed, H.
Qed.

Lemma zip_closed op xs ys :
  op = fadd \/ op = fsub -> forallb is_f64 xs = true -> forallb is_f64 ys = true ->
  forallb is_f64 (zip_with op xs ys) = true.
Proof.
  intros Hop. revert ys. induction xs as [|x xs IH]; intros [|y ys]; try done. simpl.
  intros [Hx Hxs]%andb_prop [Hy Hys]%andb_prop. rewrite IH, andb_true_r by done.
  destruct Hop as [->| ->]; [by apply fadd_closed|by apply fsub_closed].
Qed.

#[export] Hint Resolve fadd_closed fsub_closed ParseFloat_closed round5_closed round5_inf : crane.
#[export] Hint Resolve round5_list_closed zip_closed : crane.
