(* ===== verification/GoDecimal.v ===== *)
(** * Five-decimal arithmetic on float64

    The annotator keeps numbers as texts with five decimals and adds and subtracts them as floats.
    Up to a thousand million ([units_max]) this is exact decimal arithmetic: rounding a sum of
    two such numbers to five decimals gives the number of their exact sum. A number is taken as
    its integer of units of 10^-5 ([units]). *)

From S2P Require Import Prelude GoStrings GoFloat GoFloatOrder.

Open Scope string_scope.
Open Scope Z_scope.

(** The units of 10^-5 that a number has when it is formatted. *)
Definition units (x : f64) : Z :=
  match x with
  | S754_finite s m e => if s then - scaled5 m e else scaled5 m e
  | _ => 0
  end.

Definition units_max : Z := 10 ^ 14.

#[export] Instance f64_eq_dec : EqDecision f64.
Proof. solve_decision. Defined.

(** A finite number that five decimals give back, of moderate size. *)
Definition tidy (x : f64) : bool :=
  match x with S754_nan | S754_infinity _ => false | _ => true end
  && bool_decide (round5 x = x) && (Z.abs (units x) <=? units_max).

(** The value is less than [1 / (2 * 100000)] away from [n / 100000]. *)
Definition about (n : Z) (x : f64) : Prop :=
  finite x /\ 2 * Z.abs (fval x * 100000 - n * pw 0) < pw 0.

(** The value is much closer than that: within [2 ^ -22]. *)
Definition close (n : Z) (x : f64) : Prop :=
  finite x /\ 2 ^ 22 * Z.abs (fval x * 100000 - n * pw 0) <= pw 0 * 100000.

Lemma close_about n x : close n x -> about n x.
Proof.
  intros [Hf Hc]. pose proof scale_big. pose proof (pw_pos 0 ltac:(lia)). split; [done|].
  change (2 ^ 22) with 4194304 in Hc. lia.
Qed.

Lemma close_opp n x : close n x -> close (- n) (SFopp x).
Proof.
  intros [[Hv Hi] Hc]. split; [split; [by apply valid_opp|by destruct x]|]. rewrite fval_opp.
  replace (- fval x * 100000 - - n * pw 0) with (- (fval x * 100000 - n * pw 0)) by ring.
  by rewrite Z.abs_opp.
Qed.

(** A rounding of a moderate value is close to it. *)
Lemma rounds_close N D x :
  0 < D -> Z.abs N <= 2 ^ 31 * (pw 0 * D) -> rounds N D x ->
  finite x /\ 2 ^ 22 * Z.abs (fval x * D - N) <= pw 0 * D.
Proof.
  intros HD HN Hr. pose proof scale_big. pose proof (pw_pos 0 ltac:(lia)) as Hp0.
  assert (finite x) as Hf by (eapply (rounds_within (- 2 ^ 31) (2 ^ 31) N D); [done|done|done|nia|done]).
  split; [done|]. destruct Hr as (_ & (k & n & Hk & Hn & Herr & Hup & Hlow & Hmag) & Hs).
  pose proof (finite_mag x Hf) as Hfm. assert (mag x = n * pw k) as Hm by lia. clear Hmag Hfm.
  set (g := pw k * D) in *.
  assert (2 ^ 21 * g <= pw 0 * D) as Hg.
  { destruct Hlow as [->|Hlow].
    - unfold g. pose proof (pw_le (-1074) (-21) ltac:(lia)). pose proof (pw_add (-21) 21 ltac:(lia) ltac:(lia)) as Hp.
      change (-21 + 21) with 0 in Hp. rewrite Hp. nia.
    - assert (2 ^ 52 * g <= 2 ^ 31 * (pw 0 * D)) by lia.
      change (2 ^ 52) with (2 ^ 31 * 2 ^ 21) in *. nia. }
  assert (2 * Z.abs (mag x * D - Z.abs N) <= g) as He.
  { rewrite Hm. unfold g in *. by replace (n * pw k * D) with (n * (pw k * D)) by ring. }
  assert (Z.abs (fval x * D - N) = Z.abs (mag x * D - Z.abs N)) as ->.
  { destruct Hs as [[? ->]|[? ->]]; [by rewrite (Z.abs_eq N)|]. rewrite (Z.abs_neq N) by done. lia. }
  change (2 ^ 22) with (2 ^ 21 * 2). lia.
Qed.

(** The rounding of [scaled5] is to the nearest integer. *)
Lemma scaled5_about m e n :
  - scale <= e -> 0 <= n -> 2 * Z.abs (Z.pos m * pw e * 100000 - n * pw 0) < pw 0 -> scaled5 m e = n.
Proof.
  intros He Hn Hab. pose proof scale_big. pose proof (pw_pos 0 ltac:(lia)) as Hp0. unfold scaled5.
  destruct (Z.leb_spec 0 e).
  - pose proof (pw_add 0 e ltac:(lia) ltac:(lia)) as Hpw. rewrite Z.add_0_l in Hpw. rewrite Hpw in Hab.
    assert (Z.pos m * 2 ^ e * 100000 - n = 0) as Hz; [|lia].
    replace (Z.pos m * (2 ^ e * pw 0) * 100000 - n * pw 0)
      with ((Z.pos m * 2 ^ e * 100000 - n) * pw 0) in Hab by ring.
    rewrite Z.abs_mul, (Z.abs_eq (pw 0)) in Hab by lia.
    assert (Z.abs (Z.pos m * 2 ^ e * 100000 - n) < 1) by nia. lia.
  - pose proof (pw_add e (- e) ltac:(lia) ltac:(lia)) as Hpw. replace (e + - e) with 0 in Hpw by lia.
    pose proof (pw_pos e ltac:(lia)) as Hpe. set (d := 2 ^ (- e)) in *.
    assert (0 < d) as Hd by (apply Z.pow_pos_nonneg; lia). rewrite Hpw in Hab.
    set (N := Z.pos m * 100000) in *.
    replace (Z.pos m * pw e * 100000 - n * (d * pw e)) with ((N - n * d) * pw e) in Hab by (unfold N; ring).
    rewrite Z.abs_mul, (Z.abs_eq (pw e)) in Hab by lia.
    assert (2 * Z.abs (N - n * d) < d) as Hnd by nia.
    pose proof (Z.div_mod N d ltac:(lia)) as Hqr. pose proof (Z.mod_pos_bound N d Hd) as Hr.
    set (q := N / d) in *. set (r := N mod d) in *.
    assert (n = q /\ 2 * r < d \/ n = q + 1 /\ d < 2 * r) as [[-> Hc]|[-> Hc]].
    { assert (q - 1 < n < q + 2) as Hq by nia. assert (n = q \/ n = q + 1) as [->| ->] by lia; [left|right]; nia. }
    + destruct (Z.ltb_spec (2 * r) d); [done|lia].
    + destruct (Z.ltb_spec (2 * r) d); [lia|]. destruct (Z.ltb_spec d (2 * r)); [done|lia].
Qed.

(** The units of a value are the nearest integer. *)
Lemma units_about n x : about n x -> units x = n.
Proof.
  intros [Hf Hab]. pose proof scale_big. pose proof (pw_pos 0 ltac:(lia)) as Hp0.
  destruct (finite_shape x Hf) as [[s ->]|(s & m & e & ->)]; cbn [units].
  - rewrite fval_zero in Hab. nia.
  - destruct (valid_finite _ _ _ (proj1 Hf)) as (He & _). pose proof (pw_pos e ltac:(lia)) as Hpe.
    assert (0 < Z.pos m * pw e) as Hpos by nia. unfold fval in Hab. cbn [sign_of mag] in Hab.
    destruct s.
    + rewrite (scaled5_about m e (- n)); [lia|lia|nia|].
      by replace (Z.pos m * pw e * 100000 - - n * pw 0)
        with (- (- (Z.pos m * pw e) * 100000 - n * pw 0)) by ring; rewrite Z.abs_opp.
    + rewrite (scaled5_about m e n); [done|lia|nia|done].
Qed.

(** A moderate number of units is represented closely. *)
Lemma dec_close (neg : bool) n :
  0 <= n <= units_max ->
  let z := if neg then - n else n in
  close z (dec_to_f64 neg n (-5)).
Proof.
  intros Hn z. pose proof scale_big. pose proof (pw_pos 0 ltac:(lia)) as Hp0. unfold units_max in Hn.
  pose proof (dec_to_f64_rounds neg n (-5) ltac:(lia) ltac:(lia)) as Hr. change (10 ^ (- -5)) with 100000 in Hr.
  assert ((if neg then - (n * pw 0) else n * pw 0) = z * pw 0) as Hz by (unfold z; destruct neg; ring).
  rewrite Hz in Hr. apply (rounds_close (z * pw 0) 100000); [done| |exact Hr].
  unfold z. change (2 ^ 31) with 2147483648. destruct neg; nia.
Qed.

Lemma units_dec (neg : bool) n :
  0 <= n <= units_max -> units (dec_to_f64 neg n (-5)) = if neg then - n else n.
Proof. intros Hn. by apply units_about, close_about, dec_close. Qed.

Lemma dec_finite (neg : bool) n :
  0 <= n <= units_max -> finite (dec_to_f64 neg n (-5)).
Proof. intros Hn. apply (dec_close neg n Hn). Qed.

Lemma dec_sign neg n :
  0 <= n ->
  match dec_to_f64 neg n (-5) with
  | S754_zero s | S754_infinity s | S754_finite s _ _ => s = neg
  | S754_nan => True
  end.
Proof.
  intros Hn. unfold dec_to_f64. destruct n as [|p|p]; [done| |done]. cbn [Z.leb Z.compare].
  destruct (SFdiv_core_binary _ _ _ _ _ _) as [[mz ez] lz]. apply binary_round_aux_sign.
Qed.

(** A tidy number is closely represented. *)
Lemma tidy_close x : tidy x = true -> close (units x) x /\ Z.abs (units x) <= units_max.
Proof.
  unfold tidy. rewrite !andb_true_iff, bool_decide_eq_true. intros [[Hc Hr] Hu%Z.leb_le].
  pose proof scale_big. pose proof (pw_pos 0 ltac:(lia)) as Hp0. split; [|done].
  destruct x as [s|s| |s m e]; try done; cbn [units] in *.
  - split; [done|]. rewrite fval_zero. change (2 ^ 22) with 4194304. lia.
  - cbn [round5] in Hr. pose proof (scaled5_nonneg m e) as Hn. rewrite <- Hr.
    apply (dec_close s (scaled5 m e)). destruct s; lia.
Qed.

(** A moderate number of units reads as a tidy number. *)
Lemma dec_tidy (neg : bool) n : 0 <= n <= units_max -> tidy (dec_to_f64 neg n (-5)) = true.
Proof.
  intros Hn. pose proof (units_dec neg n Hn) as Hu. pose proof (dec_sign neg n (proj1 Hn)) as Hs.
  unfold tidy. rewrite Hu. apply andb_true_iff. split; [|apply Z.leb_le; destruct neg; lia].
  destruct (finite_shape _ (dec_finite neg n Hn)) as [[s He]|(s & m & e & He)]; rewrite He in *;
    [by apply bool_decide_eq_true|]. subst s. cbn [units] in Hu.
  apply bool_decide_eq_true. cbn [round5]. assert (scaled5 m e = n) as -> by (destruct neg; lia). exact He.
Qed.

(** What is read back from a formatted number of moderate size is tidy, with the same units. *)
Lemma round5_moderate x :
  finite x -> Z.abs (units x) <= units_max -> tidy (round5 x) = true /\ units (round5 x) = units x.
Proof.
  intros Hf Hu. destruct (finite_shape x Hf) as [[[] ->]|(s & m & e & ->)]; [done|done|]. cbn [units round5] in *.
  pose proof (scaled5_nonneg m e). assert (0 <= scaled5 m e <= units_max) by (destruct s; lia).
  split; [by apply dec_tidy|by apply units_dec].
Qed.

Lemma round5_tidy n x :
  about n x -> Z.abs n <= units_max -> tidy (round5 x) = true /\ units (round5 x) = n.
Proof.
  intros Ha Hn. pose proof (units_about n x Ha) as <-. by apply round5_moderate; [apply Ha|].
Qed.

(** *** Sums and differences *)

Lemma fadd_about n k x y :
  close n x -> close k y -> Z.abs n <= units_max -> Z.abs k <= units_max -> about (n + k) (fadd x y).
Proof.
  intros [Hfx Hcx] [Hfy Hcy] Hn Hk. pose proof scale_big. pose proof (pw_pos 0 ltac:(lia)) as Hp0.
  unfold units_max in *. change (2 ^ 22) with 4194304 in *.
  assert (Z.abs (fval x + fval y) <= 2 ^ 31 * (pw 0 * 1)) as Hb.
  { change (2 ^ 31) with 2147483648. assert (Z.abs (n * pw 0) <= 10 ^ 14 * pw 0) by nia.
    assert (Z.abs (k * pw 0) <= 10 ^ 14 * pw 0) by nia. lia. }
  destruct (rounds_close _ 1 _ ltac:(done) Hb (fadd_rounds x y Hfx Hfy)) as [Hf Hc].
  change (2 ^ 22) with 4194304 in Hc. split; [done|].
  replace ((n + k) * pw 0) with (n * pw 0 + k * pw 0) by ring. lia.
Qed.

(** The sum and the difference of two numbers, to five decimals, are exact. *)
Lemma tidy_op (sub : bool) x y :
  tidy x = true -> tidy y = true ->
  let n := if sub then units x - units y else units x + units y in
  Z.abs n <= units_max ->
  let z := round5 ((if sub then fsub else fadd) x y) in tidy z = true /\ units z = n.
Proof.
  intros [Hx Hux]%tidy_close [Hy Huy]%tidy_close n Hn. apply round5_tidy; [|done].
  unfold n. destruct sub; [|by apply fadd_about]. rewrite fsub_fadd, <- Z.add_opp_r.
  apply fadd_about; [done|by apply close_opp|done|lia].
Qed.

