(* ===== verification/GoTime.v ===== *)
(** * Go time: what the program uses of package [time]

    An instant is a number of nanoseconds since the Unix epoch and a [Duration] a number of
    nanoseconds, both in [Z]. A [Location] is its zone table: for a Unix second, the offset in
    force and the interval of seconds over which it is ([Location.lookup]); [None] stands for
    the nil pointer [time.LoadLocation] returns on an unknown zone. [Format] and
    [ParseInLocation] are [Time.Format] and [time.ParseInLocation] (Go 1.17) at the only layout
    of the program, "2006-01-02T15:04:05Z": its final Z is a literal, so the offset in force is
    never written. The calendar is the proleptic Gregorian one. *)

From S2P Require Import Prelude GoStrings GoFloat.

Open Scope string_scope.
Open Scope Z_scope.

Definition Duration := Z.
Definition Second : Duration := 1000000000.
Definition Minute : Duration := 60000000000.
Definition Hour : Duration := 3600000000000.

(** ** Calendar *)

(** Days since 1970-01-01 of a date; years start in March, eras are 400 years. *)
Definition days_from_civil (y m d : Z) : Z :=
  let y' := if m <=? 2 then y - 1 else y in
  let era := y' / 400 in
  let yoe := y' mod 400 in
  let mp := if 2 <? m then m - 3 else m + 9 in
  let doy := (153 * mp + 2) / 5 + d - 1 in
  era * 146097 + (yoe * 365 + yoe / 4 - yoe / 100 + doy) - 719468.

Definition year_of_era (doe : Z) : Z :=
  (doe - doe / 1460 + doe / 36524 - doe / 146096) / 365.

Definition day_of_year (doe : Z) : Z :=
  let yoe := year_of_era doe in doe - (365 * yoe + yoe / 4 - yoe / 100).

Definition civil_from_days (z : Z) : Z * Z * Z :=
  let z' := z + 719468 in
  let era := z' / 146097 in
  let doe := z' mod 146097 in
  let yoe := year_of_era doe in
  let doy := day_of_year doe in
  let mp := (5 * doy + 2) / 153 in
  let d := doy - (153 * mp + 2) / 5 + 1 in
  let m := if mp <? 10 then mp + 3 else mp - 9 in
  let y := yoe + era * 400 in
  (if m <=? 2 then y + 1 else y, m, d).

Definition is_leap (y : Z) : bool :=
  (y mod 4 =? 0) && (negb (y mod 100 =? 0) || (y mod 400 =? 0)).

Definition days_in (m y : Z) : Z :=
  if m =? 2 then (if is_leap y then 29 else 28)
  else if (m =? 4) || (m =? 6) || (m =? 9) || (m =? 11) then 30 else 31.

Lemma year_of_era_range doe : 0 <= doe < 146097 -> 0 <= year_of_era doe < 400.
Proof. unfold year_of_era. intros H. Z.to_euclidean_division_equations. lia. Qed.

(** The day of the (March) year: 366 days only when the next February is a leap one. *)
Lemma day_of_year_range doe :
  0 <= doe < 146097 ->
  0 <= day_of_year doe <= 365 /\
  (day_of_year doe = 365 -> is_leap (year_of_era doe + 1) = true).
Proof.
  intros H. unfold day_of_year. set (y := year_of_era doe).
  assert (0 <= doe - (365 * y + y / 4 - y / 100) <= 365) as Hr.
  { subst y. unfold year_of_era. Z.to_euclidean_division_equations. lia. }
  split; [done|]. intros Hd.
  assert (y mod 4 = 3 /\ (y mod 100 = 99 -> y = 399)) as [H4 H100].
  { subst y. unfold year_of_era in *. Z.to_euclidean_division_equations. lia. }
  unfold is_leap. apply andb_true_iff. rewrite orb_true_iff, negb_true_iff, !Z.eqb_eq, Z.eqb_neq.
  Z.to_euclidean_division_equations. lia.
Qed.

Lemma civil_roundtrip z :
  let '(y, m, d) := civil_from_days z in days_from_civil y m d = z.
Proof.
  unfold civil_from_days. set (z' := z + 719468).
  assert (0 <= z' mod 146097 < 146097) as Hdoe by (apply Z.mod_pos_bound; lia).
  pose proof (Z.div_mod z' 146097 ltac:(lia)) as Hz.
  pose proof (year_of_era_range _ Hdoe) as Hy.
  pose proof (day_of_year_range _ Hdoe) as [Hd _].
  unfold day_of_year in Hd |- *. unfold days_from_civil.
  set (doe := z' mod 146097) in *. set (era := z' / 146097) in *.
  set (y := year_of_era doe) in *. clearbody y.
  set (doy := doe - (365 * y + y / 4 - y / 100)) in *.
  assert (0 <= (5 * doy + 2) / 153 <= 11) as Hmp by (Z.to_euclidean_division_equations; lia).
  set (mp := (5 * doy + 2) / 153) in *.
  assert (forall a b, a = y -> b = era -> (a + b * 400) / 400 = era /\ (a + b * 400) mod 400 = y)
    as Hq by (intros a b -> ->; Z.to_euclidean_division_equations; lia).
  destruct (Hq y era eq_refl eq_refl) as [Hq1 Hq2].
  destruct (Z.ltb_spec mp 10).
  - destruct (Z.leb_spec (mp + 3) 2); [lia|]. destruct (Z.ltb_spec 2 (mp + 3)); [|lia].
    rewrite Hq1, Hq2. replace (mp + 3 - 3) with mp by lia. subst doy. lia.
  - destruct (Z.leb_spec (mp - 9) 2); [|lia]. destruct (Z.ltb_spec 2 (mp - 9)); [lia|].
    replace (y + era * 400 + 1 - 1) with (y + era * 400) by lia.
    rewrite Hq1, Hq2. replace (mp - 9 + 9) with mp by lia. subst doy. lia.
Qed.

(** The month lengths, February excepted, follow the five-month cycle of 153 days. *)
Lemma month_length mp y :
  0 <= mp <= 10 ->
  days_in (if mp <? 10 then mp + 3 else mp - 9) y = (153 * (mp + 1) + 2) / 5 - (153 * mp + 2) / 5.
Proof.
  intros H. assert (mp = 10 \/ 0 <= mp < 10) as [->|Hlt] by lia; [reflexivity|].
  clear H. revert mp Hlt. by apply digit_cases.
Qed.

Lemma civil_valid z :
  let '(y, m, d) := civil_from_days z in 1 <= m <= 12 /\ 1 <= d <= days_in m y.
Proof.
  unfold civil_from_days. set (z' := z + 719468).
  assert (0 <= z' mod 146097 < 146097) as Hdoe by (apply Z.mod_pos_bound; lia).
  pose proof (day_of_year_range _ Hdoe) as [Hd Hleap].
  set (doy := day_of_year _) in *. set (y := year_of_era _) in *.
  set (mp := (5 * doy + 2) / 153).
  assert (0 <= mp <= 11) as Hmp by (subst mp; Z.to_euclidean_division_equations; lia).
  assert (forall e, is_leap (y + e * 400 + 1) = is_leap (y + 1)) as Hper.
  { intros e. unfold is_leap.
    replace ((y + e * 400 + 1) mod 4) with ((y + 1) mod 4) by (Z.to_euclidean_division_equations; lia).
    replace ((y + e * 400 + 1) mod 100) with ((y + 1) mod 100) by (Z.to_euclidean_division_equations; lia).
    replace ((y + e * 400 + 1) mod 400) with ((y + 1) mod 400) by (Z.to_euclidean_division_equations; lia).
    done. }
  assert (153 * mp <= 5 * doy + 2 < 153 * mp + 153) as Hb
    by (subst mp; Z.to_euclidean_division_equations; lia).
  destruct (Z.eq_dec mp 11) as [->|Hne].
  - change (11 <? 10) with false. change (11 - 9) with 2. cbn match. change (2 <=? 2) with true.
    split; [lia|]. unfold days_in. change (2 =? 2) with true. cbn match. rewrite Hper.
    destruct (is_leap (y + 1)) eqn:El; [Z.to_euclidean_division_equations; lia|].
    assert (doy <> 365) by (intros ?; naive_solver).
    Z.to_euclidean_division_equations; lia.
  - rewrite month_length by lia.
    split; [destruct (Z.ltb_spec mp 10); lia|]. clearbody mp.
    Z.to_euclidean_division_equations; lia.
Qed.

(** ** Locations *)

(** The zone in force at a Unix second: its offset and the half-open interval of seconds over
    which it is. *)
Definition Location := Z -> Z * Z * Z.

(** A zone with one offset for all times. *)
Definition FixedZone (off : Z) : Location := fun _ => (off, int64_min, int64_max).

Definition zone_offset (loc : Location) (sec : Z) : Z := fst (fst (loc sec)).

(** [time.Date]: the local second is looked up as if it were UTC, and the zone corrected when
    that lands outside the zone found. Result in nanoseconds. *)
Definition Date (y m d h mi s ns : Z) (loc : Location) : Z :=
  let unix := days_from_civil y m d * 86400 + h * 3600 + mi * 60 + s in
  let '(off, st, en) := loc unix in
  let off' :=
    if off =? 0 then 0
    else
      let utc := unix - off in
      if utc <? st then zone_offset loc (st - 1)
      else if en <=? utc then zone_offset loc en
      else off in
  (unix - off') * Second + ns.

(** ** Formatting *)

Definition pad2 (n : Z) : string := padw 2 n "".

(** [appendInt(b, year, 4)]. *)
Definition fmt_year (y : Z) : string :=
  if y <? 0 then "-" ++ (if - y <? 10000 then padw 4 (- y) "" else dec (- y))
  else if y <? 10000 then padw 4 y "" else dec y.

Definition Format (t : Z) (loc : Location) : string :=
  let sec := t / Second in
  let l := sec + zone_offset loc sec in
  let '(y, m, d) := civil_from_days (l / 86400) in
  let r := l mod 86400 in
  fmt_year y ++ String "-" (pad2 m ++ String "-" (pad2 d ++ String "T" (pad2 (r / 3600) ++
    String ":" (pad2 (r mod 3600 / 60) ++ String ":" (pad2 (r mod 60) ++ "Z"))))).

(** ** Parsing *)

(** [getnum]: two digits, or one when [fixed] is false. *)
Definition getnum (s : string) (fixed : bool) : option (Z * string) :=
  match s with
  | String a s1 =>
      if negb (is_digit a) then None
      else match s1 with
           | String b s2 =>
               if is_digit b then Some (digit_val a * 10 + digit_val b, s2)
               else if fixed then None else Some (digit_val a, s1)
           | "" => if fixed then None else Some (digit_val a, s1)
           end
  | "" => None
  end.

Definition skip (c : ascii) (s : string) : option string :=
  match s with
  | String c' s' => if Ascii.eqb c c' then Some s' else None
  | "" => None
  end.

(** The four characters of the year. *)
Definition get_year (s : string) : option (Z * string) :=
  match s with
  | String a (String b (String c (String d r))) =>
      if is_digit a && is_digit b && is_digit c && is_digit d
      then Some (undec 0 (String a (String b (String c (String d "")))), r)
      else None
  | _ => None
  end.

Fixpoint span_digits (s : string) : string * string :=
  match s with
  | String c s' =>
      if is_digit c then let '(a, r) := span_digits s' in (String c a, r) else ("", s)
  | "" => ("", "")
  end.

(** Seconds may carry a fraction that the layout does not announce ("." or "," and digits);
    fewer than nine digits are scaled to nanoseconds. *)
Definition get_frac (s : string) : option (Z * string) :=
  match s with
  | String p (String a r) =>
      if (Ascii.eqb p "." || Ascii.eqb p ",") && is_digit a then
        let '(ds, rest) := span_digits (String a r) in
        let ns := undec 0 ds in
        if 1000000000 <=? ns then None
        else Some (ns * 10 ^ (9 - Z.min 9 (Z.of_nat (String.length ds))), rest)
      else Some (0, s)
  | _ => Some (0, s)
  end.

Definition guard (b : bool) : option unit := if b then Some tt else None.

(** [None] is a parse error. *)
Definition parse_fields (s : string) : option (Z * Z * Z * Z * Z * Z * Z) :=
  '(y, s) ← get_year s; s ← skip "-" s;
  '(m, s) ← getnum s true; _ ← guard ((1 <=? m) && (m <=? 12)); s ← skip "-" s;
  '(d, s) ← getnum s true; s ← skip "T" s;
  '(h, s) ← getnum s false; _ ← guard (h <? 24); s ← skip ":" s;
  '(mi, s) ← getnum s true; _ ← guard (mi <? 60); s ← skip ":" s;
  '(sc, s) ← getnum s true; _ ← guard (sc <? 60);
  '(ns, s) ← get_frac s; s ← skip "Z" s;
  _ ← guard (String.eqb s ""); _ ← guard ((1 <=? d) && (d <=? days_in m y));
  Some (y, m, d, h, mi, sc, ns).

(** [Ok None] is a parse error; a nil location panics in [Date]. *)
Definition ParseInLocation (s : string) (loc : option Location) : go (option Z) :=
  match parse_fields s with
  | None => Ret None
  | Some (y, m, d, h, mi, sc, ns) =>
      match loc with
      | None => Panic "time: missing Location in call to Date"
      | Some l => Ret (Some (Date y m d h mi sc ns l))
      end
  end.

Example time_format_ex : Format (1665543845 * Second) (FixedZone 28800) = "2022-10-12T11:04:05Z".
Proof. vm_compute. reflexivity. Qed.

Example time_parse_ex :
  (ParseInLocation "2022-10-12T11:04:05Z" (Some (FixedZone 28800)),
   ParseInLocation "2022-10-12T9:04:05.25Z" (Some (FixedZone 0)),
   ParseInLocation "2022-02-29T11:04:05Z" (Some (FixedZone 0)))
  = (Ret (Some (1665543845 * Second)), Ret (Some 1665565445250000000), Ret None).
Proof. vm_compute. reflexivity. Qed.

(** ** Round trip *)

Lemma pad2_digits n r :
  0 <= n < 100 ->
  pad2 n ++ r = String (digit (n / 10)) (String (digit (n mod 10)) r).
Proof.
  intros H. unfold pad2. cbn [padw append]. do 2 f_equal.
  apply Z.mod_small. split; [apply Z.div_pos|apply Z.div_lt_upper_bound]; lia.
Qed.

Lemma getnum_pad2 n r b : 0 <= n < 100 -> getnum (pad2 n ++ r) b = Some (n, r).
Proof.
  intros H. rewrite pad2_digits by done. cbn [getnum].
  assert (0 <= n / 10 < 10) by (split; [apply Z.div_pos|apply Z.div_lt_upper_bound]; lia).
  assert (0 <= n mod 10 < 10) by (apply Z.mod_pos_bound; lia).
  rewrite !is_digit_digit, !digit_val_digit by done. cbn [negb].
  do 2 f_equal. pose proof (Z.div_mod n 10). lia.
Qed.

Lemma get_year_pad y r : 0 <= y < 10000 -> get_year (fmt_year y ++ r) = Some (y, r).
Proof.
  intros H. unfold fmt_year. destruct (Z.ltb_spec y 0); [lia|].
  destruct (Z.ltb_spec y 10000); [|lia].
  pose proof (undec_padw 4 y "" ltac:(lia)) as Hu.
  pose proof (all_digits_padw 4 y "" eq_refl) as Ha.
  cbn [padw append] in *. cbn [get_year]. cbn [all_digits] in Ha.
  rewrite !andb_true_iff in Ha. destruct Ha as (-> & -> & -> & -> & _).
  cbn [andb]. by rewrite Hu.
Qed.

Lemma skip_eq c s : skip c (String c s) = Some s.
Proof. simpl. by rewrite Ascii.eqb_refl. Qed.

#[export] Hint Rewrite skip_eq : crane.

Definition year_of (t : Z) (loc : Location) : Z :=
  let sec := t / Second in
  fst (fst (civil_from_days ((sec + zone_offset loc sec) / 86400))).

Lemma parse_fields_Format t loc :
  0 <= year_of t loc < 10000 ->
  let l := t / Second + zone_offset loc (t / Second) in
  let r := l mod 86400 in
  parse_fields (Format t loc)
  = let '(y, m, d) := civil_from_days (l / 86400) in
    Some (y, m, d, r / 3600, r mod 3600 / 60, r mod 60, 0).
Proof.
  intros Hy l r. unfold year_of in Hy. cbv zeta in Hy. fold l in Hy. unfold Format. fold l.
  pose proof (civil_valid (l / 86400)) as Hv.
  destruct (civil_from_days (l / 86400)) as [[y m] d]. cbn [fst] in Hy.
  destruct Hv as [Hm Hd]. fold r.
  assert (0 <= r < 86400) as Hr by (apply Z.mod_pos_bound; lia).
  assert (0 <= r / 3600 < 24) as Hh by (Z.to_euclidean_division_equations; lia).
  assert (0 <= r mod 3600 / 60 < 60) as Hmi by (Z.to_euclidean_division_equations; lia).
  assert (0 <= r mod 60 < 60) as Hs by (apply Z.mod_pos_bound; lia).
  assert (d <= 31) as Hd31.
  { destruct Hd as [_ Hd]. unfold days_in in Hd. repeat case_match; lia. }
  unfold parse_fields. rewrite get_year_pad by done. cbn [mbind option_bind].
  rewrite skip_eq. cbn [mbind option_bind]. rewrite getnum_pad2 by lia. cbn [mbind option_bind].
  assert ((1 <=? m) && (m <=? 12) = true) as ->
    by (apply andb_true_iff; rewrite !Z.leb_le; lia).
  cbn [guard mbind option_bind]. rewrite skip_eq. cbn [mbind option_bind].
  rewrite getnum_pad2 by lia. cbn [mbind option_bind]. rewrite skip_eq. cbn [mbind option_bind].
  rewrite getnum_pad2 by lia. cbn [mbind option_bind].
  assert ((r / 3600 <? 24) = true) as -> by (apply Z.ltb_lt; lia). cbn [guard mbind option_bind].
  rewrite skip_eq. cbn [mbind option_bind]. rewrite getnum_pad2 by lia. cbn [mbind option_bind].
  assert ((r mod 3600 / 60 <? 60) = true) as -> by (apply Z.ltb_lt; lia).
  cbn [guard mbind option_bind].
  rewrite skip_eq. cbn [mbind option_bind]. rewrite getnum_pad2 by lia. cbn [mbind option_bind].
  assert ((r mod 60 <? 60) = true) as -> by (apply Z.ltb_lt; lia). cbn [guard mbind option_bind].
  cbn [get_frac skip Ascii.eqb Bool.eqb String.eqb guard mbind option_bind].
  assert ((1 <=? d) && (d <=? days_in m y) = true) as ->
    by (apply andb_true_iff; rewrite !Z.leb_le; lia).
  done.
Qed.

(** The zone in force at second [sec] also covers its local reading. *)
Definition zone_steady (loc : Location) (sec : Z) : bool :=
  let '(off, st, en) := loc sec in
  let '(off', st', en') := loc (sec + off) in
  (off' =? off) && (st' <=? sec) && (sec <? en').

Lemma Date_local loc sec :
  zone_steady loc sec = true ->
  let l := sec + zone_offset loc sec in
  let '(y, m, d) := civil_from_days (l / 86400) in
  let r := l mod 86400 in
  Date y m d (r / 3600) (r mod 3600 / 60) (r mod 60) 0 loc = sec * Second.
Proof.
  unfold zone_steady, zone_offset. intros Hs.
  destruct (loc sec) as [[off st] en] eqn:El. cbn [fst].
  pose proof (civil_roundtrip ((sec + off) / 86400)) as Hc.
  destruct (civil_from_days _) as [[y m] d]. unfold Date. rewrite Hc.
  set (l := sec + off) in *. set (r := l mod 86400).
  assert (l / 86400 * 86400 + r / 3600 * 3600 + r mod 3600 / 60 * 60 + r mod 60 = l) as ->.
  { subst r. Z.to_euclidean_division_equations. lia. }
  destruct (loc l) as [[off' st'] en'] eqn:El'. breflect.
  match goal with H : off' = off |- _ => subst off' end.
  rewrite Z.add_0_r. f_equal. subst l. replace (sec + off - off) with sec by lia.
  destruct (Z.eqb_spec off 0) as [->|]; [lia|].
  destruct (Z.ltb_spec sec st'); [lia|]. destruct (Z.leb_spec en' sec); lia.
Qed.

Lemma parse_format_roundtrip t loc :
  0 <= year_of t loc < 10000 -> zone_steady loc (t / Second) = true ->
  ParseInLocation (Format t loc) (Some loc) = Ret (Some (t / Second * Second)).
Proof.
  intros Hy Hz. unfold ParseInLocation. rewrite parse_fields_Format by done.
  pose proof (Date_local loc (t / Second) Hz) as Hd. cbn zeta in *.
  destruct (civil_from_days _) as [[y m] d]. by rewrite Hd.
Qed.

Lemma Format_no_char c t loc :
  0 <= year_of t loc < 10000 -> is_digit c = false -> no_char c "-T:Z" = true ->
  no_char c (Format t loc) = true.
Proof.
  intros Hy Hd Hc. unfold year_of in Hy. unfold Format.
  destruct (civil_from_days _) as [[y m] d]. cbn [fst] in Hy.
  cbn [no_char] in Hc. rewrite !andb_true_iff in Hc. destruct Hc as (H1 & H2 & H3 & H4 & _).
  assert (no_char c (fmt_year y) = true) as Hy'.
  { unfold fmt_year. destruct (Z.ltb_spec y 0); [lia|]. destruct (Z.ltb_spec y 10000); [|lia].
    by apply all_digits_no_char; [apply all_digits_padw|]. }
  assert (forall n, no_char c (pad2 n) = true) as Hp
    by (intros n; apply all_digits_no_char; [by apply all_digits_padw|done]).
  repeat first [rewrite no_char_app | progress cbn [no_char]].
  by rewrite Hy', !Hp, H1, H2, H3, H4.
Qed.

Lemma Format_length t loc :
  0 <= year_of t loc < 10000 -> String.length (Format t loc) = 20%nat.
Proof.
  intros Hy. unfold year_of in Hy. unfold Format.
  destruct (civil_from_days _) as [[y m] d]. cbn [fst] in Hy.
  unfold fmt_year. destruct (Z.ltb_spec y 0); [lia|]. destruct (Z.ltb_spec y 10000); [|lia].
  reflexivity.
Qed.

Lemma FixedZone_steady off sec :
  int64_min <= sec < int64_max -> zone_steady (FixedZone off) sec = true.
Proof.
  intros H. unfold zone_steady, FixedZone. rewrite Z.eqb_refl. cbn [andb].
  apply andb_true_iff. rewrite Z.leb_le, Z.ltb_lt. lia.
Qed.

#[export] Hint Resolve FixedZone_steady : crane.
