(* ===== verification/K8s.v ===== *)
(** * Kubernetes data the program reads, and the interfaces of its libraries

    The records keep the fields of the Kubernetes and crane API objects that the code under
    src/ mentions; an annotation map is [None] when it is nil. Code that is not in the
    repository is an interface: [QuantityLib] is resource.Quantity, [ResourceLib] the
    scheduler framework's arithmetic on [framework.Resource], [ScoreLib] the framework's score
    bounds. Their laws state documented behaviour and are used only where a theorem says so. *)

From S2P Require Import Prelude GoStrings GoFloat GoTime.

Open Scope string_scope.
Open Scope Z_scope.

(** ** Metadata *)

Abbreviation smap := (gmap string string).

Record OwnerReference := { or_Kind : string; or_Name : string }.

Record ObjectMeta := {
  om_Name : string;
  om_Namespace : string;
  om_Annotations : option smap;
  om_OwnerReferences : list OwnerReference;
  om_DeletionTimestamp : option Z;
  om_ResourceVersion : string }.

Definition meta0 (name : string) : ObjectMeta :=
  {| om_Name := name; om_Namespace := ""; om_Annotations := None; om_OwnerReferences := [];
     om_DeletionTimestamp := None; om_ResourceVersion := "" |}.

(** Reading a nil map is reading an empty one. *)
Definition annos (o : option smap) : smap := default ∅ o.

Record Deployment := { dep_meta : ObjectMeta; dep_Replicas : option Z }.
Record ReplicaSet := { rs_meta : ObjectMeta }.

(** ** Quantities and resource lists *)

Inductive QFormat := DecimalSI | BinarySI.

(** resource.Quantity: [q_zero] is the zero value, [Cmp] is negative, zero or positive, [Value]
    rounds up to an integer, [MilliValue] to thousandths. *)
Class QuantityLib := {
  Quantity : Type;
  q_zero : Quantity;
  Cmp : Quantity -> Quantity -> Z;
  Value : Quantity -> Z;
  MilliValue : Quantity -> Z;
  NewQuantity : Z -> QFormat -> Quantity;
  NewMilliQuantity : Z -> QFormat -> Quantity }.

(** Documented behaviour of quantities, used where a theorem names it. *)
Class QuantityLaws `{QuantityLib} := {
  MilliValue_zero : MilliValue q_zero = 0;
  MilliValue_New : forall v f, MilliValue (NewMilliQuantity v f) = v }.

Abbreviation ResourceList := (gmap string Quantity).

(** A key that is absent from the map reads as the zero value. *)
Definition rl_get `{QuantityLib} (l : ResourceList) (k : string) : Quantity :=
  default q_zero (l !! k).

Definition ResourceCPU : string := "cpu".
Definition ResourceMemory : string := "memory".
Definition ResourceEphemeralStorage : string := "ephemeral-storage".
Definition ResourcePods : string := "pods".

(** framework.Resource; the scalar map is [None] when it is nil. *)
Record Resource := {
  MilliCPU : Z;
  Memory : Z;
  EphemeralStorage : Z;
  AllowedPodNumber : Z;
  ScalarResources : option (gmap string Z) }.

Definition resource0 : Resource :=
  {| MilliCPU := 0; Memory := 0; EphemeralStorage := 0; AllowedPodNumber := 0;
     ScalarResources := None |}.

(** [framework.NewResource], [Resource.Add] and [v1helper.IsHugePageResourceName]. *)
Class ResourceLib `{QuantityLib} := {
  NewResource : ResourceList -> Resource;
  Resource_Add : Resource -> ResourceList -> Resource;
  IsHugePageResourceName : string -> bool }.

(** [framework.MaxNodeScore] and [framework.MinNodeScore]. *)
Class ScoreLib := {
  MaxNodeScore : Z;
  MinNodeScore : Z;
  score_bounds : int64_min <= MinNodeScore <= MaxNodeScore /\ MaxNodeScore <= int64_max }.

Section Objects.
Context `{QL : QuantityLib}.

Record Container := { c_Requests : ResourceList; c_Limits : ResourceList }.

Record Pod := {
  pod_meta : ObjectMeta;
  pod_NodeName : string;
  pod_Containers : list Container }.

Record Node := {
  node_meta : ObjectMeta;
  node_Addresses : list (string * string);
  node_Capacity : ResourceList }.

(** The part of framework.NodeInfo the plugins read. *)
Record NodeInfo := { ni_Node : option Node; ni_Pods : list Pod }.

Definition node_Name (n : Node) : string := om_Name (node_meta n).
Definition node_annos (n : Node) : smap := annos (om_Annotations (node_meta n)).

End Objects.

Definition NodeInternalIP : string := "InternalIP".

(** ** Scheduler statuses *)

Inductive Code := Success | Error | Unschedulable.

(** A nil status is success. A message is kept as its format and arguments, like an error. *)
Abbreviation Status := (option (Code * error)).
Definition NewStatus (c : Code) (msg : error) : Status := Some (c, msg).
Definition AsStatus (e : error) : Status := Some (Error, e).
Definition StatusCode (s : Status) : Code := match s with None => Success | Some (c, _) => c end.
Definition IsSuccess (s : Status) : bool :=
  match s with None | Some (Success, _) => true | _ => false end.

#[global] Instance Code_eq_dec : EqDecision Code.
Proof. solve_decision. Defined.

(** ** Requests to the API server *)

Inductive PatchType := JSONPatch | MergePatch.

Record request := {
  rq_resource : string;
  rq_namespace : string;
  rq_name : string;
  rq_type : PatchType;
  rq_data : string }.

(** The clientset: [None] is a nil error. *)
Definition client := request -> option error.

(** An operation that talks to the API server: the requests it sent, in order, then its result
    or the panic that stopped it. *)
Definition io (A : Type) : Type := list request * go A.

Definition io_ret {A} (a : A) : io A := ([], Ret a).
Definition io_go {A} (m : go A) : io A := ([], m).
Definition io_bind {A B} (m : io A) (k : A -> io B) : io B :=
  match m with
  | (w, Ret a) => let '(w', r) := k a in ((w ++ w')%list, r)
  | (w, Panic s) => (w, Panic s)
  end.

Notation "'let*' x ':=' m 'in' k" := (io_bind m (fun x => k))
  (at level 10, x pattern, m at level 100, k at level 200) : crane_scope.

Definition send (cl : client) (rq : request) : io (option error) := ([rq], Ret (cl rq)).

Lemma io_bind_ret {A B} (a : A) (k : A -> io B) : io_bind (io_ret a) k = k a.
Proof. unfold io_bind, io_ret. by destruct (k a). Qed.

Lemma io_bind_assoc {A B C} (m : io A) (f : A -> io B) (g : B -> io C) :
  io_bind (io_bind m f) g = io_bind m (fun a => io_bind (f a) g).
Proof.
  destruct m as [w [a|s]]; [|done]. unfold io_bind.
  destruct (f a) as [w' [b|s']]; [|done]. destruct (g b) as [w'' r].
  by rewrite app_assoc.
Qed.

#[export] Hint Rewrite @io_bind_ret : crane.

(** ** The topology API (github.com/gocrane/api/topology/v1alpha1) *)

Section TopologyAPI.
Context `{QL : QuantityLib}.

Record ResourceInfo := { ri_Capacity : ResourceList; ri_Allocatable : ResourceList }.

Record Zone := { z_Name : string; z_Type : string; z_Resources : option ResourceInfo }.

Record NodeResourceTopology := {
  nrt_CPUManagerPolicy : string;
  nrt_TopologyManagerPolicy : string;
  nrt_Zones : list Zone }.

End TopologyAPI.

(** The constants the plugin names; their values are not in the repository. *)
Class TopologyNames := {
  AnnotationPodTopologyAwarenessKey : string;
  AnnotationPodCPUPolicyKey : string;
  AnnotationPodTopologyResultKey : string;
  AnnotationPodCPUPolicyNone : string;
  AnnotationPodCPUPolicyExclusive : string;
  AnnotationPodCPUPolicyNUMA : string;
  AnnotationPodCPUPolicyImmovable : string;
  ZoneTypeNode : string;
  CPUManagerPolicyStatic : string;
  TopologyManagerPolicySingleNUMANodePodLevel : string }.

(** JSON of zones and pods, and jsonpatch.CreateMergePatch. *)
Class TopologyCodec `{QuantityLib} := {
  MarshalZones : list Zone -> result string;
  UnmarshalZones : string -> result (list Zone);
  MarshalPod : Pod -> result string;
  CreateMergePatch : string -> string -> result string }.

(** [framework.GetPodKey]: the key of a pod in the caches, an error when the pod has none. *)
Class PodKeys `{QuantityLib} := { GetPodKey : Pod -> result string }.

(** ** sort.Slice

    The documented contract: the elements in an order in which no later element is less than an
    earlier one, ties in any order (the sort is not stable). *)
Class SortSlice := {
  sort_Slice : forall {A : Type}, (A -> A -> bool) -> list A -> list A;
  sort_Slice_perm : forall A (less : A -> A -> bool) l, sort_Slice less l ≡ₚ l;
  sort_Slice_sorted : forall A (less : A -> A -> bool) l,
    (forall a b, less a b = true -> less b a = false) ->
    (forall a b c, less b a = false -> less c b = false -> less c a = false) ->
    StronglySorted (fun a b => less b a = false) (sort_Slice less l) }.

(** ** Concrete instances

    They show that the interfaces can be met: quantities as thousandths, resources accumulated
    key by key, scores from 0 to 100. Theorems are proved for any instance; only witnesses use
    these. *)

Definition MilliQuantities : QuantityLib := {|
  Quantity := Z;
  q_zero := 0;
  Cmp := fun a b => a - b;
  Value := fun q => (q + 999) / 1000;
  MilliValue := fun q => q;
  NewQuantity := fun v _ => v * 1000;
  NewMilliQuantity := fun v _ => v |}.

Definition MilliQuantities_laws : @QuantityLaws MilliQuantities.
Proof. split; reflexivity. Defined.

Definition ZeroToHundred : ScoreLib.
Proof. refine {| MaxNodeScore := 100; MinNodeScore := 0 |}. unfold int64_min, int64_max. lia. Defined.

Definition add_quantity (k : string) (q : Z) (r : Resource) : Resource :=
  if String.eqb k ResourceCPU then
    {| MilliCPU := MilliCPU r + q; Memory := Memory r; EphemeralStorage := EphemeralStorage r;
       AllowedPodNumber := AllowedPodNumber r; ScalarResources := ScalarResources r |}
  else if String.eqb k ResourceMemory then
    {| MilliCPU := MilliCPU r; Memory := Memory r + (q + 999) / 1000;
       EphemeralStorage := EphemeralStorage r;
       AllowedPodNumber := AllowedPodNumber r; ScalarResources := ScalarResources r |}
  else if String.eqb k ResourceEphemeralStorage then
    {| MilliCPU := MilliCPU r; Memory := Memory r;
       EphemeralStorage := EphemeralStorage r + (q + 999) / 1000;
       AllowedPodNumber := AllowedPodNumber r; ScalarResources := ScalarResources r |}
  else if String.eqb k ResourcePods then
    {| MilliCPU := MilliCPU r; Memory := Memory r; EphemeralStorage := EphemeralStorage r;
       AllowedPodNumber := AllowedPodNumber r + (q + 999) / 1000;
       ScalarResources := ScalarResources r |}
  else
    let m := default ∅ (ScalarResources r) in
    {| MilliCPU := MilliCPU r; Memory := Memory r; EphemeralStorage := EphemeralStorage r;
       AllowedPodNumber := AllowedPodNumber r;
       ScalarResources := Some (<[k := default 0 (m !! k) + (q + 999) / 1000]> m) |}.

Definition add_quantities (r : Resource) (l : gmap string (@Quantity MilliQuantities))
    : Resource :=
  map_fold add_quantity r (l : gmap string Z).

Definition MilliResources : @ResourceLib MilliQuantities :=
  @Build_ResourceLib MilliQuantities (add_quantities resource0) add_quantities
    (fun k => has_prefix k "hugepages-").

Definition ExampleTopologyNames : TopologyNames := {|
  AnnotationPodTopologyAwarenessKey := "topology/awareness";
  AnnotationPodCPUPolicyKey := "topology/cpu-policy";
  AnnotationPodTopologyResultKey := "topology/result";
  AnnotationPodCPUPolicyNone := "none";
  AnnotationPodCPUPolicyExclusive := "exclusive";
  AnnotationPodCPUPolicyNUMA := "numa";
  AnnotationPodCPUPolicyImmovable := "immovable";
  ZoneTypeNode := "Node";
  CPUManagerPolicyStatic := "Static";
  TopologyManagerPolicySingleNUMANodePodLevel := "SingleNUMANodePodLevel" |}.

(** Insertion sort meets the contract of [sort.Slice]. *)
Fixpoint insert_by {A} (less : A -> A -> bool) (x : A) (l : list A) : list A :=
  match l with
  | [] => [x]
  | y :: l' => if less y x then y :: insert_by less x l' else x :: l
  end.

Definition sort_by {A} (less : A -> A -> bool) (l : list A) : list A := foldr (insert_by less) [] l.

Lemma insert_by_perm {A} less (x : A) l : insert_by less x l ≡ₚ x :: l.
Proof.
  induction l as [|y l IH]; simpl; [done|]. destruct (less y x); [|done].
  rewrite IH. apply perm_swap.
Qed.

Lemma sort_by_perm {A} less (l : list A) : sort_by less l ≡ₚ l.
Proof. induction l as [|x l IH]; simpl; [done|]. by rewrite insert_by_perm, IH. Qed.

Lemma insert_by_sorted {A} (less : A -> A -> bool) x l :
  (forall a b, less a b = true -> less b a = false) ->
  (forall a b c, less b a = false -> less c b = false -> less c a = false) ->
  StronglySorted (fun a b => less b a = false) l ->
  StronglySorted (fun a b => less b a = false) (insert_by less x l).
Proof.
  intros Ha Ht. induction 1 as [|y l Hs IH Hy]; simpl; [repeat constructor|].
  destruct (less y x) eqn:E.
  - constructor; [done|]. rewrite insert_by_perm. constructor; [by apply Ha|done].
  - constructor; [by constructor|]. constructor; [done|].
    eapply Forall_impl; [exact Hy|]. simpl. intros z Hz. by apply (Ht x y z).
Qed.

Definition InsertionSort : SortSlice.
Proof.
  refine {| sort_Slice := @sort_by |}.
  - intros A less l. apply sort_by_perm.
  - intros A less l Ha Ht. induction l as [|x l IH]; simpl; [constructor|].
    by apply insert_by_sorted.
Defined.
