(* ===== verification/Policy.v ===== *)
(** * Scheduler policy (pkg/plugins/apis/policy/types.go)

    The internal policy types, field by field; durations are nanoseconds, thresholds and weights
    are [float64]. *)

From S2P Require Import Prelude GoFloat GoTime.

Open Scope string_scope.

Record SyncPolicy := { sync_Name : string; sync_Period : Duration }.

Record PredicatePolicy := { pred_Name : string; MaxLimitPecent : f64 }.

Record PriorityPolicy := { prio_Name : string; prio_Weight : f64 }.

Record HotValuePolicy := { hv_TimeRange : Duration; hv_Count : Z }.

Record PolicySpec := {
  SyncPeriod : list SyncPolicy;
  SyncAppPeriod : list SyncPolicy;
  Predicate : list PredicatePolicy;
  Priority : list PriorityPolicy;
  HotValue : list HotValuePolicy }.

Record DynamicSchedulerPolicy := { policy_APIVersion : string; Spec : PolicySpec }.

(** ** The served version (pkg/plugins/apis/policy/v1alpha1)

    The types carry JSON names but have the same fields; the generated conversions copy field by
    field (the lists through an unsafe cast, which is the identity on equal layouts). *)

Module v1alpha1.

Record SyncPolicy1 := { Name : string; Period : Duration }.
Record PredicatePolicy1 := { PredName : string; PredMaxLimitPecent : f64 }.
Record PriorityPolicy1 := { PrioName : string; Weight : f64 }.
Record HotValuePolicy1 := { TimeRange : Duration; Count : Z }.

Record PolicySpec1 := {
  SyncPeriod1 : list SyncPolicy1;
  SyncAppPeriod1 : list SyncPolicy1;
  Predicate1 : list PredicatePolicy1;
  Priority1 : list PriorityPolicy1;
  HotValue1 : list HotValuePolicy1 }.

Record DynamicSchedulerPolicy1 := { Spec1 : PolicySpec1 }.

Definition Convert_SyncPolicy_To_policy (i : SyncPolicy1) : SyncPolicy :=
  {| sync_Name := Name i; sync_Period := Period i |}.
Definition Convert_policy_To_SyncPolicy (i : SyncPolicy) : SyncPolicy1 :=
  {| Name := sync_Name i; Period := sync_Period i |}.
Definition Convert_PredicatePolicy_To_policy (i : PredicatePolicy1) : PredicatePolicy :=
  {| pred_Name := PredName i; MaxLimitPecent := PredMaxLimitPecent i |}.
Definition Convert_policy_To_PredicatePolicy (i : PredicatePolicy) : PredicatePolicy1 :=
  {| PredName := pred_Name i; PredMaxLimitPecent := MaxLimitPecent i |}.
Definition Convert_PriorityPolicy_To_policy (i : PriorityPolicy1) : PriorityPolicy :=
  {| prio_Name := PrioName i; prio_Weight := Weight i |}.
Definition Convert_policy_To_PriorityPolicy (i : PriorityPolicy) : PriorityPolicy1 :=
  {| PrioName := prio_Name i; Weight := prio_Weight i |}.
Definition Convert_HotValuePolicy_To_policy (i : HotValuePolicy1) : HotValuePolicy :=
  {| hv_TimeRange := TimeRange i; hv_Count := Count i |}.
Definition Convert_policy_To_HotValuePolicy (i : HotValuePolicy) : HotValuePolicy1 :=
  {| TimeRange := hv_TimeRange i; Count := hv_Count i |}.

Definition Convert_PolicySpec_To_policy (i : PolicySpec1) : PolicySpec :=
  {| SyncPeriod := List.map Convert_SyncPolicy_To_policy (SyncPeriod1 i);
     SyncAppPeriod := List.map Convert_SyncPolicy_To_policy (SyncAppPeriod1 i);
     Predicate := List.map Convert_PredicatePolicy_To_policy (Predicate1 i);
     Priority := List.map Convert_PriorityPolicy_To_policy (Priority1 i);
     HotValue := List.map Convert_HotValuePolicy_To_policy (HotValue1 i) |}.
Definition Convert_policy_To_PolicySpec (i : PolicySpec) : PolicySpec1 :=
  {| SyncPeriod1 := List.map Convert_policy_To_SyncPolicy (SyncPeriod i);
     SyncAppPeriod1 := List.map Convert_policy_To_SyncPolicy (SyncAppPeriod i);
     Predicate1 := List.map Convert_policy_To_PredicatePolicy (Predicate i);
     Priority1 := List.map Convert_policy_To_PriorityPolicy (Priority i);
     HotValue1 := List.map Convert_policy_To_HotValuePolicy (HotValue i) |}.

(** The metadata is not converted: the API version of the result is empty. *)
Definition Convert_DynamicSchedulerPolicy_To_policy (i : DynamicSchedulerPolicy1)
    : DynamicSchedulerPolicy :=
  {| policy_APIVersion := ""; Spec := Convert_PolicySpec_To_policy (Spec1 i) |}.
Definition Convert_policy_To_DynamicSchedulerPolicy (i : DynamicSchedulerPolicy)
    : DynamicSchedulerPolicy1 :=
  {| Spec1 := Convert_policy_To_PolicySpec (Spec i) |}.

Lemma policy_spec_roundtrip s :
  Convert_PolicySpec_To_policy (Convert_policy_To_PolicySpec s) = s.
Proof.
  destruct s as [a b c d e].
  unfold Convert_PolicySpec_To_policy, Convert_policy_To_PolicySpec. simpl.
  rewrite !List.map_map. f_equal; (rewrite <- List.map_id; apply List.map_ext; by intros []).
Qed.

Lemma policy_spec_roundtrip' s :
  Convert_policy_To_PolicySpec (Convert_PolicySpec_To_policy s) = s.
Proof.
  destruct s as [a b c d e].
  unfold Convert_PolicySpec_To_policy, Convert_policy_To_PolicySpec. simpl.
  rewrite !List.map_map. f_equal; (rewrite <- List.map_id; apply List.map_ext; by intros []).
Qed.

End v1alpha1.

(** ** pkg/utils/policyfile.go

    [ReadFile] reads the file; [Decode] is the codec's universal decoder, which converts to the
    internal type and also returns the group and version the file names: [None] when the object
    is of another type. *)

Definition loadPolicy (Decode : string -> result (option DynamicSchedulerPolicy * string))
    (data : string) : result DynamicSchedulerPolicy :=
  match Decode data with
  | Err e => Err e
  | Ok (Some policyObj, gvk) => Ok {| policy_APIVersion := gvk; Spec := Spec policyObj |}
  | Ok (None, gvk) => Err (Errorf "couldn't decode as DynamicSchedulerPolicy, got %s: " [gvk])
  end.

Definition LoadPolicyFromFile (ReadFile : string -> result string)
    (Decode : string -> result (option DynamicSchedulerPolicy * string)) (file : string)
    : result DynamicSchedulerPolicy :=
  match ReadFile file with
  | Err e => Err e
  | Ok data => loadPolicy Decode data
  end.
