(* ===== verification/Utils.v ===== *)
(** * pkg/utils

    The helpers the scheduler plugins and the annotator share: annotation values are
    "value,timestamp" strings (written by [PatchNodeAnnotation], read by [GetResourceUsage] and
    [GetResourceUsageRange]), ranges are "|"-separated lists of numbers ([MergeUsageRange],
    [ParseRangeMetricsByString]). An operation that reads the clock takes the reading [now]; the
    process environment is the record [Env]. A JSON patch is the text the code renders; what the API
    server makes of it is the class [JSONPatchServer], the documented behaviour of the three
    operations. *)

From S2P Require Import Prelude GoStrings GoFloat GoFloatOrder GoTime K8s Policy.

Open Scope string_scope.
Open Scope Z_scope.

Definition TimeFormat : string := "2006-01-02T15:04:05Z".
Definition DefaultTimeZone : string := "Asia/Shanghai".
Definition DefaultNamespace : string := "crane-system".
Definition DeltaPrefixName : string := "delta_".
Definition RangePrefix : string := "range".
Definition MergeTypeAdd : string := "addition".
Definition MergeTypeSub : string := "subtraction".
Definition MinTimestampStrLength : nat := 5.
Definition ExtraActivePeriod : Duration := 5 * Minute.

(** The environment variables the program reads, and [time.LoadLocation], which reads the
    host's time zone database. *)
Record Env := {
  env_TZ : string;
  env_CRANE_SYSTEM_NAMESPACE : string;
  LoadLocation : string -> option Location }.

(** An environment whose time zone database has one zone, at a fixed offset. *)
Definition fixed_env (off : Z) : Env :=
  {| env_TZ := ""; env_CRANE_SYSTEM_NAMESPACE := ""; LoadLocation := fun _ => Some (FixedZone off) |}.

Definition GetLocation (env : Env) : option Location :=
  let zone := env_TZ env in
  let zone := if String.eqb zone "" then DefaultTimeZone else zone in
  LoadLocation env zone.

(** With no location the first [Format] is computed and dropped, and [Time.In] panics. *)
Definition GetLocalTime (env : Env) (now : Z) : go string :=
  match GetLocation env with
  | None => Panic "time: missing Location in call to Time.In"
  | Some loc => Ret (Format now loc)
  end.

Definition GetSystemNamespace (env : Env) : string :=
  let ns := env_CRANE_SYSTEM_NAMESPACE env in
  if String.eqb ns "" then DefaultNamespace else ns.

Definition NormalizeScore (value max min : Z) : Z :=
  let value := if value <? min then min else value in
  if max <? value then max else value.

(** ** Owners *)

Section Owners.
Context `{QL : QuantityLib}.

Definition IsDaemonsetPod (pod : Pod) : bool :=
  existsb (fun r => String.eqb (or_Kind r) "DaemonSet") (om_OwnerReferences (pod_meta pod)).

(** Listers: namespace, then name. *)
Variable rsLister : string -> string -> result ReplicaSet.
Variable deployLister : string -> string -> result Deployment.

Fixpoint deployment_of_rs (ns : string) (refs : list OwnerReference)
    : option (result Deployment) :=
  match refs with
  | [] => None
  | r :: refs' =>
      if String.eqb (or_Kind r) "Deployment" then
        match deployLister ns (or_Name r) with
        | Ok d => Some (Ok d)
        | Err e => Some (Err (Wrapf "get deployment by replicaSet failed: %v" [] e))
        end
      else deployment_of_rs ns refs'
  end.

Fixpoint deployment_of_refs (ns : string) (refs : list OwnerReference)
    : option (result Deployment) :=
  match refs with
  | [] => None
  | r :: refs' =>
      if String.eqb (or_Kind r) "ReplicaSet" then
        match rsLister ns (or_Name r) with
        | Err e => Some (Err (Wrapf "get replicaSet by pod failed: %v" [] e))
        | Ok rs =>
            match deployment_of_rs ns (om_OwnerReferences (rs_meta rs)) with
            | Some res => Some res
            | None => deployment_of_refs ns refs'
            end
        end
      else deployment_of_refs ns refs'
  end.

Definition GetDeploymentByPod (pod : Pod) : result Deployment :=
  match deployment_of_refs (om_Namespace (pod_meta pod)) (om_OwnerReferences (pod_meta pod)) with
  | Some res => res
  | None => Err (Errorf "could not find Deployment for pod %s" [om_Name (pod_meta pod)])
  end.

End Owners.

(** ** Reading annotations *)

Definition InActivePeriod (env : Env) (now : Z) (updatetimeStr : string)
    (activeDuration : Duration) : go bool :=
  if (String.length updatetimeStr <? MinTimestampStrLength)%nat then Ret false
  else
    let! t := ParseInLocation updatetimeStr (GetLocation env) in
    match t with
    | None => Ret false
    | Some originUpdateTime => Ret (now <? originUpdateTime + activeDuration)
    end.

Definition GetResourceUsage (env : Env) (now : Z) (anno : smap) (key : string)
    (activeDuration : Duration) : go (result f64) :=
  match anno !! key with
  | None => Ret (Err (Errorf "key[%s] not found" [""]))
  | Some usedstr =>
      match split "," usedstr with
      | [v; ts] =>
          let! active := InActivePeriod env now ts activeDuration in
          if negb active then Ret (Err (Errorf "timestamp[%s] is expired" [usedstr]))
          else
            match ParseFloat v with
            | Err _ => Ret (Err (Errorf "failed to parse float[%s]" [v]))
            | Ok UsedValue =>
                if fltb UsedValue f64_zero then Ret (Err (Errorf "illegel value: %s" [usedstr]))
                else Ret (Ok UsedValue)
            end
      | _ => Ret (Err (Errorf "illegel value: %s" [usedstr]))
      end
  end.

Definition GetResourceUsageRange (env : Env) (now : Z) (anno : smap) (key : string)
    (activeDuration : Duration) : go (result string) :=
  match anno !! key with
  | None => Ret (Ok "")
  | Some usedstr =>
      match split "," usedstr with
      | [v; ts] =>
          let! active := InActivePeriod env now ts activeDuration in
          if negb active then Ret (Err (Errorf "timestamp[%s] is expired" [usedstr]))
          else Ret (Ok v)
      | _ => Ret (Err (Errorf "illegel value: %s" [usedstr]))
      end
  end.

Fixpoint GetActiveDuration (syncPeriodList : list SyncPolicy) (name : string)
    : result Duration :=
  match syncPeriodList with
  | [] => Err (Errorf "failed to get the active duration" [])
  | period :: rest =>
      if String.eqb (sync_Name period) name && negb (sync_Period period =? 0)
      then Ok (wrap64 (sync_Period period + ExtraActivePeriod))
      else GetActiveDuration rest name
  end.

Definition GetDeltaUsageRange (anno : smap) (key : string) : result string :=
  match anno !! key with
  | None => Ok ""
  | Some deltaStr =>
      match split "," deltaStr with
      | [v; _] => Ok v
      | _ => Err (Errorf "illegel value: %s" [deltaStr])
      end
  end.

(** ** Ranges *)

Fixpoint parse_all (l : list string) : result (list f64) :=
  match l with
  | [] => Ok []
  | v :: l' =>
      match ParseFloat v with
      | Err e => Err e
      | Ok fv =>
          match parse_all l' with Err e => Err e | Ok fvs => Ok (fv :: fvs) end
      end
  end.

Definition ParseRangeMetricsByString (str : string) : result (list f64) :=
  parse_all (split "|" str).

(** The merge loop over [deltaUsages]; [deployUsages[i]] out of range panics. *)
Fixpoint merge_loop (op : f64 -> f64 -> f64) (deltas deploys : list f64) : go string :=
  match deltas with
  | [] => Ret ""
  | v :: deltas' =>
      match deploys with
      | [] => Panic "runtime error: index out of range"
      | w :: deploys' =>
          let usage := FormatFloat5 (op v w) in
          let! rest := merge_loop op deltas' deploys' in
          Ret (match deltas' with [] => usage ++ rest | _ => usage ++ String "|" rest end)
      end
  end.

Definition MergeUsageRange (deltaStr deployStr mergeType : string) : go (result string) :=
  if String.eqb deltaStr "" && String.eqb mergeType MergeTypeAdd then Ret (Ok deployStr)
  else
    match ParseRangeMetricsByString deployStr with
    | Err e => Ret (Err (Wrapf "parse deployment range metrics %s failed: %v" [deployStr] e))
    | Ok deployUsages =>
        let deltas : result (list f64 * bool) :=
          if String.eqb deltaStr "" then Ok ([], false)
          else
            match ParseRangeMetricsByString deltaStr with
            | Err e => Err (Wrapf "parse node delta range metrics %s failed: %v" [deltaStr] e)
            | Ok deltaUsages =>
                if (length deployUsages <? length deltaUsages)%nat then
                  Err (Errorf
                    "delta usages length %d more than the deployment usages length %d"
                    [Itoa (Z.of_nat (length deltaUsages));
                     Itoa (Z.of_nat (length deployUsages))])
                else Ok (deltaUsages, (length deltaUsages =? length deployUsages)%nat)
            end in
        match deltas with
        | Err e => Ret (Err e)
        | Ok (deltaUsages, mergeFlag) =>
            let deltaUsages :=
              if mergeFlag then deltaUsages else replicate (length deployUsages) f64_zero in
            if String.eqb mergeType MergeTypeAdd then
              let! r := merge_loop fadd deltaUsages deployUsages in Ret (Ok r)
            else if String.eqb mergeType MergeTypeSub then
              let! r := merge_loop fsub deltaUsages deployUsages in Ret (Ok r)
            else Ret (Ok "")
        end
    end.

(** ** Writing annotations *)

(** The JSON patch with one operation; neither the key nor the value is escaped. *)
Definition patch_annotation (operator key value : string) : string :=
  "[{" ++ nl
  ++ tab ++ tab ++ dq ++ "op" ++ dq ++ ": " ++ dq ++ operator ++ dq ++ "," ++ nl
  ++ tab ++ tab ++ dq ++ "path" ++ dq ++ ": " ++ dq ++ "/metadata/annotations/" ++ key ++ dq
  ++ "," ++ nl
  ++ tab ++ tab ++ dq ++ "value" ++ dq ++ ": " ++ dq ++ value ++ dq ++ nl
  ++ tab ++ "}]".

Definition patch_remove (operator key : string) : string :=
  "[{" ++ nl
  ++ tab ++ tab ++ dq ++ "op" ++ dq ++ ": " ++ dq ++ operator ++ dq ++ "," ++ nl
  ++ tab ++ tab ++ dq ++ "path" ++ dq ++ ": " ++ dq ++ "/metadata/annotations/" ++ key ++ dq ++ nl
  ++ tab ++ "}]".

Section Patch.
Context `{QL : QuantityLib} (env : Env) (kubeClient : client).

Definition node_patch (node : Node) (data : string) : request :=
  {| rq_resource := "nodes"; rq_namespace := ""; rq_name := node_Name node;
     rq_type := JSONPatch; rq_data := data |}.

Definition send_node_patch (node : Node) (data : string) : io (option error) :=
  let* err := send kubeClient (node_patch node data) in
  match err with
  | Some e => io_ret (Some (Wrapf "patch node failed: %v" [] e))
  | None => io_ret None
  end.

Definition patch_operator (anno : smap) (key : string) : string :=
  match anno !! key with Some _ => "replace" | None => "add" end.

Definition PatchNodeAnnotation (now : Z) (node : Node) (key value : string)
    : io (option error) :=
  let operator := patch_operator (node_annos node) key in
  let* ts := io_go (GetLocalTime env now) in
  send_node_patch node (patch_annotation operator key (value ++ String "," ts)).

Definition DeleteNodeAnnotation (node : Node) (key : string) : io (option error) :=
  send_node_patch node (patch_remove "remove" key).

End Patch.


(** ** Properties *)

Lemma NormalizeScore_clamp value max min :
  min <= max -> NormalizeScore value max min = Z.max min (Z.min value max).
Proof.
  intros H. unfold NormalizeScore.
  repeat case_match; breflect; lia.
Qed.

(** [InActivePeriod] panics only on a timestamp that parses while no location is loaded. *)
Lemma InActivePeriod_returns env now ts d :
  GetLocation env <> None -> exists b, InActivePeriod env now ts d = Ret b.
Proof.
  intros Hl. unfold InActivePeriod. destruct (_ <? _)%nat; [eauto|].
  unfold ParseInLocation. destruct (parse_fields ts) as [[[[[[[y m] dd] h] mi] s] ns]|]; simpl; [|eauto].
  destruct (GetLocation env); [simpl; eauto|done].
Qed.

Lemma InActivePeriod_Format env loc now t d :
  GetLocation env = Some loc -> 0 <= year_of t loc < 10000 ->
  zone_steady loc (t / Second) = true ->
  InActivePeriod env now (Format t loc) d = Ret (now <? t / Second * Second + d).
Proof.
  intros Hl Hy Hz. unfold InActivePeriod. rewrite Format_length by done. cbn [Nat.ltb Nat.leb].
  rewrite Hl, parse_format_roundtrip by done. done.
Qed.

Lemma GetResourceUsage_returns env now anno key d :
  GetLocation env <> None -> exists r, GetResourceUsage env now anno key d = Ret r.
Proof.
  intros Hl. unfold GetResourceUsage. destruct (anno !! key) as [s|]; [|eauto].
  destruct (split "," s) as [|v [|ts [|]]]; eauto.
  destruct (InActivePeriod_returns env now ts d Hl) as [b ->]. simpl.
  destruct b; simpl; [|eauto]. destruct (ParseFloat v); [|eauto]. destruct (fltb _ _); eauto.
Qed.

Lemma GetResourceUsage_Ok env now anno key d v :
  GetResourceUsage env now anno key d = Ret (Ok v) <->
  exists s ts,
    anno !! key = Some (s ++ String "," ts) /\ no_char "," s = true /\ no_char "," ts = true /\
    InActivePeriod env now ts d = Ret true /\ ParseFloat s = Ok v /\ fltb v f64_zero = false.
Proof.
  unfold GetResourceUsage. split.
  - destruct (anno !! key) as [u|]; [|done].
    destruct (split "," u) as [|s [|ts [|]]] eqn:Hs; try done.
    apply split_two in Hs as (-> & Ha & Hb).
    destruct (InActivePeriod env now ts d) as [[]|] eqn:Hi; simpl; try done.
    destruct (ParseFloat s) as [w|] eqn:Hp; [|done].
    destruct (fltb w f64_zero) eqn:Hn; [done|]. intros [= ->]. eauto 10.
  - intros (s & ts & -> & Ha & Hb & Hi & Hp & Hn).
    rewrite (proj2 (split_two "," _ s ts)) by done. rewrite Hi. simpl. by rewrite Hp, Hn.
Qed.

(** What an annotation written at time [t] reads as at time [now]. *)
Lemma GetResourceUsage_written env loc anno key x t now d :
  GetLocation env = Some loc -> 0 <= year_of t loc < 10000 ->
  zone_steady loc (t / Second) = true ->
  anno !! key = Some (FormatFloat5 x ++ String "," (Format t loc)) ->
  fltb x f64_zero = false -> is_f64 x = true ->
  GetResourceUsage env now anno key d =
  Ret (if now <? t / Second * Second + d then Ok (round5 x)
       else Err (Errorf "timestamp[%s] is expired" [FormatFloat5 x ++ String "," (Format t loc)])).
Proof.
  intros Hl Hy Hz Ha Hx Hi. unfold GetResourceUsage. rewrite Ha.
  rewrite (proj2 (split_two "," _ (FormatFloat5 x) (Format t loc)))
    by (split_and!; [done|apply FormatFloat5_no_char|apply Format_no_char]; done).
  rewrite (InActivePeriod_Format env loc) by done. simpl.
  destruct (now <? _); simpl; [|done].
  rewrite ParseFloat_FormatFloat5 by by apply round5_inf. by rewrite round5_nonneg.
Qed.

Lemma GetResourceUsageRange_returns env now anno key d :
  GetLocation env <> None -> exists r, GetResourceUsageRange env now anno key d = Ret r.
Proof.
  intros Hl. unfold GetResourceUsageRange. destruct (anno !! key) as [s|]; [|eauto].
  destruct (split "," s) as [|v [|ts [|]]]; eauto.
  destruct (InActivePeriod_returns env now ts d Hl) as [b ->]. simpl. destruct b; simpl; eauto.
Qed.

Lemma GetResourceUsageRange_written env loc anno key v t now d :
  GetLocation env = Some loc -> 0 <= year_of t loc < 10000 ->
  zone_steady loc (t / Second) = true -> no_char "," v = true ->
  anno !! key = Some (v ++ String "," (Format t loc)) ->
  GetResourceUsageRange env now anno key d =
  Ret (if now <? t / Second * Second + d then Ok v
       else Err (Errorf "timestamp[%s] is expired" [v ++ String "," (Format t loc)])).
Proof.
  intros Hl Hy Hz Hv Ha. unfold GetResourceUsageRange. rewrite Ha.
  rewrite (proj2 (split_two "," _ v (Format t loc)))
    by (split_and!; [done|done|apply Format_no_char; done]).
  rewrite (InActivePeriod_Format env loc) by done. simpl. by destruct (now <? _).
Qed.

Lemma GetActiveDuration_Ok l name d :
  GetActiveDuration l name = Ok d <->
  exists l1 p l2, l = (l1 ++ p :: l2)%list /\ sync_Name p = name /\ sync_Period p <> 0 /\
    d = wrap64 (sync_Period p + ExtraActivePeriod) /\
    Forall (fun q => sync_Name q = name -> sync_Period q = 0) l1.
Proof.
  induction l as [|p l IH]; simpl.
  { split; [done|]. intros (l1 & q & l2 & H & _). by destruct l1. }
  destruct (String.eqb (sync_Name p) name && negb (sync_Period p =? 0)) eqn:E.
  - breflect. split.
    + intros [= <-]. exists [], p, l. eauto.
    + intros (l1 & q & l2 & Hl & Hn & Hp & -> & Hf). destruct l1 as [|r l1]; simplify_eq/=; [done|].
      apply Forall_cons in Hf as [Hf _]. naive_solver.
  - rewrite IH. apply andb_false_iff in E. split.
    + intros (l1 & q & l2 & -> & Hn & Hp & -> & Hf). exists (p :: l1), q, l2.
      split_and!; try done. constructor; [|done]. intros Hpn.
      destruct E as [E|E]; breflect; naive_solver.
    + intros (l1 & q & l2 & Hl & Hn & Hp & -> & Hf). destruct l1 as [|r l1]; simplify_eq/=.
      * destruct E as [E|E]; breflect; done.
      * apply Forall_cons in Hf as [_ Hf]. eauto 10.
Qed.

(** *** Ranges *)

Lemma merge_loop_spec op ds ws :
  length ds = length ws ->
  merge_loop op ds ws = Ret (join "|" (List.map FormatFloat5 (zip_with op ds ws))).
Proof.
  revert ws. induction ds as [|d ds IH]; intros [|w ws] Hl; try done.
  cbn [merge_loop]. rewrite IH by (simpl in Hl; lia). simpl.
  destruct ds as [|d' ds]; destruct ws as [|w' ws]; try done. simpl. by rewrite app_string_nil_r.
Qed.

Lemma parse_all_map (xs : list f64) :
  forallb is_f64 xs = true -> parse_all (List.map FormatFloat5 xs) = Ok (List.map round5 xs).
Proof.
  induction xs as [|x xs IH]; simpl; [done|]. intros [Hx Hxs]%andb_prop.
  by rewrite ParseFloat_FormatFloat5, IH by (done || by apply round5_inf).
Qed.

Lemma parse_range_join (xs : list f64) :
  xs <> [] -> forallb is_f64 xs = true ->
  ParseRangeMetricsByString (join "|" (List.map FormatFloat5 xs)) = Ok (List.map round5 xs).
Proof.
  intros Hne Hf. unfold ParseRangeMetricsByString. rewrite split_join.
  - by apply parse_all_map.
  - by destruct xs.
  - apply forallb_forall. intros s (x & <- & _)%in_map_iff. by apply FormatFloat5_no_char.
Qed.

Lemma parse_all_length l xs : parse_all l = Ok xs -> length xs = length l.
Proof.
  revert xs. induction l as [|v l IH]; simpl; intros xs; [by intros [= <-]|].
  destruct (ParseFloat v); [|done]. destruct (parse_all l); [|done].
  intros [= <-]. simpl. f_equal. by apply IH.
Qed.

Lemma parse_all_closed l xs : parse_all l = Ok xs -> forallb is_f64 xs = true.
Proof.
  revert xs. induction l as [|v l IH]; simpl; intros xs; [by intros [= <-]|].
  destruct (ParseFloat v) eqn:Hv; [|done]. destruct (parse_all l); [|done].
  intros [= <-]. simpl. rewrite (ParseFloat_closed v) by done. by apply IH.
Qed.

Lemma parse_range_closed s xs : ParseRangeMetricsByString s = Ok xs -> forallb is_f64 xs = true.
Proof. apply parse_all_closed. Qed.

Lemma parse_range_nonempty s xs : ParseRangeMetricsByString s = Ok xs -> xs <> [].
Proof.
  unfold ParseRangeMetricsByString. intros H%parse_all_length ->.
  destruct (split "|" s) eqn:E; [by eapply split_nonempty|done].
Qed.

(** The deltas the merge uses: those of the string when they match the deployment's in number,
    zeros otherwise. *)
Definition effective_deltas (ds ws : list f64) : list f64 :=
  if (length ds =? length ws)%nat then ds else replicate (length ws) f64_zero.

Lemma effective_deltas_length ds ws : length (effective_deltas ds ws) = length ws.
Proof.
  unfold effective_deltas. destruct (Nat.eqb_spec (length ds) (length ws)); [done|].
  apply length_replicate.
Qed.

Lemma effective_deltas_closed ds ws :
  forallb is_f64 ds = true -> forallb is_f64 (effective_deltas ds ws) = true.
Proof.
  unfold effective_deltas. case_match; [done|]. intros _. clear. induction (length ws) as [|n IH]; [done|]. exact IH.
Qed.

Lemma MergeUsageRange_merge op mergeType deltaStr deployStr ds ws :
  (mergeType = MergeTypeAdd /\ op = fadd \/ mergeType = MergeTypeSub /\ op = fsub) ->
  deltaStr <> "" -> ParseRangeMetricsByString deltaStr = Ok ds ->
  ParseRangeMetricsByString deployStr = Ok ws -> (length ds <= length ws)%nat ->
  MergeUsageRange deltaStr deployStr mergeType =
  Ret (Ok (join "|" (List.map FormatFloat5 (zip_with op (effective_deltas ds ws) ws)))).
Proof.
  intros Hm Hne Hd Hw Hl. unfold MergeUsageRange. apply String.eqb_neq in Hne. rewrite Hne, Hw, Hd.
  cbn [andb]. destruct (Nat.ltb_spec (length ws) (length ds)); [lia|]. cbv zeta.
  fold (effective_deltas ds ws).
  destruct Hm as [[-> ->]|[-> ->]]; simpl;
    by rewrite merge_loop_spec by apply effective_deltas_length.
Qed.

Lemma MergeUsageRange_returns deltaStr deployStr mergeType :
  exists r, MergeUsageRange deltaStr deployStr mergeType = Ret r.
Proof.
  unfold MergeUsageRange. destruct (_ && _); [eauto|].
  destruct (ParseRangeMetricsByString deployStr) as [ws|e]; [|eauto].
  destruct (if String.eqb deltaStr "" then _ else _) as [[ds fl]|e] eqn:Hd; [|eauto].
  assert (length (if fl then ds else replicate (length ws) f64_zero) = length ws) as Hlen.
  { destruct fl; [|apply length_replicate].
    destruct (String.eqb deltaStr ""); [done|]. repeat case_match; simplify_eq.
    by apply Nat.eqb_eq. }
  destruct (String.eqb mergeType MergeTypeAdd).
  { rewrite merge_loop_spec by done. simpl. eauto. }
  destruct (String.eqb mergeType MergeTypeSub); [|eauto].
  rewrite merge_loop_spec by done. simpl. eauto.
Qed.

(** *** Patches *)

(** The characters that a JSON string or a JSON pointer writes in another way. *)
Definition escaped : list ascii :=
  (["034"; "\"; "/"; "~"] ++ List.map Ascii.ascii_of_nat (seq 0 32))%list%char.

(** A string that JSON and a JSON pointer leave as it is. *)
Definition plain (s : string) : bool := forallb (fun c => no_char c s) escaped.

Lemma plain_no_char c s : In c escaped -> plain s = true -> no_char c s = true.
Proof. unfold plain. rewrite forallb_forall. auto. Qed.

Lemma plain_app a b : plain (a ++ b) = plain a && plain b.
Proof.
  unfold plain. generalize escaped as l. induction l as [|c l IH]; [done|]. cbn [forallb].
  rewrite no_char_app, IH.
  by destruct (no_char c a), (no_char c b), (forallb (fun c => no_char c a) l).
Qed.

Lemma plain_by s (ok : ascii -> bool) :
  forallb ok escaped = true -> (forall c, ok c = true -> no_char c s = true) -> plain s = true.
Proof. unfold plain. rewrite !forallb_forall. auto. Qed.

Lemma plain_FormatFloat5 x : plain (FormatFloat5 x) = true.
Proof.
  apply (plain_by _ (fun c => negb (is_digit c) && no_char c "-+.NaInf")); [done|].
  intros c [Hd%negb_true_iff Hc]%andb_prop. by apply FormatFloat5_no_char.
Qed.

Lemma plain_Format t loc : 0 <= year_of t loc < 10000 -> plain (Format t loc) = true.
Proof.
  intros H. apply (plain_by _ (fun c => negb (is_digit c) && no_char c "-T:Z")); [done|].
  intros c [Hd%negb_true_iff Hc]%andb_prop. by apply Format_no_char.
Qed.

(** The API server applies a JSON patch to the annotations as RFC 6902 says: an "add" sets the
    member, a "replace" or a "remove" is an error unless the member exists. *)
Class JSONPatchServer := {
  apply_json_patch : string -> smap -> option smap;
  apply_add : forall k v a, plain k = true -> plain v = true ->
    apply_json_patch (patch_annotation "add" k v) a = Some (<[k := v]> a);
  apply_replace : forall k v a, plain k = true -> plain v = true ->
    apply_json_patch (patch_annotation "replace" k v) a =
    match a !! k with Some _ => Some (<[k := v]> a) | None => None end;
  apply_remove : forall k a, plain k = true ->
    apply_json_patch (patch_remove "remove" k) a =
    match a !! k with Some _ => Some (delete k a) | None => None end }.

(** A patch that a writer made from the annotations [cached] goes through unless the member has
    been removed in the meantime. *)
Lemma apply_operator `{JS : JSONPatchServer} cached k v a :
  plain k = true -> plain v = true ->
  apply_json_patch (patch_annotation (patch_operator cached k) k v) a =
  match cached !! k, a !! k with Some _, None => None | _, _ => Some (<[k := v]> a) end.
Proof.
  intros Hk Hv. unfold patch_operator. destruct (cached !! k).
  - by rewrite apply_replace.
  - by rewrite apply_add by done; destruct (a !! k).
Qed.

(** Such a server: it finds a patch's strings between its quotes. *)
Definition split_patch (data : string) (a : smap) : option smap :=
  match split "034" data with
  | [_; _; _; op; _; _; _; path; _; _; _; value; _] =>
      let k := trim_prefix path "/metadata/annotations/" in
      if String.eqb op "replace"
      then match a !! k with Some _ => Some (<[k := value]> a) | None => None end
      else if String.eqb op "add" then Some (<[k := value]> a) else None
  | [_; _; _; _; _; _; _; path; _] =>
      let k := trim_prefix path "/metadata/annotations/" in
      match a !! k with Some _ => Some (delete k a) | None => None end
  | _ => None
  end.

Lemma plain_quotes k : plain k = true -> no_char "034" k = true.
Proof. apply plain_no_char. by left. Qed.

Lemma split_set op k v :
  no_char "034" op = true -> plain k = true -> plain v = true ->
  split "034" (patch_annotation op k v) =
  ["[{" ++ nl ++ tab ++ tab; "op"; ": "; op; "," ++ nl ++ tab ++ tab; "path"; ": ";
   "/metadata/annotations/" ++ k; "," ++ nl ++ tab ++ tab; "value"; ": "; v; nl ++ tab ++ "}]"].
Proof.
  intros Ho Hk%plain_quotes Hv%plain_quotes.
  set (parts := ["[{" ++ nl ++ tab ++ tab; _; _; _; _; _; _; _; _; _; _; _; _]).
  assert (patch_annotation op k v = join "034" parts) as ->
    by (unfold parts, patch_annotation, join, dq, nl, tab; cbn [append]; reflexivity).
  assert (no_char "034" ("/metadata/annotations/" ++ k) = true) as Hp by (by rewrite no_char_app, Hk).
  apply split_join; [done|]. unfold parts. cbn [forallb]. rewrite Hp, Ho, Hv. reflexivity.
Qed.

Lemma split_removal k :
  plain k = true ->
  split "034" (patch_remove "remove" k) =
  ["[{" ++ nl ++ tab ++ tab; "op"; ": "; "remove"; "," ++ nl ++ tab ++ tab; "path"; ": ";
   "/metadata/annotations/" ++ k; nl ++ tab ++ "}]"].
Proof.
  intros Hk%plain_quotes. set (parts := ["[{" ++ nl ++ tab ++ tab; _; _; _; _; _; _; _; _]).
  assert (patch_remove "remove" k = join "034" parts) as ->
    by (unfold parts, patch_remove, join, dq, nl, tab; cbn [append]; reflexivity).
  assert (no_char "034" ("/metadata/annotations/" ++ k) = true) as Hp by (by rewrite no_char_app, Hk).
  apply split_join; [done|]. unfold parts. cbn [forallb]. rewrite Hp. reflexivity.
Qed.

Definition split_server : JSONPatchServer.
Proof.
  refine {| apply_json_patch := split_patch |}; intros; unfold split_patch.
  - by rewrite split_set, trim_prefix_app.
  - by rewrite split_set, trim_prefix_app.
  - by rewrite split_removal, trim_prefix_app.
Defined.

Lemma send_node_patch_eq `{QL : QuantityLib} (kc : client) (node : Node) (data : string) :
  send_node_patch kc node data =
  ([node_patch node data],
   Ret (match kc (node_patch node data) with
        | Some e => Some (Wrapf "patch node failed: %v" [] e) | None => None end)).
Proof. unfold send_node_patch, send. cbn [io_bind]. by destruct (kc _). Qed.

Lemma PatchNodeAnnotation_eq `{QL : QuantityLib} env (kc : client) now (node : Node) key v loc :
  GetLocation env = Some loc ->
  PatchNodeAnnotation env kc now node key v =
  send_node_patch kc node
    (patch_annotation (patch_operator (node_annos node) key) key (v ++ String "," (Format now loc))).
Proof.
  intros Hl. unfold PatchNodeAnnotation, GetLocalTime. rewrite Hl. cbn [io_go io_bind].
  rewrite send_node_patch_eq. done.
Qed.

Lemma PatchNodeAnnotation_returns `{QL : QuantityLib} env (kc : client) now (node : Node) key v :
  GetLocation env <> None ->
  exists rq, fst (PatchNodeAnnotation env kc now node key v) = [rq] /\
    rq_name rq = node_Name node /\
    exists e, snd (PatchNodeAnnotation env kc now node key v) = Ret e /\ (e = None <-> kc rq = None).
Proof.
  intros Hl. destruct (GetLocation env) as [loc|] eqn:E; [|done].
  rewrite (PatchNodeAnnotation_eq env kc now node key v loc E), send_node_patch_eq.
  eexists. split; [done|]. split; [done|]. eexists. split; [done|]. by destruct (kc _).
Qed.

(** ** Theorems *)


(** [MergeUsageRange] never panics, whatever the three strings are: the index into the
    deployment's usages stays in range. *)
Theorem MergeUsageRange_total (deltaStr deployStr mergeType : string) :
  exists r, MergeUsageRange deltaStr deployStr mergeType = Ret r.
Proof. apply MergeUsageRange_returns. Qed.

(** C34: a merged range is itself a range: it parses back to the position-wise sums (for
    "addition") or delta-minus-deployment differences (for "subtraction"), each rounded to five
    decimals, one per value of the deployment. Deltas that are fewer than the deployment's
    values count as zero. *)
Theorem MergeUsageRange_roundtrip (op : f64 -> f64 -> f64)
    (mergeType deltaStr deployStr : string) (ds ws : list f64) :
  (mergeType = MergeTypeAdd /\ op = fadd \/ mergeType = MergeTypeSub /\ op = fsub) ->
  deltaStr <> "" -> ParseRangeMetricsByString deltaStr = Ok ds ->
  ParseRangeMetricsByString deployStr = Ok ws -> (length ds <= length ws)%nat ->
  exists s, MergeUsageRange deltaStr deployStr mergeType = Ret (Ok s) /\
    ParseRangeMetricsByString s
    = Ok (List.map round5 (zip_with op (effective_deltas ds ws) ws)) /\
    length (zip_with op (effective_deltas ds ws) ws) = length ws.
Proof.
  intros Hm Hne Hd Hw Hl. eexists. split; [by apply (MergeUsageRange_merge op _ _ _ ds ws)|].
  assert (length (zip_with op (effective_deltas ds ws) ws) = length ws) as Hlen
    by (rewrite length_zip_with, effective_deltas_length; lia).
  split; [|done]. apply parse_range_join.
  - intros H0. rewrite H0 in Hlen. apply parse_range_nonempty in Hw. by destruct ws.
  - apply zip_closed; [naive_solver|eapply effective_deltas_closed|]; by eapply parse_range_closed.
Qed.

(** [GetActiveDuration] returns the period of the first entry of that name whose period is
    not zero, plus five minutes; it fails exactly when there is none. *)
Theorem GetActiveDuration_first (l : list SyncPolicy) (name : string) :
  (exists l1 p l2, l = (l1 ++ p :: l2)%list /\ sync_Name p = name /\ sync_Period p <> 0 /\
     Forall (fun q => sync_Name q = name -> sync_Period q = 0) l1 /\
     GetActiveDuration l name = Ok (wrap64 (sync_Period p + 5 * Minute))) \/
  (Forall (fun q => sync_Name q = name -> sync_Period q = 0) l /\
   GetActiveDuration l name = Err (Errorf "failed to get the active duration" [])).
Proof.
  destruct (GetActiveDuration l name) as [d|e] eqn:Hd.
  - left. apply GetActiveDuration_Ok in Hd as (l1 & p & l2 & ? & ? & ? & -> & ?). eauto 10.
  - right. revert Hd. induction l as [|p l IH]; cbn [GetActiveDuration]; [by intros [= <-]|].
    destruct (_ && _) eqn:E; [done|]. intros Hd. destruct (IH Hd) as [Hf He].
    split; [|done]. constructor; [|done]. intros Hn. apply andb_false_iff in E as [E|E]; breflect.
    + done.
    + done.
Qed.

(** When the zone named by TZ (Asia/Shanghai by default) cannot be loaded, the fallback of
    [GetLocalTime] is computed and dropped: every annotation write panics before it sends
    anything. *)
Theorem GetLocalTime_no_zone_panics `{QL : QuantityLib} (env : Env) (kc : client) (now : Z)
    (node : Node) (key value : string) :
  GetLocation env = None ->
  PatchNodeAnnotation env kc now node key value
  = ([], Panic "time: missing Location in call to Time.In").
Proof. intros Hl. unfold PatchNodeAnnotation, GetLocalTime. by rewrite Hl. Qed.

(** ** Witnesses *)

Section Witnesses.
#[local] Existing Instance MilliQuantities.
#[local] Existing Instance split_server.

Definition ux_node : Node :=
  {| node_meta := meta0 "n1"; node_Addresses := []; node_Capacity := ∅ |}.

Definition ux_value : f64 := fdiv (f64_of_Z 1) (f64_of_Z 4).


Definition ux_ds : list f64 := [fdiv (f64_of_Z 1) (f64_of_Z 2); f64_of_Z 1].
Definition ux_ws : list f64 := [ux_value; f64_of_Z 2].

Lemma MergeUsageRange_roundtrip_witness :
  exists s, MergeUsageRange "0.5|1" "0.25|2" MergeTypeAdd = Ret (Ok s) /\
    ParseRangeMetricsByString s
    = Ok (List.map round5 (zip_with fadd (effective_deltas ux_ds ux_ws) ux_ws)) /\
    length (zip_with fadd (effective_deltas ux_ds ux_ws) ux_ws) = length ux_ws.
Proof.
  apply (MergeUsageRange_roundtrip fadd MergeTypeAdd "0.5|1" "0.25|2" ux_ds ux_ws).
  - left. split; reflexivity.
  - discriminate.
  - vm_compute. reflexivity.
  - vm_compute. reflexivity.
  - vm_compute. repeat constructor.
Defined.

Lemma GetLocalTime_no_zone_panics_witness :
  PatchNodeAnnotation
    {| env_TZ := "Nowhere"; env_CRANE_SYSTEM_NAMESPACE := ""; LoadLocation := fun _ => None |}
    (fun _ => None) 0 ux_node "cpu" "1"
  = ([], Panic "time: missing Location in call to Time.In").
Proof. apply GetLocalTime_no_zone_panics. reflexivity. Defined.

End Witnesses.
