(* ===== verification/GoHeap.v ===== *)
(** * Go's container/heap

    [HeapInterface] is heap.Interface; [heap_up], [heap_down], [heap_Init], [heap_Push] and
    [heap_Pop] are the package's functions over it, loops run with fuel. [HeapLaws] says what an
    implementation promises: an element sequence on which the five methods act, ordered by a
    strict weak order. Against these laws the file proves the package's contract: the heap order
    is an invariant, nothing is lost or invented, [Pop] returns a minimum, and the fuel is enough
    (the loops reach their exits). *)

From S2P Require Import Prelude.

Open Scope nat_scope.

Class HeapInterface (H E : Type) := {
  Len : H -> nat;
  Less : H -> nat -> nat -> bool;
  Swap : H -> nat -> nat -> H;
  PushBack : H -> E -> H;
  PopBack : H -> E * H }.

Section Operations.
Context {H E : Type} `{HI : HeapInterface H E}.

(** Each round moves [j] to its parent: [j + 1] rounds are enough. *)
Fixpoint heap_up (fuel : nat) (h : H) (j : nat) : H :=
  match fuel with
  | O => h
  | S f =>
      let i := (j - 1) / 2 in
      if (i =? j) || negb (Less h j i) then h else heap_up f (Swap h i j) i
  end.

(** Each round moves [i] to a child, so below [n]: [n] rounds are enough. *)
Fixpoint heap_down (fuel : nat) (h : H) (i n : nat) : H :=
  match fuel with
  | O => h
  | S f =>
      let j1 := 2 * i + 1 in
      if n <=? j1 then h
      else
        let j2 := j1 + 1 in
        let j := if (j2 <? n) && Less h j2 j1 then j2 else j1 in
        if negb (Less h j i) then h else heap_down f (Swap h i j) j n
  end.

(** [for i := n/2 - 1; i >= 0; i--]. *)
Fixpoint init_loop (k : nat) (h : H) (n : nat) : H :=
  match k with
  | O => h
  | S i => init_loop i (heap_down n h i n) n
  end.

Definition heap_Init (h : H) : H := init_loop (Len h / 2) h (Len h).

Definition heap_Push (h : H) (x : E) : H :=
  let h := PushBack h x in heap_up (Len h) h (Len h - 1).

(** On an empty heap the first swap is at index -1. *)
Definition heap_Pop (h : H) : go (E * H) :=
  if Len h =? 0 then Panic "runtime error: index out of range [-1]"
  else
    let n := Len h - 1 in
    let h := Swap h 0 n in
    Ret (PopBack (heap_down n h 0 n)).

End Operations.

(** ** The laws *)

Definition lswap {E} `{Inhabited E} (l : list E) (i j : nat) : list E :=
  <[i := l !!! j]> (<[j := l !!! i]> l).

Class HeapLaws (H E : Type) `{HI : HeapInterface H E} `{Inhabited E} := {
  contents : H -> list E;
  ltb : E -> E -> bool;
  ltb_irrefl a : ltb a a = false;
  ltb_asym a b : ltb a b = true -> ltb b a = false;
  ltb_trans a b c : ltb b a = false -> ltb c b = false -> ltb c a = false;
  Len_contents h : Len h = length (contents h);
  Less_contents h i j :
    i < Len h -> j < Len h -> Less h i j = ltb (contents h !!! i) (contents h !!! j);
  Swap_contents h i j :
    i < Len h -> j < Len h -> contents (Swap h i j) = lswap (contents h) i j;
  PushBack_contents h x : contents (PushBack h x) = contents h ++ [x];
  PopBack_contents h l x :
    contents h = l ++ [x] -> fst (PopBack h) = x /\ contents (snd (PopBack h)) = l }.

Section Swapping.
Context {E} `{Inhabited E}.
Implicit Types l : list E.

Lemma lswap_length l i j : length (lswap l i j) = length l.
Proof. unfold lswap. by rewrite !length_insert. Qed.

Lemma lswap_l l i j : i < length l -> lswap l i j !!! i = l !!! j.
Proof. intros Hi. apply list_lookup_total_insert_eq. by rewrite length_insert. Qed.

Lemma lswap_r l i j : i < length l -> j < length l -> lswap l i j !!! j = l !!! i.
Proof.
  intros Hi Hj. unfold lswap. destruct (decide (i = j)) as [->|Hne].
  - apply list_lookup_total_insert_eq. by rewrite length_insert.
  - rewrite list_lookup_total_insert_ne by done. by apply list_lookup_total_insert_eq.
Qed.

Lemma lswap_ne l i j k : k <> i -> k <> j -> lswap l i j !!! k = l !!! k.
Proof. intros Hi Hj. unfold lswap. by rewrite !list_lookup_total_insert_ne by done. Qed.

Lemma lswap_perm l i j : i < length l -> j < length l -> lswap l i j ≡ₚ l.
Proof.
  intros Hi Hj. unfold lswap.
  apply Permutation_insert_swap; by apply list_lookup_lookup_total_lt.
Qed.
End Swapping.

(** ** The invariant *)

Section Correctness.
Context {H E : Type} `{HL : HeapLaws H E}.
Implicit Types (h : H) (l : list E).

Definition le (a b : E) : Prop := ltb b a = false.

Definition parent (j : nat) : nat := (j - 1) / 2.

(** The first [n] elements are in heap order. *)
Definition heap_ok (l : list E) (n : nat) : Prop :=
  forall j, 0 < j < n -> le (l !!! parent j) (l !!! j).

(** In heap order except that the element at [i] may be too large for its children. *)
Definition ok_below (l : list E) (n i : nat) : Prop :=
  (forall j, 0 < j < n -> parent j <> i -> le (l !!! parent j) (l !!! j)) /\
  (forall j, 0 < j < n -> parent j = i -> 0 < i -> le (l !!! parent i) (l !!! j)).

(** In heap order except that the element at [i] may be too small for its parent. *)
Definition ok_above (l : list E) (n i : nat) : Prop :=
  (forall j, 0 < j < n -> j <> i -> le (l !!! parent j) (l !!! j)) /\
  (forall j, 0 < j < n -> parent j = i -> 0 < i -> le (l !!! parent i) (l !!! j)).

Lemma le_refl a : le a a.
Proof. apply ltb_irrefl. Qed.

Lemma le_trans a b c : le a b -> le b c -> le a c.
Proof. unfold le. eauto using ltb_trans. Qed.

Lemma le_of_lt a b : ltb a b = true -> le a b.
Proof. apply ltb_asym. Qed.

Lemma parent_children j i : 0 < j -> parent j = i <-> j = 2 * i + 1 \/ j = 2 * i + 2.
Proof.
  unfold parent. intros Hj.
  pose proof (Nat.div_mod (j - 1) 2). pose proof (Nat.mod_upper_bound (j - 1) 2). lia.
Qed.

Lemma parent_lt j : 0 < j -> parent j < j.
Proof. intros Hj. destruct (proj1 (parent_children j _ Hj) eq_refl) ; lia. Qed.

Lemma Len_Swap h i j : i < Len h -> j < Len h -> Len (Swap h i j) = Len h.
Proof. intros. by rewrite !Len_contents, Swap_contents, lswap_length. Qed.

(** One downward step: the smaller child replaces its parent. *)
Lemma ok_below_swap l n i j :
  n <= length l -> i < j < n -> parent j = i ->
  (forall k, 0 < k < n -> parent k = i -> le (l !!! j) (l !!! k)) ->
  le (l !!! j) (l !!! i) ->
  ok_below l n i -> ok_below (lswap l i j) n j.
Proof.
  intros Hn Hij Hp Hmin Hji [H1 H2].
  assert (forall k, 0 < k -> parent k < k) as Hpl by apply parent_lt.
  split.
  - intros k Hk Hpk. destruct (decide (k = j)) as [->|Hkj].
    { rewrite Hp, lswap_l, lswap_r by lia. done. }
    destruct (decide (k = i)) as [->|Hki].
    { specialize (Hpl i). rewrite lswap_l, lswap_ne by lia. apply H2; lia. }
    rewrite (lswap_ne _ _ _ k) by done.
    destruct (decide (parent k = i)) as [Hpi|Hpi].
    + rewrite Hpi, lswap_l by lia. auto.
    + rewrite lswap_ne by done. auto.
  - intros k Hk Hpk _. assert (j < k) by (rewrite <- Hpk; apply Hpl; lia).
    rewrite Hp, lswap_l, lswap_ne by lia. rewrite <- Hpk. apply H1; lia.
Qed.

Lemma ok_below_leaf l n i :
  ok_below l n i -> (forall k, 0 < k < n -> parent k = i -> le (l !!! i) (l !!! k)) ->
  heap_ok l n.
Proof.
  intros [H1 _] Hc k Hk. destruct (decide (parent k = i)) as [<-|]; [by apply Hc|auto].
Qed.

(** What a downward pass establishes. *)
Lemma heap_down_spec fuel h i n :
  n <= Len h -> n <= i + fuel -> ok_below (contents h) n i ->
  let h' := heap_down fuel h i n in
  Len h' = Len h /\ heap_ok (contents h') n /\ contents h' ≡ₚ contents h /\
  (forall k, n <= k -> contents h' !!! k = contents h !!! k).
Proof.
  revert h i. induction fuel as [|f IH]; intros h i Hn Hf Hok; cbn [heap_down]; cbv zeta.
  { split_and!; try done. eapply ok_below_leaf; [done|]. intros k Hk Hp.
    pose proof (parent_lt k). lia. }
  destruct (Nat.leb_spec n (2 * i + 1)) as [Hle|Hgt].
  { split_and!; try done. eapply ok_below_leaf; [done|]. intros k Hk Hp.
    apply parent_children in Hp; lia. }
  set (j := if (2 * i + 1 + 1 <? n) && Less h (2 * i + 1 + 1) (2 * i + 1) then _ else _).
  assert (i < j < n /\ parent j = i /\
    forall k, 0 < k < n -> parent k = i -> le (contents h !!! j) (contents h !!! k))
    as (Hj & Hpj & Hmin).
  { assert (forall k, 0 < k < n -> parent k = i -> k = 2 * i + 1 \/ k = 2 * i + 1 + 1) as Hch.
    { intros k Hk Hp. apply parent_children in Hp; lia. }
    assert (forall k, k = 2 * i + 1 \/ k = 2 * i + 1 + 1 -> parent k = i) as Hpar.
    { intros k Hk. apply parent_children; lia. }
    subst j. destruct (Nat.ltb_spec (2 * i + 1 + 1) n); simpl.
    - rewrite Less_contents by lia.
      destruct (ltb _ _) eqn:El; (split_and!; [lia|lia|by apply Hpar; auto|]);
        intros k Hk Hp; destruct (Hch k Hk Hp) as [-> | ->]; auto using le_refl, le_of_lt.
    - split_and!; [lia|lia|by apply Hpar; auto|].
      intros k Hk Hp; destruct (Hch k Hk Hp) as [-> | ->]; [apply le_refl|lia]. }
  clearbody j. rewrite Less_contents by lia.
  destruct (ltb _ _) eqn:El; cbn [negb].
  - destruct (IH (Swap h i j) j) as (HLen' & Hok' & Hperm & Hrest).
    + by rewrite Len_Swap by lia.
    + lia.
    + rewrite Swap_contents by lia. apply ok_below_swap; auto using le_of_lt.
      by rewrite <- Len_contents.
    + rewrite Swap_contents in Hperm, Hrest by lia. rewrite Len_Swap in HLen' by lia.
      split_and!; try done.
      * rewrite Hperm. apply lswap_perm; rewrite <- Len_contents; lia.
      * intros k Hk. rewrite Hrest by done. apply lswap_ne; lia.
  - split_and!; try done. eapply ok_below_leaf; [done|]. intros k Hk Hp.
    eapply le_trans; [exact El|]. by apply Hmin.
Qed.

(** One upward step: the element replaces its larger parent. *)
Lemma ok_above_swap l n j :
  n <= length l -> 0 < j < n -> ltb (l !!! j) (l !!! parent j) = true ->
  ok_above l n j -> ok_above (lswap l (parent j) j) n (parent j).
Proof.
  intros Hn Hj Hlt [H1 H2]. set (i := parent j) in *.
  assert (forall k, 0 < k -> parent k < k) as Hpl by apply parent_lt.
  assert (i < j) as Hij by (apply Hpl; lia).
  assert (forall k, 0 < k < n -> parent k = i -> k <> j -> le (l !!! i) (l !!! k)) as Hc.
  { intros k Hk Hp Hkj. rewrite <- Hp. by apply H1. }
  split.
  - intros k Hk Hki. destruct (decide (k = j)) as [->|Hkj].
    { fold i. rewrite lswap_l, lswap_r by lia. by apply le_of_lt. }
    rewrite (lswap_ne _ _ _ k) by done.
    destruct (decide (parent k = i)) as [Hp|Hp].
    { rewrite Hp, lswap_l by lia. eapply le_trans; [by apply le_of_lt|auto]. }
    destruct (decide (parent k = j)) as [Hp'|Hp'].
    { rewrite Hp', lswap_r by lia. apply H2; auto; lia. }
    rewrite lswap_ne by done. by apply H1.
  - intros k Hk Hp Hi. pose proof (Hpl i Hi).
    assert (le (l !!! parent i) (l !!! i)) as Hpi by (apply H1; lia).
    rewrite lswap_ne by lia. destruct (decide (k = j)) as [->|Hkj].
    { by rewrite lswap_r by lia. }
    rewrite lswap_ne by (try done; intros ->; lia).
    eapply le_trans; [done|auto].
Qed.

Lemma ok_above_stop l n j :
  ok_above l n j -> (0 < j < n -> le (l !!! parent j) (l !!! j)) -> heap_ok l n.
Proof. intros [H1 _] Hj k Hk. destruct (decide (k = j)) as [->|]; auto. Qed.

Lemma heap_up_spec fuel h j :
  j < fuel -> j < Len h -> ok_above (contents h) (Len h) j ->
  let h' := heap_up fuel h j in
  Len h' = Len h /\ heap_ok (contents h') (Len h) /\ contents h' ≡ₚ contents h.
Proof.
  revert h j. induction fuel as [|f IH]; intros h j Hf Hj Hok; cbn [heap_up]; cbv zeta; [lia|].
  fold (parent j). destruct (Nat.eqb_spec (parent j) j) as [He|Hne]; cbn [orb].
  { split_and!; try done. eapply ok_above_stop; [done|]. intros Hj0.
    pose proof (parent_lt j). lia. }
  assert (0 < j) as Hj0 by (destruct j; [done|lia]).
  pose proof (parent_lt j Hj0) as Hpj. rewrite Less_contents by lia.
  destruct (ltb _ _) eqn:El; cbn [negb].
  - destruct (IH (Swap h (parent j) j) (parent j)) as (HLen' & Hok' & Hperm).
    + lia.
    + rewrite Len_Swap by lia. lia.
    + rewrite Len_Swap, Swap_contents by lia. apply ok_above_swap; try done.
      by rewrite <- Len_contents.
    + rewrite Len_Swap in HLen', Hok' by lia. rewrite Swap_contents in Hperm by lia.
      split_and!; try done.
      rewrite Hperm. apply lswap_perm; rewrite <- Len_contents; lia.
  - split_and!; try done. eapply ok_above_stop; [done|]. by intros _.
Qed.

(** The root of a heap is a minimum. *)
Lemma heap_ok_root l n j : heap_ok l n -> j < n -> le (l !!! 0) (l !!! j).
Proof.
  intros Hok. induction j as [j IH] using lt_wf_ind. intros Hj.
  destruct (decide (j = 0)) as [->|]; [apply le_refl|].
  pose proof (parent_lt j). eapply le_trans; [apply (IH (parent j)); lia|]. apply Hok; lia.
Qed.

Lemma heap_ok_take l n m :
  n <= m -> heap_ok (take m l) n <-> heap_ok l n.
Proof.
  intros Hm. split; intros Hok j Hj; specialize (Hok j Hj); pose proof (parent_lt j);
    rewrite !lookup_total_take_lt in * by lia; done.
Qed.

(** ** The package's contract *)

Definition heap_inv (h : H) : Prop := heap_ok (contents h) (Len h).

Lemma heap_Push_spec h x :
  heap_inv h -> heap_inv (heap_Push h x) /\ contents (heap_Push h x) ≡ₚ x :: contents h.
Proof.
  intros Hok. unfold heap_Push. set (h1 := PushBack h x).
  assert (contents h1 = contents h ++ [x]) as Hc by apply PushBack_contents.
  assert (Len h1 = S (Len h)) as HLen
    by (rewrite !Len_contents, Hc, length_app; simpl; lia).
  assert (forall k, k < Len h -> contents h1 !!! k = contents h !!! k) as Hl.
  { intros k Hk. rewrite Hc. apply lookup_total_app_l. by rewrite <- Len_contents. }
  destruct (heap_up_spec (Len h1) h1 (Len h1 - 1)) as (HLen' & Hok' & Hperm).
  - lia.
  - lia.
  - split.
    + intros k Hk Hne. pose proof (parent_lt k). rewrite !Hl by lia. apply Hok. lia.
    + intros k Hk Hp. pose proof (parent_lt k). lia.
  - split; [unfold heap_inv; by rewrite HLen'|]. rewrite Hperm, Hc.
    by rewrite Permutation_app_comm.
Qed.

Lemma heap_Pop_spec h :
  heap_inv h -> 0 < Len h ->
  exists x h', heap_Pop h = Ret (x, h') /\ heap_inv h' /\ contents h ≡ₚ x :: contents h' /\
    Forall (le x) (contents h) /\ x = contents h !!! 0.
Proof.
  intros Hok Hpos. unfold heap_Pop. destruct (Nat.eqb_spec (Len h) 0) as [?|_]; [lia|].
  set (n := Len h - 1). set (h1 := Swap h 0 n).
  assert (Len h1 = Len h) as HL1 by (apply Len_Swap; lia).
  assert (contents h1 = lswap (contents h) 0 n) as Hc1 by (apply Swap_contents; lia).
  assert (n < length (contents h)) as Hn by (rewrite <- Len_contents; lia).
  destruct (heap_down_spec n h1 0 n) as (HL2 & Hok2 & Hperm & Hrest).
  { lia. } { lia. }
  { split; [|lia]. intros j Hj Hp. pose proof (parent_lt j).
    rewrite Hc1, !lswap_ne by lia. apply Hok. lia. }
  set (h2 := heap_down n h1 0 n) in *.
  assert (contents h2 !!! n = contents h !!! 0) as Hx.
  { rewrite Hrest, Hc1, lswap_r by lia. done. }
  assert (contents h2 = take n (contents h2) ++ [contents h !!! 0]) as Hsplit.
  { rewrite <- Hx. rewrite <- (take_S_r _ _ (contents h2 !!! n)).
    - rewrite take_ge; [done|]. rewrite <- Len_contents. lia.
    - apply list_lookup_lookup_total_lt. rewrite <- Len_contents. lia. }
  destruct (PopBack_contents _ _ _ Hsplit) as [Hfst Hsnd].
  exists (contents h !!! 0), (snd (PopBack h2)). split_and!.
  - rewrite <- Hfst. by destruct (PopBack h2).
  - unfold heap_inv. rewrite Len_contents, Hsnd.
    assert (length (take n (contents h2)) = n) as ->
      by (rewrite length_take, <- Len_contents; lia).
    by apply (heap_ok_take _ _ n).
  - rewrite Hsnd, Permutation_cons_append, <- Hsplit, Hperm, Hc1.
    symmetry. apply lswap_perm; [lia|done].
  - rewrite (Forall_lookup_total (le _)). intros i Hi. apply (heap_ok_root _ (Len h)); [done|].
    by rewrite Len_contents.
  - done.
Qed.

Lemma heap_Init_empty h : Len h = 0 -> heap_Init h = h.
Proof. intros Hz. unfold heap_Init. by rewrite Hz. Qed.

End Correctness.
