(* ===== verification/GoMemory.v ===== *)
(** * Go memory: pointers, slices and allocation

    A heap of variables for the code whose point is what it shares. A variable holds a value of
    one Go type; the types a program allocates are listed by the instances of [Storable]. A
    pointer refers to a variable or to a part of one (a field of a struct, an element of an
    array), so [&out.Spec] and [&list[i]] are pointers as in the code; a slice is a header
    (array, offset, length, capacity) or nil. An operation reads and changes the heap, or panics. *)

From S2P Require Import Prelude.

Open Scope string_scope.

Definition loc := positive.

Class Storable (cell T : Type) := {
  inj : T -> cell;
  prj : cell -> option T;
  prj_inj : forall x, prj (inj x) = Some x;
  prj_Some : forall c x, prj c = Some x -> c = inj x }.

Abbreviation heap cell := (gmap loc cell).

(** ** Operations on the heap *)

Definition mem (cell A : Type) : Type := heap cell -> go (A * heap cell).

Definition mem_ret {cell A} (a : A) : mem cell A := fun h => Ret (a, h).

Definition mem_bind {cell A B} (m : mem cell A) (k : A -> mem cell B) : mem cell B :=
  fun h => match m h with Ret (a, h') => k a h' | Panic s => Panic s end.

Notation "'do' x '<-' m ';;' k" := (mem_bind m (fun x => k))
  (at level 10, x pattern, m at level 99, k at level 200) : crane_scope.
Notation "m ';;' k" := (mem_bind m (fun _ => k))
  (at level 100, right associativity) : crane_scope.

Definition nil_deref {cell A} : mem cell A :=
  fun _ => Panic "invalid memory address or nil pointer dereference".

(** ** Pointers *)

(** A pointer that is not nil: the variable it points into, and the part of it. *)
Record ref (cell T : Type) := {
  r_loc : loc;
  r_get : cell -> option T;
  r_set : T -> cell -> option cell }.
Arguments r_loc {cell T} _.
Arguments r_get {cell T} _ _.
Arguments r_set {cell T} _ _ _.

(** A pointer, or nil. *)
Abbreviation ptr cell T := (option (ref cell T)).

(** An interface value that holds a pointer: the interface's nil is not the pointer's. *)
Inductive iface (P : Type) := INil | IPtr (p : P).
Arguments INil {P}.
Arguments IPtr {P} _.

Section Memory.
Context {cell : Type}.

Definition peek {T} (h : heap cell) (r : ref cell T) : option T := h !! r_loc r ≫= r_get r.

Definition load {T} (r : ref cell T) : mem cell T :=
  fun h => match peek h r with Some x => Ret (x, h) | None => nil_deref h end.

Definition store {T} (r : ref cell T) (v : T) : mem cell unit :=
  fun h =>
    match h !! r_loc r ≫= r_set r v with
    | Some c => Ret (tt, <[r_loc r := c]> h)
    | None => nil_deref h
    end.

(** The whole of a variable. *)
Definition var {T} `{Storable cell T} (l : loc) : ref cell T :=
  {| r_loc := l; r_get := prj; r_set v c := match prj c with Some _ => Some (inj v) | None => None end |}.

(** [&p.f] *)
Definition field {T F} (get : T -> F) (set : F -> T -> T) (r : ref cell T) : ref cell F :=
  {| r_loc := r_loc r;
     r_get c := get <$> r_get r c;
     r_set v c := x ← r_get r c; r_set r (set v x) c |}.

(** A variable of its own for [v]; [new(T)] is [alloc] of T's zero value. *)
Definition alloc {T} `{Storable cell T} (v : T) : mem cell loc :=
  fun h => let l := fresh (dom h) in Ret (l, <[l := inj v]> h).

Definition new {T} `{Storable cell T} (zero : T) : mem cell (ref cell T) :=
  do l <- alloc zero;; mem_ret (var l).

(** ** Slices *)

Record header := { s_arr : loc; s_off : nat; s_len : nat; s_cap : nat }.
Definition slice := option header.

Definition len (s : slice) : nat := match s with None => 0 | Some s => s_len s end.

(** [&s[i]] for an array of [T]s. *)
Definition elem {T} `{Storable cell (list T)} (s : header) (i : nat) : ref cell T :=
  {| r_loc := s_arr s;
     r_get c := l ← prj c; l !! (s_off s + i)%nat;
     r_set v c := l ← prj c; _ ← (l : list T) !! (s_off s + i)%nat;
                  Some (inj (<[(s_off s + i)%nat := v]> l)) |}.

Definition index {T} `{Storable cell (list T)} (s : slice) (i : nat) : mem cell (ref cell T) :=
  fun h =>
    match s with
    | Some s => if (i <? s_len s)%nat then Ret (elem s i, h) else Panic "index out of range"
    | None => Panic "index out of range"
    end.

(** [make([]T, n)] *)
Definition make {T} `{Storable cell (list T)} (zero : T) (n : nat) : mem cell slice :=
  do l <- alloc (replicate n zero);;
  mem_ret (Some {| s_arr := l; s_off := 0; s_len := n; s_cap := n |}).

(** The elements of a slice. *)
Definition elements {T} `{Storable cell (list T)} (h : heap cell) (s : slice) : option (option (list T)) :=
  match s with
  | None => Some None
  | Some s =>
      l ← h !! s_arr s ≫= prj;
      if (s_off s + s_len s <=? length l)%nat then Some (Some (take (s_len s) (drop (s_off s) l)))
      else None
  end.

(** [for i := range s { body(i) }], from round [i] on with [n] rounds left. *)
Fixpoint range_loop (body : nat -> mem cell unit) (i n : nat) : mem cell unit :=
  match n with
  | O => mem_ret tt
  | S n => body i;; range_loop body (S i) n
  end.

(** [copy(dst, src)]: as many elements as the shorter slice has; the builtin's count is not
    used. The arrays are different ones here. *)
Definition copy {T} `{Storable cell (list T)} (dst src : slice) : mem cell unit :=
  range_loop (fun i =>
    do p <- index src i;; do x <- load p;; do q <- index dst i;; store (T := T) q x)
    0 (Nat.min (len dst) (len src)).

(** ** Laws of pointers *)

Record wf_ref {T} (r : ref cell T) : Prop := {
  get_set : forall v c c', r_set r v c = Some c' -> r_get r c' = Some v;
  set_set : forall v w c c', r_set r v c = Some c' -> r_set r w c' = r_set r w c;
  set_get : forall v c, r_get r c = Some v -> r_set r v c = Some c;
  set_some : forall v w c, r_get r c = Some v -> is_Some (r_set r w c) }.

Record lens {T F} (get : T -> F) (set : F -> T -> T) : Prop := {
  lens_get : forall v x, get (set v x) = v;
  lens_set : forall v w x, set w (set v x) = set w x;
  lens_id : forall x, set (get x) x = x }.

Lemma wf_var {T} `{Storable cell T} l : wf_ref (var l : ref cell T).
Proof.
  split; cbn.
  - intros v c c' Hc. destruct (prj c); simplify_eq. apply prj_inj.
  - intros v w c c' Hc. destruct (prj c); simplify_eq. by rewrite prj_inj.
  - intros v c Hc. rewrite Hc. f_equal. symmetry. by apply prj_Some.
  - intros v w c Hc. rewrite Hc. by eexists.
Qed.

Lemma wf_field {T F} (get : T -> F) set (r : ref cell T) :
  wf_ref r -> lens get set -> wf_ref (field get set r).
Proof.
  intros [Hgs Hss Hsg Hso] [Hg Hs Hi]. split; cbn.
  - intros v c c'. destruct (r_get r c) as [x|]; [|done]. cbn. intros Hc.
    rewrite (Hgs _ _ _ Hc). cbn. by rewrite Hg.
  - intros v w c c'. destruct (r_get r c) as [x|]; [|done]. cbn. intros Hc.
    rewrite (Hgs _ _ _ Hc). cbn. by rewrite Hs, (Hss _ _ _ _ Hc).
  - intros v c. destruct (r_get r c) as [x|] eqn:Hx; [|done]. cbn. intros [= <-].
    rewrite Hi. by apply Hsg.
  - intros v w c. destruct (r_get r c) as [x|] eqn:Hx; [|done]. cbn. intros _. by eapply Hso.
Qed.

Lemma wf_elem {T} `{Storable cell (list T)} s i : wf_ref (elem s i : ref cell T).
Proof.
  set (k := (s_off s + i)%nat). split; cbn; fold k.
  - intros v c c'. destruct (prj c) as [l|]; [|done]. cbn. destruct (l !! k) eqn:Hk; [|done].
    cbn. intros [= <-]. rewrite prj_inj. cbn. apply list_lookup_insert_eq. by eapply lookup_lt_Some.
  - intros v w c c'. destruct (prj c) as [l|]; [|done]. cbn. destruct (l !! k) eqn:Hk; [|done].
    cbn. intros [= <-]. rewrite prj_inj. cbn. rewrite list_lookup_insert_eq by (by eapply lookup_lt_Some).
    cbn. by rewrite list_insert_insert_eq.
  - intros v c. destruct (prj c) as [l|] eqn:Hl; [|done]. cbn. intros Hk. rewrite Hk. cbn.
    rewrite list_insert_id by done. by rewrite (prj_Some _ _ Hl).
  - intros v w c. destruct (prj c) as [l|]; [|done]. cbn. intros Hk. rewrite Hk. by eexists.
Qed.

(** Of the variables of [h], [h'] changes the part [o], to [y]; it may have new ones. *)
Definition put {T} (o : ref cell T) (y : T) (h h' : heap cell) : Prop :=
  (exists c, h !! r_loc o ≫= r_set o y = Some c /\ h' !! r_loc o = Some c) /\
  forall l, l <> r_loc o -> is_Some (h !! l) -> h' !! l = h !! l.

Section Put.
Context {T : Type} (o : ref cell T) (Ho : wf_ref o).

Lemma put_peek y h h' : put o y h h' -> peek h' o = Some y.
Proof.
  intros [(c & Hs & Hc) _]. unfold peek. rewrite Hc. cbn.
  destruct (h !! r_loc o); [|done]. by eapply get_set.
Qed.

Lemma put_other {U} (i : ref cell U) x y h h' :
  put o y h h' -> r_loc i <> r_loc o -> peek h i = Some x -> peek h' i = Some x.
Proof.
  intros [_ Hk] Hne. unfold peek. destruct (h !! r_loc i) eqn:Hi; [|done]. cbn.
  rewrite Hk by (done || by eexists). by rewrite Hi.
Qed.

Lemma put_same y h : peek h o = Some y -> put o y h h.
Proof.
  unfold peek. destruct (h !! r_loc o) as [c|] eqn:Hc; [|done]. cbn. intros Hy. split; [|done].
  exists c. rewrite Hc. cbn. split; [by apply set_get|done].
Qed.

Lemma put_trans y z h h1 h2 : put o y h h1 -> put o z h1 h2 -> put o z h h2.
Proof.
  intros [(c & Hs & Hc) Hk] [(c' & Hs' & Hc') Hk']. split.
  - exists c'. split; [|done]. rewrite Hc in Hs'. cbn in Hs'.
    destruct (h !! r_loc o); [|done]. cbn in *. by rewrite <- (set_set _ Ho _ _ _ _ Hs).
  - intros l Hl Hi. rewrite Hk'; [by apply Hk|done|]. by rewrite Hk.
Qed.

Lemma put_field {F} (get : T -> F) set v x h h' :
  peek h o = Some x -> put (field get set o) v h h' -> put o (set v x) h h'.
Proof.
  unfold peek. intros Hx [(c & Hs & Hc) Hk]. split; [|done]. exists c. split; [|done].
  cbn in *. destruct (h !! r_loc o) as [c0|]; [|done]. cbn in *. by rewrite Hx in Hs.
Qed.

Lemma store_put v x h : peek h o = Some x ->
  exists c, h !! r_loc o ≫= r_set o v = Some c /\ store o v h = Ret (tt, <[r_loc o := c]> h) /\
    put o v h (<[r_loc o := c]> h).
Proof.
  unfold peek, store. destruct (h !! r_loc o) as [c|] eqn:Hc; [|done]. cbn. intros Hx.
  destruct (set_some o Ho _ v _ Hx) as [c' Hc']. exists c'. split; [done|]. rewrite Hc'.
  split; [done|]. split.
  - exists c'. rewrite Hc. split; [done|]. apply lookup_insert_eq.
  - intros l Hl _. by apply lookup_insert_ne.
Qed.

Lemma store_same x h : peek h o = Some x -> store o x h = Ret (tt, h).
Proof.
  unfold peek, store. destruct (h !! r_loc o) as [c|] eqn:Hc; [|done]. cbn. intros Hx.
  rewrite (set_get o Ho _ _ Hx). by rewrite insert_id.
Qed.

End Put.

Lemma load_peek {T} (r : ref cell T) x h : peek h r = Some x -> load r h = Ret (x, h).
Proof. unfold load. by intros ->. Qed.

Lemma peek_field {T F} (get : T -> F) set (r : ref cell T) x h :
  peek h r = Some x -> peek h (field get set r) = Some (get x).
Proof. unfold peek. cbn. destruct (h !! r_loc r) as [c|]; [|done]. cbn. by intros ->. Qed.

(** ** Arrays *)

Definition arrays (s : slice) : list loc := match s with None => [] | Some s => [s_arr s] end.

Lemma elements_frame {T} `{Storable cell (list T)} s (h h' : heap cell) :
  (forall l, l ∈ arrays s -> h' !! l = h !! l) -> elements (T := T) h' s = elements h s.
Proof. intros Hl. destruct s as [s|]; [|done]. cbn. rewrite Hl; [done|left]. Qed.

Lemma elements_live {T} `{Storable cell (list T)} s (h : heap cell) (v : option (list T)) l :
  elements h s = Some v -> l ∈ arrays s -> is_Some (h !! l).
Proof.
  destruct s as [s|]; intros He Hl; [|by apply not_elem_of_nil in Hl].
  apply list_elem_of_singleton in Hl as ->. cbn in He. destruct (h !! s_arr s); [by eexists|done].
Qed.

(** A loop whose round [k] sets element [k] of the array [a] to that of [xs]. *)
Lemma range_loop_fills {T} `{Storable cell (list T)} body a (xs : list T) h0 :
  (forall k l x, xs !! k = Some x -> length l = length xs ->
     body k (<[a := inj l]> h0) = Ret (tt, <[a := inj (<[k := x]> l)]> h0)) ->
  forall n k l, (n + k = length xs)%nat -> length l = length xs ->
    range_loop body k n (<[a := inj l]> h0) = Ret (tt, <[a := inj (take k l ++ drop k xs)%list]> h0).
Proof.
  intros Hb. induction n as [|n IH]; intros k l Hn Hl.
  - cbn. rewrite drop_ge, app_nil_r, take_ge by lia. done.
  - destruct (lookup_lt_is_Some_2 xs k ltac:(lia)) as [x Hx].
    cbn [range_loop]. unfold mem_bind. rewrite (Hb k l x Hx Hl).
    rewrite IH by (try rewrite length_insert; lia). do 4 f_equal.
    rewrite (drop_S xs x k Hx). rewrite (take_S_r _ k x) by (apply list_lookup_insert_eq; lia).
    rewrite take_insert_ge by lia. by rewrite <- app_assoc.
Qed.

Lemma range_loop_all {T} `{Storable cell (list T)} body a (xs l : list T) h0 :
  (forall k l x, xs !! k = Some x -> length l = length xs ->
     body k (<[a := inj l]> h0) = Ret (tt, <[a := inj (<[k := x]> l)]> h0)) ->
  length l = length xs ->
  range_loop body 0 (length xs) (<[a := inj l]> h0) = Ret (tt, <[a := inj xs]> h0).
Proof. intros Hb Hl. rewrite (range_loop_fills body a xs h0 Hb) by (done || lia). done. Qed.

End Memory.
