(* ===== verification/Binding.v ===== *)
(** * pkg/controller/annotator/binding.go

    The store of recent pod bindings behind the hot value: a binary heap on the timestamp, of
    bounded size, with a garbage collector for expired entries. The operations take the lock of
    [BindingRecords.rw] for their whole body, so a run of the store is a sequence of atomic
    operations ([op], [run]). [now] is the clock reading in nanoseconds. *)

From S2P Require Import Prelude GoFloat GoTime GoHeap.

Open Scope string_scope.
Open Scope Z_scope.

Record Binding := {
  b_Node : string;
  b_Namespace : string;
  b_PodName : string;
  b_Timestamp : Z }.

#[global] Instance Binding_eq_dec : EqDecision Binding.
Proof. solve_decision. Defined.

#[global] Instance Binding_inhabited : Inhabited Binding :=
  populate {| b_Node := ""; b_Namespace := ""; b_PodName := ""; b_Timestamp := 0 |}.

(** ** The heap.Interface methods *)

Module BindingHeap.

Abbreviation t := (list Binding).

Definition Len (b : t) : nat := length b.

Definition Less (b : t) (i j : nat) : bool :=
  b_Timestamp (b !!! i) <? b_Timestamp (b !!! j).

Definition Swap (b : t) (i j : nat) : t :=
  let bi := b !!! i in let bj := b !!! j in <[i := bj]> (<[j := bi]> b).

Definition Pop (b : t) : Binding * t :=
  let n := length b in (b !!! (n - 1)%nat, take (n - 1)%nat b).

Definition Push (b : t) (x : Binding) : t := (b ++ [x])%list.

End BindingHeap.

#[global] Instance BindingHeap_interface : HeapInterface (list Binding) Binding := {
  Len := BindingHeap.Len;
  Less := BindingHeap.Less;
  Swap := BindingHeap.Swap;
  PushBack := BindingHeap.Push;
  PopBack := BindingHeap.Pop }.

#[global] Instance BindingHeap_laws : HeapLaws (list Binding) Binding.
Proof.
  refine {| contents := fun b => b;
            ltb := fun x y => b_Timestamp x <? b_Timestamp y |}; simpl.
  - intros. by apply Z.ltb_irrefl.
  - intros a b H. breflect. apply Z.ltb_ge. lia.
  - intros a b c H1 H2. breflect. apply Z.ltb_ge. lia.
  - done.
  - done.
  - done.
  - done.
  - intros h l x ->. unfold BindingHeap.Pop. rewrite length_app. simpl.
    replace (length l + 1 - 1)%nat with (length l) by lia.
    by rewrite list_lookup_total_middle, take_app_length.
Defined.

(** ** BindingRecords *)

Record BindingRecords := {
  br_size : Z;
  br_bindings : list Binding;
  br_gcTimeRange : Duration }.

Definition with_bindings (br : BindingRecords) (bs : list Binding) : BindingRecords :=
  {| br_size := br_size br; br_bindings := bs; br_gcTimeRange := br_gcTimeRange br |}.

Definition NewBindingRecords (size : Z) (tr : Duration) : BindingRecords :=
  let bh := heap_Init (H := list Binding) [] in
  {| br_size := size; br_bindings := bh; br_gcTimeRange := tr |}.

Definition AddBinding (br : BindingRecords) (b : Binding) : go BindingRecords :=
  let! bindings :=
    if Z.of_nat (Len (br_bindings br)) =? br_size br then
      let! xh := heap_Pop (br_bindings br) in Ret (snd xh)
    else Ret (br_bindings br) in
  Ret (with_bindings br (heap_Push bindings b)).

(** [d.Seconds()] is [float64(d / Second) + float64(d % Second) / 1e9]; its conversion to an
    integer is in range for every [int64] number of nanoseconds. *)
Definition Duration_Seconds (d : Duration) : f64 :=
  fadd (f64_of_Z (Z.quot d Second)) (fdiv (f64_of_Z (Z.rem d Second)) (f64_of_Z 1000000000)).

Definition durSeconds (d : Duration) : Z := default 0 (f64_trunc (Duration_Seconds d)).

(** [time.Now().UTC().Unix() - int64(d.Seconds())]. *)
Definition timeline (now : Z) (d : Duration) : Z := now / Second - durSeconds d.

Definition GetLastNodeBindingCount (br : BindingRecords) (now : Z) (node : string)
    (timeRange : Duration) : Z :=
  let tl := timeline now timeRange in
  foldl (fun cnt binding =>
    if (tl <? b_Timestamp binding) && String.eqb (b_Node binding) node then cnt + 1 else cnt)
    0 (br_bindings br).

(** The loop of the collector, one [heap.Pop] per round. *)
Fixpoint gc_loop (fuel : nat) (h : list Binding) (tl : Z) : go (list Binding) :=
  match fuel with
  | O => Ret h
  | S f =>
      if (0 <? Len h)%nat then
        let! (binding, h') := heap_Pop h in
        if tl <? b_Timestamp binding then Ret (heap_Push h' binding)
        else gc_loop f h' tl
      else Ret h
  end.

Definition BindingsGC (br : BindingRecords) (now : Z) : go BindingRecords :=
  if br_gcTimeRange br =? 0 then Ret br
  else
    let tl := timeline now (br_gcTimeRange br) in
    let! h := gc_loop (S (Len (br_bindings br))) (br_bindings br) tl in
    Ret (with_bindings br h).

(** ** Runs *)

Inductive op := OAdd (b : Binding) | OGC (now : Z).

Definition exec (br : BindingRecords) (o : op) : go BindingRecords :=
  match o with OAdd b => AddBinding br b | OGC now => BindingsGC br now end.

Fixpoint run (br : BindingRecords) (ops : list op) : go BindingRecords :=
  match ops with
  | [] => Ret br
  | o :: ops' => let! br' := exec br o in run br' ops'
  end.

(** ** Operation lemmas *)

Abbreviation br_inv br := (heap_inv (br_bindings br)).

Lemma durSeconds_whole k : 0 <= k < 2 ^ 53 -> durSeconds (k * Second) = k.
Proof.
  intros Hk. unfold durSeconds, Duration_Seconds.
  rewrite Z.quot_mul, Z.rem_mul by done.
  change (fdiv (f64_of_Z 0) (f64_of_Z 1000000000)) with f64_zero.
  rewrite fadd_zero_r by (apply f64_of_Z_finite; lia).
  by rewrite f64_of_Z_trunc by lia.
Qed.

Lemma NewBindingRecords_inv size tr :
  br_inv (NewBindingRecords size tr) /\ br_bindings (NewBindingRecords size tr) = [].
Proof. split; [|done]. intros j Hj. simpl in Hj. unfold BindingHeap.Len in Hj. simpl in Hj. lia. Qed.

Lemma AddBinding_room br b :
  br_inv br -> Z.of_nat (length (br_bindings br)) <> br_size br ->
  exists br', AddBinding br b = Ret br' /\ br_inv br' /\ br_size br' = br_size br /\
    br_gcTimeRange br' = br_gcTimeRange br /\ br_bindings br' ≡ₚ b :: br_bindings br.
Proof.
  intros Hi Hs. unfold AddBinding. cbn [Len BindingHeap_interface]. unfold BindingHeap.Len.
  destruct (Z.eqb_spec (Z.of_nat (length (br_bindings br))) (br_size br)); [done|]. simpl.
  destruct (heap_Push_spec (br_bindings br) b Hi) as [Hi' Hp].
  eexists. split_and!; [reflexivity|exact Hi'|done|done|exact Hp].
Qed.

Lemma AddBinding_full br b :
  br_inv br -> Z.of_nat (length (br_bindings br)) = br_size br -> 0 < br_size br ->
  exists br' old rest, AddBinding br b = Ret br' /\ br_inv br' /\ br_size br' = br_size br /\
    br_gcTimeRange br' = br_gcTimeRange br /\
    br_bindings br ≡ₚ old :: rest /\ br_bindings br' ≡ₚ b :: rest /\
    Forall (fun x => b_Timestamp old <= b_Timestamp x) (br_bindings br).
Proof.
  intros Hi Hs Hpos. unfold AddBinding. cbn [Len BindingHeap_interface]. unfold BindingHeap.Len.
  rewrite Hs, Z.eqb_refl.
  destruct (heap_Pop_spec (br_bindings br) Hi) as (old & h & Hpop & Hih & Hperm & Hmin & _).
  { simpl. unfold BindingHeap.Len. lia. }
  rewrite Hpop. simpl. destruct (heap_Push_spec h b Hih) as [Hi' Hp].
  eexists _, old, h. split_and!; [reflexivity|exact Hi'|done|done|exact Hperm|exact Hp|].
  eapply Forall_impl; [exact Hmin|]. intros x Hx. unfold le in Hx. simpl in Hx. by breflect.
Qed.

Definition fresh (tl : Z) (bs : list Binding) : list Binding :=
  filter (fun b => tl < b_Timestamp b) bs.

Lemma gc_loop_spec fuel h tl :
  heap_inv h -> (length h < fuel)%nat ->
  exists h', gc_loop fuel h tl = Ret h' /\ heap_inv h' /\ h' ≡ₚ fresh tl h.
Proof.
  revert h. induction fuel as [|f IH]; intros h Hi Hf; [lia|].
  cbn [gc_loop]. cbn [Len BindingHeap_interface]. unfold BindingHeap.Len.
  destruct (Nat.ltb_spec 0 (length h)) as [Hlen|Hlen].
  2:{ destruct h; [|simpl in Hlen; lia]. eauto. }
  destruct (heap_Pop_spec h Hi Hlen) as (x & h1 & -> & Hi1 & Hperm & Hmin & _). cbn [go_bind].
  simpl in Hperm. destruct (Z.ltb_spec tl (b_Timestamp x)) as [Hx|Hx].
  - destruct (heap_Push_spec h1 x Hi1) as [Hi2 Hp2]. eexists. split_and!; [done|done|].
    etrans; [exact Hp2|]. simpl. rewrite <- Hperm. unfold fresh. symmetry.
    rewrite list_filter_all; [done|]. eapply Forall_impl; [exact Hmin|].
    intros y Hy. unfold le in Hy. simpl in Hy. breflect. lia.
  - destruct (IH h1) as (h' & -> & Hi' & Hp'); [done| |].
    { apply Permutation_length in Hperm. simpl in Hperm. lia. }
    eexists. split_and!; [done|done|]. rewrite Hp'. unfold fresh.
    rewrite Hperm, filter_cons_False by lia. done.
Qed.

Lemma BindingsGC_spec br now :
  br_inv br ->
  exists br', BindingsGC br now = Ret br' /\ br_inv br' /\ br_size br' = br_size br /\
    br_gcTimeRange br' = br_gcTimeRange br /\
    br_bindings br' ≡ₚ
      (if br_gcTimeRange br =? 0 then br_bindings br
       else fresh (timeline now (br_gcTimeRange br)) (br_bindings br)).
Proof.
  intros Hi. unfold BindingsGC. destruct (br_gcTimeRange br =? 0); [by eauto 10|].
  destruct (gc_loop_spec (S (Len (br_bindings br))) (br_bindings br)
              (timeline now (br_gcTimeRange br)) Hi) as (h & -> & Hi' & Hp).
  { simpl. unfold BindingHeap.Len. lia. }
  eexists. split_and!; [reflexivity|exact Hi'|done|done|exact Hp].
Qed.

(** ** Counting *)

Definition counted (tl : Z) (node : string) (bs : list Binding) : list Binding :=
  filter (fun b => tl < b_Timestamp b /\ b_Node b = node) bs.

Lemma count_counted br now node tr :
  GetLastNodeBindingCount br now node tr
  = Z.of_nat (length (counted (timeline now tr) node (br_bindings br))).
Proof.
  unfold GetLastNodeBindingCount, counted. set (tl := timeline now tr).
  assert (forall bs acc, foldl (fun cnt b =>
      if (tl <? b_Timestamp b) && String.eqb (b_Node b) node then cnt + 1 else cnt) acc bs
    = acc + Z.of_nat (length (filter (fun b => tl < b_Timestamp b /\ b_Node b = node) bs)))
    as Hgen.
  { induction bs as [|b bs IH]; intros acc; simpl; [lia|]. rewrite IH, filter_cons.
    destruct (Z.ltb_spec tl (b_Timestamp b)); simpl;
      destruct (String.eqb_spec (b_Node b) node); simpl;
      case_decide; simpl; try lia; naive_solver lia. }
  apply Hgen.
Qed.

#[global] Instance counted_proper tl node : Proper (Permutation ==> Permutation) (counted tl node).
Proof. intros l k H. unfold counted. by rewrite H. Qed.

#[global] Instance fresh_proper tl : Proper (Permutation ==> Permutation) (fresh tl).
Proof. intros l k H. unfold fresh. by rewrite H. Qed.

Lemma counted_fresh tl tl' node bs : tl' <= tl -> counted tl node (fresh tl' bs) = counted tl node bs.
Proof. intros H. unfold counted, fresh. apply list_filter_filter_l. intros; lia. Qed.

Lemma count_perm br br' now node tr :
  counted (timeline now tr) node (br_bindings br) ≡ₚ
  counted (timeline now tr) node (br_bindings br') ->
  GetLastNodeBindingCount br now node tr = GetLastNodeBindingCount br' now node tr.
Proof. intros H. rewrite !count_counted. by rewrite H. Qed.

Lemma count_bounds br now node tr :
  0 <= GetLastNodeBindingCount br now node tr <= Z.of_nat (length (br_bindings br)).
Proof.
  rewrite count_counted. unfold counted. pose proof (length_filter (fun b =>
    timeline now tr < b_Timestamp b /\ b_Node b = node) (br_bindings br)). lia.
Qed.

(** ** Runs keep the invariant *)

Definition br_wf (br : BindingRecords) : Prop :=
  br_inv br /\ Z.of_nat (length (br_bindings br)) <= br_size br.

Lemma fresh_length tl bs : (length (fresh tl bs) <= length bs)%nat.
Proof. apply length_filter. Qed.

Lemma exec_wf br o :
  0 < br_size br -> br_wf br ->
  exists br', exec br o = Ret br' /\ br_wf br' /\ br_size br' = br_size br /\
    br_gcTimeRange br' = br_gcTimeRange br.
Proof.
  intros Hpos [Hi Hs]. destruct o as [b|now]; simpl.
  - destruct (Z.eq_dec (Z.of_nat (length (br_bindings br))) (br_size br)) as [He|Hne].
    + destruct (AddBinding_full br b Hi He Hpos) as (br' & old & rest &
        -> & Hi' & Hsz & Hgc & Hp & Hp' & _).
      eexists. split_and!; try done. split; [done|].
      apply Permutation_length in Hp, Hp'. simpl in *. lia.
    + destruct (AddBinding_room br b Hi Hne) as (br' & -> & Hi' & Hsz & Hgc & Hp).
      eexists. split_and!; try done. split; [done|].
      apply Permutation_length in Hp. simpl in *. lia.
  - destruct (BindingsGC_spec br now Hi) as (br' & -> & Hi' & Hsz & Hgc & Hp).
    eexists. split_and!; try done. split; [done|].
    apply Permutation_length in Hp. rewrite Hp, Hsz.
    destruct (br_gcTimeRange br =? 0); [done|]. pose proof (fresh_length
      (timeline now (br_gcTimeRange br)) (br_bindings br)). lia.
Qed.

Lemma run_wf br ops :
  0 < br_size br -> br_wf br ->
  exists br', run br ops = Ret br' /\ br_wf br' /\ br_size br' = br_size br /\
    br_gcTimeRange br' = br_gcTimeRange br.
Proof.
  revert br. induction ops as [|o ops IH]; intros br Hpos Hwf; simpl; [by eauto 10|].
  destruct (exec_wf br o Hpos Hwf) as (br1 & -> & Hwf1 & Hs1 & Hg1). simpl.
  destruct (IH br1) as (br2 & -> & Hwf2 & Hs2 & Hg2); [congruence|done|].
  eexists. split_and!; congruence || done.
Qed.

(** ** The abstract store *)

(** What the store promises: a bag of bindings; an addition to a full bag drops one of the
    oldest, a collection keeps the fresh ones. *)
Inductive spec_step (size : Z) (gc : Duration) : list Binding -> op -> list Binding -> Prop :=
| spec_add s b : Z.of_nat (length s) <> size -> spec_step size gc s (OAdd b) (b :: s)
| spec_evict s old rest b :
    Z.of_nat (length s) = size -> s ≡ₚ old :: rest ->
    Forall (fun x => b_Timestamp old <= b_Timestamp x) s ->
    spec_step size gc s (OAdd b) (b :: rest)
| spec_gc_off s now : gc = 0 -> spec_step size gc s (OGC now) s
| spec_gc s now : gc <> 0 -> spec_step size gc s (OGC now) (fresh (timeline now gc) s).

Definition refines (br : BindingRecords) (s : list Binding) : Prop :=
  br_wf br /\ br_bindings br ≡ₚ s.

Inductive spec_run (size : Z) (gc : Duration) : list Binding -> list op -> list Binding -> Prop :=
| spec_nil s : spec_run size gc s [] s
| spec_cons s s' s'' o ops :
    spec_step size gc s o s' -> spec_run size gc s' ops s'' -> spec_run size gc s (o :: ops) s''.

Lemma exec_simulation br s o :
  0 < br_size br -> refines br s ->
  exists br' s', exec br o = Ret br' /\ spec_step (br_size br) (br_gcTimeRange br) s o s' /\
    refines br' s' /\ br_size br' = br_size br /\ br_gcTimeRange br' = br_gcTimeRange br.
Proof.
  intros Hpos [[Hi Hle] Hp]. pose proof (Permutation_length Hp) as Hl.
  destruct (exec_wf br o Hpos (conj Hi Hle)) as (br0 & Hex & Hwf & Hsz & Hgc).
  destruct o as [b|now]; simpl in *.
  - destruct (Z.eq_dec (Z.of_nat (length (br_bindings br))) (br_size br)) as [He|Hne].
    + destruct (AddBinding_full br b Hi He Hpos) as
        (br' & old & rest & Hr & Hi' & _ & _ & Hp0 & Hp' & Hmin).
      exists br', (b :: rest). assert (br' = br0) as -> by congruence. split_and!; try done.
      eapply spec_evict; [lia|by rewrite <- Hp|by rewrite <- Hp].
    + destruct (AddBinding_room br b Hi Hne) as (br' & Hr & Hi' & _ & _ & Hp').
      exists br', (b :: s). assert (br' = br0) as -> by congruence. split_and!; try done.
      * constructor. lia.
      * split; [done|]. by rewrite Hp', Hp.
  - destruct (BindingsGC_spec br now Hi) as (br' & Hr & Hi' & _ & _ & Hp').
    assert (br' = br0) as -> by congruence. destruct (Z.eqb_spec (br_gcTimeRange br) 0) as [Hg|Hg].
    + exists br0, s.
      split_and!; try done; [by constructor|]. split; [done|by rewrite Hp', Hp].
    + exists br0, (fresh (timeline now (br_gcTimeRange br)) s).
      split_and!; try done; [by constructor|]. split; [done|by rewrite Hp', Hp].
Qed.

(** ** Nothing recent is lost while the store is not full *)

Fixpoint adds (ops : list op) : list Binding :=
  match ops with
  | [] => []
  | OAdd b :: ops' => b :: adds ops'
  | OGC _ :: ops' => adds ops'
  end.

(** Every collection of the run happens no later than [now]. *)
Fixpoint gcs_before (now : Z) (ops : list op) : bool :=
  match ops with
  | [] => true
  | OAdd _ :: ops' => gcs_before now ops'
  | OGC t :: ops' => (t <=? now) && gcs_before now ops'
  end.

Lemma timeline_mono now now' d d' :
  now <= now' -> durSeconds d' <= durSeconds d -> timeline now d <= timeline now' d'.
Proof.
  intros Hn Hd. unfold timeline. pose proof (Z.div_le_mono now now' Second ltac:(done) Hn). lia.
Qed.

Lemma fresh_fresh tl tl' bs : tl' <= tl -> fresh tl (fresh tl' bs) = fresh tl bs.
Proof. intros H. unfold fresh. apply list_filter_filter_l. intros; lia. Qed.

(** No binding of the run evicts another: each is added while the store is not full. *)
Fixpoint roomy (br : BindingRecords) (ops : list op) : bool :=
  match ops with
  | [] => true
  | o :: ops' =>
      match o with OAdd _ => negb (Z.of_nat (length (br_bindings br)) =? br_size br) | OGC _ => true end
      && match exec br o with Ret br' => roomy br' ops' | Panic _ => true end
  end.

Lemma BindingsGC_length br t br' :
  br_inv br -> BindingsGC br t = Ret br' ->
  (length (br_bindings br') <= length (br_bindings br))%nat.
Proof.
  intros Hi Hr. destruct (BindingsGC_spec br t Hi) as (br1 & Hr1 & _ & _ & _ & Hp).
  assert (br1 = br') as -> by congruence. apply Permutation_length in Hp. rewrite Hp.
  destruct (br_gcTimeRange br =? 0); [done|apply fresh_length].
Qed.

(** A store as large as all that is added has room. *)
Lemma few_roomy br ops :
  br_inv br -> Z.of_nat (length (br_bindings br) + length (adds ops)) <= br_size br -> roomy br ops = true.
Proof.
  revert br. induction ops as [|[b|t] ops IH]; intros br Hi Hl; cbn [roomy adds exec length] in *; [done| |].
  - apply andb_true_iff. split; [apply negb_true_iff, Z.eqb_neq; lia|].
    destruct (AddBinding_room br b Hi ltac:(lia)) as (br1 & -> & Hi1 & Hs1 & _ & Hp1).
    apply Permutation_length in Hp1. cbn [length] in Hp1. apply IH; [done|lia].
  - destruct (BindingsGC_spec br t Hi) as (br1 & Hr & Hi1 & Hs1 & _ & _).
    pose proof (BindingsGC_length br t br1 Hi Hr). rewrite Hr. apply IH; [done|lia].
Qed.

Lemma run_fresh br ops now tl :
  br_inv br -> roomy br ops = true ->
  gcs_before now ops = true -> timeline now (br_gcTimeRange br) <= tl ->
  exists br', run br ops = Ret br' /\ br_inv br' /\
    fresh tl (br_bindings br') ≡ₚ fresh tl (br_bindings br ++ adds ops).
Proof.
  revert br. induction ops as [|[b|t] ops IH]; intros br Hi Hl Hg Htl; simpl in *.
  - exists br. by rewrite app_nil_r.
  - apply andb_true_iff in Hl as [Hne%negb_true_iff%Z.eqb_neq Hl].
    destruct (AddBinding_room br b Hi Hne) as (br1 & Hr & Hi1 & Hs1 & Hg1 & Hp1).
    rewrite Hr in *. cbn [go_bind].
    destruct (IH br1) as (br2 & -> & Hi2 & Hp2); [done|done|done|congruence|].
    exists br2. split_and!; [done|done|]. rewrite Hp2, Hp1. by rewrite <- Permutation_middle.
  - apply andb_true_iff in Hg as [Ht Hg]. apply Z.leb_le in Ht.
    destruct (BindingsGC_spec br t Hi) as (br1 & Hr & Hi1 & Hs1 & Hg1 & Hp1).
    rewrite Hr in *. cbn [go_bind].
    assert (fresh tl (br_bindings br1) ≡ₚ fresh tl (br_bindings br)) as Hf.
    { rewrite Hp1. destruct (br_gcTimeRange br =? 0); [done|]. rewrite fresh_fresh; [done|].
      pose proof (timeline_mono t now (br_gcTimeRange br) (br_gcTimeRange br) Ht). lia. }
    destruct (IH br1) as (br2 & -> & Hi2 & Hp2); [done|done|done|congruence|].
    exists br2. split_and!; [done|done|]. rewrite Hp2. unfold fresh in *.
    by rewrite !filter_app, Hf.
Qed.

Lemma run_counted (size : Z) (gc tr : Duration) (ops : list op) (now : Z) (node : string) :
  Z.of_nat (length (adds ops)) <= size -> gcs_before now ops = true ->
  durSeconds tr <= durSeconds gc ->
  exists br, run (NewBindingRecords size gc) ops = Ret br /\
    GetLastNodeBindingCount br now node tr
    = Z.of_nat (length (counted (timeline now tr) node (adds ops))).
Proof.
  intros Hl Hg Hd. destruct (NewBindingRecords_inv size gc) as [Hi He].
  destruct (run_fresh (NewBindingRecords size gc) ops now (timeline now tr) Hi)
    as (br & Hr & _ & Hp).
  - apply few_roomy; [done|]. by rewrite He.
  - done.
  - by apply timeline_mono.
  - exists br. split; [done|]. rewrite count_counted, He in *. simpl in Hp.
    rewrite <- (counted_fresh (timeline now tr) (timeline now tr) node (br_bindings br)) by done.
    by rewrite Hp, counted_fresh by done.
Qed.

(** ** Properties *)

(** [AddBinding] on a well-formed store of positive size never panics and keeps it
    well-formed (heap-ordered and within its size); with room it adds the binding and loses
    nothing, and when full it drops exactly one binding, one with the least timestamp. *)
Theorem AddBinding_evicts_oldest (br : BindingRecords) (b : Binding) :
  0 < br_size br -> br_wf br ->
  exists br', AddBinding br b = Ret br' /\ br_wf br' /\
    (Z.of_nat (length (br_bindings br)) < br_size br /\
       br_bindings br' ≡ₚ b :: br_bindings br \/
     Z.of_nat (length (br_bindings br)) = br_size br /\
       exists old rest, br_bindings br ≡ₚ old :: rest /\ br_bindings br' ≡ₚ b :: rest /\
         Forall (fun x => b_Timestamp old <= b_Timestamp x) (br_bindings br)).
Proof.
  intros Hpos Hwf. destruct (exec_wf br (OAdd b) Hpos Hwf) as (br' & Hr & Hwf' & _). simpl in Hr.
  exists br'. split; [done|]. split; [done|]. destruct Hwf as [Hi Hle].
  destruct (Z.eq_dec (Z.of_nat (length (br_bindings br))) (br_size br)) as [He|Hne].
  - right. split; [done|].
    destruct (AddBinding_full br b Hi He Hpos) as (br1 & old & rest & ? & _ & _ & _ & ? & ? & ?).
    assert (br1 = br') as -> by congruence. eauto.
  - left. destruct (AddBinding_room br b Hi Hne) as (br1 & ? & _ & _ & _ & ?).
    assert (br1 = br') as -> by congruence. split; [lia|done].
Qed.

(** Any sequence of additions and collections on a new store of positive size runs without
    a panic, and ends in a heap-ordered store that holds at most [size] bindings. *)
Theorem run_safe (size : Z) (tr : Duration) (ops : list op) :
  0 < size ->
  exists br, run (NewBindingRecords size tr) ops = Ret br /\
    heap_inv (br_bindings br) /\ Z.of_nat (length (br_bindings br)) <= size.
Proof.
  intros Hs. destruct (NewBindingRecords_inv size tr) as [Hi He].
  destruct (run_wf (NewBindingRecords size tr) ops) as (br & Hr & [Hi' Hle] & Hsz & _).
  - done.
  - split; [done|]. rewrite He. simpl. lia.
  - exists br. rewrite Hsz in Hle. done.
Qed.

(** C9: the heap refines the abstract bag: every run of the store is, step by step, a run of the
    specification ([spec_step]: add, or evict one of the oldest when full; keep what is newer
    than the time line), up to the order of the bindings. *)
Theorem run_refines (br : BindingRecords) (s : list Binding) (ops : list op) :
  0 < br_size br -> refines br s ->
  exists br' s', run br ops = Ret br' /\
    spec_run (br_size br) (br_gcTimeRange br) s ops s' /\ refines br' s'.
Proof.
  revert br s. induction ops as [|o ops IH]; intros br s Hpos Href; simpl.
  { exists br, s. split_and!; [done|constructor|done]. }
  destruct (exec_simulation br s o Hpos Href) as (br1 & s1 & -> & Hst & Href1 & Hsz & Hgc).
  cbn [go_bind]. destruct (IH br1 s1) as (br2 & s2 & Hr & Hsp & Href2); [congruence|done|].
  exists br2, s2. split_and!; [done| |done]. rewrite Hsz, Hgc in Hsp. by econstructor.
Qed.

(** C23: as long as a run adds no more bindings than the store holds, the count for a node is
    exactly the number of bindings of the run for that node inside the time range, although
    collections ran in between: no recent binding is lost and none is counted twice. It needs a
    time range no longer than the collector's and collections no later than the reading. *)
Theorem run_count_exact (size : Z) (gc tr : Duration) (ops : list op) (now : Z) (node : string) :
  Z.of_nat (length (adds ops)) <= size -> gcs_before now ops = true ->
  durSeconds tr <= durSeconds gc ->
  exists br, run (NewBindingRecords size gc) ops = Ret br /\
    GetLastNodeBindingCount br now node tr
    = Z.of_nat (length (counted (timeline now tr) node (adds ops))).
Proof. apply run_counted. Qed.

(** A collection leaves every count over a time range no longer than the collector's as it
    was, and cuts a longer range down to the collector's. The scheduler's store collects at five
    minutes, so a hot-value policy with a longer range counts only the last five minutes. *)
Theorem BindingsGC_count (br : BindingRecords) (now : Z) (node : string) (tr : Duration) :
  heap_inv (br_bindings br) -> br_gcTimeRange br <> 0 ->
  exists br', BindingsGC br now = Ret br' /\
    GetLastNodeBindingCount br' now node tr =
    GetLastNodeBindingCount br now node
      (if durSeconds tr <=? durSeconds (br_gcTimeRange br) then tr else br_gcTimeRange br).
Proof.
  intros Hi Hg. destruct (BindingsGC_spec br now Hi) as (br' & Hr & _ & _ & _ & Hp).
  exists br'. split; [done|]. apply Z.eqb_neq in Hg. rewrite Hg in Hp.
  rewrite !count_counted, Hp.
  destruct (Z.leb_spec (durSeconds tr) (durSeconds (br_gcTimeRange br))).
  - by rewrite counted_fresh by (by apply timeline_mono).
  - f_equal. f_equal. unfold counted, fresh. rewrite list_filter_filter.
    apply list_filter_iff. intros b. unfold timeline. naive_solver lia.
Qed.

(** A store of size 0, which the binding-heap-size flag allows, panics on its first
    addition. *)
Lemma AddBinding_size_zero_panics (tr : Duration) (b : Binding) :
  AddBinding (NewBindingRecords 0 tr) b = Panic "runtime error: index out of range [-1]".
Proof. reflexivity. Qed.

(** ** Witnesses *)

Section Witnesses.

Definition bx_at (t : Z) (node : string) : Binding :=
  {| b_Node := node; b_Namespace := "ns"; b_PodName := "p"; b_Timestamp := t |}.

Definition bx_store (size : Z) : BindingRecords :=
  {| br_size := size; br_bindings := [bx_at 3 "a"; bx_at 5 "b"]; br_gcTimeRange := 2 * Second |}.

Definition bx_ops : list op :=
  [OAdd (bx_at 3 "a"); OAdd (bx_at 5 "a"); OGC (5 * Second); OAdd (bx_at 5 "b")].

Lemma bx_store_inv size : heap_inv (br_bindings (bx_store size)).
Proof.
  intros j Hj. simpl in Hj. unfold BindingHeap.Len in Hj. simpl in Hj.
  assert (j = 1)%nat as -> by lia. vm_compute. reflexivity.
Defined.

Lemma AddBinding_evicts_oldest_witness :
  exists br', AddBinding (bx_store 2) (bx_at 4 "c") = Ret br' /\ br_wf br' /\
    (Z.of_nat 2 < 2 /\ br_bindings br' ≡ₚ bx_at 4 "c" :: br_bindings (bx_store 2) \/
     Z.of_nat 2 = 2 /\
       exists old rest, br_bindings (bx_store 2) ≡ₚ old :: rest /\
         br_bindings br' ≡ₚ bx_at 4 "c" :: rest /\
         Forall (fun x => b_Timestamp old <= b_Timestamp x) (br_bindings (bx_store 2))).
Proof.
  apply (AddBinding_evicts_oldest (bx_store 2) (bx_at 4 "c"));
    [reflexivity|split; [apply bx_store_inv|vm_compute; discriminate]].
Defined.

Lemma run_safe_witness :
  exists br, run (NewBindingRecords 2 (2 * Second)) bx_ops = Ret br /\
    heap_inv (br_bindings br) /\ Z.of_nat (length (br_bindings br)) <= 2.
Proof. apply (run_safe 2 (2 * Second) bx_ops). reflexivity. Defined.

Lemma run_refines_witness :
  exists br' s', run (bx_store 2) bx_ops = Ret br' /\
    spec_run 2 (2 * Second) (br_bindings (bx_store 2)) bx_ops s' /\ refines br' s'.
Proof.
  apply (run_refines (bx_store 2) (br_bindings (bx_store 2)) bx_ops); [reflexivity|].
  split; [split; [apply bx_store_inv|vm_compute; discriminate]|reflexivity].
Defined.

Lemma run_count_exact_witness :
  exists br, run (NewBindingRecords 3 (2 * Second)) bx_ops = Ret br /\
    GetLastNodeBindingCount br (6 * Second) "a" (2 * Second) = 1.
Proof.
  apply (run_count_exact 3 (2 * Second) (2 * Second) bx_ops (6 * Second) "a");
    [vm_compute; discriminate|reflexivity|reflexivity].
Defined.

Lemma BindingsGC_count_witness :
  exists br', BindingsGC (bx_store 2) (6 * Second) = Ret br' /\
    GetLastNodeBindingCount br' (6 * Second) "a" Minute =
    GetLastNodeBindingCount (bx_store 2) (6 * Second) "a" (2 * Second).
Proof.
  apply (BindingsGC_count (bx_store 2) (6 * Second) "a" Minute);
    [apply bx_store_inv|discriminate].
Defined.

End Witnesses.
