(* ===== verification/HotValue.v ===== *)
(** * The hot value of a node

    The loop that both the scheduler's [Score] (pkg/plugins/dynamic/plugins.go) and the
    annotator's [annotateNodeHotValue] (pkg/controller/annotator/node.go) run over the hot-value
    policies: the sum of the node's recent bindings in each policy's time range, divided by the
    policy's count. Round [i] finds the store as [recs i] and the clock at [clock i]. *)

From S2P Require Import Prelude GoTime Policy GoHeap Binding.

Open Scope string_scope.
Open Scope Z_scope.

(** Integer division by the policy's count, which panics when it is 0. *)
Fixpoint hot_loop (recs : nat -> BindingRecords) (clock : nat -> Z) (i : nat)
    (nodeName : string) (l : list HotValuePolicy) (hotValue : Z) : go Z :=
  match l with
  | [] => Ret hotValue
  | hv :: l' =>
      let! q := int_div
        (GetLastNodeBindingCount (recs i) (clock i) nodeName (hv_TimeRange hv)) (hv_Count hv) in
      hot_loop recs clock (S i) nodeName l' (wrap64 (hotValue + q))
  end.

(** ** Lemmas *)

(** The hot value as an unbounded sum. *)
Fixpoint hot_value (recs : nat -> BindingRecords) (clock : nat -> Z) (i : nat)
    (nodeName : string) (l : list HotValuePolicy) : Z :=
  match l with
  | [] => 0
  | hv :: l' =>
      GetLastNodeBindingCount (recs i) (clock i) nodeName (hv_TimeRange hv) / hv_Count hv
      + hot_value recs clock (S i) nodeName l'
  end.

(** Stores of at most [2 ^ 32] bindings. *)
Definition small (recs : nat -> BindingRecords) : Prop :=
  forall i, Z.of_nat (length (br_bindings (recs i))) <= 2 ^ 32.

Lemma hot_value_bounds recs clock i nodeName l :
  small recs -> Forall (fun hv => 0 < hv_Count hv) l ->
  0 <= hot_value recs clock i nodeName l <= 2 ^ 32 * Z.of_nat (length l).
Proof.
  intros Hs Hl. revert i. induction Hl as [|hv l Hhv _ IH]; intros i; cbn [hot_value length]; [lia|].
  specialize (IH (S i)). specialize (Hs i).
  pose proof (count_bounds (recs i) (clock i) nodeName (hv_TimeRange hv)) as Hc.
  set (c := GetLastNodeBindingCount _ _ _ _) in *.
  assert (0 <= c / hv_Count hv <= c).
  { split; [apply Z.div_pos; lia|]. apply Z.div_le_upper_bound; nia. }
  lia.
Qed.

Lemma hot_loop_value recs clock i nodeName l acc :
  small recs -> Forall (fun hv => 0 < hv_Count hv) l ->
  0 <= acc -> acc + 2 ^ 32 * Z.of_nat (length l) <= 2 ^ 56 ->
  hot_loop recs clock i nodeName l acc = Ret (acc + hot_value recs clock i nodeName l).
Proof.
  intros Hs Hl. revert i acc. induction Hl as [|hv l Hhv Hl IH]; intros i acc Ha Hb.
  { cbn. f_equal. lia. }
  cbn [hot_loop hot_value].
  pose proof (count_bounds (recs i) (clock i) nodeName (hv_TimeRange hv)) as Hc.
  specialize (Hs i) as Hsi. set (c := GetLastNodeBindingCount _ _ _ _) in *.
  cbn [length] in Hb.
  rewrite int_div_pos by (unfold int64_max; lia). cbn [go_bind].
  assert (0 <= c / hv_Count hv <= 2 ^ 32).
  { split; [apply Z.div_pos; lia|]. etrans; [|exact Hsi]. etrans; [|apply Hc].
    apply Z.div_le_upper_bound; nia. }
  rewrite wrap64_id by (unfold int64_min, int64_max; lia).
  rewrite IH by lia. f_equal. lia.
Qed.

Lemma hot_loop_returns recs clock i nodeName l acc :
  Forall (fun hv => hv_Count hv <> 0) l ->
  exists h, hot_loop recs clock i nodeName l acc = Ret h.
Proof.
  intros Hl. revert i acc. induction Hl as [|hv l Hhv _ IH]; intros i acc; simpl; [eauto|].
  unfold int_div. apply Z.eqb_neq in Hhv. rewrite Hhv. simpl. apply IH.
Qed.

Lemma hot_loop_panics recs clock i nodeName l acc :
  Exists (fun hv => hv_Count hv = 0) l ->
  hot_loop recs clock i nodeName l acc = Panic "runtime error: integer divide by zero".
Proof.
  revert i acc. induction l as [|hv l IH]; intros i acc He; [by inversion He|]. simpl.
  destruct (Z.eq_dec (hv_Count hv) 0) as [->|Hn]; [done|].
  unfold int_div. apply Z.eqb_neq in Hn as Hn'. rewrite Hn'. simpl. apply IH.
  inversion He; [done|done].
Qed.
