(* ===== verification/Config.v ===== *)
(** * Plugin arguments (pkg/plugins/apis/config)

    The internal argument types, the two served versions with their defaults and generated
    conversions. A file is decoded by applying the version's defaults and converting the result
    ([decode]), which is what the scheme's universal decoder does with the functions registered
    here. A pointer to a string is an option; TypeMeta is not kept. *)

From S2P Require Import Prelude.

Open Scope string_scope.

Definition default_policy_path : string := "/etc/kubernetes/dynamic-scheduler-policy.yaml".
Definition defaultNodeResource : list string := ["cpu"].

(** ** Internal types (types.go) *)

Record DynamicArgs := { da_PolicyConfigPath : string }.
Record NodeResourceTopologyMatchArgs := { na_TopologyAwareResources : list string }.
Record ApplicationResourceAwareArgs := { aa_PolicyConfigPath : string }.

(** [metav1.Convert_Pointer_string_To_string]: nil becomes the empty string. *)
Definition string_of_pointer (p : option string) : string :=
  match p with Some s => s | None => "" end.

Module v1beta2.

Record DynamicArgs2 := { PolicyConfigPath : string }.
Record NodeResourceTopologyMatchArgs2 := { TopologyAwareResources : list string }.
Record ApplicationResourceAwareArgs2 := { AppPolicyConfigPath : string }.

Definition SetDefaults_DynamicArgs (obj : DynamicArgs2) : DynamicArgs2 :=
  if String.eqb (PolicyConfigPath obj) "" then {| PolicyConfigPath := default_policy_path |}
  else obj.

Definition SetDefaults_NodeResourceTopologyMatchArgs (obj : NodeResourceTopologyMatchArgs2)
    : NodeResourceTopologyMatchArgs2 :=
  if (length (TopologyAwareResources obj) =? 0)%nat
  then {| TopologyAwareResources := defaultNodeResource |} else obj.

Definition SetDefaults_ApplicationResourceAwareArgs (obj : ApplicationResourceAwareArgs2)
    : ApplicationResourceAwareArgs2 :=
  if String.eqb (AppPolicyConfigPath obj) ""
  then {| AppPolicyConfigPath := default_policy_path |} else obj.

Definition Convert_DynamicArgs_To_config (i : DynamicArgs2) : DynamicArgs :=
  {| da_PolicyConfigPath := PolicyConfigPath i |}.
Definition Convert_config_To_DynamicArgs (i : DynamicArgs) : DynamicArgs2 :=
  {| PolicyConfigPath := da_PolicyConfigPath i |}.
Definition Convert_NodeResourceTopologyMatchArgs_To_config (i : NodeResourceTopologyMatchArgs2)
    : NodeResourceTopologyMatchArgs :=
  {| na_TopologyAwareResources := TopologyAwareResources i |}.
Definition Convert_config_To_NodeResourceTopologyMatchArgs (i : NodeResourceTopologyMatchArgs)
    : NodeResourceTopologyMatchArgs2 :=
  {| TopologyAwareResources := na_TopologyAwareResources i |}.
Definition Convert_ApplicationResourceAwareArgs_To_config (i : ApplicationResourceAwareArgs2)
    : ApplicationResourceAwareArgs :=
  {| aa_PolicyConfigPath := AppPolicyConfigPath i |}.
Definition Convert_config_To_ApplicationResourceAwareArgs (i : ApplicationResourceAwareArgs)
    : ApplicationResourceAwareArgs2 :=
  {| AppPolicyConfigPath := aa_PolicyConfigPath i |}.

(** What decoding an object of this version amounts to (the Schemes file shows it of the scheme that is
    built): the defaults, then the conversion. *)
Definition decode_DynamicArgs (i : DynamicArgs2) : DynamicArgs :=
  Convert_DynamicArgs_To_config (SetDefaults_DynamicArgs i).
Definition decode_NodeResourceTopologyMatchArgs (i : NodeResourceTopologyMatchArgs2)
    : NodeResourceTopologyMatchArgs :=
  Convert_NodeResourceTopologyMatchArgs_To_config (SetDefaults_NodeResourceTopologyMatchArgs i).
Definition decode_ApplicationResourceAwareArgs (i : ApplicationResourceAwareArgs2)
    : ApplicationResourceAwareArgs :=
  Convert_ApplicationResourceAwareArgs_To_config (SetDefaults_ApplicationResourceAwareArgs i).

End v1beta2.

Module v1beta3.

Record DynamicArgs3 := { PolicyConfigPath : option string }.
Record NodeResourceTopologyMatchArgs3 := { TopologyAwareResources : list string }.
Record ApplicationResourceAwareArgs3 := { AppPolicyConfigPath : option string }.

Definition SetDefaults_DynamicArgs (obj : DynamicArgs3) : DynamicArgs3 :=
  match PolicyConfigPath obj with
  | None => {| PolicyConfigPath := Some default_policy_path |}
  | Some _ => obj
  end.

Definition SetDefaults_NodeResourceTopologyMatchArgs (obj : NodeResourceTopologyMatchArgs3)
    : NodeResourceTopologyMatchArgs3 :=
  if (length (TopologyAwareResources obj) =? 0)%nat
  then {| TopologyAwareResources := defaultNodeResource |} else obj.

Definition SetDefaults_ApplicationResourceAwareArgs (obj : ApplicationResourceAwareArgs3)
    : ApplicationResourceAwareArgs3 :=
  match AppPolicyConfigPath obj with
  | None => {| AppPolicyConfigPath := Some default_policy_path |}
  | Some _ => obj
  end.

Definition Convert_DynamicArgs_To_config (i : DynamicArgs3) : DynamicArgs :=
  {| da_PolicyConfigPath := string_of_pointer (PolicyConfigPath i) |}.
Definition Convert_config_To_DynamicArgs (i : DynamicArgs) : DynamicArgs3 :=
  {| PolicyConfigPath := Some (da_PolicyConfigPath i) |}.
Definition Convert_NodeResourceTopologyMatchArgs_To_config (i : NodeResourceTopologyMatchArgs3)
    : NodeResourceTopologyMatchArgs :=
  {| na_TopologyAwareResources := TopologyAwareResources i |}.
Definition Convert_config_To_NodeResourceTopologyMatchArgs (i : NodeResourceTopologyMatchArgs)
    : NodeResourceTopologyMatchArgs3 :=
  {| TopologyAwareResources := na_TopologyAwareResources i |}.
Definition Convert_ApplicationResourceAwareArgs_To_config (i : ApplicationResourceAwareArgs3)
    : ApplicationResourceAwareArgs :=
  {| aa_PolicyConfigPath := string_of_pointer (AppPolicyConfigPath i) |}.
Definition Convert_config_To_ApplicationResourceAwareArgs (i : ApplicationResourceAwareArgs)
    : ApplicationResourceAwareArgs3 :=
  {| AppPolicyConfigPath := Some (aa_PolicyConfigPath i) |}.

(** What decoding an object of this version amounts to (the Schemes file shows it of the scheme that is
    built): the defaults, then the conversion. *)
Definition decode_DynamicArgs (i : DynamicArgs3) : DynamicArgs :=
  Convert_DynamicArgs_To_config (SetDefaults_DynamicArgs i).
Definition decode_NodeResourceTopologyMatchArgs (i : NodeResourceTopologyMatchArgs3)
    : NodeResourceTopologyMatchArgs :=
  Convert_NodeResourceTopologyMatchArgs_To_config (SetDefaults_NodeResourceTopologyMatchArgs i).
Definition decode_ApplicationResourceAwareArgs (i : ApplicationResourceAwareArgs3)
    : ApplicationResourceAwareArgs :=
  Convert_ApplicationResourceAwareArgs_To_config (SetDefaults_ApplicationResourceAwareArgs i).

End v1beta3.

(** ** Properties *)

(** A policy path is defaulted in both versions when it is left out; an explicit empty path is
    defaulted in v1beta2 but kept in v1beta3, so only there can a plugin be started with no path.
    The resource names are never empty in either, and converting to a version and back is the
    identity. *)
Theorem decode_paths (path : string) (names : list string) :
  da_PolicyConfigPath (v1beta2.decode_DynamicArgs {| v1beta2.PolicyConfigPath := path |})
    = (if String.eqb path "" then default_policy_path else path) /\
  da_PolicyConfigPath (v1beta3.decode_DynamicArgs {| v1beta3.PolicyConfigPath := None |})
    = default_policy_path /\
  da_PolicyConfigPath (v1beta3.decode_DynamicArgs {| v1beta3.PolicyConfigPath := Some path |})
    = path /\
  aa_PolicyConfigPath (v1beta2.decode_ApplicationResourceAwareArgs
      {| v1beta2.AppPolicyConfigPath := path |})
    = (if String.eqb path "" then default_policy_path else path) /\
  aa_PolicyConfigPath (v1beta3.decode_ApplicationResourceAwareArgs
      {| v1beta3.AppPolicyConfigPath := Some path |}) = path /\
  na_TopologyAwareResources (v1beta2.decode_NodeResourceTopologyMatchArgs
      {| v1beta2.TopologyAwareResources := names |}) <> [] /\
  na_TopologyAwareResources (v1beta3.decode_NodeResourceTopologyMatchArgs
      {| v1beta3.TopologyAwareResources := names |}) <> [] /\
  (forall a, v1beta2.Convert_DynamicArgs_To_config (v1beta2.Convert_config_To_DynamicArgs a) = a) /\
  (forall a, v1beta3.Convert_DynamicArgs_To_config (v1beta3.Convert_config_To_DynamicArgs a) = a) /\
  (forall a, v1beta2.Convert_ApplicationResourceAwareArgs_To_config
     (v1beta2.Convert_config_To_ApplicationResourceAwareArgs a) = a) /\
  (forall a, v1beta3.Convert_ApplicationResourceAwareArgs_To_config
     (v1beta3.Convert_config_To_ApplicationResourceAwareArgs a) = a).
Proof.
  split_and!; try done; try (by intros []).
  - unfold v1beta2.decode_DynamicArgs, v1beta2.SetDefaults_DynamicArgs. simpl.
    by destruct (String.eqb path "").
  - unfold v1beta2.decode_ApplicationResourceAwareArgs,
      v1beta2.SetDefaults_ApplicationResourceAwareArgs. simpl. by destruct (String.eqb path "").
  - by destruct names.
  - by destruct names.
Qed.
