(* ===== verification/Metrics.v ===== *)
(** * Metrics of the scheduler plugins (pkg/plugins/metrics/metrics.go)

    The two metrics and their registration. The registry of the process is component-base's
    ([legacyregistry]): the class [MetricsRegistry] states what registering a metric does to it.
    Programs.v shows what that means for the plugins' factories. *)

From S2P Require Import Prelude.

Open Scope string_scope.

Inductive metric_kind := GaugeVec | CounterVec.

Record MetricVec := {
  mv_Kind : metric_kind;
  mv_Subsystem : string;
  mv_Name : string;
  mv_Help : string;
  mv_Labels : list string }.

#[export] Instance metric_kind_eq_dec : EqDecision metric_kind.
Proof. solve_decision. Defined.
#[export] Instance MetricVec_eq_dec : EqDecision MetricVec.
Proof. solve_decision. Defined.

(** The name under which the registry knows a metric without a namespace: [BuildFQName]. *)
Definition fq_name (c : MetricVec) : string := mv_Subsystem c ++ "_" ++ mv_Name c.

(** [legacyregistry.MustRegister]: a metric under a new name is added to the registered ones; one
    that is registered already makes it panic. *)
Class MetricsRegistry := {
  registry : Type;
  registered : registry -> MetricVec -> Prop;
  MustRegister : registry -> MetricVec -> go registry;
  register_new : forall r c, (forall d, registered r d -> fq_name d <> fq_name c) ->
    exists r', MustRegister r c = Ret r' /\ forall d, registered r' d <-> d = c \/ registered r d;
  register_again : forall r c, registered r c -> exists msg, MustRegister r c = Panic msg }.

Definition DynamicSchedulerSubsystem : string := "scheduler_dynamic".

Definition DynamicPriorityAvailableNodesNumber : MetricVec :=
  {| mv_Kind := GaugeVec;
     mv_Subsystem := DynamicSchedulerSubsystem;
     mv_Name := "priority_available_nodes_number";
     mv_Help := "Number of available nodes for priority";
     mv_Labels := ["extension_point"] |}.

Definition ApplicationResourceAwareSubsystem : string := "scheduler_ara".

Definition ApplicationResourceAwareFilterFiltedNodes : MetricVec :=
  {| mv_Kind := CounterVec;
     mv_Subsystem := ApplicationResourceAwareSubsystem;
     mv_Name := "filter_filted_nodes_total";
     mv_Help := "Number of filted nodes for filter";
     mv_Labels := ["extension_point"; "node"] |}.

Section Registration.
Context {MR : MetricsRegistry}.

Definition RegisterDynamicSchedulerMetrics (r : registry) : go registry :=
  MustRegister r DynamicPriorityAvailableNodesNumber.

Definition RegisterAraSchedulerMetrics (r : registry) : go registry :=
  MustRegister r ApplicationResourceAwareFilterFiltedNodes.

End Registration.

(** A registry that is the list of the registered metrics; other name clashes panic too. *)
Definition list_MustRegister (r : list MetricVec) (c : MetricVec) : go (list MetricVec) :=
  if decide (fq_name c ∈ map fq_name r)
  then Panic "duplicate metrics collector registration attempted" else Ret (c :: r).

Definition ListRegistry : MetricsRegistry.
Proof.
  refine {| registry := list MetricVec; registered r c := c ∈ r; MustRegister := list_MustRegister |};
    unfold list_MustRegister; intros r c Hr.
  - exists (c :: r). rewrite decide_False; [split; [done|set_solver]|].
    intros (d & Hd & Hin)%list_elem_of_fmap. by apply (Hr d).
  - rewrite decide_True by (by apply list_elem_of_fmap_2). eauto.
Defined.
