(* ===== verification/Dynamic.v ===== *)
(** * pkg/plugins/dynamic

    The load-aware plugin: [Filter] rejects a node one of whose metrics exceeds its threshold,
    [Score] favours idle nodes and lowers the score of recently used ones, [PostBind] records a
    binding. Annotations are read through pkg/utils, recent bindings through the annotator's
    store. The loops read the clock once per round: [clock i] is the reading of round [i], and
    [recs i] the store as round [i] of the hot-value loop finds it (other goroutines bind pods
    and collect bindings in between). *)

From S2P Require Import Prelude GoStrings GoFloat GoTime GoHeap K8s Policy Utils Binding HotValue Config Metrics.

Open Scope string_scope.
Open Scope Z_scope.

Definition Name : string := "Dynamic".
Definition NodeHotValue : string := "node_hot_value".
Definition DefautlHotVauleActivePeriod : Duration := 5 * Minute.

Section Plugin.
Context `{QL : QuantityLib} `{SL : ScoreLib}.
Context (env : Env) (oob : f64 -> Z).

(** ** stats.go *)

Definition getScore (now : Z) (anno : smap) (priorityPolicy : PriorityPolicy)
    (syncPeriod : list SyncPolicy) : go (result f64) :=
  match GetActiveDuration syncPeriod (prio_Name priorityPolicy) with
  | Err e =>
      Ret (Err (Wrapf
        "failed to get the active duration of resource[%s]: %v, while the actual value is %v"
        [prio_Name priorityPolicy] e))
  | Ok activeDuration =>
      if activeDuration =? 0 then
        Ret (Err (Errorf
          "failed to get the active duration of resource[%s]: %v, while the actual value is %v"
          [prio_Name priorityPolicy]))
      else
        let! usage := GetResourceUsage env now anno (prio_Name priorityPolicy) activeDuration in
        match usage with
        | Err e => Ret (Err e)
        | Ok usage =>
            Ret (Ok (fmul (fmul (fsub (f64_of_Z 1) usage) (prio_Weight priorityPolicy))
                          (f64_of_Z MaxNodeScore)))
        end
  end.

Definition isOverLoad (now : Z) (anno : smap) (predicatePolicy : PredicatePolicy)
    (activeDuration : Duration) : go bool :=
  let! usage := GetResourceUsage env now anno (pred_Name predicatePolicy) activeDuration in
  match usage with
  | Err _ => Ret false
  | Ok usage =>
      if feqb (MaxLimitPecent predicatePolicy) f64_zero then Ret false
      else if fltb (MaxLimitPecent predicatePolicy) usage then Ret true
      else Ret false
  end.

(** The loop of [getNodeScore]; a policy whose usage is unknown adds 0 to the score. *)
Fixpoint score_loop (clock : nat -> Z) (i : nat) (anno : smap) (sync : list SyncPolicy)
    (l : list PriorityPolicy) (score weight : f64) : go (f64 * f64) :=
  match l with
  | [] => Ret (score, weight)
  | priorityPolicy :: l' =>
      let! r := getScore (clock i) anno priorityPolicy sync in
      let priorityScore := match r with Ok s => s | Err _ => f64_zero end in
      let weight := fadd weight (prio_Weight priorityPolicy) in
      let score := fadd score priorityScore in
      score_loop clock (S i) anno sync l' score weight
  end.

Definition getNodeScore (clock : nat -> Z) (anno : smap) (policySpec : PolicySpec) : go Z :=
  if (length (Priority policySpec) =? 0)%nat then Ret 0
  else
    let! (score, weight) :=
      score_loop clock 0 anno (SyncPeriod policySpec) (Priority policySpec) f64_zero f64_zero in
    Ret (int_of_f64 oob (fdiv score weight)).

Definition getNodeHotValue (now : Z) (node : Node) : go f64 :=
  match om_Annotations (node_meta node) with
  | None => Ret f64_zero
  | Some anno =>
      let! hotvalue := GetResourceUsage env now anno NodeHotValue DefautlHotVauleActivePeriod in
      Ret (match hotvalue with Ok v => v | Err _ => f64_zero end)
  end.

(** ** plugins.go *)

(** The loop of [Filter] over the predicate policies. *)
Fixpoint filter_loop (clock : nat -> Z) (i : nat) (nodeName : string) (anno : smap)
    (sync : list SyncPolicy) (l : list PredicatePolicy) : go Status :=
  match l with
  | [] => Ret (NewStatus Success (Errorf "" []))
  | policy :: l' =>
      if has_prefix (pred_Name policy) RangePrefix
      then filter_loop clock (S i) nodeName anno sync l'
      else
        match GetActiveDuration sync (pred_Name policy) with
        | Err _ => filter_loop clock (S i) nodeName anno sync l'
        | Ok activeDuration =>
            if activeDuration =? 0 then filter_loop clock (S i) nodeName anno sync l'
            else
              let! over := isOverLoad (clock i) anno policy activeDuration in
              if over then
                Ret (NewStatus Unschedulable
                       (Errorf "Load[%s] of node[%s] is too high" [pred_Name policy; nodeName]))
              else filter_loop clock (S i) nodeName anno sync l'
        end
  end.

Definition Filter (policy : DynamicSchedulerPolicy) (clock : nat -> Z) (pod : Pod)
    (nodeInfo : NodeInfo) : go Status :=
  if IsDaemonsetPod pod then Ret (NewStatus Success (Errorf "" []))
  else
    match ni_Node nodeInfo with
    | None => Ret (NewStatus Error (Errorf "node not found" []))
    | Some node =>
        filter_loop clock 0 (node_Name node) (node_annos node) (SyncPeriod (Spec policy))
          (Predicate (Spec policy))
    end.

(** [PreScore] sets the gauge of available nodes (second component) and succeeds. *)
Definition PreScore (nodes : list Node) : Status * f64 :=
  (NewStatus Success (Errorf "" []), f64_of_Z (Z.of_nat (length nodes))).

Definition Score (policy : DynamicSchedulerPolicy) (snapshot : string -> result NodeInfo)
    (recs : nat -> BindingRecords) (hclock clock : nat -> Z) (nodeName : string)
    : go (Z * Status) :=
  match snapshot nodeName with
  | Err e => Ret (0, NewStatus Error (Wrapf "getting node %q from Snapshot: %v" [nodeName] e))
  | Ok nodeInfo =>
      match ni_Node nodeInfo with
      | None => Ret (0, NewStatus Error (Errorf "node not found" []))
      | Some node =>
          let! hotValue := hot_loop recs hclock 0 nodeName (HotValue (Spec policy)) 0 in
          let! score := getNodeScore clock (node_annos node) (Spec policy) in
          let finalScore := NormalizeScore (wrap64 (score - wrap64 (hotValue * 10)))
                              MaxNodeScore MinNodeScore in
          Ret (finalScore, None)
      end
  end.

Definition PostBind (br : BindingRecords) (now : Z) (p : Pod) (nodeName : string)
    : go BindingRecords :=
  AddBinding br
    {| b_Node := nodeName;
       b_Namespace := om_Namespace (pod_meta p);
       b_PodName := om_Name (pod_meta p);
       b_Timestamp := now / Second |}.

End Plugin.

(** The plugin's own state: the policy it loaded and the store of bindings. *)
Record DynamicScheduler := {
  schedulerPolicy : DynamicSchedulerPolicy;
  bindingRecords : BindingRecords }.

(** [plArgs] is [None] when the arguments are of another type; [LoadPolicyFromFile] reads and
    decodes the policy file; [reg] is the process's registry of metrics. The collector it starts
    is [BindingsGC], once a minute. *)
Definition NewDynamicScheduler `{MR : MetricsRegistry}
    (LoadPolicyFromFile : string -> result DynamicSchedulerPolicy)
    (plArgs : option DynamicArgs) (reg : registry) : go (registry * result DynamicScheduler) :=
  match plArgs with
  | None => Ret (reg, Err (Errorf "want args to be of type DynamicArgs, got %T." []))
  | Some args =>
      match LoadPolicyFromFile (da_PolicyConfigPath args) with
      | Err e => Ret (reg, Err (Wrapf "failed to get scheduler policy from config file: %v" [] e))
      | Ok policy =>
          let! reg' := RegisterDynamicSchedulerMetrics reg in
          Ret (reg', Ok {| schedulerPolicy := policy;
                           bindingRecords := NewBindingRecords 1024 (5 * Minute) |})
      end
  end.

(** ** Lemmas *)

Section PluginLemmas.
Context `{QL : QuantityLib} `{SL : ScoreLib}.
Context (env : Env).
Hypothesis Hloc : GetLocation env <> None.

(** A policy that rejects the node: its metric is annotated, active, a number that is not
    negative, and above a threshold that is not zero. *)
Definition exceeds (now : Z) (anno : smap) (sync : list SyncPolicy) (p : PredicatePolicy) : Prop :=
  has_prefix (pred_Name p) RangePrefix = false /\
  feqb (MaxLimitPecent p) f64_zero = false /\
  exists d s ts v,
    GetActiveDuration sync (pred_Name p) = Ok d /\ d <> 0 /\
    anno !! pred_Name p = Some (s ++ String "," ts) /\
    no_char "," s = true /\ no_char "," ts = true /\
    InActivePeriod env now ts d = Ret true /\
    ParseFloat s = Ok v /\ fltb v f64_zero = false /\ fltb (MaxLimitPecent p) v = true.

Lemma isOverLoad_spec now anno p d :
  isOverLoad env now anno p d = Ret true /\
    (feqb (MaxLimitPecent p) f64_zero = false /\
     exists s ts v, anno !! pred_Name p = Some (s ++ String "," ts) /\
       no_char "," s = true /\ no_char "," ts = true /\
       InActivePeriod env now ts d = Ret true /\
       ParseFloat s = Ok v /\ fltb v f64_zero = false /\ fltb (MaxLimitPecent p) v = true) \/
  isOverLoad env now anno p d = Ret false /\
    ~ (feqb (MaxLimitPecent p) f64_zero = false /\
     exists s ts v, anno !! pred_Name p = Some (s ++ String "," ts) /\
       no_char "," s = true /\ no_char "," ts = true /\
       InActivePeriod env now ts d = Ret true /\
       ParseFloat s = Ok v /\ fltb v f64_zero = false /\ fltb (MaxLimitPecent p) v = true).
Proof.
  unfold isOverLoad.
  destruct (GetResourceUsage_returns env now anno (pred_Name p) d Hloc) as [r Hr].
  rewrite Hr. simpl.
  assert (forall s ts v, anno !! pred_Name p = Some (s ++ String "," ts) ->
    no_char "," s = true -> no_char "," ts = true -> InActivePeriod env now ts d = Ret true ->
    ParseFloat s = Ok v -> fltb v f64_zero = false -> r = Ok v) as Hfun.
  { intros s ts v H1 H2 H3 H4 H5 H6.
    assert (GetResourceUsage env now anno (pred_Name p) d = Ret (Ok v)) by
      (apply GetResourceUsage_Ok; eauto 10). congruence. }
  destruct r as [u|e].
  - destruct (feqb _ _) eqn:Hz; [right; naive_solver|].
    destruct (fltb (MaxLimitPecent p) u) eqn:Hu.
    + left. apply GetResourceUsage_Ok in Hr as (s & ts & ? & ? & ? & ? & ? & ?). eauto 15.
    + right. split; [done|]. intros (_ & s & ts & v & ? & ? & ? & ? & ? & ? & ?).
      assert (Ok u = Ok v) by eauto. congruence.
  - right. split; [done|]. intros (_ & s & ts & v & ? & ? & ? & ? & ? & ? & ?).
    assert (Err e = Ok v) by eauto. done.
Qed.

(** One round of the loop of [Filter]. *)
Definition check_policy (clock : nat -> Z) (anno : smap) (sync : list SyncPolicy) (i : nat)
    (p : PredicatePolicy) : go bool :=
  if has_prefix (pred_Name p) RangePrefix then Ret false
  else
    match GetActiveDuration sync (pred_Name p) with
    | Err _ => Ret false
    | Ok d => if d =? 0 then Ret false else isOverLoad env (clock i) anno p d
    end.

Lemma filter_loop_scan clock nodeName anno sync l i :
  filter_loop env clock i nodeName anno sync l =
  scan (check_policy clock anno sync)
    (fun p => NewStatus Unschedulable
                (Errorf "Load[%s] of node[%s] is too high" [pred_Name p; nodeName]))
    (NewStatus Success (Errorf "" [])) i l.
Proof.
  revert i. induction l as [|p l IH]; intros i; [done|]. cbn [filter_loop scan].
  rewrite !IH. unfold check_policy.
  destruct (has_prefix _ _); [done|]. destruct (GetActiveDuration _ _) as [d|]; [|done].
  by destruct (d =? 0).
Qed.

Lemma check_policy_decides clock anno sync :
  decides (check_policy clock anno sync) (fun i p => exceeds (clock i) anno sync p).
Proof.
  intros i p. unfold check_policy, exceeds.
  destruct (has_prefix _ _); [right; naive_solver|].
  destruct (GetActiveDuration sync (pred_Name p)) as [d|e]; [|right; naive_solver].
  destruct (Z.eqb_spec d 0) as [->|Hd0]; [right; naive_solver|].
  destruct (isOverLoad_spec (clock i) anno p d) as [[Ho Hx]|[Ho Hx]]; [left|right].
  - naive_solver eauto 20.
  - split; [done|]. intros (_ & Hz & d' & s & ts & v & Hd' & H). apply Hx. split; [done|].
    simplify_eq. naive_solver eauto 20.
Qed.

(** *** Scores *)

Lemma getScore_returns now anno p sync : exists r, getScore env now anno p sync = Ret r.
Proof.
  unfold getScore. destruct (GetActiveDuration sync (prio_Name p)) as [d|e]; [|eauto].
  destruct (d =? 0); [eauto|].
  destruct (GetResourceUsage_returns env now anno (prio_Name p) d Hloc) as [[u|e] ->]; simpl; eauto.
Qed.

Lemma score_loop_returns clock i anno sync l s w :
  exists r, score_loop env clock i anno sync l s w = Ret r.
Proof.
  revert i s w. induction l as [|p l IH]; intros i s w; simpl; [eauto|].
  destruct (getScore_returns (clock i) anno p sync) as [r ->]. simpl. apply IH.
Qed.

Lemma getNodeScore_returns (oob : f64 -> Z) clock anno sp :
  exists s, getNodeScore env oob clock anno sp = Ret s /\ int64_min <= s <= int64_max.
Proof.
  unfold getNodeScore. destruct (_ =? 0)%nat.
  { exists 0. unfold int64_min, int64_max. split; [done|lia]. }
  destruct (score_loop_returns clock 0 anno (SyncPeriod sp) (Priority sp) f64_zero f64_zero)
    as [[s w] ->]. simpl. eexists. split; [done|]. apply int_of_f64_range.
Qed.

Lemma NormalizeScore_bounds v :
  MinNodeScore <= NormalizeScore v MaxNodeScore MinNodeScore <= MaxNodeScore.
Proof. pose proof score_bounds. rewrite NormalizeScore_clamp by lia. lia. Qed.

(** *** The value of the score *)

(** The usage that a node's annotations give for a priority policy: annotated, active, a number
    that is not negative, of a metric that is synced. *)
Definition known (now : Z) (anno : smap) (sync : list SyncPolicy) (p : PriorityPolicy) (v : f64) : Prop :=
  exists d s ts,
    GetActiveDuration sync (prio_Name p) = Ok d /\ d <> 0 /\
    anno !! prio_Name p = Some (s ++ String "," ts) /\
    no_char "," s = true /\ no_char "," ts = true /\
    InActivePeriod env now ts d = Ret true /\ ParseFloat s = Ok v /\ fltb v f64_zero = false.

(** The usages of a node, one per priority policy, [None] where none is known. *)
Definition usages_known (clock : nat -> Z) (i : nat) (anno : smap) (sync : list SyncPolicy)
    (l : list PriorityPolicy) (us : list (option f64)) : Prop :=
  length us = length l /\
  forall j p, l !! j = Some p ->
    match us !! j with
    | Some (Some v) => known (clock (i + j)%nat) anno sync p v
    | _ => forall v, ~ known (clock (i + j)%nat) anno sync p v
    end.

Definition fsum (xs : list f64) : f64 := foldl fadd f64_zero xs.

(** What a usage contributes: its complement to one, weighted, in points of [MaxNodeScore]. *)
Definition points (p : PriorityPolicy) (u : option f64) : f64 :=
  match u with
  | Some v => fmul (fmul (fsub (f64_of_Z 1) v) (prio_Weight p)) (f64_of_Z MaxNodeScore)
  | None => f64_zero
  end.

(** The weighted mean of the contributions, in binary64, as an integer. *)
Definition weighted_mean (oob : f64 -> Z) (l : list PriorityPolicy) (us : list (option f64)) : Z :=
  match l with
  | [] => 0
  | _ => int_of_f64 oob (fdiv (fsum (zip_with points l us)) (fsum (List.map prio_Weight l)))
  end.

Lemma getScore_known now anno sync p u :
  match u with Some v => known now anno sync p v | None => forall v, ~ known now anno sync p v end ->
  exists r, getScore env now anno p sync = Ret r /\
    match r with Ok s => s | Err _ => f64_zero end = points p u.
Proof.
  intros Hu. unfold getScore, known in *. destruct (GetActiveDuration sync (prio_Name p)) as [d|e].
  2:{ destruct u as [v|]; [by destruct Hu as (? & ? & ? & ? & _)|]. by eexists. }
  destruct (Z.eqb_spec d 0) as [->|Hd].
  { destruct u as [v|]; [destruct Hu as (? & ? & ? & ? & ? & _); congruence|]. by eexists. }
  destruct (GetResourceUsage_returns env now anno (prio_Name p) d Hloc) as [r Hr]. rewrite Hr. cbn [go_bind].
  destruct u as [v|].
  - destruct Hu as (d' & s & ts & [= <-] & _ & Ha & H1 & H2 & H3 & H4 & H5).
    assert (GetResourceUsage env now anno (prio_Name p) d = Ret (Ok v)) as Hv
      by (apply GetResourceUsage_Ok; eauto 10).
    rewrite Hv in Hr. injection Hr as <-. by eexists.
  - destruct r as [v|e]; [|by eexists]. destruct (Hu v).
    apply GetResourceUsage_Ok in Hr as (s & ts & ? & ? & ? & ? & ? & ?). eauto 15.
Qed.

Lemma score_loop_value clock i anno sync l us s w :
  usages_known clock i anno sync l us ->
  score_loop env clock i anno sync l s w
  = Ret (foldl fadd s (zip_with points l us), foldl fadd w (List.map prio_Weight l)).
Proof.
  revert i us s w. induction l as [|p l IH]; intros i us s w [Hlen Hk]; [done|].
  destruct us as [|u us]; [done|]. cbn [score_loop zip_with List.map foldl].
  destruct (getScore_known (clock i) anno sync p u) as (r & -> & <-).
  { specialize (Hk 0%nat p eq_refl). rewrite Nat.add_0_r in Hk. by destruct u. }
  cbn [go_bind]. apply IH. split; [by injection Hlen|]. intros j q Hq.
  specialize (Hk (S j) q Hq). by rewrite Nat.add_succ_r in Hk.
Qed.

Lemma getNodeScore_value (oob : f64 -> Z) clock anno sp us :
  usages_known clock 0 anno (SyncPeriod sp) (Priority sp) us ->
  getNodeScore env oob clock anno sp = Ret (weighted_mean oob (Priority sp) us).
Proof.
  intros Hk. unfold getNodeScore, weighted_mean. rewrite (score_loop_value _ _ _ _ _ _ _ _ Hk).
  by destruct (Priority sp).
Qed.

(** *** A priority list without weight *)

Definition no_number (x : f64) : bool := match x with S754_zero _ | S754_nan => true | _ => false end.

Lemma no_number_fmul_zero x s : no_number (fmul x (S754_zero s)) = true.
Proof. by destruct x. Qed.

Lemma no_number_fmul x y : no_number x = true -> no_number (fmul x y) = true.
Proof. intros Hx. by destruct x, y. Qed.

Lemma no_number_fadd x y : no_number x = true -> no_number y = true -> no_number (fadd x y) = true.
Proof. intros Hx Hy. destruct x as [[]| | |], y as [[]| | |]; try done. Qed.

Lemma no_number_fdiv x s : no_number x = true -> fdiv x (S754_zero s) = S754_nan.
Proof. by destruct x. Qed.

Lemma score_loop_weightless clock i anno sync l s :
  Forall (fun p => prio_Weight p = f64_zero) l -> no_number s = true ->
  exists s', score_loop env clock i anno sync l s f64_zero = Ret (s', f64_zero) /\
    no_number s' = true.
Proof.
  intros Hl. revert i s. induction Hl as [|p l Hp _ IH]; intros i s Hs; simpl; [eauto|].
  destruct (getScore_returns (clock i) anno p sync) as [r Hr]. rewrite Hr. cbn [go_bind].
  rewrite Hp. change (fadd f64_zero f64_zero) with f64_zero. apply IH.
  apply no_number_fadd; [done|]. unfold getScore in Hr. rewrite Hp in Hr.
  repeat case_match; simplify_eq/=; try done.
  destruct (GetResourceUsage _ _ _ _ _) as [[u|e]|]; simplify_eq/=; try done.
  apply no_number_fmul, no_number_fmul_zero.
Qed.

(** [Score] is the node score less ten times the hot value, clamped. *)
Lemma Score_from oob policy snapshot recs hclock clock nodeName ni node score :
  snapshot nodeName = Ok ni -> ni_Node ni = Some node ->
  getNodeScore env oob clock (node_annos node) (Spec policy) = Ret score ->
  int64_min + 2 ^ 60 <= score <= int64_max -> small recs ->
  Forall (fun hv => 0 < hv_Count hv) (HotValue (Spec policy)) ->
  Z.of_nat (length (HotValue (Spec policy))) <= 2 ^ 20 ->
  Score env oob policy snapshot recs hclock clock nodeName =
  Ret (Z.max MinNodeScore
         (Z.min (score - 10 * hot_value recs hclock 0 nodeName (HotValue (Spec policy))) MaxNodeScore), None).
Proof.
  intros Hsn Hni Hs Hb Hsm Hc Hlen. unfold Score. rewrite Hsn, Hni.
  pose proof (hot_value_bounds recs hclock 0 nodeName _ Hsm Hc) as Hh.
  rewrite hot_loop_value by (done || lia). cbn [go_bind]. rewrite Hs. cbn [go_bind].
  unfold int64_min, int64_max in *.
  rewrite !wrap64_id by (unfold int64_min, int64_max; rewrite ?wrap64_id; unfold int64_min, int64_max; lia).
  pose proof score_bounds. rewrite NormalizeScore_clamp by lia. do 4 f_equal. lia.
Qed.

End PluginLemmas.

(** ** Properties *)

Section PluginProperties.
Context `{QL : QuantityLib} `{SL : ScoreLib}.

(** C8: [Filter] on a node that exists, for a pod that is not of a DaemonSet, never panics when
    the time zone can be loaded, and it rejects exactly when some predicate policy is exceeded:
    it names the first such policy in the policy's order, and succeeds otherwise. A metric that is
    missing, malformed, expired, negative, unknown to the sync list, "range"-prefixed, or whose
    threshold is 0 never rejects. *)
Theorem Filter_decides (env : Env) (policy : DynamicSchedulerPolicy) (clock : nat -> Z)
    (pod : Pod) (nodeInfo : NodeInfo) (node : Node) :
  GetLocation env <> None -> IsDaemonsetPod pod = false -> ni_Node nodeInfo = Some node ->
  (exists l1 p l2, Predicate (Spec policy) = (l1 ++ p :: l2)%list /\
     exceeds env (clock (length l1)) (node_annos node) (SyncPeriod (Spec policy)) p /\
     (forall j q, l1 !! j = Some q ->
        ~ exceeds env (clock j) (node_annos node) (SyncPeriod (Spec policy)) q) /\
     Filter env policy clock pod nodeInfo
     = Ret (NewStatus Unschedulable
              (Errorf "Load[%s] of node[%s] is too high" [pred_Name p; node_Name node]))) \/
  ((forall j q, Predicate (Spec policy) !! j = Some q ->
        ~ exceeds env (clock j) (node_annos node) (SyncPeriod (Spec policy)) q) /\
   Filter env policy clock pod nodeInfo = Ret (NewStatus Success (Errorf "" []))).
Proof.
  intros Hl Hd Hn. unfold Filter. rewrite Hd, Hn, filter_loop_scan.
  exact (scan_spec _ _ _ _ 0 (Predicate (Spec policy))
           (check_policy_decides env Hl clock (node_annos node) (SyncPeriod (Spec policy)))).
Qed.

(** C15: the exact score. For a node that exists, with positive hot-value counts, stores of at
    most 2^32 bindings and at most 2^20 hot-value policies, [Score] is determined by the node's
    [usages], one per priority policy where the annotations give a number that is active: it is
    the weighted mean of [(1 - usage) * MaxNodeScore] over the policies, an unknown usage counting
    as 0 points at its full weight, in binary64 and truncated to an integer, less ten times the
    hot value, clamped to the framework's bounds. The mean must not sit at the bottom of [int64]
    (which is where an out-of-range float lands on amd64); then no operation wraps. The document
    doc/dynamic-scheduler.md has the hot value itself subtracted, not ten times it, and the sum of
    the metrics' values as the score. *)
Theorem Score_value (env : Env) (oob : f64 -> Z) (policy : DynamicSchedulerPolicy)
    (snapshot : string -> result NodeInfo) (recs : nat -> BindingRecords)
    (hclock clock : nat -> Z) (nodeName : string) (ni : NodeInfo) (node : Node)
    (usages : list (option f64)) :
  GetLocation env <> None -> snapshot nodeName = Ok ni -> ni_Node ni = Some node ->
  usages_known env clock 0 (node_annos node) (SyncPeriod (Spec policy)) (Priority (Spec policy)) usages ->
  int64_min + 2 ^ 60 <= weighted_mean oob (Priority (Spec policy)) usages <= int64_max -> small recs ->
  Forall (fun hv => 0 < hv_Count hv) (HotValue (Spec policy)) ->
  Z.of_nat (length (HotValue (Spec policy))) <= 2 ^ 20 ->
  Score env oob policy snapshot recs hclock clock nodeName =
  Ret (Z.max MinNodeScore
         (Z.min (weighted_mean oob (Priority (Spec policy)) usages
                 - 10 * hot_value recs hclock 0 nodeName (HotValue (Spec policy)))
            MaxNodeScore), None).
Proof.
  intros Hloc Hsn Hni Hs. apply (Score_from _ _ _ _ _ _ _ _ ni node); [done..|].
  by apply getNodeScore_value.
Qed.

(** C39: whenever the node exists and no hot-value policy has count 0, [Score] returns a value
    within the framework's score bounds, whatever the annotations, stores, clock and float
    conversions are. *)
Theorem Score_in_bounds (env : Env) (oob : f64 -> Z) (policy : DynamicSchedulerPolicy)
    (snapshot : string -> result NodeInfo) (recs : nat -> BindingRecords)
    (hclock clock : nat -> Z) (nodeName : string) (ni : NodeInfo) (node : Node) :
  GetLocation env <> None -> snapshot nodeName = Ok ni -> ni_Node ni = Some node ->
  Forall (fun hv => hv_Count hv <> 0) (HotValue (Spec policy)) ->
  exists s, Score env oob policy snapshot recs hclock clock nodeName = Ret (s, None) /\
    MinNodeScore <= s <= MaxNodeScore.
Proof.
  intros Hl Hsn Hni Hc. unfold Score. rewrite Hsn, Hni.
  destruct (hot_loop_returns recs hclock 0 nodeName _ 0 Hc) as [h ->]. cbn [go_bind].
  destruct (getNodeScore_returns env Hl oob clock (node_annos node) (Spec policy)) as (s & -> & _).
  eexists. split; [done|]. apply NormalizeScore_bounds.
Qed.

(** A hot-value policy whose count is 0, which nothing validates, makes [Score] panic for
    every node. *)
Theorem Score_zero_count_panics (env : Env) (oob : f64 -> Z) (policy : DynamicSchedulerPolicy)
    (snapshot : string -> result NodeInfo) (recs : nat -> BindingRecords)
    (hclock clock : nat -> Z) (nodeName : string) (ni : NodeInfo) (node : Node) :
  snapshot nodeName = Ok ni -> ni_Node ni = Some node ->
  Exists (fun hv => hv_Count hv = 0) (HotValue (Spec policy)) ->
  Score env oob policy snapshot recs hclock clock nodeName
  = Panic "runtime error: integer divide by zero".
Proof.
  intros Hsn Hni Hc. unfold Score. rewrite Hsn, Hni. by rewrite hot_loop_panics.
Qed.

(** With priorities that all weigh 0, the node score is the float 0/0 converted to an
    integer; where that conversion yields the least [int64] (amd64), a hot node's score wraps
    around to the maximum, while a node without recent bindings gets the minimum. *)
Theorem Score_weightless_wraps (env : Env) (oob : f64 -> Z) (policy : DynamicSchedulerPolicy)
    (snapshot : string -> result NodeInfo) (recs : nat -> BindingRecords)
    (hclock clock : nat -> Z) (nodeName : string) (ni : NodeInfo) (node : Node) :
  GetLocation env <> None -> snapshot nodeName = Ok ni -> ni_Node ni = Some node ->
  Priority (Spec policy) <> [] ->
  Forall (fun p => prio_Weight p = f64_zero) (Priority (Spec policy)) ->
  oob (SpecFloat.S754_nan) = int64_min -> MaxNodeScore <= 2 ^ 60 -> small recs ->
  Forall (fun hv => 0 < hv_Count hv) (HotValue (Spec policy)) ->
  Z.of_nat (length (HotValue (Spec policy))) <= 2 ^ 20 ->
  Score env oob policy snapshot recs hclock clock nodeName =
  Ret (if hot_value recs hclock 0 nodeName (HotValue (Spec policy)) =? 0
       then MinNodeScore else MaxNodeScore, None).
Proof.
  intros Hl Hsn Hni Hne Hw Ho Hm Hsm Hc Hlen. unfold Score. rewrite Hsn, Hni.
  pose proof (hot_value_bounds recs hclock 0 nodeName _ Hsm Hc) as Hh.
  rewrite hot_loop_value by (done || lia). cbn [go_bind]. unfold getNodeScore.
  destruct (Priority (Spec policy)) as [|p l] eqn:Hp; [done|]. cbn [length Nat.eqb].
  destruct (score_loop_weightless env Hl clock 0 (node_annos node) (SyncPeriod (Spec policy))
              (p :: l) f64_zero Hw eq_refl) as (s' & -> & Hs').
  cbn [go_bind]. unfold f64_zero. rewrite no_number_fdiv by done.
  replace (int_of_f64 oob SpecFloat.S754_nan) with int64_min
    by (unfold int_of_f64; simpl; rewrite Ho; by rewrite wrap64_id by (unfold int64_min, int64_max; lia)).
  rewrite Z.add_0_l. set (h := hot_value _ _ _ _ _) in *.
  pose proof score_bounds as [Hsb Hsb']. rewrite NormalizeScore_clamp by lia.
  rewrite (wrap64_id (h * 10)) by (unfold int64_min, int64_max; lia).
  do 2 f_equal. unfold wrap64, int64_min, int64_max in *.
  clearbody h. destruct (Z.eqb_spec h 0) as [->|Hh0].
  { change (_ mod _) with 0. lia. }
  replace ((-9223372036854775808 - h * 10 + 9223372036854775808) mod 18446744073709551616)
    with (18446744073709551616 - h * 10); [lia|].
  apply (Z.mod_unique_pos _ _ (-1)); lia.
Qed.

(** [PostBind] on a store with room never panics and raises the node's count by exactly one,
    for every time range of at least a second and at the same clock reading, leaving the counts
    of the other nodes as they were. *)
Theorem PostBind_counts (br : BindingRecords) (now : Z) (p : Pod) (nodeName : string)
    (node : string) (tr : Duration) :
  heap_inv (br_bindings br) -> Z.of_nat (length (br_bindings br)) <> br_size br ->
  0 < durSeconds tr ->
  exists br', PostBind br now p nodeName = Ret br' /\ heap_inv (br_bindings br') /\
    GetLastNodeBindingCount br' now node tr =
    GetLastNodeBindingCount br now node tr + (if String.eqb nodeName node then 1 else 0).
Proof.
  intros Hi Hr Htr. unfold PostBind.
  match goal with |- context [AddBinding br ?x] => destruct (AddBinding_room br x Hi Hr)
    as (br' & Ha & Hi' & _ & _ & Hp) end.
  exists br'. split; [done|]. split; [done|].
  rewrite !count_counted. rewrite Hp. unfold counted. rewrite filter_cons. simpl.
  unfold timeline. destruct (String.eqb_spec nodeName node); case_decide; simpl; naive_solver lia.
Qed.

End PluginProperties.

(** ** Witnesses *)

Section Witnesses.
#[local] Existing Instance MilliQuantities.
#[local] Existing Instance ZeroToHundred.

Definition ex_env : Env := fixed_env 28800.

Definition ex_node : Node :=
  {| node_meta :=
       {| om_Name := "n1"; om_Namespace := "";
          om_Annotations := Some {["cpu" := "0.90000,1970-01-01T08:00:00Z"]};
          om_OwnerReferences := []; om_DeletionTimestamp := None; om_ResourceVersion := "" |};
     node_Addresses := []; node_Capacity := ∅ |}.

Definition ex_info : NodeInfo := {| ni_Node := Some ex_node; ni_Pods := [] |}.

Definition ex_pod : Pod :=
  {| pod_meta := meta0 "p1"; pod_NodeName := ""; pod_Containers := [] |}.

Definition ex_binding : Binding :=
  {| b_Node := "n1"; b_Namespace := "ns"; b_PodName := "p0"; b_Timestamp := 50 |}.

Definition ex_store : BindingRecords :=
  {| br_size := 4; br_bindings := [ex_binding]; br_gcTimeRange := 5 * Minute |}.

Definition ex_policy (weight : f64) (count : Z) : DynamicSchedulerPolicy :=
  {| policy_APIVersion := "";
     Spec := {|
       SyncPeriod := [{| sync_Name := "cpu"; sync_Period := 3 * Minute |}];
       SyncAppPeriod := [];
       Predicate := [{| pred_Name := "cpu"; MaxLimitPecent := fdiv (f64_of_Z 1) (f64_of_Z 2) |}];
       Priority := [{| prio_Name := "cpu"; prio_Weight := weight |}];
       HotValue := [{| hv_TimeRange := Minute; hv_Count := count |}] |} |}.

Definition ex_snapshot : string -> result NodeInfo := fun _ => Ok ex_info.
Definition ex_clock : nat -> Z := fun _ => 60 * Second.
Definition amd64 : f64 -> Z := fun _ => int64_min.

Example ex_filter :
  Filter ex_env (ex_policy (f64_of_Z 1) 1) ex_clock ex_pod ex_info
  = Ret (NewStatus Unschedulable (Errorf "Load[%s] of node[%s] is too high" ["cpu"; "n1"])).
Proof. vm_compute. reflexivity. Qed.

Example ex_score :
  Score ex_env amd64 (ex_policy (f64_of_Z 1) 1) ex_snapshot (fun _ => ex_store) ex_clock ex_clock "n1"
  = Ret (0, None).
Proof. vm_compute. reflexivity. Qed.

Example ex_score_weightless :
  Score ex_env amd64 (ex_policy f64_zero 1) ex_snapshot (fun _ => ex_store) ex_clock ex_clock "n1"
  = Ret (100, None).
Proof. vm_compute. reflexivity. Qed.

Lemma ex_small : small (fun _ => ex_store).
Proof. intros i. vm_compute. discriminate. Defined.

Lemma ex_heap : heap_inv (br_bindings ex_store).
Proof. intros j Hj. simpl in Hj. unfold BindingHeap.Len in Hj. simpl in Hj. lia. Defined.

Lemma Filter_decides_witness :
  let pl := ex_policy (f64_of_Z 1) 1 in
  (exists l1 p l2, Predicate (Spec pl) = (l1 ++ p :: l2)%list /\
     exceeds ex_env (ex_clock (length l1)) (node_annos ex_node) (SyncPeriod (Spec pl)) p /\
     (forall j q, l1 !! j = Some q ->
        ~ exceeds ex_env (ex_clock j) (node_annos ex_node) (SyncPeriod (Spec pl)) q) /\
     Filter ex_env pl ex_clock ex_pod ex_info
     = Ret (NewStatus Unschedulable
              (Errorf "Load[%s] of node[%s] is too high" [pred_Name p; node_Name ex_node]))) \/
  ((forall j q, Predicate (Spec pl) !! j = Some q ->
        ~ exceeds ex_env (ex_clock j) (node_annos ex_node) (SyncPeriod (Spec pl)) q) /\
   Filter ex_env pl ex_clock ex_pod ex_info = Ret (NewStatus Success (Errorf "" []))).
Proof.
  apply (Filter_decides ex_env (ex_policy (f64_of_Z 1) 1) ex_clock ex_pod ex_info ex_node);
    [discriminate|reflexivity|reflexivity].
Defined.

Definition ex_usage : f64 := dec_to_f64 false 90000 (-5).

(** A usage of nine tenths is nine points; the hot value takes them away. *)
Lemma Score_value_witness :
  weighted_mean amd64 (Priority (Spec (ex_policy (f64_of_Z 1) 1))) [Some ex_usage] = 9 /\
  Score ex_env amd64 (ex_policy (f64_of_Z 1) 1) ex_snapshot (fun _ => ex_store) ex_clock ex_clock "n1"
  = Ret (0, None).
Proof.
  split; [vm_compute; reflexivity|].
  eapply eq_trans; [eapply (Score_value ex_env amd64 (ex_policy (f64_of_Z 1) 1) ex_snapshot
           (fun _ => ex_store) ex_clock ex_clock "n1" ex_info ex_node [Some ex_usage])|vm_compute; reflexivity];
    [discriminate|reflexivity|reflexivity| |vm_compute; split; discriminate
    |exact ex_small|repeat constructor|vm_compute; discriminate].
  split; [reflexivity|]. intros [|[|j]] p Hp; [|discriminate Hp..]. injection Hp as <-.
  exists (8 * Minute), "0.90000", "1970-01-01T08:00:00Z". split_and!; try reflexivity; discriminate.
Defined.

Lemma Score_in_bounds_witness :
  exists s, Score ex_env amd64 (ex_policy f64_zero 1) ex_snapshot (fun _ => ex_store)
    ex_clock ex_clock "n1" = Ret (s, None) /\ MinNodeScore <= s <= MaxNodeScore.
Proof.
  apply (Score_in_bounds ex_env amd64 (ex_policy f64_zero 1) ex_snapshot (fun _ => ex_store)
           ex_clock ex_clock "n1" ex_info ex_node);
    [discriminate|reflexivity|reflexivity|repeat constructor; discriminate].
Defined.

Lemma Score_zero_count_panics_witness :
  Score ex_env amd64 (ex_policy (f64_of_Z 1) 0) ex_snapshot (fun _ => ex_store)
    ex_clock ex_clock "n1" = Panic "runtime error: integer divide by zero".
Proof.
  apply (Score_zero_count_panics ex_env amd64 (ex_policy (f64_of_Z 1) 0) ex_snapshot
           (fun _ => ex_store) ex_clock ex_clock "n1" ex_info ex_node);
    [reflexivity|reflexivity|left; reflexivity].
Defined.

Lemma Score_weightless_wraps_witness :
  Score ex_env amd64 (ex_policy f64_zero 1) ex_snapshot (fun _ => ex_store)
    ex_clock ex_clock "n1" = Ret (100, None).
Proof.
  eapply eq_trans; [eapply (Score_weightless_wraps ex_env amd64 (ex_policy f64_zero 1) ex_snapshot
           (fun _ => ex_store) ex_clock ex_clock "n1" ex_info ex_node)|vm_compute; reflexivity];
    [discriminate|reflexivity|reflexivity|discriminate|repeat constructor|reflexivity
    |vm_compute; discriminate|exact ex_small|repeat constructor|vm_compute; discriminate].
Defined.

Lemma PostBind_counts_witness :
  exists br', PostBind ex_store (60 * Second) ex_pod "n1" = Ret br' /\
    heap_inv (br_bindings br') /\
    GetLastNodeBindingCount br' (60 * Second) "n1" Minute =
    GetLastNodeBindingCount ex_store (60 * Second) "n1" Minute + 1.
Proof.
  apply (PostBind_counts ex_store (60 * Second) ex_pod "n1" "n1" Minute);
    [exact ex_heap|discriminate|reflexivity].
Defined.

End Witnesses.
