(* ===== verification/ScoreOrder.v ===== *)
(** * pkg/plugins/dynamic: the plugin favours idle nodes

    [Score] "favors nodes with the least real resource usage": it is monotone in the usages and
    in the hot value, for policies whose numbers are moderate. The score is computed in float64,
    every operation rounding; GoFloatOrder shows that each of them is monotone and stays small. *)

From S2P Require Import Prelude GoStrings GoFloat GoFloatOrder GoTime K8s Policy Utils GoHeap Binding.
From S2P Require Import HotValue Dynamic.

Open Scope string_scope.
Open Scope Z_scope.

Definition one : f64 := f64_of_Z 1.

Section Order.
Context `{QL : QuantityLib} `{SL : ScoreLib}.
Context (env : Env).
Hypothesis Hloc : GetLocation env <> None.
Hypothesis Hmax : 0 <= MaxNodeScore <= 1024.

(** The load of a node for a priority policy: the usage in its annotations; a usage that is not
    known counts as 1, since the policy then adds 0 to the score. *)
Definition load (now : Z) (anno : smap) (sync : list SyncPolicy) (p : PriorityPolicy) : go f64 :=
  match GetActiveDuration sync (prio_Name p) with
  | Err _ => Ret one
  | Ok d =>
      if d =? 0 then Ret one
      else
        let! usage := GetResourceUsage env now anno (prio_Name p) d in
        Ret (match usage with Ok u => u | Err _ => one end)
  end.

(** Weights from 1/256 to 256, or 0. *)
Definition moderate_weight (w : f64) : bool :=
  valid_binary prec emax w && negb (is_nan w) &&
  (feqb w f64_zero || (fleb (fdiv one (f64_of_Z 256)) w && fleb w (f64_of_Z 256))).

(** At most 1024 priorities of moderate weights, one of which is not 0. *)
Definition moderate (l : list PriorityPolicy) : bool :=
  (length l <=? 1024)%nat && forallb (fun p => moderate_weight (prio_Weight p)) l &&
  existsb (fun p => negb (feqb (prio_Weight p) f64_zero)) l.

(** A node that is, for every priority, at most as loaded as another one, and neither by more
    than 65536 times its capacity. *)
Definition no_more_loaded (clock clock' : nat -> Z) (anno anno' : smap) (spec : PolicySpec) : Prop :=
  forall i p, Priority spec !! i = Some p ->
    exists u u', load (clock i) anno (SyncPeriod spec) p = Ret u /\
      load (clock' i) anno' (SyncPeriod spec) p = Ret u' /\
      fleb u u' = true /\ fleb u' (f64_of_Z 65536) = true.

(** ** What a priority adds *)

Definition term (w u : f64) : f64 := fmul (fmul (fsub (f64_of_Z 1) u) w) (f64_of_Z MaxNodeScore).

Lemma one_within : within 1 1 one.
Proof. destruct (fval_of_Z 1 ltac:(lia)) as [Hf He]. split; [done|]. unfold one. lia. Qed.

Lemma one_minus_within u : within 0 65536 u -> within (-65535) 1 (fsub (f64_of_Z 1) u).
Proof.
  intros Hu. rewrite fsub_fadd. pose proof (within_opp _ _ _ Hu) as Ho.
  exact (within_fadd 1 1 (-65536) 0 one (SFopp u) one_within Ho ltac:(lia) ltac:(lia)).
Qed.

Lemma max_value : finite (f64_of_Z MaxNodeScore) /\ fval (f64_of_Z MaxNodeScore) = MaxNodeScore * pw 0.
Proof. apply fval_of_Z. lia. Qed.

Lemma load_valid now anno sync p u :
  load now anno sync p = Ret u -> is_nan u = false -> valid u /\ 0 <= fval u.
Proof.
  assert (valid one /\ 0 <= fval one) as H1.
  { pose proof one_within as [[Hv _] Hb]. split; [done|]. pose proof scale_big.
    pose proof (pw_pos 0 ltac:(lia)). lia. }
  unfold load. destruct (GetActiveDuration _ _) as [d|]; [|by intros [= <-]].
  destruct (d =? 0); [by intros [= <-]|].
  destruct (GetResourceUsage env now anno (prio_Name p) d) as [[v|]|] eqn:Hu; [| |done]; cbn [go_bind];
    intros [= <-] Hn; [|done].
  apply GetResourceUsage_Ok in Hu as (s & ts & _ & _ & _ & _ & Hp & Hneg).
  pose proof (ParseFloat_valid s v Hp Hn) as Hv. split; [done|].
  destruct (infinite_or_finite v Hv) as [Hf|[-> | ->]]; [|rewrite fval_inf|discriminate].
  - destruct (fval_sign v Hf) as [[_ ->]|[[_ ?]|[(m & e & ->) _]]]; [done|lia|done].
  - pose proof scale_big. apply Z.lt_le_incl, pw_pos. lia.
Qed.

(** What a result of [getScore] adds to the score. *)
Definition added (r : result f64) : f64 := match r with Ok s => s | Err _ => f64_zero end.

(** A usage that is not known adds what a usage of 1 would. *)
Lemma getScore_load now anno sync p r :
  finite (prio_Weight p) -> getScore env now anno p sync = Ret r ->
  exists u, load now anno sync p = Ret u /\
    fval (added r) = fval (term (prio_Weight p) u) /\
    (finite (term (prio_Weight p) u) -> finite (added r)).
Proof.
  intros Hw. assert (fval f64_zero = fval (term (prio_Weight p) one)) as H0.
  { unfold term. assert (forall s, fval (S754_zero s) = 0) as Hz by apply fval_zero.
    change (fsub (f64_of_Z 1) one) with (S754_zero false).
    destruct max_value as [Hf _].
    destruct (finite_shape _ Hw) as [[s ->]|(s & m & e & ->)];
      destruct (finite_shape _ Hf) as [[s' ->]|(s' & m' & e' & ->)]; cbn; by rewrite !Hz. }
  unfold getScore, load. destruct (GetActiveDuration _ _) as [d|]; [|by intros [= <-]; exists one].
  destruct (d =? 0); [by intros [= <-]; exists one|].
  destruct (GetResourceUsage env now anno (prio_Name p) d) as [[v|]|]; cbn [go_bind];
    intros [= <-]; [by exists v|by exists one].
Qed.

Lemma moderate_weight_spec w :
  moderate_weight w = true -> within 0 256 w /\ (feqb w f64_zero = false -> pw 0 <= 256 * fval w).
Proof.
  unfold moderate_weight. rewrite !andb_true_iff, orb_true_iff, !andb_true_iff, negb_true_iff.
  intros [[Hvb Hn] Hw]. assert (valid w) as Hv by by split. pose proof scale_big.
  pose proof (pw_pos 0 ltac:(lia)). destruct Hw as [Hz|[Hlo Hhi]].
  - assert (w = S754_zero false \/ w = S754_zero true) as [-> | ->]
      by (destruct w as [[]|[]| |[] ? ?]; auto; done);
      (split; [|done]; split; [done|]; rewrite fval_zero; lia).
  - destruct (fval_of_Z 256 ltac:(lia)) as [H256 E256].
    apply fleb_fval in Hhi; [|done|apply H256]. apply fleb_fval in Hlo; [|by split|done].
    assert (256 * fval (fdiv one (f64_of_Z 256)) = pw 0) as Hd.
    { change (fdiv one (f64_of_Z 256)) with (S754_finite false 4503599627370496 (-60)).
      unfold fval. cbn [sign_of mag]. change (Z.pos 4503599627370496) with (2 ^ 52).
      change 256 with (2 ^ 8). rewrite Z.mul_assoc, <- Z.pow_add_r by lia.
      rewrite <- pw_add by lia. f_equal. }
    rewrite E256 in Hhi. split; [|lia]. split; [|lia].
    destruct (infinite_or_finite w Hv) as [|[-> | ->]]; [done|exfalso..]; rewrite fval_inf in *.
    + pose proof (pw_add 0 1024 ltac:(lia) ltac:(lia)) as Hp. change (0 + 1024) with 1024 in Hp.
      assert (256 < 2 ^ 1024) by (by apply Z.ltb_lt). nia.
    + pose proof (pw_pos 1024 ltac:(lia)). lia.
Qed.

(** The terms of a loaded node are no larger, and all are small. *)
Lemma partial_term_within w u :
  moderate_weight w = true -> within 0 65536 u ->
  within (-(2 ^ 24)) (2 ^ 24) (fmul (fsub (f64_of_Z 1) u) w).
Proof.
  intros Hw Hu. apply moderate_weight_spec in Hw as [Hw _].
  destruct (within_fmul _ _ _ _ _ (one_minus_within u Hu) Hw ltac:(lia) ltac:(lia) ltac:(lia)) as [? ?].
  pose proof scale_big. pose proof (pw_pos 0 ltac:(lia)). split; [done|]. lia.
Qed.

Lemma term_within w u :
  moderate_weight w = true -> within 0 65536 u -> within (-(2 ^ 34)) (2 ^ 34) (term w u).
Proof.
  intros Hw Hu. destruct max_value as [Hf He]. pose proof scale_big. pose proof (pw_pos 0 ltac:(lia)).
  assert (within 0 1024 (f64_of_Z MaxNodeScore)) as HM by (split; [done|]; nia).
  exact (within_fmul _ _ _ _ _ (partial_term_within w u Hw Hu) HM ltac:(lia) ltac:(lia) ltac:(lia)).
Qed.

Lemma finite_not_nan x : finite x -> is_nan x = false.
Proof. by intros [[_ ?] _]. Qed.

Lemma term_mono w u u' :
  moderate_weight w = true -> within 0 65536 u -> within 0 65536 u' -> fval u <= fval u' ->
  fval (term w u') <= fval (term w u).
Proof.
  intros Hw Hu Hu' He. apply moderate_weight_spec in Hw as Hw'. destruct Hw' as [[Hwf Hwb] _].
  destruct max_value as [Hf HfE]. pose proof scale_big. pose proof (pw_pos 0 ltac:(lia)).
  pose proof (one_minus_within u Hu) as [F1 _]. pose proof (one_minus_within u' Hu') as [F1' _].
  pose proof (partial_term_within w u Hw Hu) as [F2 _].
  pose proof (partial_term_within w u' Hw Hu') as [F2' _].
  destruct (term_within w u Hw Hu) as [F3 _], (term_within w u' Hw Hu') as [F3' _].
  apply fmul_mono; [apply F2'|apply F2|done|nia| |by apply finite_not_nan|by apply finite_not_nan].
  apply fmul_mono; [apply F1'|apply F1|done|lia| |by apply finite_not_nan|by apply finite_not_nan].
  apply fsub_anti; [apply one_within|apply Hu|apply Hu'|done|by apply finite_not_nan..].
Qed.

(** One round of the loop for two nodes. *)
Lemma score_round now now' anno anno' sync p u u' :
  moderate_weight (prio_Weight p) = true -> load now anno sync p = Ret u ->
  load now' anno' sync p = Ret u' -> within 0 65536 u -> within 0 65536 u' -> fval u <= fval u' ->
  exists r r', getScore env now anno p sync = Ret r /\ getScore env now' anno' p sync = Ret r' /\
    within (-(2 ^ 34)) (2 ^ 34) (added r) /\ within (-(2 ^ 34)) (2 ^ 34) (added r') /\
    fval (added r') <= fval (added r).
Proof.
  intros Hm Hu Hu' Wu Wu' He. destruct (moderate_weight_spec _ Hm) as [[Fp _] _].
  destruct (getScore_returns env Hloc now anno p sync) as [r Hr].
  destruct (getScore_returns env Hloc now' anno' p sync) as [r' Hr']. exists r, r'.
  destruct (getScore_load _ _ _ _ _ Fp Hr) as (u0 & Hu0 & E & F).
  destruct (getScore_load _ _ _ _ _ Fp Hr') as (u0' & Hu0' & E' & F').
  rewrite Hu in Hu0. rewrite Hu' in Hu0'. injection Hu0 as <-. injection Hu0' as <-.
  destruct (term_within _ _ Hm Wu) as [Tf Tb], (term_within _ _ Hm Wu') as [Tf' Tb'].
  pose proof (term_mono _ _ _ Hm Wu Wu' He). unfold within. rewrite E, E'. auto 10.
Qed.

Lemma fadd_grows x y :
  finite x -> finite y -> finite (fadd x y) -> 0 <= fval x -> 0 <= fval y ->
  fval x <= fval (fadd x y) /\ fval y <= fval (fadd x y).
Proof.
  intros Fx Fy F Hx Hy. assert (forall z, finite z -> fval (fadd z f64_zero) = fval z /\
    fval (fadd f64_zero z) = fval z /\ is_nan (fadd z f64_zero) = false /\
    is_nan (fadd f64_zero z) = false) as H0.
  { intros z Hz. by destruct (finite_shape z Hz) as [[[] ->]|(? & ? & ? & ->)]. }
  destruct (H0 x Fx) as (Ex & _ & Nx & _), (H0 y Fy) as (_ & Ey & _ & Ny). split.
  - rewrite <- Ex at 1. apply fadd_mono; [apply Fx|apply Fx|done|apply Fy|done|done|done|by apply finite_not_nan].
  - rewrite <- Ey at 1. apply fadd_mono; [done|apply Fx|apply Fy|apply Fy|done|done|done|by apply finite_not_nan].
Qed.

(** ** The loop *)

(** Scores between [- k * 2 ^ 34] and [k * 2 ^ 34], after [k] rounds. *)
Definition partial (k : Z) (s : f64) : Prop := within (- (k * 2 ^ 34)) (k * 2 ^ 34) s.

Lemma partial_add k s x :
  0 <= k < 1024 -> partial k s -> within (-(2 ^ 34)) (2 ^ 34) x -> partial (k + 1) (fadd s x).
Proof.
  intros Hk Hs Hx. pose proof (within_fadd _ _ _ _ s x Hs Hx ltac:(lia) ltac:(lia)) as H. unfold partial.
  replace (- ((k + 1) * 2 ^ 34)) with (- (k * 2 ^ 34) + - 2 ^ 34) by lia.
  by replace ((k + 1) * 2 ^ 34) with (k * 2 ^ 34 + 2 ^ 34) by lia.
Qed.

Lemma loop_order clock clock' anno anno' sync l i s s' w k :
  0 <= k -> k + Z.of_nat (length l) <= 1024 ->
  forallb (fun p => moderate_weight (prio_Weight p)) l = true ->
  (forall j p, l !! j = Some p -> exists u u',
     load (clock (i + j)%nat) anno sync p = Ret u /\ load (clock' (i + j)%nat) anno' sync p = Ret u' /\
     within 0 65536 u /\ within 0 65536 u' /\ fval u <= fval u') ->
  partial k s -> partial k s' -> fval s' <= fval s -> within 0 (k * 256) w ->
  exists t t' v, score_loop env clock i anno sync l s w = Ret (t, v) /\
    score_loop env clock' i anno' sync l s' w = Ret (t', v) /\
    within (- (2 ^ 44)) (2 ^ 44) t /\ within (- (2 ^ 44)) (2 ^ 44) t' /\ fval t' <= fval t /\
    finite v /\ fval w <= fval v /\ Forall (fun p => fval (prio_Weight p) <= fval v) l.
Proof.
  pose proof scale_big. pose proof (pw_pos 0 ltac:(lia)) as Hp0.
  revert i s s' w k. induction l as [|p l IH]; intros i s s' w k Hk Hlen Hm Hl Hs Hs' Hss Hw; cbn [length] in Hlen.
  - exists s, s', w. destruct Hs, Hs'. split_and!; try done; [split; [done|nia]..|apply Hw].
  - cbn [forallb] in Hm. apply andb_true_iff in Hm as [Hmp Hm].
    destruct (Hl 0%nat p eq_refl) as (u & u' & Hu & Hu' & Wu & Wu' & He). rewrite Nat.add_0_r in Hu, Hu'.
    destruct (score_round _ _ _ _ _ _ _ _ Hmp Hu Hu' Wu Wu' He) as (r & r' & Hr & Hr' & Wr & Wr' & Hrr).
    destruct (moderate_weight_spec _ Hmp) as [Wp _]. cbn [score_loop]. rewrite Hr, Hr'. cbn [go_bind].
    fold (added r) (added r'). pose proof (within_fadd _ _ _ _ w _ Hw Wp ltac:(lia) ltac:(lia)) as Hww.
    destruct (fadd_grows w (prio_Weight p)) as [Hw1 Hw2]; [apply Hw|apply Wp|apply Hww|apply Hw|apply Wp|].
    pose proof (partial_add k s _ ltac:(lia) Hs Wr) as Hx. pose proof (partial_add k s' _ ltac:(lia) Hs' Wr') as Hx'.
    destruct (IH (S i) (fadd s (added r)) (fadd s' (added r')) (fadd w (prio_Weight p)) (k + 1))
      as (t & t' & v & H1 & H2 & H3 & H4 & H5 & H6 & H7 & H8); [lia|lia|done| |done|done| | |].
    + intros j q Hj. replace (S i + j)%nat with (i + S j)%nat by lia. by apply (Hl (S j)).
    + apply fadd_mono; [apply Hs'|apply Hs|apply Wr'|apply Wr|done|done|apply finite_not_nan, Hx'|apply finite_not_nan, Hx].
    + by replace ((k + 1) * 256) with (k * 256 + 256) by lia.
    + exists t, t', v. split_and!; try done; [lia|]. constructor; [lia|done].
Qed.

Lemma no_more_loaded_values clock clock' anno anno' spec j p :
  no_more_loaded clock clock' anno anno' spec -> Priority spec !! j = Some p -> exists u u',
    load (clock j) anno (SyncPeriod spec) p = Ret u /\ load (clock' j) anno' (SyncPeriod spec) p = Ret u' /\
    within 0 65536 u /\ within 0 65536 u' /\ fval u <= fval u'.
Proof.
  intros Hl Hp. destruct (Hl j p Hp) as (u & u' & Hu & Hu' & Hle & Hle'). exists u, u'.
  assert (forall x y, fleb x y = true -> is_nan x = false /\ is_nan y = false) as Hn
    by (intros [] []; try done).
  destruct (Hn _ _ Hle) as [Nu Nu']. destruct (load_valid _ _ _ _ _ Hu Nu) as [Vu Pu].
  destruct (load_valid _ _ _ _ _ Hu' Nu') as [Vu' Pu'].
  destruct (fval_of_Z 65536 ltac:(lia)) as [FM EM].
  pose proof (fleb_fval u u' Vu Vu' Hle). pose proof (fleb_fval u' _ Vu' (proj1 FM) Hle') as HM.
  assert (forall x, valid x -> 0 <= fval x <= fval (f64_of_Z 65536) -> within 0 65536 x) as Hw.
  { intros x Vx Hx. split; [|lia]. destruct (infinite_or_finite x Vx) as [|[-> | ->]]; [done|exfalso..].
    - pose proof (finite_fval _ FM). rewrite fval_inf in Hx. lia.
    - rewrite fval_inf in Hx. pose proof scale_big. pose proof (pw_pos 1024 ltac:(lia)). lia. }
  split; [done|]. split; [done|]. split; [apply Hw; [done|lia]|]. split; [apply Hw; [done|lia]|done].
Qed.

(** The scores of two nodes, as integers, are small and in the opposite order of their loads. *)
Lemma getNodeScore_order oob clock clock' anno anno' spec :
  moderate (Priority spec) = true -> no_more_loaded clock clock' anno anno' spec ->
  exists z z', getNodeScore env oob clock anno spec = Ret z /\
    getNodeScore env oob clock' anno' spec = Ret z' /\ z' <= z /\
    -(2 ^ 52) <= z <= 2 ^ 52 /\ -(2 ^ 52) <= z' <= 2 ^ 52.
Proof.
  unfold moderate. rewrite !andb_true_iff. intros [[Hlen Hm] Hne] Hl. apply Nat.leb_le in Hlen.
  pose proof scale_big. pose proof (pw_pos 0 ltac:(lia)).
  assert (within 0 0 f64_zero) as Hw0 by (split; [done|cbn; lia]).
  destruct (loop_order clock clock' anno anno' (SyncPeriod spec) (Priority spec) 0 f64_zero f64_zero f64_zero 0)
    as (t & t' & v & H1 & H2 & H3 & H4 & H5 & H6 & _ & H8); try done; [lia| |].
  { intros j p Hj. by apply no_more_loaded_values. }
  assert (pw 0 <= 256 * fval v) as Hv.
  { apply existsb_exists in Hne as (p & Hin & Hz). apply negb_true_iff in Hz.
    rewrite forallb_forall in Hm. destruct (moderate_weight_spec _ (Hm p Hin)) as [_ Hlo].
    specialize (Hlo Hz). rewrite Forall_forall in H8. specialize (H8 p). apply list_elem_of_In in Hin.
    specialize (H8 Hin). lia. }
  unfold getNodeScore. assert ((length (Priority spec) =? 0)%nat = false) as -> by (by destruct (Priority spec)).
  rewrite H1, H2. cbn [go_bind].
  pose proof (within_fdiv _ _ 256 t v H3 H6 ltac:(lia) Hv ltac:(lia) ltac:(lia) ltac:(lia)) as Hq.
  pose proof (within_fdiv _ _ 256 t' v H4 H6 ltac:(lia) Hv ltac:(lia) ltac:(lia) ltac:(lia)) as Hq'.
  destruct (within_trunc _ _ _ Hq) as (z & Hz & Hb), (within_trunc _ _ _ Hq') as (z' & Hz' & Hb').
  exists z, z'. unfold int_of_f64. rewrite Hz, Hz'.
  assert (forall x, - 2 ^ 44 * 256 <= x <= 2 ^ 44 * 256 -> int64_in x = true) as Hin.
  { intros x Hx. unfold int64_in, int64_min, int64_max. apply andb_true_iff. rewrite !Z.leb_le. lia. }
  rewrite !Hin by done. split; [done|]. split; [done|]. split; [|lia].
  apply (f64_trunc_mono (fdiv t' v) (fdiv t v)); [apply Hq'|apply Hq| |done|done].
  apply fdiv_mono; [apply H4|apply H3|done|lia|done].
Qed.

End Order.

(** ** Property *)

(** C16: the plugin favours the idle nodes. For a policy of moderate numbers (at most 1024
    priorities, weights 0 or between 1/256 and 256 and not all 0, positive hot-value counts), a
    node that is for every priority at most as loaded as another one, and no hotter, never gets
    the lower [Score], although every float operation on the way rounds: an unknown usage counts
    as a load of 1, and loads are compared by Go's [<=], up to 65536 times the capacity. *)
Theorem Score_prefers_idle `{QL : QuantityLib} `{SL : ScoreLib} (env : Env) (oob : f64 -> Z)
    (policy : DynamicSchedulerPolicy) (snapshot : string -> result NodeInfo)
    (recs recs' : nat -> BindingRecords) (hclock hclock' clock clock' : nat -> Z)
    (nodeName nodeName' : string) (ni ni' : NodeInfo) (node node' : Node) :
  GetLocation env <> None -> 0 <= MaxNodeScore <= 1024 ->
  snapshot nodeName = Ok ni -> ni_Node ni = Some node ->
  snapshot nodeName' = Ok ni' -> ni_Node ni' = Some node' ->
  moderate (Priority (Spec policy)) = true ->
  no_more_loaded env clock clock' (node_annos node) (node_annos node') (Spec policy) ->
  small recs -> small recs' -> Forall (fun hv => 0 < hv_Count hv) (HotValue (Spec policy)) ->
  Z.of_nat (length (HotValue (Spec policy))) <= 2 ^ 20 ->
  hot_value recs hclock 0 nodeName (HotValue (Spec policy))
    <= hot_value recs' hclock' 0 nodeName' (HotValue (Spec policy)) ->
  exists s s', Score env oob policy snapshot recs hclock clock nodeName = Ret (s, None) /\
    Score env oob policy snapshot recs' hclock' clock' nodeName' = Ret (s', None) /\ s' <= s.
Proof.
  intros Hloc Hmax Hs Hn Hs' Hn' Hm Hl Hsm Hsm' Hc Hlen Hh.
  destruct (getNodeScore_order env Hloc Hmax oob clock clock' _ _ _ Hm Hl)
    as (z & z' & Hz & Hz' & Hzz & Hb & Hb').
  pose proof (hot_value_bounds recs hclock 0 nodeName _ Hsm Hc).
  pose proof (hot_value_bounds recs' hclock' 0 nodeName' _ Hsm' Hc).
  unfold Score. rewrite Hs, Hs', Hn, Hn', !hot_loop_value by (done || lia). cbn [go_bind].
  rewrite Hz, Hz'. cbn [go_bind]. do 2 eexists. split; [done|]. split; [done|].
  pose proof score_bounds. rewrite !NormalizeScore_clamp by lia.
  rewrite !wrap64_id by (unfold int64_min, int64_max; rewrite ?wrap64_id; unfold int64_min, int64_max; lia).
  lia.
Qed.

(** ** Witness *)

Section Witness.
#[local] Existing Instance MilliQuantities.
#[local] Existing Instance ZeroToHundred.

(** A node at 30%, known, and one whose metric is missing. *)
Definition ix_node (name : string) (annos : option smap) : Node :=
  {| node_meta := {| om_Name := name; om_Namespace := ""; om_Annotations := annos;
                     om_OwnerReferences := []; om_DeletionTimestamp := None; om_ResourceVersion := "" |};
     node_Addresses := []; node_Capacity := ∅ |}.

Definition ix_idle : Node := ix_node "idle" (Some {["cpu" := "0.30000,1970-01-01T08:00:00Z"]}).
Definition ix_busy : Node := ix_node "n1" None.

Definition ix_snapshot (n : string) : result NodeInfo :=
  Ok {| ni_Node := Some (if String.eqb n "idle" then ix_idle else ix_busy); ni_Pods := [] |}.

Lemma Score_prefers_idle_witness :
  exists s s',
    Score ex_env amd64 (ex_policy (f64_of_Z 1) 1) ix_snapshot (fun _ => ex_store) ex_clock ex_clock "idle"
      = Ret (s, None) /\
    Score ex_env amd64 (ex_policy (f64_of_Z 1) 1) ix_snapshot (fun _ => ex_store) ex_clock ex_clock "n1"
      = Ret (s', None) /\ s' <= s.
Proof.
  apply (Score_prefers_idle ex_env amd64 (ex_policy (f64_of_Z 1) 1) ix_snapshot (fun _ => ex_store)
           (fun _ => ex_store) ex_clock ex_clock ex_clock ex_clock "idle" "n1"
           {| ni_Node := Some ix_idle; ni_Pods := [] |} {| ni_Node := Some ix_busy; ni_Pods := [] |}
           ix_idle ix_busy).
  - discriminate.
  - vm_compute. split; discriminate.
  - reflexivity.
  - reflexivity.
  - reflexivity.
  - reflexivity.
  - vm_compute. reflexivity.
  - intros [|i] p [= <-]. exists (fdiv (f64_of_Z 3) (f64_of_Z 10)), one. split_and!; vm_compute; reflexivity.
  - exact ex_small.
  - exact ex_small.
  - repeat constructor.
  - vm_compute. discriminate.
  - vm_compute. discriminate.
Defined.

End Witness.
