(* ===== verification/AppAware.v ===== *)
(** * pkg/plugins/applicationresourceaware

    The filter that predicts a node's usage with the pod's deployment added: for each
    "range:RESOURCE:APP_METRIC:NODE_METRIC" policy it adds the deployment's range and the node's
    delta to the node's range, position by position, and rejects the node when one sum exceeds
    the threshold. Round [i] of the loop reads the clock up to twice: [clock (2 * i)] and
    [clock (2 * i + 1)]. *)

From S2P Require Import Prelude GoStrings GoFloat GoTime K8s Policy Utils Config Metrics.

Open Scope string_scope.
Open Scope Z_scope.

Definition Name : string := "ApplicationResourceAware".

(** ** stats.go *)

(** [l[i]], which panics out of range. *)
Definition index (l : list f64) (i : nat) : go f64 :=
  match l !! i with Some x => Ret x | None => Panic "runtime error: index out of range" end.

Fixpoint predict_loop (i : nat) (nodeUsage deployUsage deltaUsage : list f64)
    (deployInvalid deltaInvalid : bool) (nodeCapacity MaxLimit : f64) : go bool :=
  match nodeUsage with
  | [] => Ret false
  | nu :: rest =>
      let usage := fmul nu nodeCapacity in
      let! usage :=
        if negb deltaInvalid then let! d := index deltaUsage i in Ret (fadd usage d)
        else Ret usage in
      let! usage :=
        if negb deployInvalid then let! w := index deployUsage i in Ret (fadd usage w)
        else Ret usage in
      let utilization := fdiv usage nodeCapacity in
      if fltb MaxLimit utilization then Ret true
      else predict_loop (S i) rest deployUsage deltaUsage deployInvalid deltaInvalid
             nodeCapacity MaxLimit
  end.

Definition predictingOverLoad (nodeUsageStr deployUsageStr deltaUsageStr : string)
    (policy : PredicatePolicy) (nodeCapacity : Z) : go bool :=
  if feqb (MaxLimitPecent policy) f64_zero then Ret false
  else
    match ParseRangeMetricsByString nodeUsageStr with
    | Err _ => Ret false
    | Ok nodeUsage =>
        match ParseRangeMetricsByString deployUsageStr with
        | Err _ => Ret false
        | Ok deployUsage =>
            let deltas :=
              if String.eqb deltaUsageStr "" then Ok (replicate (length nodeUsage) f64_zero)
              else ParseRangeMetricsByString deltaUsageStr in
            match deltas with
            | Err _ => Ret false
            | Ok deltaUsage =>
                let deployInvalid := negb (length nodeUsage =? length deployUsage)%nat in
                let deltaInvalid := negb (length nodeUsage =? length deltaUsage)%nat in
                predict_loop 0 nodeUsage deployUsage deltaUsage deployInvalid deltaInvalid
                  (f64_of_Z nodeCapacity) (MaxLimitPecent policy)
            end
        end
    end.

Definition parsePolicyName (name : string) : result (string * string * string * string) :=
  match split ":" name with
  | [a; b; c; d] => Ok (a, b, c, d)
  | _ => Err (Errorf "illegel value: %s" [name])
  end.

(** ** filter.go *)

Section Plugin.
Context `{QL : QuantityLib}.
Context (env : Env).
Variable rsLister : string -> string -> result ReplicaSet.
Variable deployLister : string -> string -> result Deployment.

Definition node_capacity (node : Node) (resource : string) : Z :=
  if String.eqb resource "cpu" then Value (rl_get (node_Capacity node) ResourceCPU)
  else if String.eqb resource "memory" then Value (rl_get (node_Capacity node) ResourceMemory)
  else 0.

(** One round of the loop: whether the policy rejects the node. *)
Definition check_policy (now now' : Z) (spec : PolicySpec) (node : Node) (deploy : Deployment)
    (policy : PredicatePolicy) : go bool :=
  if has_prefix (pred_Name policy) RangePrefix then
    match parsePolicyName (pred_Name policy) with
    | Err _ => Ret false
    | Ok (_, resource, deployMetricName, nodeMetricName) =>
        match GetActiveDuration (SyncPeriod spec) nodeMetricName with
        | Err _ => Ret false
        | Ok activeDuration =>
            if activeDuration =? 0 then Ret false
            else
              let! nodeUsages :=
                GetResourceUsageRange env now (node_annos node) nodeMetricName activeDuration in
              match nodeUsages with
              | Err _ => Ret false
              | Ok nodeUsages =>
                  match GetActiveDuration (SyncAppPeriod spec) deployMetricName with
                  | Err _ => Ret false
                  | Ok activeDuration =>
                      if activeDuration =? 0 then Ret false
                      else
                        let! deployUsages :=
                          GetResourceUsageRange env now' (annos (om_Annotations (dep_meta deploy)))
                            deployMetricName activeDuration in
                        match deployUsages with
                        | Err _ => Ret false
                        | Ok deployUsages =>
                            match GetDeltaUsageRange (node_annos node)
                                    (DeltaPrefixName ++ deployMetricName) with
                            | Err _ => Ret false
                            | Ok deltaUsages =>
                                predictingOverLoad nodeUsages deployUsages deltaUsages policy
                                  (node_capacity node resource)
                            end
                        end
                  end
              end
        end
    end
  else Ret false.

Fixpoint filter_loop (clock : nat -> Z) (i : nat) (spec : PolicySpec) (pod : Pod) (node : Node)
    (deploy : Deployment) (l : list PredicatePolicy) : go Status :=
  match l with
  | [] => Ret None
  | policy :: l' =>
      let! over :=
        check_policy (clock (2 * i)%nat) (clock (2 * i + 1)%nat) spec node deploy policy in
      if over then
        Ret (NewStatus Unschedulable
               (Errorf "Plugin[%s] node[%s] policy[%s] for pod[%s] is too high"
                  [Name; node_Name node; pred_Name policy; om_Name (pod_meta pod)]))
      else filter_loop clock (S i) spec pod node deploy l'
  end.

Definition Filter (policy : DynamicSchedulerPolicy) (clock : nat -> Z) (pod : Pod)
    (nodeInfo : NodeInfo) : go Status :=
  match GetDeploymentByPod rsLister deployLister pod with
  | Err _ => Ret None
  | Ok deploy =>
      match ni_Node nodeInfo with
      | None => Ret (NewStatus Error (Errorf "node not found" []))
      | Some node =>
          match om_Annotations (node_meta node) with
          | None => Ret None
          | Some _ =>
              filter_loop clock 0 (Spec policy) pod node deploy (Predicate (Spec policy))
          end
      end
  end.

End Plugin.

(** ** plugin.go *)

(** The plugin's state; its listers come from informers it starts. *)
Record ApplicationResourceAware := { schedulerPolicy : DynamicSchedulerPolicy }.

Definition New `{MR : MetricsRegistry}
    (LoadPolicyFromFile : string -> result DynamicSchedulerPolicy)
    (plArgs : option ApplicationResourceAwareArgs) (reg : registry)
    : go (registry * result ApplicationResourceAware) :=
  match plArgs with
  | None => Ret (reg, Err (Errorf "want args to be of type ApplicationResourceAwareArgs, got %T." []))
  | Some args =>
      match LoadPolicyFromFile (aa_PolicyConfigPath args) with
      | Err e => Ret (reg, Err (Wrapf "failed to get scheduler policy from config file: %v" [] e))
      | Ok policy =>
          let! reg' := RegisterAraSchedulerMetrics reg in
          Ret (reg', Ok {| schedulerPolicy := policy |})
      end
  end.

(** ** Lemmas *)

(** The predicted utilisations, one per value of the node's range: a list of the wrong length
    is left out. *)
Definition predicted (ns ws ds : list f64) (cap : f64) : list f64 :=
  let base := List.map (fun nu => fmul nu cap) ns in
  let base := if (length ns =? length ds)%nat then zip_with fadd base ds else base in
  let base := if (length ns =? length ws)%nat then zip_with fadd base ws else base in
  List.map (fun u => fdiv u cap) base.

Definition too_high (limit : f64) (us : list f64) : bool := existsb (fltb limit) us.

Lemma predict_loop_spec i ns ws ds (wi di : bool) cap limit :
  (wi = false -> length ws = (i + length ns)%nat) ->
  (di = false -> length ds = (i + length ns)%nat) ->
  predict_loop i ns ws ds wi di cap limit = Ret (too_high limit (List.map (fun u => fdiv u cap)
    (let base := List.map (fun nu => fmul nu cap) ns in
     let base := if di then base else zip_with fadd base (drop i ds) in
     if wi then base else zip_with fadd base (drop i ws)))).
Proof.
  revert i. induction ns as [|nu ns IH]; intros i Hw Hd.
  { by destruct di, wi. }
  assert (forall (l : list f64), length l = (i + length (nu :: ns))%nat ->
    exists x, l !! i = Some x /\ drop i l = x :: drop (S i) l) as Hdrop.
  { intros l Hl. destruct (lookup_lt_is_Some_2 l i) as [x Hx]; [simpl in Hl; lia|].
    exists x. split; [done|]. by apply drop_S. }
  cbn [predict_loop].
  rewrite IH by (intros H; simpl in Hw, Hd; first [rewrite (Hw H)|rewrite (Hd H)]; lia).
  unfold index. cbn zeta.
  destruct di; cbn [negb go_bind List.map];
    [|destruct (Hdrop ds (Hd eq_refl)) as (d & -> & ->); cbn [go_bind]];
    (destruct wi; cbn [negb go_bind List.map zip_with];
     [|destruct (Hdrop ws (Hw eq_refl)) as (w & -> & ->); cbn [go_bind zip_with]]);
    cbn [List.map]; unfold too_high; cbn [existsb]; by destruct (fltb limit _).
Qed.

Lemma predictingOverLoad_Ok ns ws ds nstr wstr dstr policy cap :
  feqb (MaxLimitPecent policy) f64_zero = false ->
  ParseRangeMetricsByString nstr = Ok ns -> ParseRangeMetricsByString wstr = Ok ws ->
  (if String.eqb dstr "" then Ok (replicate (length ns) f64_zero)
   else ParseRangeMetricsByString dstr) = Ok ds ->
  predictingOverLoad nstr wstr dstr policy cap
  = Ret (too_high (MaxLimitPecent policy) (predicted ns ws ds (f64_of_Z cap))).
Proof.
  intros Hz Hn Hw Hd. unfold predictingOverLoad. rewrite Hz, Hn, Hw, Hd. cbn zeta.
  rewrite predict_loop_spec.
  - unfold predicted. rewrite !drop_0. cbn zeta.
    by destruct (length ns =? length ds)%nat, (length ns =? length ws)%nat.
  - intros H. apply negb_false_iff, Nat.eqb_eq in H. done.
  - intros H. apply negb_false_iff, Nat.eqb_eq in H. done.
Qed.

Lemma predictingOverLoad_returns nstr wstr dstr policy cap :
  exists b, predictingOverLoad nstr wstr dstr policy cap = Ret b.
Proof.
  destruct (feqb (MaxLimitPecent policy) f64_zero) eqn:Hz.
  { unfold predictingOverLoad. rewrite Hz. eauto. }
  destruct (ParseRangeMetricsByString nstr) as [ns|] eqn:Hn;
    [|unfold predictingOverLoad; rewrite Hz, Hn; eauto].
  destruct (ParseRangeMetricsByString wstr) as [ws|] eqn:Hw;
    [|unfold predictingOverLoad; rewrite Hz, Hn, Hw; eauto].
  destruct (if String.eqb dstr "" then Ok (replicate (length ns) f64_zero)
   else ParseRangeMetricsByString dstr) as [ds|] eqn:Hd;
    [|unfold predictingOverLoad; rewrite Hz, Hn, Hw, Hd; eauto].
  rewrite (predictingOverLoad_Ok ns ws ds) by done. eauto.
Qed.

Section PluginLemmas.
Context `{QL : QuantityLib}.
Context (env : Env).
Hypothesis Hloc : GetLocation env <> None.

(** A policy that rejects the node: every name, period, annotation and number it needs is there
    and valid, its threshold is not 0, and one predicted utilisation exceeds it. *)
Definition predicts (now now' : Z) (spec : PolicySpec) (node : Node) (deploy : Deployment)
    (p : PredicatePolicy) : Prop :=
  has_prefix (pred_Name p) RangePrefix = true /\
  feqb (MaxLimitPecent p) f64_zero = false /\
  exists pre resource dm nm d1 d2 nstr wstr dstr ns ws ds,
    split ":" (pred_Name p) = [pre; resource; dm; nm] /\
    GetActiveDuration (SyncPeriod spec) nm = Ok d1 /\ d1 <> 0 /\
    GetActiveDuration (SyncAppPeriod spec) dm = Ok d2 /\ d2 <> 0 /\
    GetResourceUsageRange env now (node_annos node) nm d1 = Ret (Ok nstr) /\
    GetResourceUsageRange env now' (annos (om_Annotations (dep_meta deploy))) dm d2
      = Ret (Ok wstr) /\
    GetDeltaUsageRange (node_annos node) ("delta_" ++ dm) = Ok dstr /\
    ParseRangeMetricsByString nstr = Ok ns /\ ParseRangeMetricsByString wstr = Ok ws /\
    (if String.eqb dstr "" then Ok (replicate (length ns) f64_zero)
     else ParseRangeMetricsByString dstr) = Ok ds /\
    too_high (MaxLimitPecent p)
      (predicted ns ws ds (f64_of_Z (node_capacity node resource))) = true.

Lemma predictingOverLoad_true nstr wstr dstr policy cap :
  predictingOverLoad nstr wstr dstr policy cap = Ret true <->
  feqb (MaxLimitPecent policy) f64_zero = false /\
  exists ns ws ds, ParseRangeMetricsByString nstr = Ok ns /\
    ParseRangeMetricsByString wstr = Ok ws /\
    (if String.eqb dstr "" then Ok (replicate (length ns) f64_zero)
     else ParseRangeMetricsByString dstr) = Ok ds /\
    too_high (MaxLimitPecent policy) (predicted ns ws ds (f64_of_Z cap)) = true.
Proof.
  split.
  - intros H. pose proof H as H'. unfold predictingOverLoad in H'.
    destruct (feqb _ _) eqn:Hz; [done|]. split; [done|].
    destruct (ParseRangeMetricsByString nstr) as [ns|] eqn:Hn; [|done].
    destruct (ParseRangeMetricsByString wstr) as [ws|] eqn:Hw; [|done].
    destruct (if String.eqb dstr "" then _ else _) as [ds|] eqn:Hd; [|done].
    rewrite (predictingOverLoad_Ok ns ws ds) in H by done. simplify_eq. eauto 10.
  - intros (Hz & ns & ws & ds & Hn & Hw & Hd & Ht).
    rewrite (predictingOverLoad_Ok ns ws ds) by done. by rewrite Ht.
Qed.

Lemma check_policy_returns now now' spec node deploy p :
  exists b, check_policy env now now' spec node deploy p = Ret b.
Proof.
  unfold check_policy. destruct (has_prefix _ _); [|eauto].
  destruct (parsePolicyName _) as [[[[pre res] dm] nm]|]; [|eauto].
  destruct (GetActiveDuration (SyncPeriod spec) nm) as [d1|]; [|eauto].
  destruct (d1 =? 0); [eauto|].
  destruct (GetResourceUsageRange_returns env now (node_annos node) nm d1 Hloc) as [[ns|] ->];
    cbn [go_bind]; [|eauto].
  destruct (GetActiveDuration (SyncAppPeriod spec) dm) as [d2|]; [|eauto].
  destruct (d2 =? 0); [eauto|].
  destruct (GetResourceUsageRange_returns env now' (annos (om_Annotations (dep_meta deploy))) dm d2
    Hloc) as [[ws|] ->]; cbn [go_bind]; [|eauto].
  destruct (GetDeltaUsageRange _ _); [|eauto]. apply predictingOverLoad_returns.
Qed.

Lemma check_policy_true now now' spec node deploy p :
  check_policy env now now' spec node deploy p = Ret true <->
  predicts now now' spec node deploy p.
Proof.
  unfold check_policy, predicts, parsePolicyName. split.
  - destruct (has_prefix _ _); [|done].
    destruct (split ":" (pred_Name p)) as [|pre [|res [|dm [|nm [|]]]]] eqn:Hs; try done.
    destruct (GetActiveDuration (SyncPeriod spec) nm) as [d1|] eqn:H1; [|done].
    destruct (Z.eqb_spec d1 0); [done|].
    destruct (GetResourceUsageRange env now _ nm d1) as [[nstr|]|] eqn:H2; [|done|done].
    cbn [go_bind].
    destruct (GetActiveDuration (SyncAppPeriod spec) dm) as [d2|] eqn:H3; [|done].
    destruct (Z.eqb_spec d2 0); [done|].
    destruct (GetResourceUsageRange env now' _ dm d2) as [[wstr|]|] eqn:H4; [|done|done].
    cbn [go_bind]. destruct (GetDeltaUsageRange _ _) as [dstr|] eqn:H5; [|done].
    intros (Hz & ns & ws & ds & ? & ? & ? & ?)%predictingOverLoad_true.
    split; [done|]. split; [done|].
    exists pre, res, dm, nm, d1, d2, nstr, wstr, dstr, ns, ws, ds. auto 20.
  - intros (-> & Hz & pre & res & dm & nm & d1 & d2 & nstr & wstr & dstr & ns & ws & ds & -> & -> &
      Hd1 & Ha & Hd2 & -> & H4 & Hdelta & Hn & Hw & Hd & Ht).
    apply Z.eqb_neq in Hd1, Hd2. rewrite Hd1. cbn [go_bind]. rewrite Ha, Hd2, H4. cbn [go_bind].
    unfold DeltaPrefixName. rewrite Hdelta. apply predictingOverLoad_true. eauto 10.
Qed.

Lemma range_filter_loop_scan clock i spec pod node deploy l :
  filter_loop env clock i spec pod node deploy l =
  scan (fun i p => check_policy env (clock (2 * i)%nat) (clock (2 * i + 1)%nat) spec node deploy p)
    (fun p => NewStatus Unschedulable
       (Errorf "Plugin[%s] node[%s] policy[%s] for pod[%s] is too high"
          [Name; node_Name node; pred_Name p; om_Name (pod_meta pod)])) None i l.
Proof.
  revert i. induction l as [|p l IH]; intros i; [done|]. cbn [filter_loop scan]. by rewrite IH.
Qed.

End PluginLemmas.

(** *** A capacity of zero *)

Lemma fdiv_pos_zero x :
  fltb f64_zero x = true -> fdiv x (f64_of_Z 0) = SpecFloat.S754_infinity false.
Proof. by destruct x as [| [] | | []]. Qed.

Lemma fadd_zeros_l x s :
  fltb f64_zero x = true -> fadd (fadd (SpecFloat.S754_zero s) f64_zero) x = x.
Proof. by destruct x as [| [] | | []], s. Qed.

Definition finite (x : f64) : bool :=
  match x with SpecFloat.S754_zero _ | SpecFloat.S754_finite _ _ _ => true | _ => false end.

Lemma fmul_zero_r x : finite x = true -> exists s, fmul x (f64_of_Z 0) = SpecFloat.S754_zero s.
Proof. destruct x; try done; eexists; reflexivity. Qed.

Lemma too_high_zero_capacity limit ns ws :
  length ns = length ws -> forallb finite ns = true ->
  existsb (fltb f64_zero) ws = true -> fltb limit (SpecFloat.S754_infinity false) = true ->
  too_high limit (predicted ns ws (replicate (length ns) f64_zero) (f64_of_Z 0)) = true.
Proof.
  intros Hl Hf Hw Hlim. unfold predicted, too_high. rewrite length_replicate, Hl, !Nat.eqb_refl.
  rewrite <- Hl. revert ws Hl Hw. induction ns as [|n ns IH]; intros [|w ws] Hl Hw; try done.
  cbn [forallb] in Hf. apply andb_true_iff in Hf as [Hn Hf].
  destruct (fmul_zero_r n Hn) as [s Hs].
  cbn [length replicate List.map zip_with existsb]. rewrite Hs.
  cbn [existsb] in Hw. apply orb_true_iff in Hw as [Hw|Hw]; apply orb_true_iff.
  - left. rewrite fadd_zeros_l by done. by rewrite fdiv_pos_zero.
  - right. apply IH; [done|by injection Hl|done].
Qed.

(** [Filter] stops at the first policy that predicts an overload. *)
Lemma Filter_scan `{QL : QuantityLib} (env : Env)
    (rsLister : string -> string -> result ReplicaSet)
    (deployLister : string -> string -> result Deployment) (policy : DynamicSchedulerPolicy)
    (clock : nat -> Z) (pod : Pod) (nodeInfo : NodeInfo) (deploy : Deployment) (node : Node)
    (anno : smap) :
  GetLocation env <> None -> GetDeploymentByPod rsLister deployLister pod = Ok deploy ->
  ni_Node nodeInfo = Some node -> om_Annotations (node_meta node) = Some anno ->
  (exists l1 p l2, Predicate (Spec policy) = (l1 ++ p :: l2)%list /\
     predicts env (clock (2 * length l1)%nat) (clock (2 * length l1 + 1)%nat) (Spec policy) node
       deploy p /\
     (forall j q, l1 !! j = Some q ->
        ~ predicts env (clock (2 * j)%nat) (clock (2 * j + 1)%nat) (Spec policy) node deploy q) /\
     Filter env rsLister deployLister policy clock pod nodeInfo
     = Ret (NewStatus Unschedulable
              (Errorf "Plugin[%s] node[%s] policy[%s] for pod[%s] is too high"
                 [Name; node_Name node; pred_Name p; om_Name (pod_meta pod)]))) \/
  ((forall j q, Predicate (Spec policy) !! j = Some q ->
      ~ predicts env (clock (2 * j)%nat) (clock (2 * j + 1)%nat) (Spec policy) node deploy q) /\
   Filter env rsLister deployLister policy clock pod nodeInfo = Ret None).
Proof.
  intros Hl Hd Hn Ha. unfold Filter. rewrite Hd, Hn, Ha, range_filter_loop_scan.
  apply (scan_spec _ (fun i p => predicts env (clock (2 * i)%nat) (clock (2 * i + 1)%nat)
           (Spec policy) node deploy p) _ _ 0).
  intros i p. rewrite <- (check_policy_true env).
  destruct (check_policy_returns env Hl (clock (2 * i)%nat) (clock (2 * i + 1)%nat) (Spec policy)
              node deploy p) as [[] ->]; [by left|by right].
Qed.

(** ** Properties *)

(** C17: for a pod of a deployment and an annotated node, [Filter] never panics when the time zone
    can be loaded, and it rejects exactly when some range policy predicts an overload: the first
    one in the policy's order is named in the status. *)
Theorem Filter_predicts `{QL : QuantityLib} (env : Env)
    (rsLister : string -> string -> result ReplicaSet)
    (deployLister : string -> string -> result Deployment) (policy : DynamicSchedulerPolicy)
    (clock : nat -> Z) (pod : Pod) (nodeInfo : NodeInfo) (deploy : Deployment) (node : Node)
    (anno : smap) :
  GetLocation env <> None -> GetDeploymentByPod rsLister deployLister pod = Ok deploy ->
  ni_Node nodeInfo = Some node -> om_Annotations (node_meta node) = Some anno ->
  (exists l1 p l2, Predicate (Spec policy) = (l1 ++ p :: l2)%list /\
     predicts env (clock (2 * length l1)%nat) (clock (2 * length l1 + 1)%nat) (Spec policy) node
       deploy p /\
     (forall j q, l1 !! j = Some q ->
        ~ predicts env (clock (2 * j)%nat) (clock (2 * j + 1)%nat) (Spec policy) node deploy q) /\
     Filter env rsLister deployLister policy clock pod nodeInfo
     = Ret (NewStatus Unschedulable
              (Errorf "Plugin[%s] node[%s] policy[%s] for pod[%s] is too high"
                 [Name; node_Name node; pred_Name p; om_Name (pod_meta pod)]))) \/
  ((forall j q, Predicate (Spec policy) !! j = Some q ->
      ~ predicts env (clock (2 * j)%nat) (clock (2 * j + 1)%nat) (Spec policy) node deploy q) /\
   Filter env rsLister deployLister policy clock pod nodeInfo = Ret None).
Proof. apply Filter_scan. Qed.

(** [predictingOverLoad] indexes its three ranges safely: on any three strings it returns,
    and it returns true exactly when the threshold is not 0, the strings parse, and one of the
    predicted utilisations exceeds the threshold. *)
Theorem predictingOverLoad_decides (nstr wstr dstr : string) (policy : PredicatePolicy) (cap : Z) :
  exists b, predictingOverLoad nstr wstr dstr policy cap = Ret b /\
    (b = true <->
     feqb (MaxLimitPecent policy) f64_zero = false /\
     exists ns ws ds, ParseRangeMetricsByString nstr = Ok ns /\
       ParseRangeMetricsByString wstr = Ok ws /\
       (if String.eqb dstr "" then Ok (replicate (length ns) f64_zero)
        else ParseRangeMetricsByString dstr) = Ok ds /\
       too_high (MaxLimitPecent policy) (predicted ns ws ds (f64_of_Z cap)) = true).
Proof.
  destruct (predictingOverLoad_returns nstr wstr dstr policy cap) as [b Hb].
  exists b. split; [done|]. rewrite <- predictingOverLoad_true, Hb. naive_solver.
Qed.

(** For a policy on a resource other than cpu and memory the capacity stays 0, and the
    division by it makes any positive deployment usage an infinite utilisation: every such node
    with finite usages is rejected, whatever the (finite) threshold. *)
Theorem unknown_resource_rejects (nstr wstr : string) (policy : PredicatePolicy)
    (ns ws : list f64) :
  ParseRangeMetricsByString nstr = Ok ns -> ParseRangeMetricsByString wstr = Ok ws ->
  length ns = length ws -> forallb finite ns = true -> existsb (fltb f64_zero) ws = true ->
  feqb (MaxLimitPecent policy) f64_zero = false ->
  fltb (MaxLimitPecent policy) (SpecFloat.S754_infinity false) = true ->
  predictingOverLoad nstr wstr "" policy 0 = Ret true.
Proof.
  intros Hn Hw Hl Hf Hp Hz Hlim.
  rewrite (predictingOverLoad_Ok ns ws (replicate (length ns) f64_zero)) by done.
  by rewrite too_high_zero_capacity.
Qed.

(** ** Witnesses *)

Section Witnesses.
#[local] Existing Instance MilliQuantities.

Definition ax_meta (kind owner : string) (anno : smap) : ObjectMeta :=
  {| om_Name := "x"; om_Namespace := "ns"; om_Annotations := Some anno;
     om_OwnerReferences := [{| or_Kind := kind; or_Name := owner |}];
     om_DeletionTimestamp := None; om_ResourceVersion := "" |}.

Definition ax_deploy : Deployment :=
  {| dep_meta := ax_meta "" "" {["app" := "1.0|1.0,1970-01-01T08:00:00Z"]};
     dep_Replicas := Some 1 |}.
Definition ax_rs : ReplicaSet := {| rs_meta := ax_meta "Deployment" "d" ∅ |}.
Definition ax_pod : Pod :=
  {| pod_meta := ax_meta "ReplicaSet" "rs" ∅; pod_NodeName := ""; pod_Containers := [] |}.
Definition ax_node : Node :=
  {| node_meta := ax_meta "" "" {["load" := "0.5|0.25,1970-01-01T08:00:00Z"]};
     node_Addresses := []; node_Capacity := {["cpu" := 2000]} |}.
Definition ax_info : NodeInfo := {| ni_Node := Some ax_node; ni_Pods := [] |}.
Definition ax_limit : PredicatePolicy :=
  {| pred_Name := "range:cpu:app:load"; MaxLimitPecent := fdiv (f64_of_Z 1) (f64_of_Z 2) |}.
Definition ax_policy : DynamicSchedulerPolicy :=
  {| policy_APIVersion := "";
     Spec := {|
       SyncPeriod := [{| sync_Name := "load"; sync_Period := Minute |}];
       SyncAppPeriod := [{| sync_Name := "app"; sync_Period := Minute |}];
       Predicate := [ax_limit]; Priority := []; HotValue := [] |} |}.
Definition ax_clock : nat -> Z := fun _ => 60 * Second.

Example ax_filter :
  Filter (fixed_env 28800) (fun _ _ => Ok ax_rs) (fun _ _ => Ok ax_deploy) ax_policy ax_clock
    ax_pod ax_info
  = Ret (NewStatus Unschedulable
           (Errorf "Plugin[%s] node[%s] policy[%s] for pod[%s] is too high"
              [Name; "x"; "range:cpu:app:load"; "x"])).
Proof. vm_compute. reflexivity. Qed.

Lemma Filter_predicts_witness :
  (exists l1 p l2, Predicate (Spec ax_policy) = (l1 ++ p :: l2)%list /\
     predicts (fixed_env 28800) (ax_clock (2 * length l1)%nat) (ax_clock (2 * length l1 + 1)%nat)
       (Spec ax_policy) ax_node ax_deploy p /\
     (forall j q, l1 !! j = Some q ->
        ~ predicts (fixed_env 28800) (ax_clock (2 * j)%nat) (ax_clock (2 * j + 1)%nat)
            (Spec ax_policy) ax_node ax_deploy q) /\
     Filter (fixed_env 28800) (fun _ _ => Ok ax_rs) (fun _ _ => Ok ax_deploy) ax_policy ax_clock
       ax_pod ax_info
     = Ret (NewStatus Unschedulable
              (Errorf "Plugin[%s] node[%s] policy[%s] for pod[%s] is too high"
                 [Name; node_Name ax_node; pred_Name p; om_Name (pod_meta ax_pod)]))) \/
  ((forall j q, Predicate (Spec ax_policy) !! j = Some q ->
      ~ predicts (fixed_env 28800) (ax_clock (2 * j)%nat) (ax_clock (2 * j + 1)%nat)
          (Spec ax_policy) ax_node ax_deploy q) /\
   Filter (fixed_env 28800) (fun _ _ => Ok ax_rs) (fun _ _ => Ok ax_deploy) ax_policy ax_clock
     ax_pod ax_info = Ret None).
Proof.
  apply (Filter_predicts (fixed_env 28800) (fun _ _ => Ok ax_rs) (fun _ _ => Ok ax_deploy)
           ax_policy ax_clock ax_pod ax_info ax_deploy ax_node
           {["load" := "0.5|0.25,1970-01-01T08:00:00Z"]});
    [discriminate|reflexivity|reflexivity|reflexivity].
Defined.

Lemma unknown_resource_rejects_witness :
  predictingOverLoad "0.5" "1" "" ax_limit 0 = Ret true.
Proof.
  apply (unknown_resource_rejects "0.5" "1" ax_limit [fdiv (f64_of_Z 1) (f64_of_Z 2)] [f64_of_Z 1]);
    vm_compute; reflexivity.
Defined.

End Witnesses.
