(* ===== verification/Prometheus.v ===== *)
(** * pkg/controller/prometheus/prometheus.go

    The queries the annotator makes. [API] is the Prometheus HTTP API at a time: instant queries
    and range queries, with warnings, a typed value or an error. A value that is negative or not
    a number is reported as 0 (infinities too in range queries); ranges are joined with "|".
    [PromClient] is the interface the annotator is written against; a method that queries twice
    reads the clock twice ([clock 0], [clock 1]). *)

From S2P Require Import Prelude GoStrings GoFloat GoFloatOrder GoTime K8s Policy Utils.

Open Scope string_scope.
Open Scope Z_scope.

Definition defaultStep : Duration := 30 * Minute.
Definition PrefixRange : string := "range_".
Definition ErrEmptyMsg : string := "result is empty".

(** model.Value, by its Type(): the values of a vector, the series of a matrix. *)
Inductive prom_value :=
| ValVector (vs : list f64)
| ValMatrix (series : list (list f64))
| ValOther (type : string).

(** v1.API: what is asked, and the warnings and the value of the answer. *)
Record prom_api := {
  Query : string -> Z -> result (list string * prom_value);
  QueryRange : string -> Z -> Z -> Duration -> result (list string * prom_value) }.

(** ** The interface *)

Class PromClient := {
  QueryByNodeIP : (nat -> Z) -> string -> string -> result string;
  QueryByNodeName : (nat -> Z) -> string -> string -> result string;
  QueryByNodeIPWithOffset : (nat -> Z) -> string -> string -> string -> result string;
  QueryByDeployment : (nat -> Z) -> string -> string -> result string;
  QueryRangeByNodeIP : (nat -> Z) -> string -> string -> result string;
  QueryRangeByNodeName : (nat -> Z) -> string -> string -> result string;
  QueryRangeByDeployment : (nat -> Z) -> string -> string -> result string }.

(** ** The implementation *)

Section Client.
Context (p : prom_api) (Local : Location).

Definition value_type (v : prom_value) : string :=
  match v with ValVector _ => "vector" | ValMatrix _ => "matrix" | ValOther t => t end.

(** The value reported for a sample of an instant query. *)
Definition sanitize (v : f64) : f64 := if fltb v f64_zero || is_nan v then f64_zero else v.

Definition query (now : Z) (q : string) : result string :=
  match Query p q now with
  | Err e => Err e
  | Ok (warnings, v) =>
      if (0 <? length warnings)%nat then Err (Errorf "unexpected warnings: %v" warnings)
      else
        match v with
        | ValVector vs =>
            Ok (foldl (fun _ elem => FormatFloat5 (sanitize elem)) "" vs)
        | _ => Err (Errorf "illege result type: %v" [value_type v])
        end
  end.

(** The value reported for a sample of a range query. *)
Definition sanitize_range (fv : f64) : f64 :=
  if fltb fv f64_zero || is_inf fv || is_nan fv then f64_zero else fv.

(** The loop over the samples: a separator after every value but the last. *)
Fixpoint range_loop (vs : list f64) (metricValues : string) : string :=
  match vs with
  | [] => metricValues
  | [v] => metricValues ++ FormatFloat5 (sanitize_range v)
  | v :: vs' => range_loop vs' (metricValues ++ FormatFloat5 (sanitize_range v) ++ "|")
  end.

(** [time.Date(t.Year(), t.Month(), t.Day(), 0, ...)] in the local zone, [days] days later. *)
Definition midnight (t : Z) (days : Z) : Z :=
  let '(y, m, d) := civil_from_days ((t / Second + zone_offset Local (t / Second)) / 86400) in
  Date y m (d + days) 0 0 0 0 Local.

(** [t.AddDate(0, 0, -1)]: the same time of day, a day earlier, normalised. *)
Definition AddDate_day (t : Z) (days : Z) : Z :=
  let local := t / Second + zone_offset Local (t / Second) in
  let '(y, m, d) := civil_from_days (local / 86400) in
  let sec := local mod 86400 in
  Date y m (d + days) (sec / 3600) (sec / 60 mod 60) (sec mod 60) (t mod Second) Local.

Definition queryRange (now : Z) (q : string) : result string :=
  let t1 := now in
  let t2 := AddDate_day t1 (-1) in
  let todayTime := midnight t1 0 in
  let yesterdayTime := midnight t2 0 in
  match QueryRange p q yesterdayTime todayTime defaultStep with
  | Err e => Err e
  | Ok (warnings, v) =>
      if (0 <? length warnings)%nat then Err (Errorf "unexpected warnings: %v" warnings)
      else
        match v with
        | ValMatrix series =>
            let metricValues := match series with [] => "" | vs :: _ => range_loop vs "" end in
            if (String.length metricValues =? 0)%nat then Err (Errorf ErrEmptyMsg [])
            else Ok metricValues
        | _ => Err (Errorf "illege result type: %v" [value_type v])
        end
  end.

(** [if result != "" && err == nil { return result, nil }], and the pair returned otherwise. *)
Definition non_empty (r : result string) : option string :=
  match r with Ok s => if String.eqb s "" then None else Some s | Err _ => None end.

Definition or_err (r : result string) : result string :=
  match non_empty r with
  | Some s => Ok s
  | None => match r with Ok _ => Ok "" | Err e => Err e end
  end.

Definition instance_selector (metricName re : string) : string :=
  metricName ++ "{instance=~" ++ dq ++ re ++ dq ++ "}".
Definition deployment_selector (metricName deployment : string) : string :=
  metricName ++ "{deployment=" ++ dq ++ deployment ++ dq ++ "}".

(** Ask by the bare address, then by address and port. *)
Definition by_ip (ask : Z -> string -> result string) (clock : nat -> Z)
    (metricName ip suffix : string) : result string :=
  match non_empty (ask (clock 0%nat) (instance_selector metricName ip ++ suffix)) with
  | Some s => Ok s
  | None => or_err (ask (clock 1%nat) (instance_selector metricName (ip ++ ":.+") ++ suffix))
  end.

Definition promClient_QueryByNodeIP (clock : nat -> Z) (metricName ip : string) : result string :=
  by_ip query clock metricName ip "".
Definition promClient_QueryByNodeName (clock : nat -> Z) (metricName name : string)
    : result string :=
  or_err (query (clock 0%nat) (instance_selector metricName name)).
Definition promClient_QueryByNodeIPWithOffset (clock : nat -> Z) (metricName ip offset : string)
    : result string :=
  by_ip query clock metricName ip (" offset " ++ offset).
Definition promClient_QueryByDeployment (clock : nat -> Z) (metricName deployment : string)
    : result string :=
  or_err (query (clock 0%nat) (deployment_selector metricName deployment)).
Definition promClient_QueryRangeByNodeIP (clock : nat -> Z) (metricName ip : string)
    : result string :=
  by_ip queryRange clock metricName ip "".
Definition promClient_QueryRangeByNodeName (clock : nat -> Z) (metricName name : string)
    : result string :=
  or_err (queryRange (clock 0%nat) (instance_selector metricName name)).
Definition promClient_QueryRangeByDeployment (clock : nat -> Z) (metricName deployment : string)
    : result string :=
  or_err (queryRange (clock 0%nat) (deployment_selector metricName deployment)).

Definition promClient : PromClient := {|
  QueryByNodeIP := promClient_QueryByNodeIP;
  QueryByNodeName := promClient_QueryByNodeName;
  QueryByNodeIPWithOffset := promClient_QueryByNodeIPWithOffset;
  QueryByDeployment := promClient_QueryByDeployment;
  QueryRangeByNodeIP := promClient_QueryRangeByNodeIP;
  QueryRangeByNodeName := promClient_QueryRangeByNodeName;
  QueryRangeByDeployment := promClient_QueryRangeByDeployment |}.

End Client.

(** ** Lemmas *)

Lemma sanitize_nonneg v : fltb (sanitize v) f64_zero = false /\ is_nan (sanitize v) = false.
Proof.
  unfold sanitize. destruct (fltb v f64_zero) eqn:E, (is_nan v) eqn:N; simpl; try done.
Qed.

Lemma sanitize_range_finite v :
  fltb (sanitize_range v) f64_zero = false /\ is_nan (sanitize_range v) = false /\
  is_inf (sanitize_range v) = false.
Proof.
  unfold sanitize_range.
  destruct (fltb v f64_zero) eqn:E, (is_nan v) eqn:N, (is_inf v) eqn:I; simpl; try done.
Qed.

Lemma sanitize_closed v : is_f64 v = true -> is_f64 (sanitize v) = true.
Proof. unfold sanitize. by destruct (_ || _). Qed.

Lemma sanitize_range_closed vs :
  forallb is_f64 vs = true -> forallb is_f64 (List.map sanitize_range vs) = true.
Proof.
  intros H. rewrite forallb_forall in *. intros y (x & <- & Hx%H)%in_map_iff.
  unfold sanitize_range. by destruct (_ || _).
Qed.

Lemma range_loop_join vs acc :
  range_loop vs acc = acc ++ join "|" (List.map (fun v => FormatFloat5 (sanitize_range v)) vs).
Proof.
  revert acc. induction vs as [|v [|v' vs] IH]; intros acc.
  - simpl. by rewrite app_string_nil_r.
  - done.
  - change (range_loop (v :: v' :: vs) acc)
      with (range_loop (v' :: vs) (acc ++ FormatFloat5 (sanitize_range v) ++ "|")).
    rewrite IH. rewrite !app_string_assoc. done.
Qed.

Lemma join_nonempty c l : Forall (fun s => s <> "") l -> l <> [] -> join c l <> "".
Proof.
  intros Hl Hne. destruct Hl as [|s [|s' l] Hs _]; [done|done|]. simpl. by destruct s.
Qed.

Lemma FormatFloat5_nonempty x : FormatFloat5 x <> "".
Proof.
  destruct x as [s|[]| |s m e]; try done; cbn [FormatFloat5]; [by destruct s|].
  unfold print5. intros H. assert (String.length (dec (scaled5 m e / 100000)) = 0%nat) as Hl.
  { apply (f_equal String.length) in H. rewrite !app_string_length in H. simpl in H. lia. }
  pose proof (dec_nonempty (scaled5 m e / 100000)). by destruct (dec _).
Qed.

(** ** Properties *)

(** An instant query reports the last sample of the vector, with negative values and NaN
    replaced by 0, in five decimals; the scheduler reads the text back as a number that is not
    negative, so it never drops it as illegal. An empty vector is reported as the empty string
    without an error. *)
Theorem query_value (p : prom_api) (now : Z) (q : string) (vs : list f64) :
  Query p q now = Ok ([], ValVector vs) ->
  query p now q
  = Ok (match last vs with None => "" | Some v => FormatFloat5 (sanitize v) end) /\
  forall v, last vs = Some v -> is_f64 v = true ->
    ParseFloat (FormatFloat5 (sanitize v)) = Ok (round5 (sanitize v)) /\
    fltb (round5 (sanitize v)) f64_zero = false.
Proof.
  intros Hq. unfold query. rewrite Hq. cbn [length Nat.ltb Nat.leb]. split.
  - f_equal. induction vs as [|v vs _] using rev_ind; [done|]. by rewrite foldl_snoc, last_snoc.
  - intros v _ Hi. split; [by apply ParseFloat_FormatFloat5, round5_inf, sanitize_closed|].
    apply round5_nonneg. apply sanitize_nonneg.
Qed.

(** C27: a range query asks for yesterday's local midnight to today's in steps of half an hour, and
    reports the samples of the first series: its text parses back to exactly one number per
    sample, each the sample with negative, infinite and NaN values replaced by 0, rounded to five
    decimals. Without samples it fails with "result is empty". *)
Theorem queryRange_roundtrip (p : prom_api) (Local : Location) (now : Z) (q : string)
    (vs : list f64) (rest : list (list f64)) :
  QueryRange p q (midnight Local (AddDate_day Local now (-1)) 0) (midnight Local now 0)
    (30 * Minute) = Ok ([], ValMatrix (vs :: rest)) ->
  forallb is_f64 vs = true ->
  (vs = [] /\ queryRange p Local now q = Err (Errorf "result is empty" [])) \/
  (exists s, queryRange p Local now q = Ok s /\ s <> "" /\
     ParseRangeMetricsByString s = Ok (List.map round5 (List.map sanitize_range vs)) /\
     Forall (fun v => fltb v f64_zero = false /\ is_inf v = false) (List.map sanitize_range vs)).
Proof.
  intros Hq Hf. unfold queryRange, defaultStep. cbv zeta. rewrite Hq. cbn [length Nat.ltb Nat.leb].
  rewrite range_loop_join. cbn [append]. destruct vs as [|v vs]; [by left|]. right.
  rewrite <- (List.map_map sanitize_range FormatFloat5).
  assert (join "|" (List.map FormatFloat5 (List.map sanitize_range (v :: vs))) <> "") as Hne.
  { apply join_nonempty; [|done]. apply Forall_map, Forall_true. intros x. apply FormatFloat5_nonempty. }
  eexists. split_and!.
  - destruct (Nat.eqb_spec (String.length
      (join "|" (List.map FormatFloat5 (List.map sanitize_range (v :: vs))))) 0) as [Hl|_];
      [|reflexivity]. by destruct (join _ _).
  - done.
  - apply parse_range_join; [done|]. by apply sanitize_range_closed.
  - apply Forall_map, Forall_true. intros x. destruct (sanitize_range_finite x) as (? & _ & ?). done.
Qed.

(** ** Witnesses *)

Section Witnesses.

Definition qx_api (v : prom_value) : prom_api :=
  {| Query := fun _ _ => Ok ([], v); QueryRange := fun _ _ _ _ => Ok ([], v) |}.
Definition qx_values : list f64 := [f64_of_Z 1; fdiv (f64_of_Z (-1)) (f64_of_Z 4)].

Lemma query_value_witness :
  query (qx_api (ValVector qx_values)) 0 "up"
  = Ok (match last qx_values with None => "" | Some v => FormatFloat5 (sanitize v) end) /\
  forall v, last qx_values = Some v -> is_f64 v = true ->
    ParseFloat (FormatFloat5 (sanitize v)) = Ok (round5 (sanitize v)) /\
    fltb (round5 (sanitize v)) f64_zero = false.
Proof. exact (query_value (qx_api (ValVector qx_values)) 0 "up" qx_values eq_refl). Defined.

Lemma queryRange_roundtrip_witness :
  (qx_values = [] /\ queryRange (qx_api (ValMatrix [qx_values])) (FixedZone 28800) 0 "up"
     = Err (Errorf "result is empty" [])) \/
  (exists s, queryRange (qx_api (ValMatrix [qx_values])) (FixedZone 28800) 0 "up" = Ok s /\ s <> "" /\
     ParseRangeMetricsByString s = Ok (List.map round5 (List.map sanitize_range qx_values)) /\
     Forall (fun v => fltb v f64_zero = false /\ is_inf v = false)
       (List.map sanitize_range qx_values)).
Proof.
  apply (queryRange_roundtrip (qx_api (ValMatrix [qx_values])) (FixedZone 28800) 0 "up" qx_values []);
    [reflexivity|vm_compute; reflexivity].
Defined.

End Witnesses.
