(* ===== verification/AnnotatorQueue.v ===== *)
(** * pkg/controller/annotator: utils.go and the work-queue loops

    The keys of the queues, and what each controller's [processNextWorkItem] does with a key
    after its sync function. The work queue is client-go's: its operations are recorded, in
    order, as [queue_op]s; a deferred Done comes last. *)

From S2P Require Import Prelude GoStrings GoTime K8s Policy.

Open Scope string_scope.
Open Scope Z_scope.

(** ** utils.go *)

Definition splitMetaKeyWithMetricName (key : string) : result (string * string) :=
  match split "/" key with
  | [a; b] => Ok (a, b)
  | _ => Err (Errorf "unexpected key format: %q" [key])
  end.

Definition handlingMetaKeyWithMetricName (nodeName metricName : string) : string :=
  nodeName ++ "/" ++ metricName.

Definition getMaxHotVauleTimeRange (hotValues : list HotValuePolicy) : Duration :=
  foldl (fun max tr => if max <? hv_TimeRange tr then hv_TimeRange tr else max) 0 hotValues.

(** ** Work queues *)

Inductive queue_op :=
| QAdd (key : string)
| QAddRateLimited (key : string)
| QForget (key : string)
| QDone (key : string).

(** node.go: [get] is [None] when the queue shuts down. *)
Definition processNextWorkItem (get : option string) (sync : string -> io (bool * option error))
    : io (bool * list queue_op) :=
  match get with
  | None => io_ret (false, [])
  | Some key =>
      let* (forget, _) := sync key in
      if forget : bool then io_ret (true, [QForget key; QDone key])
      else io_ret (true, [QAddRateLimited key; QDone key])
  end.

(** node.go, the delta-reset controller *)
Definition ndr_processNextWorkItem (get : option string) (sync : string -> io (bool * option error))
    : io (bool * list queue_op) :=
  match get with
  | None => io_ret (false, [])
  | Some key =>
      let* (forget, _) := sync key in
      if forget : bool then io_ret (true, [QForget key; QDone key])
      else io_ret (true, [QAddRateLimited key; QDone key])
  end.

(** deployment.go *)
Definition deployment_processNextWorkItem (get : option string)
    (sync : string -> io (bool * option error)) : io (bool * list queue_op) :=
  match get with
  | None => io_ret (false, [])
  | Some key =>
      let* (forget, err) := sync key in
      match err with
      | Some _ => io_ret (true, [QAddRateLimited key; QDone key])
      | None => io_ret (true, ((if forget : bool then [QForget key] else []) ++ [QDone key])%list)
      end
  end.

(** event.go: a failed key is dropped. [S] is what reconciling returns besides. *)
Definition event_processNextWorkItem {S} (get : option string) (s : S)
    (reconcile : string -> io (S * option error)) : io (bool * S * list queue_op) :=
  match get with
  | None => io_ret (false, s, [])
  | Some key => let* (s', _) := reconcile key in io_ret (true, s', [QDone key])
  end.

(** pod.go: a failed key is dropped. *)
Definition pod_processNextWorkItem (get : option string) (reconcile : string -> io (option error))
    : io (bool * list queue_op) :=
  match get with
  | None => io_ret (false, [])
  | Some key => let* _ := reconcile key in io_ret (true, [QDone key])
  end.

(** cache.ResourceEventHandlerFuncs: what the handlers add to the controller's queue; a handler
    that is not set does nothing. *)
Record ResourceEventHandlerFuncs (A : Type) := {
  AddFunc : option (A -> list queue_op);
  UpdateFunc : option (A -> A -> list queue_op) }.
Arguments AddFunc {A} _.
Arguments UpdateFunc {A} _.

(** ** The queues *)

(** A controller's rate limiter, with its delays, and its queue's name. *)
Inductive limiter :=
| ItemExponentialFailure (baseDelay maxDelay : Duration)
| DefaultController.

Record queue_config := { qc_limiter : limiter; qc_name : string }.

Definition DefaultBackOff : Duration := 10 * Second.
Definition MaxBackOff : Duration := 360 * Second.

Definition newNodeController : queue_config :=
  {| qc_limiter := ItemExponentialFailure DefaultBackOff MaxBackOff; qc_name := "node_event_queue" |}.

Definition newNodeDeltaResetController : queue_config :=
  {| qc_limiter := ItemExponentialFailure DefaultBackOff MaxBackOff;
     qc_name := "node_delta_event_queue" |}.

Definition newDeploymentController : queue_config :=
  {| qc_limiter := ItemExponentialFailure DefaultBackOff MaxBackOff;
     qc_name := "deployment_event_queue" |}.

Definition newEventController : queue_config :=
  {| qc_limiter := DefaultController; qc_name := "EVENT_event_queue" |}.

Definition newPodController : queue_config :=
  {| qc_limiter := DefaultController; qc_name := "pod_event_queue" |}.

(** ** Tickers *)

(** [time.NewTicker]. *)
Definition NewTicker (d : Duration) : go Duration :=
  if d <=? 0 then Panic "non-positive interval for NewTicker" else Ret d.

(** [enqueueFunc] of the tickers: one key per object for the policy. *)
Definition enqueue_all (names : result (list string)) (policy : SyncPolicy) : list queue_op :=
  match names with
  | Err _ => []
  | Ok l => List.map (fun n => QAdd (handlingMetaKeyWithMetricName n (sync_Name policy))) l
  end.

(** node.go [CreateMetricSyncTicker]: what is enqueued at once for every policy, and the tickers
    started, whose ticks each enqueue [enqueue_all] again. *)
Definition CreateMetricSyncTicker (names : result (list string)) (periods : list SyncPolicy)
    : list (list queue_op * go Duration) :=
  List.map (fun p => (enqueue_all names p, NewTicker (sync_Period p))) periods.

(** deployment.go [CreateMetricSyncTicker1], the same over the namespaces and the application
    policies; the program starts [deployment_CreateMetricSyncTicker] (AnnotatorApp) instead. *)
Definition deployment_CreateMetricSyncTicker1 (namespaces : result (list string))
    (syncAppPeriods : list SyncPolicy) : list (list queue_op * go Duration) :=
  List.map (fun p => (enqueue_all namespaces p, NewTicker (sync_Period p))) syncAppPeriods.

(** A job of robfig/cron: when it runs, and what it adds to a queue given the names it lists. *)
Record cron_job := { cj_spec : string; cj_run : result (list string) -> list queue_op }.

(** ** Lemmas *)

Lemma splitMetaKey_Ok key a b :
  splitMetaKeyWithMetricName key = Ok (a, b) <->
  key = handlingMetaKeyWithMetricName a b /\ no_char "/" a = true /\ no_char "/" b = true.
Proof.
  unfold splitMetaKeyWithMetricName, handlingMetaKeyWithMetricName.
  change (a ++ "/" ++ b) with (a ++ String "/" b). rewrite <- (split_two "/").
  destruct (split "/" key) as [|x [|y [|]]]; naive_solver.
Qed.

Lemma getMax_fold l acc :
  let m := foldl (fun max tr => if max <? hv_TimeRange tr then hv_TimeRange tr else max) acc l in
  acc <= m /\ Forall (fun hv => hv_TimeRange hv <= m) l /\
  (m = acc \/ Exists (fun hv => hv_TimeRange hv = m) l).
Proof.
  cbn zeta. revert acc. induction l as [|hv l IH]; intros acc; cbn [foldl]; [by split_and!; [lia| |left]|].
  destruct (IH (if acc <? hv_TimeRange hv then hv_TimeRange hv else acc)) as (H1 & H2 & H3).
  destruct (Z.ltb_spec acc (hv_TimeRange hv)); split_and!.
  - lia.
  - constructor; [done|done].
  - destruct H3 as [->|H3]; right; [by left|by right].
  - lia.
  - constructor; [lia|done].
  - destruct H3 as [->|H3]; [by left|right; by right].
Qed.

Lemma getMax_spec l :
  0 <= getMaxHotVauleTimeRange l /\
  Forall (fun hv => hv_TimeRange hv <= getMaxHotVauleTimeRange l) l /\
  (getMaxHotVauleTimeRange l = 0 \/ Exists (fun hv => hv_TimeRange hv = getMaxHotVauleTimeRange l) l).
Proof. apply (getMax_fold l 0). Qed.
