(* ===== verification/AnnotatorNode.v ===== *)
(** * pkg/controller/annotator/node.go

    The node controller writes the metric of a queue key, and the node's hot value, to the node's
    annotations; the delta-reset controller deletes the node's "delta_" annotations. [clock] is
    read by the Prometheus client (0 to 2), then by the annotation write (3); the hot-value loop
    sees the store and its own clock as in HotValue. *)

From S2P Require Import Prelude GoStrings GoFloat GoTime GoHeap K8s Policy Utils Binding HotValue.
From S2P Require Import Prometheus AnnotatorQueue.

Open Scope string_scope.
Open Scope Z_scope.

Definition HotValueKey : string := "node_hot_value".

Section NodeController.
Context `{QL : QuantityLib} {PC : PromClient}.
Context (env : Env) (kubeClient : client).
Variable nodeLister : string -> result Node.
Variable policy : DynamicSchedulerPolicy.

Fixpoint internal_ip (addrs : list (string * string)) : option string :=
  match addrs with
  | [] => None
  | (ty, a) :: rest => if String.eqb ty NodeInternalIP then Some a else internal_ip rest
  end.

Definition getNodeInternalIP (node : Node) : string :=
  match internal_ip (node_Addresses node) with Some a => a | None => node_Name node end.

Definition getNodeName (node : Node) : string := node_Name node.

(** The error returned at the end is made from the named result, which the inner declarations
    shadow: it is always nil. *)
Definition annotateNodeLoad (clock : nat -> Z) (node : Node) (key : string)
    : io (option error) :=
  let now := clock 3%nat in
  let failed := io_ret (Some (Errorf "failed to get data %s{nodeName=%s}: %v"
                          [key; node_Name node; "<nil>"])) in
  if has_prefix key PrefixRange then
    let metricName := trim_prefix key PrefixRange in
    match QueryRangeByNodeIP clock metricName (getNodeInternalIP node) with
    | Ok value => PatchNodeAnnotation env kubeClient now node key value
    | Err _ =>
        match QueryRangeByNodeName (fun i => clock (2 + i)%nat) metricName (getNodeName node) with
        | Ok value => PatchNodeAnnotation env kubeClient now node key value
        | Err _ => failed
        end
    end
  else
    match QueryByNodeIP clock key (getNodeInternalIP node) with
    | Ok value => PatchNodeAnnotation env kubeClient now node key value
    | Err _ =>
        match QueryByNodeName (fun i => clock (2 + i)%nat) key (getNodeName node) with
        | Ok value => PatchNodeAnnotation env kubeClient now node key value
        | Err _ => failed
        end
    end.

Definition annotateNodeHotValue (recs : nat -> BindingRecords) (hclock : nat -> Z) (now : Z)
    (node : Node) : io (option error) :=
  let* value := io_go (hot_loop recs hclock 0 (node_Name node) (HotValue (Spec policy)) 0) in
  PatchNodeAnnotation env kubeClient now node HotValueKey (Itoa value).

(** [(forget, err)] *)
Definition syncNode (clock : nat -> Z) (recs : nat -> BindingRecords) (hclock : nat -> Z)
    (now : Z) (key : string) : io (bool * option error) :=
  match splitMetaKeyWithMetricName key with
  | Err _ => io_ret (true, Some (Errorf "invalid resource key: %s" [key]))
  | Ok (nodeName, metricName) =>
      match nodeLister nodeName with
      | Err err => io_ret (true, Some (Wrapf "can not find node[%s]: %v" [] err))
      | Ok node =>
          let* err := annotateNodeLoad clock node metricName in
          match err with
          | Some e => io_ret (false, Some (Wrapf "can not annotate node[%s]: %v" [node_Name node] e))
          | None =>
              let* err := annotateNodeHotValue recs hclock now node in
              match err with
              | Some e => io_ret (false, Some e)
              | None => io_ret (true, None)
              end
          end
      end
  end.

(** ** The delta-reset controller *)

(** The loop over the annotations, in the order Go visits the map. *)
Fixpoint delete_loop (node : Node) (keys : list string) : io (bool * option error) :=
  match keys with
  | [] => io_ret (true, None)
  | k :: keys' =>
      if has_prefix k DeltaPrefixName then
        let* err := DeleteNodeAnnotation kubeClient node k in
        match err with
        | Some e =>
            io_ret (false, Some (Wrapf "can't delete deleta annotate node[%s]: %v" [node_Name node] e))
        | None => delete_loop node keys'
        end
      else delete_loop node keys'
  end.

(** [order] is the order of the visit: a permutation of the map's keys. *)
Definition ndr_syncNode (order : smap -> list string) (key : string) : io (bool * option error) :=
  match nodeLister key with
  | Err err => io_ret (true, Some (Wrapf "can not find node[%s]: %v" [] err))
  | Ok node => delete_loop node (order (node_annos node))
  end.

(** What the daily job of [CreateMetricResetTicker] adds to the queue. *)
Definition reset_job (names : result (list string)) : list queue_op :=
  match names with Err _ => [] | Ok l => List.map QAdd l end.

Definition CreateMetricResetTicker : list cron_job :=
  [{| cj_spec := "0 0 * * *"; cj_run := reset_job |}].

End NodeController.

(** ** Lemmas *)

Section NodeLemmas.
Context `{QL : QuantityLib} {PC : PromClient}.
Context (env : Env) (kubeClient : client).

Lemma annotateNodeLoad_returns clock node key :
  GetLocation env <> None ->
  exists w e, annotateNodeLoad env kubeClient clock node key = (w, Ret e).
Proof.
  intros Hl. unfold annotateNodeLoad. cbv zeta.
  assert (forall now k v, exists w e, PatchNodeAnnotation env kubeClient now node k v = (w, Ret e))
    as Hp.
  { intros now k v. destruct (PatchNodeAnnotation_returns env kubeClient now node k v Hl)
      as (rq & Hw & _ & e & He & _).
    destruct (PatchNodeAnnotation _ _ _ _ _ _) as [w r]. simpl in *. subst. eauto. }
  unfold io_ret. repeat case_match; eauto.
Qed.

Lemma annotateNodeHotValue_returns policy recs hclock now node :
  GetLocation env <> None -> Forall (fun hv => hv_Count hv <> 0) (HotValue (Spec policy)) ->
  exists w e, annotateNodeHotValue env kubeClient policy recs hclock now node = (w, Ret e).
Proof.
  intros Hl Hc. unfold annotateNodeHotValue.
  destruct (hot_loop_returns recs hclock 0 (node_Name node) _ 0 Hc) as [h ->].
  cbn [io_go io_bind].
  destruct (PatchNodeAnnotation_returns env kubeClient now node HotValueKey (Itoa h) Hl)
    as (rq & Hw & _ & e & He & _).
  destruct (PatchNodeAnnotation _ _ _ _ _ _) as [w r]. simpl in *. subst. eauto.
Qed.

Definition remove_request (node : Node) (k : string) : request :=
  node_patch node (patch_remove "remove" k).

Lemma DeleteNodeAnnotation_eq node k :
  DeleteNodeAnnotation kubeClient node k =
  ([remove_request node k],
   Ret (match kubeClient (remove_request node k) with
        | Some e => Some (Wrapf "patch node failed: %v" [] e) | None => None end)).
Proof. apply send_node_patch_eq. Qed.

Definition delta_keys (keys : list string) : list string :=
  List.filter (fun k => has_prefix k DeltaPrefixName) keys.

Lemma delete_loop_spec node keys :
  (Forall (fun k => kubeClient (remove_request node k) = None) (delta_keys keys) /\
   delete_loop kubeClient node keys
   = (List.map (remove_request node) (delta_keys keys), Ret (true, None))) \/
  (exists l1 k l2 e, delta_keys keys = (l1 ++ k :: l2)%list /\
     Forall (fun k => kubeClient (remove_request node k) = None) l1 /\
     kubeClient (remove_request node k) <> None /\
     delete_loop kubeClient node keys
     = (List.map (remove_request node) (l1 ++ [k]), Ret (false, Some e))).
Proof.
  induction keys as [|k keys IH]; [by left|]. cbn [delete_loop delta_keys List.filter].
  destruct (has_prefix k DeltaPrefixName); [|exact IH].
  rewrite DeleteNodeAnnotation_eq. cbn [io_bind].
  destruct (kubeClient (remove_request node k)) as [e|] eqn:Hk.
  - right. eexists [], k, _, _. split; [done|]. split; [done|]. split; [by rewrite Hk|]. done.
  - destruct IH as [[Hall ->]|(l1 & k' & l2 & e & He & Hall & Hk' & ->)].
    + left. split; [by constructor|done].
    + right. exists (k :: l1), k', l2, e. unfold delta_keys in He. rewrite He.
      split; [done|]. split; [by constructor|]. split; [done|]. done.
Qed.

End NodeLemmas.

(** ** Properties *)

(** C25: an item of the node queue is never lost and never panics (a zone that loads, no hot-value
    count of 0): it is put back, rate limited, exactly when its key names an existing node and
    one of the two annotation writes failed; in every other case, malformed keys and unknown
    nodes included, it is forgotten. *)
Theorem node_item_requeued `{QL : QuantityLib} {PC : PromClient} (env : Env) (kc : client)
    (nodeLister : string -> result Node) (policy : DynamicSchedulerPolicy)
    (clock : nat -> Z) (recs : nat -> BindingRecords) (hclock : nat -> Z) (now : Z)
    (key : string) :
  GetLocation env <> None -> Forall (fun hv => hv_Count hv <> 0) (HotValue (Spec policy)) ->
  exists w forget,
    processNextWorkItem (Some key) (syncNode env kc nodeLister policy clock recs hclock now)
    = (w, Ret (true, [if forget : bool then QForget key else QAddRateLimited key; QDone key])) /\
    (forget = false <->
     exists nodeName metricName node e,
       key = handlingMetaKeyWithMetricName nodeName metricName /\
       no_char "/" nodeName = true /\ no_char "/" metricName = true /\
       nodeLister nodeName = Ok node /\
       (snd (annotateNodeLoad env kc clock node metricName) = Ret (Some e) \/
        snd (annotateNodeLoad env kc clock node metricName) = Ret None /\
        snd (annotateNodeHotValue env kc policy recs hclock now node) = Ret (Some e))).
Proof.
  intros Hl Hc. unfold processNextWorkItem, syncNode.
  destruct (splitMetaKeyWithMetricName key) as [[a b]|e] eqn:Hs.
  2:{ eexists _, true. split; [done|]. split; [done|].
      intros (n & m & node & e' & Hk & Hn & Hm & _).
      assert (splitMetaKeyWithMetricName key = Ok (n, m)) by (by apply splitMetaKey_Ok).
      congruence. }
  assert (forall n m, key = handlingMetaKeyWithMetricName n m -> no_char "/" n = true ->
    no_char "/" m = true -> n = a /\ m = b) as Huniq.
  { intros n m Hk Hn Hm. assert (splitMetaKeyWithMetricName key = Ok (n, m)) by
      (by apply splitMetaKey_Ok). naive_solver congruence. }
  apply splitMetaKey_Ok in Hs as (Hk & Ha & Hb).
  destruct (nodeLister a) as [node|e] eqn:Hn.
  2:{ eexists _, true. split; [done|]. split; [done|].
      intros (n & m & node & e' & Hk' & Hn' & Hm' & Hnode & _).
      destruct (Huniq n m Hk' Hn' Hm') as [-> ->]. congruence. }
  destruct (annotateNodeLoad_returns env kc clock node b Hl) as (w1 & e1 & Hload).
  rewrite Hload. cbn [io_bind]. destruct e1 as [e1|].
  { eexists _, false. split; [done|]. split; [intros _|done]. exists a, b, node, e1.
    rewrite Hload. auto 10. }
  destruct (annotateNodeHotValue_returns env kc policy recs hclock now node Hl Hc)
    as (w2 & e2 & Hhot). rewrite Hhot. cbn [io_bind]. destruct e2 as [e2|].
  { eexists _, false. split; [done|]. split; [intros _|done]. exists a, b, node, e2.
    rewrite Hload, Hhot. auto 10. }
  eexists _, true. split; [done|]. split; [done|].
  intros (n & m & node' & e' & Hk' & Hn' & Hm' & Hnode & He).
  destruct (Huniq n m Hk' Hn' Hm') as [-> ->].
  assert (node' = node) as -> by congruence. rewrite Hload, Hhot in He. naive_solver.
Qed.

(** An instant query that answers with an empty vector is not an error, so when both queries
    by the node's address come back empty the annotator writes an empty value to the annotation
    and never asks by the node's name. *)
Theorem empty_answer_written `{QL : QuantityLib} (p : prom_api) (Local : Location) (env : Env)
    (kc : client) (clock : nat -> Z) (node : Node) (key : string) :
  has_prefix key PrefixRange = false ->
  Query p (instance_selector key (getNodeInternalIP node) ++ "") (clock 0%nat)
    = Ok ([], ValVector []) ->
  Query p (instance_selector key (getNodeInternalIP node ++ ":.+") ++ "") (clock 1%nat)
    = Ok ([], ValVector []) ->
  @annotateNodeLoad QL (promClient p Local) env kc clock node key
  = PatchNodeAnnotation env kc (clock 3%nat) node key "".
Proof.
  intros Hp H0 H1. unfold annotateNodeLoad. rewrite Hp.
  cbn [QueryByNodeIP promClient]. unfold promClient_QueryByNodeIP, by_ip, query.
  rewrite H0. cbn [length Nat.ltb Nat.leb foldl non_empty]. rewrite H1. done.
Qed.

(** The daily reset asks the API server, in the order of the visit, to remove the node's
    "delta_" annotations, each once, and no other one; it reports success exactly when all
    removals were accepted, and otherwise stops at the first one refused. *)
Theorem delta_reset_removes `{QL : QuantityLib} (kc : client)
    (nodeLister : string -> result Node) (order : smap -> list string) (name : string)
    (node : Node) :
  nodeLister name = Ok node -> order (node_annos node) ≡ₚ (map_to_list (node_annos node)).*1 ->
  let ks := delta_keys (order (node_annos node)) in
  NoDup ks /\
  (forall k, k ∈ ks <-> is_Some (node_annos node !! k) /\ exists r, k = "delta_" ++ r) /\
  ((Forall (fun k => kc (remove_request node k) = None) ks /\
    ndr_syncNode kc nodeLister order name
    = (List.map (remove_request node) ks, Ret (true, None))) \/
   (exists l1 k l2 e, ks = (l1 ++ k :: l2)%list /\
      Forall (fun k => kc (remove_request node k) = None) l1 /\
      kc (remove_request node k) <> None /\
      ndr_syncNode kc nodeLister order name
      = (List.map (remove_request node) (l1 ++ [k]), Ret (false, Some e)))).
Proof.
  intros Hn Hp ks. split_and!.
  - apply NoDup_ListNoDup, List.NoDup_filter, NoDup_ListNoDup. rewrite Hp. apply NoDup_fst_map_to_list.
  - intros k. unfold ks, delta_keys. rewrite list_elem_of_In, filter_In, <- list_elem_of_In.
    rewrite Hp, has_prefix_spec. apply and_iff_compat_r.
    rewrite list_elem_of_fmap. split.
    + intros ([k' v] & -> & Hin). simpl. apply elem_of_map_to_list in Hin. eauto.
    + intros [v Hv]. exists (k, v). split; [done|]. by apply elem_of_map_to_list.
  - unfold ndr_syncNode. rewrite Hn. apply delete_loop_spec.
Qed.

(** ** Witnesses *)

Section Witnesses.
#[local] Existing Instance MilliQuantities.

Definition nx_prom : PromClient :=
  promClient (qx_api (ValVector qx_values)) (FixedZone 28800).
#[local] Existing Instance nx_prom.

Definition nx_node : Node :=
  {| node_meta :=
       {| om_Name := "n1"; om_Namespace := "";
          om_Annotations := Some {["delta_cpu" := "1.00000,t"; "cpu" := "x"]};
          om_OwnerReferences := []; om_DeletionTimestamp := None; om_ResourceVersion := "" |};
     node_Addresses := [("InternalIP", "10.0.0.1")]; node_Capacity := ∅ |}.

Definition nx_policy : DynamicSchedulerPolicy :=
  {| policy_APIVersion := "";
     Spec := {| SyncPeriod := []; SyncAppPeriod := []; Predicate := []; Priority := [];
                HotValue := [{| hv_TimeRange := Minute; hv_Count := 1 |}] |} |}.

Definition nx_store : nat -> BindingRecords := fun _ => NewBindingRecords 4 Minute.

Lemma node_item_requeued_witness :
  exists w forget,
    processNextWorkItem (Some "n1/cpu")
      (syncNode (fixed_env 0) (fun _ => None) (fun _ => Ok nx_node) nx_policy (fun _ => 0) nx_store
         (fun _ => 0) 0)
    = (w, Ret (true, [if forget : bool then QForget "n1/cpu" else QAddRateLimited "n1/cpu";
                      QDone "n1/cpu"])) /\
    (forget = false <->
     exists nodeName metricName node e,
       "n1/cpu" = handlingMetaKeyWithMetricName nodeName metricName /\
       no_char "/" nodeName = true /\ no_char "/" metricName = true /\
       Ok nx_node = Ok node /\
       (snd (annotateNodeLoad (fixed_env 0) (fun _ => None) (fun _ => 0) node metricName)
          = Ret (Some e) \/
        snd (annotateNodeLoad (fixed_env 0) (fun _ => None) (fun _ => 0) node metricName)
          = Ret None /\
        snd (annotateNodeHotValue (fixed_env 0) (fun _ => None) nx_policy nx_store (fun _ => 0) 0
               node) = Ret (Some e))).
Proof.
  apply (node_item_requeued (fixed_env 0) (fun _ => None) (fun _ => Ok nx_node) nx_policy
           (fun _ => 0) nx_store (fun _ => 0) 0 "n1/cpu");
    [discriminate|repeat constructor; discriminate].
Defined.

Lemma empty_answer_written_witness :
  @annotateNodeLoad _ (promClient (qx_api (ValVector [])) (FixedZone 0)) (fixed_env 0)
    (fun _ => None) (fun _ => 0) nx_node "cpu"
  = PatchNodeAnnotation (fixed_env 0) (fun _ => None) 0 nx_node "cpu" "".
Proof.
  apply (empty_answer_written (qx_api (ValVector [])) (FixedZone 0) (fixed_env 0) (fun _ => None)
           (fun _ => 0) nx_node "cpu"); reflexivity.
Defined.

Lemma delta_reset_removes_witness :
  let ks := delta_keys ((map_to_list (node_annos nx_node)).*1) in
  NoDup ks /\
  (forall k, k ∈ ks <-> is_Some (node_annos nx_node !! k) /\ exists r, k = "delta_" ++ r) /\
  ((Forall (fun k => None = @None error) ks /\
    ndr_syncNode (fun _ => None) (fun _ => Ok nx_node) (fun m => (map_to_list m).*1) "n1"
    = (List.map (remove_request nx_node) ks, Ret (true, None))) \/
   (exists l1 k l2 e, ks = (l1 ++ k :: l2)%list /\
      Forall (fun k => None = @None error) l1 /\ None <> @None error /\
      ndr_syncNode (fun _ => None) (fun _ => Ok nx_node) (fun m => (map_to_list m).*1) "n1"
      = (List.map (remove_request nx_node) (l1 ++ [k]), Ret (false, Some e)))).
Proof.
  apply (delta_reset_removes (fun _ => None) (fun _ => Ok nx_node) (fun m => (map_to_list m).*1)
           "n1" nx_node); reflexivity.
Defined.

End Witnesses.
