(* ===== verification/AnnotatorEvent.v ===== *)
(** * pkg/controller/annotator/event.go

    The event controller turns a "Scheduled" event into a binding: it parses the message with
    [fmt.Fscanf], stores the binding and rewrites the node's hot value. [MetaNamespaceKeyFunc] and
    [SplitMetaNamespaceKey] are client-go's. The scanner is modelled on bytes, with ASCII white
    space. *)

From S2P Require Import Prelude GoStrings GoFloat GoTime GoHeap K8s Policy Utils Binding HotValue.
From S2P Require Import AnnotatorQueue AnnotatorNode.

Open Scope string_scope.
Open Scope Z_scope.

(** ** fmt.Fscanf for formats of literals, spaces and %s *)

Definition is_space (c : ascii) : bool :=
  let n := code c in ((9 <=? n) && (n <=? 13)) || (n =? 32).
Definition newline : ascii := "010".

(** [SkipSpace] before a verb: a newline is an error. *)
Fixpoint skip_space (s : string) : option string :=
  match s with
  | "" => Some ""
  | String c s' =>
      if Ascii.eqb c newline then None
      else if is_space c then skip_space s' else Some s
  end.

(** Spaces but no newline. *)
Fixpoint drop_blanks (s : string) : string :=
  match s with
  | String c s' => if is_space c && negb (Ascii.eqb c newline) then drop_blanks s' else s
  | "" => ""
  end.

Fixpoint token (s : string) : string * string :=
  match s with
  | "" => ("", "")
  | String c s' => if is_space c then ("", s) else let '(t, r) := token s' in (String c t, r)
  end.

(** Blanks of the format match at least one blank of the input, or its end. A literal must match.
    [%s] skips blanks, then takes everything up to the next white space, at least one byte. *)
Fixpoint fscanf (format input : string) : option (list string) :=
  match format with
  | "" => Some []
  | String "%" (String "s" format') =>
      match skip_space input with
      | None | Some "" => None
      | Some s =>
          let '(t, r) := token s in
          match fscanf format' r with Some ts => Some (t :: ts) | None => None end
      end
  | String " " format' =>
      match input with
      | "" => fscanf format' ""
      | String c s =>
          if negb (is_space c) || Ascii.eqb c newline then None
          else fscanf format' (drop_blanks s)
      end
  | String f format' =>
      match input with
      | String c s => if Ascii.eqb c f then fscanf format' s else None
      | "" => None
      end
  end.

Record Event := {
  ev_meta : ObjectMeta;
  ev_Type : string;
  ev_Reason : string;
  ev_Message : string;
  ev_Count : Z;
  ev_EventTime : Z;
  ev_LastTimestamp : Z }.

Definition EventTypeNormal : string := "Normal".

Section EventController.
Context `{QL : QuantityLib}.
Variable SplitMetaNamespaceKey : string -> result (string * string).
Variable MetaNamespaceKeyFunc : ObjectMeta -> result string.

Definition translateEventToBinding (event : Event) : result Binding :=
  match fscanf "Successfully assigned %s to %s" (ev_Message event) with
  | Some [metaKey; nodeName] =>
      match SplitMetaNamespaceKey metaKey with
      | Err e => Err e
      | Ok (namespace, name) =>
          let lasteOccuredTime :=
            if ev_Count event =? 0 then ev_EventTime event / Second
            else ev_LastTimestamp event / Second in
          Ok {| b_Node := nodeName; b_Namespace := namespace; b_PodName := name;
                b_Timestamp := lasteOccuredTime |}
      end
  | _ =>
      Err (Errorf "failed to extact imformations from event message[%s]: %v" [ev_Message event])
  end.

Definition enqueue (meta : ObjectMeta) : list queue_op :=
  match MetaNamespaceKeyFunc meta with Err _ => [] | Ok key => [QAdd key] end.

Definition handleAddEvent (event : Event) : list queue_op :=
  if negb (String.eqb (ev_Type event) EventTypeNormal)
     || negb (String.eqb (ev_Reason event) "Scheduled")
  then [] else enqueue (ev_meta event).

Definition handleUpdateEvent (oldEvent curEvent : Event) : list queue_op :=
  if String.eqb (om_ResourceVersion (ev_meta oldEvent)) (om_ResourceVersion (ev_meta curEvent))
  then []
  else if negb (String.eqb (ev_Type curEvent) EventTypeNormal)
          || negb (String.eqb (ev_Reason curEvent) "Scheduled")
  then [] else enqueue (ev_meta curEvent).

Definition handles : ResourceEventHandlerFuncs Event :=
  {| AddFunc := Some handleAddEvent; UpdateFunc := Some handleUpdateEvent |}.

Context (env : Env) (kubeClient : client).
Variable eventLister : string -> string -> result Event.
Variable nodeLister : string -> result Node.
Variable policy : DynamicSchedulerPolicy.

(** [observe br i] is the store as round [i] of the hot-value loop finds it, [br] being the store
    after the addition. *)
Definition reconcile (br : BindingRecords) (observe : BindingRecords -> nat -> BindingRecords)
    (hclock : nat -> Z) (now : Z) (key : string) : io (BindingRecords * option error) :=
  match SplitMetaNamespaceKey key with
  | Err err => io_ret (br, Some err)
  | Ok (namespace, name) =>
      match eventLister namespace name with
      | Err err => io_ret (br, Some err)
      | Ok event =>
          match translateEventToBinding event with
          | Err err => io_ret (br, Some err)
          | Ok binding =>
              let* br := io_go (AddBinding br binding) in
              match nodeLister (b_Node binding) with
              | Err err => io_ret (br, Some (Wrapf "can not find node[%s]: %v" [] err))
              | Ok node =>
                  let* err := annotateNodeHotValue env kubeClient policy (observe br) hclock now node in
                  match err with
                  | Some e => io_ret (br, Some e)
                  | None => io_ret (br, None)
                  end
              end
          end
      end
  end.

End EventController.

(** ** Lemmas *)

(** No white space. *)
Fixpoint solid (s : string) : bool :=
  match s with "" => true | String c s' => negb (is_space c) && solid s' end.

Lemma solid_not_newline c : is_space c = false -> Ascii.eqb c newline = false.
Proof. intros H. destruct (Ascii.eqb_spec c newline) as [->|]; [done|done]. Qed.

Lemma token_solid s r :
  solid s = true -> (r = "" \/ exists c r', r = String c r' /\ is_space c = true) ->
  token (s ++ r) = (s, r).
Proof.
  intros Hs Hr. induction s as [|c s IH]; simpl in *.
  - destruct Hr as [->|(c & r' & -> & Hc)]; [done|]. simpl. by rewrite Hc.
  - apply andb_true_iff in Hs as [Hc Hs]. apply negb_true_iff in Hc. rewrite Hc.
    by rewrite IH.
Qed.

Lemma skip_space_solid s r : solid s = true -> s <> "" -> skip_space (s ++ r) = Some (s ++ r).
Proof.
  intros Hs Hne. destruct s as [|c s]; [done|]. simpl in *.
  apply andb_true_iff in Hs as [Hc _]. apply negb_true_iff in Hc.
  by rewrite (solid_not_newline c Hc), Hc.
Qed.

Lemma drop_blanks_solid s r : solid s = true -> s <> "" -> drop_blanks (s ++ r) = s ++ r.
Proof.
  intros Hs Hne. destruct s as [|c s]; [done|]. simpl in *.
  apply andb_true_iff in Hs as [Hc _]. apply negb_true_iff in Hc. by rewrite Hc.
Qed.

Lemma fscanf_s format s r :
  solid s = true -> s <> "" -> (r = "" \/ exists c r', r = String c r' /\ is_space c = true) ->
  fscanf (String "%" (String "s" format)) (s ++ r)
  = match fscanf format r with Some ts => Some (s :: ts) | None => None end.
Proof.
  intros Hs Hne Hr. cbn [fscanf]. rewrite skip_space_solid by done.
  destruct (s ++ r) as [|c t] eqn:E; [by destruct s|]. rewrite <- E, token_solid by done. done.
Qed.

Lemma fscanf_assigned key node :
  solid key = true -> key <> "" -> solid node = true -> node <> "" ->
  fscanf "Successfully assigned %s to %s" ("Successfully assigned " ++ key ++ " to " ++ node)
  = Some [key; node].
Proof.
  intros Hk Hke Hn Hne.
  transitivity (fscanf (String "%" (String "s" " to %s")) (drop_blanks (key ++ " to " ++ node)));
    [reflexivity|].
  rewrite drop_blanks_solid, fscanf_s
    by (done || (right; eexists _, _; split; [reflexivity|done])).
  transitivity (match fscanf (String "%" (String "s" "")) (drop_blanks (node ++ "")) with
                | Some ts => Some (key :: ts) | None => None end).
  { rewrite app_string_nil_r. reflexivity. }
  rewrite drop_blanks_solid, fscanf_s by (done || by left). reflexivity.
Qed.

(** ** Properties *)

(** C24: reconciling the scheduler's event "Successfully assigned NS/NAME to NODE" stores exactly
    one binding, of that pod on that node at the time the event last occurred (its event time
    when it has no count), and then writes the node's hot value computed from the store that
    holds it. It needs a key the client library splits, names without white space, a node the
    lister knows, a store of positive size and hot-value counts that are not 0. *)
Theorem reconcile_scheduled `{QL : QuantityLib}
    (SplitMetaNamespaceKey : string -> result (string * string)) (env : Env) (kc : client)
    (eventLister : string -> string -> result Event) (nodeLister : string -> result Node)
    (policy : DynamicSchedulerPolicy) (br : BindingRecords)
    (observe : BindingRecords -> nat -> BindingRecords) (hclock : nat -> Z) (now : Z)
    (key evns evname : string) (event : Event) (metaKey ns name nodeName : string) (node : Node) :
  SplitMetaNamespaceKey key = Ok (evns, evname) -> eventLister evns evname = Ok event ->
  ev_Message event = "Successfully assigned " ++ metaKey ++ " to " ++ nodeName ->
  solid metaKey = true -> metaKey <> "" -> solid nodeName = true -> nodeName <> "" ->
  SplitMetaNamespaceKey metaKey = Ok (ns, name) -> nodeLister nodeName = Ok node ->
  0 < br_size br -> br_wf br -> GetLocation env <> None ->
  Forall (fun hv => hv_Count hv <> 0) (HotValue (Spec policy)) ->
  let b := {| b_Node := nodeName; b_Namespace := ns; b_PodName := name;
              b_Timestamp := (if ev_Count event =? 0 then ev_EventTime event
                              else ev_LastTimestamp event) / Second |} in
  exists br' rq err,
    AddBinding br b = Ret br' /\ br_wf br' /\ b ∈ br_bindings br' /\
    reconcile SplitMetaNamespaceKey env kc eventLister nodeLister policy br observe hclock now key
    = ([rq], Ret (br', err)) /\
    annotateNodeHotValue env kc policy (observe br') hclock now node = ([rq], Ret err) /\
    rq_name rq = node_Name node /\ (err = None <-> kc rq = None).
Proof.
  intros Hs He Hm Hk Hke Hn Hne Hsm Hnode Hpos Hwf Hl Hc b.
  destruct (exec_wf br (OAdd b) Hpos Hwf) as (br' & Hadd & Hwf' & _). simpl in Hadd.
  destruct (hot_loop_returns (observe br') hclock 0 (node_Name node) _ 0 Hc) as [h Hh].
  destruct (PatchNodeAnnotation_returns env kc now node HotValueKey (Itoa h) Hl)
    as (rq & Hrq & Hname & err & Herr & Hiff).
  assert (annotateNodeHotValue env kc policy (observe br') hclock now node = ([rq], Ret err)) as Hann.
  { unfold annotateNodeHotValue. rewrite Hh. cbn [io_go io_bind].
    destruct (PatchNodeAnnotation _ _ _ _ _ _) as [w r]. simpl in *. by subst. }
  exists br', rq, err. split_and!; try done.
  - destruct (Z.eq_dec (Z.of_nat (length (br_bindings br))) (br_size br)) as [Hf|Hf].
    + destruct (AddBinding_full br b (proj1 Hwf) Hf Hpos) as
        (br1 & old & rest & Ha & _ & _ & _ & _ & Hp & _).
      assert (br1 = br') as -> by congruence. rewrite Hp. by left.
    + destruct (AddBinding_room br b (proj1 Hwf) Hf) as (br1 & Ha & _ & _ & _ & Hp).
      assert (br1 = br') as -> by congruence. rewrite Hp. by left.
  - unfold reconcile. rewrite Hs, He. unfold translateEventToBinding.
    rewrite Hm, fscanf_assigned by done. rewrite Hsm.
    replace (if ev_Count event =? 0 then ev_EventTime event / Second
             else ev_LastTimestamp event / Second) with (b_Timestamp b)
      by (unfold b; cbn; by destruct (ev_Count event =? 0)).
    fold b. change {| b_Node := nodeName; b_Namespace := ns; b_PodName := name;
      b_Timestamp := b_Timestamp b |} with b. rewrite Hadd. cbn [io_go io_bind].
    cbn [b_Node b]. rewrite Hnode, Hann. cbn [io_bind]. by destruct err.
Qed.

(** ** Witnesses *)

Section Witnesses.
#[local] Existing Instance MilliQuantities.

Definition vx_split (k : string) : result (string * string) :=
  match split "/" k with
  | [n] => Ok ("", n)
  | [ns; n] => Ok (ns, n)
  | _ => Err (Errorf "unexpected key format: %q" [k])
  end.

Definition vx_event : Event :=
  {| ev_meta := meta0 "e"; ev_Type := "Normal"; ev_Reason := "Scheduled";
     ev_Message := "Successfully assigned ns/web to n1"; ev_Count := 1; ev_EventTime := 0;
     ev_LastTimestamp := 5 * Second |}.

Lemma reconcile_scheduled_witness :
  exists br' rq err,
    AddBinding (NewBindingRecords 4 Minute)
      {| b_Node := "n1"; b_Namespace := "ns"; b_PodName := "web"; b_Timestamp := 5 |} = Ret br' /\
    br_wf br' /\
    {| b_Node := "n1"; b_Namespace := "ns"; b_PodName := "web"; b_Timestamp := 5 |}
      ∈ br_bindings br' /\
    reconcile vx_split (fixed_env 0) (fun _ => None) (fun _ _ => Ok vx_event)
      (fun _ => Ok nx_node) nx_policy (NewBindingRecords 4 Minute) (fun br _ => br) (fun _ => 0) 0
      "default/e" = ([rq], Ret (br', err)) /\
    annotateNodeHotValue (fixed_env 0) (fun _ => None) nx_policy ((fun br _ => br) br')
      (fun _ => 0) 0 nx_node = ([rq], Ret err) /\
    rq_name rq = node_Name nx_node /\ (err = None <-> None = @None error).
Proof.
  apply (reconcile_scheduled vx_split (fixed_env 0) (fun _ => None) (fun _ _ => Ok vx_event)
           (fun _ => Ok nx_node) nx_policy (NewBindingRecords 4 Minute) (fun br _ => br)
           (fun _ => 0) 0 "default/e" "default" "e" vx_event "ns/web" "ns" "web" "n1" nx_node);
    try reflexivity; try discriminate.
  - split; [apply (NewBindingRecords_inv 4 Minute)|vm_compute; discriminate].
  - repeat constructor. discriminate.
Defined.

End Witnesses.
