(* ===== verification/AnnotatorApp.v ===== *)
(** * pkg/controller/annotator: deployment.go, pod.go, controller.go

    The deployment controller writes the metric of a queue key to the annotations of every
    deployment of a namespace; the pod controller adds a deployment's usage range to the delta of
    the node its pod was bound to, and subtracts it when the pod is deleted; the controller starts
    the store of bindings and the workers. *)

From S2P Require Import Prelude GoStrings GoFloat GoFloatOrder GoTime GoHeap K8s Policy Utils Binding HotValue.
From S2P Require Import Prometheus AnnotatorQueue AnnotatorNode.

Open Scope string_scope.
Open Scope Z_scope.

(** ** deployment.go *)

Section DeploymentController.
Context {PC : PromClient}.
Context (env : Env) (kubeClient : client).
Variable deploymentLister : string -> result (list Deployment).

Definition dep_Name (d : Deployment) : string := om_Name (dep_meta d).
Definition dep_Namespace (d : Deployment) : string := om_Namespace (dep_meta d).
Definition dep_annos (d : Deployment) : smap := annos (om_Annotations (dep_meta d)).

(** [err.Error() != ErrEmptyMsg]. *)
Definition is_empty_msg (e : error) : bool :=
  match e with
  | Errorf f [] => String.eqb f ErrEmptyMsg
  | External m => String.eqb m ErrEmptyMsg
  | _ => false
  end.

Definition deployment_patch (deployment : Deployment) (data : string) : request :=
  {| rq_resource := "deployments"; rq_namespace := dep_Namespace deployment;
     rq_name := dep_Name deployment; rq_type := JSONPatch; rq_data := data |}.

Definition patchDeploymentAnnotation (now : Z) (deployment : Deployment) (key value : string)
    : io (option error) :=
  let operator := patch_operator (dep_annos deployment) key in
  let* ts := io_go (GetLocalTime env now) in
  send kubeClient
    (deployment_patch deployment (patch_annotation operator key (value ++ String "," ts))).

(** A nil Replicas panics; it is read only when the query failed. *)
Definition annotateDeploymentLoad (clock : nat -> Z) (deployment : Deployment) (key : string)
    : io (option error) :=
  let value :=
    if has_prefix key PrefixRange
    then QueryRangeByDeployment clock (trim_prefix key PrefixRange) (dep_Name deployment)
    else QueryByDeployment clock key (dep_Name deployment) in
  match value with
  | Ok value => patchDeploymentAnnotation (clock 3%nat) deployment key value
  | Err err =>
      match dep_Replicas deployment with
      | None => io_go (Panic "invalid memory address or nil pointer dereference")
      | Some replicas =>
          if (1 <=? replicas) && negb (is_empty_msg err)
          then io_ret (Some (Wrapf "failed to get deployment %s metrics %s: %v"
                               [key; dep_Name deployment] err))
          else io_ret None
      end
  end.

(** The loop over the namespace's deployments; deployment [i] reads the clocks [clock i]. *)
Fixpoint annotate_deployments (clock : nat -> nat -> Z) (i : nat) (metricsName : string)
    (deployments : list Deployment) : io (bool * option error) :=
  match deployments with
  | [] => io_ret (true, None)
  | deployment :: rest =>
      let* err := annotateDeploymentLoad (clock i) deployment metricsName in
      match err with
      | Some e =>
          io_ret (false, Some (Wrapf "failed to annotate deployment %s/%s: %v"
                                 [dep_Namespace deployment; dep_Name deployment] e))
      | None => annotate_deployments clock (S i) metricsName rest
      end
  end.

Definition syncDeployment (clock : nat -> nat -> Z) (key : string) : io (bool * option error) :=
  match splitMetaKeyWithMetricName key with
  | Err _ => io_ret (true, Some (Errorf "invalid resource key: %s" [key]))
  | Ok (namespace, metricsName) =>
      match deploymentLister namespace with
      | Err err => io_ret (false, Some err)
      | Ok deployments => annotate_deployments clock 0 metricsName deployments
      end
  end.

(** What the daily job of a policy adds to the queue. *)
Definition deploymentJob_Run (namespaces : result (list string)) (PolicyName : string)
    : list queue_op :=
  match namespaces with
  | Err _ => []
  | Ok l => List.map (fun ns => QAdd (handlingMetaKeyWithMetricName ns PolicyName)) l
  end.

(** One job a day per policy, whatever its period. *)
Definition deployment_CreateMetricSyncTicker (syncAppPeriods : list SyncPolicy) : list cron_job :=
  List.map (fun p => {| cj_spec := "10 0 * * *";
                        cj_run := fun namespaces => deploymentJob_Run namespaces (sync_Name p) |})
    syncAppPeriods.

End DeploymentController.

(** ** pod.go *)

Section PodController.
Context `{QL : QuantityLib}.
Variable SplitMetaNamespaceKey : string -> result (string * string).
Variable MetaNamespaceKeyFunc : ObjectMeta -> result string.

Definition enqueue (obj : Pod) : list queue_op :=
  match MetaNamespaceKeyFunc (pod_meta obj) with Err _ => [] | Ok key => [QAdd key] end.

(** Only a change of node and the start of a deletion are enqueued. *)
Definition handleUpdateEvent (oldPod newPod : Pod) : list queue_op :=
  if negb (String.eqb (pod_NodeName oldPod) (pod_NodeName newPod)) then enqueue newPod
  else
    match om_DeletionTimestamp (pod_meta oldPod), om_DeletionTimestamp (pod_meta newPod) with
    | None, Some _ => enqueue newPod
    | _, _ => []
    end.

Definition handles : ResourceEventHandlerFuncs Pod :=
  {| AddFunc := None; UpdateFunc := Some handleUpdateEvent |}.

Context (env : Env) (kubeClient : client).
Variable podLister : string -> string -> result Pod.
Variable rsLister : string -> string -> result ReplicaSet.
Variable deployLister : string -> string -> result Deployment.
Variable nodeLister : string -> result Node.

Definition merge_type (pod : Pod) : string :=
  match om_DeletionTimestamp (pod_meta pod) with
  | None => MergeTypeAdd
  | Some _ => MergeTypeSub
  end.

(** The new delta of the node for one policy: [None] where the loop goes on without a write. *)
Definition new_delta (now : Z) (pod : Pod) (deploy : Deployment) (node : Node)
    (policy : SyncPolicy) : go (option string) :=
  if sync_Period policy =? 0 then Ret None
  else
    let activeDuration := wrap64 (sync_Period policy + ExtraActivePeriod) in
    let! deployUsages :=
      GetResourceUsageRange env now (annos (om_Annotations (dep_meta deploy))) (sync_Name policy)
        activeDuration in
    match deployUsages with
    | Err _ => Ret None
    | Ok deployUsages =>
        match GetDeltaUsageRange (node_annos node) (DeltaPrefixName ++ sync_Name policy) with
        | Err _ => Ret None
        | Ok deltaUsages =>
            let! r := MergeUsageRange deltaUsages deployUsages (merge_type pod) in
            Ret (match r with Ok s => Some s | Err _ => None end)
        end
    end.

(** Round [i] reads the clock for the deployment's annotation ([clock (2 * i)]) and for the
    write ([clock (2 * i + 1)]). *)
Fixpoint delta_loop (clock : nat -> Z) (i : nat) (pod : Pod) (deploy : Deployment) (node : Node)
    (l : list SyncPolicy) : io (option error) :=
  match l with
  | [] => io_ret None
  | policy :: l' =>
      let* d := io_go (new_delta (clock (2 * i)%nat) pod deploy node policy) in
      match d with
      | None => delta_loop clock (S i) pod deploy node l'
      | Some deltaUsages =>
          let* err := PatchNodeAnnotation env kubeClient (clock (2 * i + 1)%nat) node
            (DeltaPrefixName ++ sync_Name policy) deltaUsages in
          match err with
          | Some e => io_ret (Some e)
          | None => delta_loop clock (S i) pod deploy node l'
          end
      end
  end.

Definition pod_reconcile (policy : DynamicSchedulerPolicy) (clock : nat -> Z) (key : string)
    : io (option error) :=
  match SplitMetaNamespaceKey key with
  | Err err => io_ret (Some err)
  | Ok (namespace, name) =>
      match podLister namespace name with
      | Err err => io_ret (Some err)
      | Ok pod =>
          match GetDeploymentByPod rsLister deployLister pod with
          | Err err => io_ret (Some err)
          | Ok deploy =>
              match nodeLister (pod_NodeName pod) with
              | Err err => io_ret (Some err)
              | Ok node => delta_loop clock 0 pod deploy node (SyncAppPeriod (Spec policy))
              end
          end
      end
  end.

End PodController.

(** ** controller.go *)

(** The controller's own state. [bingdingHeapSize] is an [int32]; a nil hot-value list is an
    empty one. *)
Record Controller := {
  ctl_policy : DynamicSchedulerPolicy;
  ctl_bindingRecords : BindingRecords }.

Definition NewNodeAnnotator (policy : DynamicSchedulerPolicy) (bingdingHeapSize : Z) : Controller :=
  {| ctl_policy := policy;
     ctl_bindingRecords :=
       NewBindingRecords bingdingHeapSize (getMaxHotVauleTimeRange (HotValue (Spec policy))) |}.

(** The goroutines [Run] starts, once the node and event caches are synced. *)
Inductive worker := NodeWorker | EventWorker | PodWorker | DeltaWorker | DeploymentWorker | GCWorker.

Definition workers (n : nat) : list worker :=
  (concat (replicate n [NodeWorker; EventWorker; PodWorker; DeltaWorker])
   ++ replicate (2 * n) DeploymentWorker ++ [GCWorker])%list.

(** What [Run] does with its informers, goroutines and tickers, in order. *)
Inductive start_action :=
| AddEventHandler (informer : string)
| Go (w : worker)
| CreateTicker (w : worker).

(** It adds the handlers, waits for the caches of nodes and events ([synced]), starts the workers
    and the tickers, and returns when it is stopped; with a number of workers that is not positive
    only the collector runs. *)
Definition Run (synced : bool) (worker_count : Z) : list start_action * option error :=
  let handlers := [AddEventHandler "events"; AddEventHandler "pods"] in
  if synced then
    ((handlers ++ List.map Go (workers (Z.to_nat worker_count))
      ++ [CreateTicker NodeWorker; CreateTicker DeltaWorker; CreateTicker DeploymentWorker])%list, None)
  else (handlers, Some (Errorf "failed to wait for cache sync for annotator" [])).

(** ** Lemmas *)

(** The deployment queue puts a malformed key back for ever, although its sync function says to
    forget it; the node queue forgets it. *)
Lemma deployment_malformed_requeued {PC : PromClient} env kc lister clock key :
  (forall a b, key <> handlingMetaKeyWithMetricName a b \/ no_char "/" a = false
               \/ no_char "/" b = false) ->
  deployment_processNextWorkItem (Some key) (syncDeployment env kc lister clock)
  = ([], Ret (true, [QAddRateLimited key; QDone key])).
Proof.
  intros H. unfold deployment_processNextWorkItem, syncDeployment.
  destruct (splitMetaKeyWithMetricName key) as [[a b]|e] eqn:Hs; [|done].
  apply splitMetaKey_Ok in Hs as (Hk & Ha & Hb). destruct (H a b) as [?|[?|?]]; congruence.
Qed.

(** A deployment's write never panics when the zone loads and the replicas are set. *)
Lemma annotateDeploymentLoad_returns {PC : PromClient} env kc clock d m :
  GetLocation env <> None -> dep_Replicas d <> None ->
  exists w e, annotateDeploymentLoad env kc clock d m = (w, Ret e).
Proof.
  intros Hl Hr. unfold annotateDeploymentLoad, patchDeploymentAnnotation, GetLocalTime, send, io_ret.
  cbv zeta. destruct (GetLocation env); [|done]. cbn [io_go io_bind].
  destruct (if has_prefix m PrefixRange then _ else _); [by do 2 eexists|].
  destruct (dep_Replicas d); [|done]. destruct (_ && _); by do 2 eexists.
Qed.

(** The loop stops at the first deployment that fails; [i] deployments came before. *)
Lemma annotate_deployments_spec {PC : PromClient} env kc clock m i ds :
  GetLocation env <> None -> Forall (fun d => dep_Replicas d <> None) ds ->
  exists w, annotate_deployments env kc clock i m ds = (w, Ret (true, None)) /\
    (forall j d, ds !! j = Some d -> snd (annotateDeploymentLoad env kc (clock (i + j)%nat) d m) = Ret None)
  \/ exists e, annotate_deployments env kc clock i m ds = (w, Ret (false, Some e)) /\
    exists j d e', ds !! j = Some d /\
      snd (annotateDeploymentLoad env kc (clock (i + j)%nat) d m) = Ret (Some e').
Proof.
  intros Hl Hds. revert i. induction Hds as [|d ds Hd _ IH]; intros i; cbn [annotate_deployments].
  { exists []. left. split; [done|]. intros j d Hj. by rewrite lookup_nil in Hj. }
  destruct (annotateDeploymentLoad_returns env kc (clock i) d m Hl Hd) as (w & e & He).
  rewrite He. cbn [io_bind]. destruct e as [e|].
  { eexists. right. eexists. split; [reflexivity|]. exists 0%nat, d, e. by rewrite Nat.add_0_r, He. }
  destruct (IH (S i)) as (w' & [[-> Hall]|(e & -> & j & d' & e' & Hj & Hf)]); eexists.
  - left. split; [reflexivity|]. intros [|j] d' Hj; simplify_eq/=; [by rewrite Nat.add_0_r, He|].
    rewrite Nat.add_succ_r. by apply Hall.
  - right. eexists. split; [reflexivity|]. exists (S j), d', e'. by rewrite Nat.add_succ_r.
Qed.

(** A sync period of 0, which the readers of the annotation take for "not set", stops the
    process when the ticker is made. *)
Lemma zero_period_panics names p :
  sync_Period p = 0 ->
  CreateMetricSyncTicker names [p]
  = [(enqueue_all names p, Panic "non-positive interval for NewTicker")].
Proof. intros H. unfold CreateMetricSyncTicker, NewTicker. simpl. by rewrite H. Qed.

Definition range_text (xs : list f64) : string := join "|" (List.map FormatFloat5 xs).

Lemma range_text_plain xs : plain (range_text xs) = true.
Proof.
  unfold range_text. induction xs as [|x [|y xs] IH]; [done| |].
  - apply plain_FormatFloat5.
  - change (join "|" (List.map FormatFloat5 (x :: y :: xs)))
      with (FormatFloat5 x ++ "|" ++ join "|" (List.map FormatFloat5 (y :: xs))).
    by rewrite !plain_app, plain_FormatFloat5, IH.
Qed.

Lemma range_text_no_comma xs : no_char "," (range_text xs) = true.
Proof.
  unfold range_text. induction xs as [|x [|y xs] IH]; [done| |].
  - by apply FormatFloat5_no_char.
  - change (join "|" (List.map FormatFloat5 (x :: y :: xs)))
      with (FormatFloat5 x ++ "|" ++ join "|" (List.map FormatFloat5 (y :: xs))).
    by rewrite !no_char_app, FormatFloat5_no_char, IH.
Qed.

Lemma range_text_nonempty xs : xs <> [] -> range_text xs <> "".
Proof.
  intros H. apply join_nonempty; [|by destruct xs].
  apply Forall_map, Forall_true. intros x. apply FormatFloat5_nonempty.
Qed.

Lemma merge_range_text op mergeType ds ws :
  (mergeType = MergeTypeAdd /\ op = fadd \/ mergeType = MergeTypeSub /\ op = fsub) ->
  ds <> [] -> length ds = length ws -> forallb is_f64 ds = true -> forallb is_f64 ws = true ->
  MergeUsageRange (range_text ds) (range_text ws) mergeType
  = Ret (Ok (range_text (zip_with op (List.map round5 ds) (List.map round5 ws)))).
Proof.
  intros Hm Hne Hl Hd Hw.
  rewrite (MergeUsageRange_merge op mergeType _ _ (List.map round5 ds) (List.map round5 ws)); try done.
  - unfold effective_deltas. rewrite !length_map, Hl, Nat.eqb_refl. done.
  - by apply range_text_nonempty.
  - by apply parse_range_join.
  - apply parse_range_join; [by destruct ds, ws|done].
  - rewrite !length_map. lia.
Qed.

Lemma GetDelta_written anno key s ts :
  no_char "," s = true -> no_char "," ts = true -> anno !! key = Some (s ++ String "," ts) ->
  GetDeltaUsageRange anno key = Ok s.
Proof.
  intros Hs Ht Ha. unfold GetDeltaUsageRange. rewrite Ha.
  by rewrite (proj2 (split_two "," _ s ts)).
Qed.

(** The collector's range covers the range of every policy. *)
Lemma max_range_seconds l hv :
  hv ∈ l -> Forall (fun h => exists k, hv_TimeRange h = k * Second /\ 0 <= k < 2 ^ 53) l ->
  durSeconds (hv_TimeRange hv) <= durSeconds (getMaxHotVauleTimeRange l).
Proof.
  intros Hin Hall.
  destruct (getMax_spec l) as (H0 & Hle & Hmax).
  rewrite !Forall_forall in *. specialize (Hle hv Hin).
  destruct (Hall hv Hin) as (k & Hk & Hkr). set (m := getMaxHotVauleTimeRange _) in *.
  assert (exists k', m = k' * Second /\ 0 <= k' < 2 ^ 53) as (k' & Hm & Hk').
  { destruct Hmax as [->|(h & Hh & <-)%Exists_exists].
    - exists 0. split; [done|lia].
    - by apply Hall. }
  rewrite Hk, Hm, !durSeconds_whole by done. rewrite Hk, Hm in Hle. unfold Second in Hle. lia.
Qed.

(** ** Properties *)

(** The delta of a node. When a pod of a deployment is bound to a node (or is being deleted),
    reconciling it sends one write for the policy's delta annotation, which the server applies
    when it stores what the worker has cached, and the delta read afterwards is, position by position, the old delta plus (minus)
    the deployment's usage, to five decimals. It is stated for one policy whose annotations were
    written by the annotator and are active. *)
Theorem pod_reconcile_delta `{QL : QuantityLib} `{JS : JSONPatchServer}
    (SplitMetaNamespaceKey : string -> result (string * string)) (env : Env) (loc : Location)
    (kc : client)
    (podLister : string -> string -> result Pod)
    (rsLister : string -> string -> result ReplicaSet)
    (deployLister : string -> string -> result Deployment) (nodeLister : string -> result Node)
    (policy : DynamicSchedulerPolicy) (clock : nat -> Z) (key ns name : string) (pod : Pod)
    (deploy : Deployment) (node : Node) (p : SyncPolicy) (op : f64 -> f64 -> f64)
    (ds ws : list f64) (t t' : Z) :
  (forall rq, kc rq = None) -> GetLocation env = Some loc ->
  SplitMetaNamespaceKey key = Ok (ns, name) -> podLister ns name = Ok pod ->
  GetDeploymentByPod rsLister deployLister pod = Ok deploy ->
  nodeLister (pod_NodeName pod) = Ok node -> SyncAppPeriod (Spec policy) = [p] ->
  (om_DeletionTimestamp (pod_meta pod) = None /\ op = fadd \/
   om_DeletionTimestamp (pod_meta pod) <> None /\ op = fsub) ->
  plain (sync_Name p) = true -> 0 < sync_Period p <= int64_max - 5 * Minute ->
  0 <= year_of t loc < 10000 -> zone_steady loc (t / Second) = true ->
  0 <= year_of t' loc < 10000 -> 0 <= year_of (clock 1%nat) loc < 10000 ->
  annos (om_Annotations (dep_meta deploy)) !! sync_Name p
    = Some (range_text ws ++ String "," (Format t loc)) ->
  clock 0%nat < t / Second * Second + (sync_Period p + 5 * Minute) ->
  node_annos node !! ("delta_" ++ sync_Name p)
    = Some (range_text ds ++ String "," (Format t' loc)) ->
  ds <> [] -> length ds = length ws -> forallb is_f64 ds = true -> forallb is_f64 ws = true ->
  exists rq after s,
    pod_reconcile SplitMetaNamespaceKey env kc podLister rsLister deployLister nodeLister policy
      clock key = ([rq], Ret None) /\
    rq_name rq = node_Name node /\ apply_json_patch (rq_data rq) (node_annos node) = Some after /\
    GetDeltaUsageRange after ("delta_" ++ sync_Name p)
      = Ok s /\
    ParseRangeMetricsByString s
      = Ok (List.map round5 (zip_with op (List.map round5 ds) (List.map round5 ws))).
Proof.
  intros Hkc Hl Hs Hpod Hdep Hnode Hpol Hop Hpl Hper Hy Hz Hy' Hy1 Hda Hact Hna Hne Hlen
    Hfd Hfw.
  set (out := zip_with op (List.map round5 ds) (List.map round5 ws)) in *.
  assert (out <> []) as Hout.
  { unfold out. destruct ds; [done|]. by destruct ws. }
  set (dk := DeltaPrefixName ++ sync_Name p).
  exists (node_patch node (patch_annotation (patch_operator (node_annos node) dk) dk
            (range_text out ++ String "," (Format (clock 1%nat) loc)))),
    (<[dk := range_text out ++ String "," (Format (clock 1%nat) loc)]> (node_annos node)),
    (range_text out).
  split_and!.
  - unfold pod_reconcile. rewrite Hs, Hpod, Hdep, Hnode, Hpol. cbn [delta_loop]. unfold new_delta.
    destruct (Z.eqb_spec (sync_Period p) 0) as [?|_]; [lia|].
    rewrite wrap64_id by (unfold ExtraActivePeriod, Minute, int64_min, int64_max in *; lia).
    change (2 * 0)%nat with 0%nat. change (0 + 1)%nat with 1%nat.
    rewrite (GetResourceUsageRange_written env loc _ _ (range_text ws) t)
      by (done || apply range_text_no_comma).
    unfold ExtraActivePeriod. destruct (Z.ltb_spec (clock 0%nat)
      (t / Second * Second + (sync_Period p + 5 * Minute))) as [_|?]; [|lia].
    cbn [go_bind]. rewrite (GetDelta_written _ _ (range_text ds) (Format t' loc))
      by (done || apply range_text_no_comma || by apply Format_no_char).
    rewrite (merge_range_text op) by (done || (unfold merge_type; destruct Hop as [[-> ->]|[Hd ->]];
      [by left|right; by destruct (om_DeletionTimestamp (pod_meta pod))])).
    cbn [go_bind io_go io_bind].
    rewrite (PatchNodeAnnotation_eq env kc _ node _ _ loc Hl), send_node_patch_eq, Hkc. done.
  - done.
  - cbn [rq_data node_patch]. rewrite apply_operator.
    + by destruct (node_annos node !! dk).
    + unfold dk. by rewrite plain_app, Hpl.
    + rewrite plain_app, range_text_plain. change (String "," (Format (clock 1%nat) loc))
        with ("," ++ Format (clock 1%nat) loc). by rewrite plain_app, plain_Format.
  - apply (GetDelta_written _ _ _ (Format (clock 1%nat) loc));
      [apply range_text_no_comma|by apply Format_no_char|apply lookup_insert_eq].
  - apply parse_range_join; [done|]. unfold out. apply zip_closed; [naive_solver|by apply round5_list_closed..].
Qed.

(** C26: an item of the deployment queue is never lost and never panics (a zone that loads, replicas
    set): it is forgotten exactly when its key names a namespace whose deployments were listed and
    every one of them was annotated, or had nothing to report; in every other case it is put back,
    rate limited. *)
Theorem deployment_item_requeued {PC : PromClient} (env : Env) (kc : client)
    (lister : string -> result (list Deployment)) (clock : nat -> nat -> Z) (key : string) :
  GetLocation env <> None ->
  (forall ns ds, lister ns = Ok ds -> Forall (fun d => dep_Replicas d <> None) ds) ->
  exists w forget,
    deployment_processNextWorkItem (Some key) (syncDeployment env kc lister clock)
    = (w, Ret (true, [if forget : bool then QForget key else QAddRateLimited key; QDone key])) /\
    (forget = true <->
     exists ns m ds, key = handlingMetaKeyWithMetricName ns m /\ no_char "/" ns = true /\
       no_char "/" m = true /\ lister ns = Ok ds /\
       forall i d, ds !! i = Some d -> snd (annotateDeploymentLoad env kc (clock i) d m) = Ret None).
Proof.
  intros Hl Hr. unfold deployment_processNextWorkItem, syncDeployment.
  destruct (splitMetaKeyWithMetricName key) as [[ns m]|e] eqn:Hs.
  2:{ eexists _, false. split; [reflexivity|]. split; [done|].
      intros (ns & m & ds & Hk & Hn & Hm & _). rewrite (proj2 (splitMetaKey_Ok key ns m)) in Hs; done. }
  assert (forall ns' m', key = handlingMetaKeyWithMetricName ns' m' -> no_char "/" ns' = true ->
    no_char "/" m' = true -> ns' = ns /\ m' = m) as Hkey.
  { intros ns' m' Hk Hn Hm. rewrite (proj2 (splitMetaKey_Ok key ns' m')) in Hs by done. by simplify_eq. }
  apply splitMetaKey_Ok in Hs as (Hk & Hn & Hm). destruct (lister ns) as [ds|e] eqn:Hds.
  - destruct (annotate_deployments_spec env kc clock m 0 ds Hl (Hr _ _ Hds))
      as (w & [[-> Hall]|(e & -> & j & d & e' & Hj & Hf)]).
    + eexists _, true. split; [reflexivity|]. split; [|done]. intros _. by exists ns, m, ds.
    + eexists _, false. split; [reflexivity|]. split; [done|].
      intros (ns' & m' & ds' & Hk' & Hn' & Hm' & Hds' & Hall).
      destruct (Hkey _ _ Hk' Hn' Hm') as [-> ->]. rewrite Hds in Hds'. injection Hds' as <-.
      specialize (Hall j d Hj). cbn [Nat.add] in Hf.
      congruence.
  - eexists _, false. split; [reflexivity|]. split; [done|].
    intros (ns' & m' & ds' & Hk' & Hn' & Hm' & Hds' & _). destruct (Hkey _ _ Hk' Hn' Hm') as [-> ->]. congruence.
Qed.

(** The annotator's store never loses what its hot values count. Its collector's range is the
    longest of the policies', so for every hot-value policy (ranges of whole seconds) the count
    after any additions within the heap size and any earlier collections is exactly the number
    of added bindings of the node inside the policy's range. *)
Theorem annotator_counts_exact (policy : DynamicSchedulerPolicy) (size : Z) (ops : list op)
    (now : Z) (node : string) (hv : HotValuePolicy) :
  hv ∈ HotValue (Spec policy) ->
  Forall (fun h => exists k, hv_TimeRange h = k * Second /\ 0 <= k < 2 ^ 53)
    (HotValue (Spec policy)) ->
  Z.of_nat (length (adds ops)) <= size -> gcs_before now ops = true ->
  exists br, run (ctl_bindingRecords (NewNodeAnnotator policy size)) ops = Ret br /\
    GetLastNodeBindingCount br now node (hv_TimeRange hv)
    = Z.of_nat (length (counted (timeline now (hv_TimeRange hv)) node (adds ops))).
Proof.
  intros Hin Hall Hsz Hgc. apply run_counted; [done|done|]. by apply max_range_seconds.
Qed.

(** ** Witnesses *)

Section Witnesses.
#[local] Existing Instance MilliQuantities.
#[local] Existing Instance split_server.

Definition dx_half : f64 := fdiv (f64_of_Z 1) (f64_of_Z 2).
Definition dx_meta (owner : list OwnerReference) (anno : smap) : ObjectMeta :=
  {| om_Name := "x"; om_Namespace := "ns"; om_Annotations := Some anno;
     om_OwnerReferences := owner; om_DeletionTimestamp := None; om_ResourceVersion := "" |}.
Definition dx_stamp : string := Format 0 (FixedZone 0).
Definition dx_deploy : Deployment :=
  {| dep_meta := dx_meta [] {["range_cpu" := range_text [f64_of_Z 1] ++ String "," dx_stamp]};
     dep_Replicas := Some 1 |}.
Definition dx_rs : ReplicaSet :=
  {| rs_meta := dx_meta [{| or_Kind := "Deployment"; or_Name := "d" |}] ∅ |}.
Definition dx_pod : Pod :=
  {| pod_meta := dx_meta [{| or_Kind := "ReplicaSet"; or_Name := "r" |}] ∅;
     pod_NodeName := "n"; pod_Containers := [] |}.
Definition dx_node : Node :=
  {| node_meta := dx_meta [] {["delta_range_cpu" := range_text [dx_half] ++ String "," dx_stamp]};
     node_Addresses := []; node_Capacity := ∅ |}.
Definition dx_sync : SyncPolicy := {| sync_Name := "range_cpu"; sync_Period := Hour |}.
Definition dx_policy : DynamicSchedulerPolicy :=
  {| policy_APIVersion := "";
     Spec := {| SyncPeriod := []; SyncAppPeriod := [dx_sync]; Predicate := []; Priority := [];
                HotValue := [{| hv_TimeRange := Minute; hv_Count := 5 |};
                             {| hv_TimeRange := Hour; hv_Count := 2 |}] |} |}.

Lemma pod_reconcile_delta_witness :
  exists rq after s,
    pod_reconcile (fun _ => Ok ("ns", "x")) (fixed_env 0) (fun _ => None) (fun _ _ => Ok dx_pod)
      (fun _ _ => Ok dx_rs) (fun _ _ => Ok dx_deploy) (fun _ => Ok dx_node) dx_policy (fun _ => 0)
      "ns/x" = ([rq], Ret None) /\
    rq_name rq = node_Name dx_node /\
    apply_json_patch (rq_data rq) (node_annos dx_node) = Some after /\
    GetDeltaUsageRange after ("delta_" ++ sync_Name dx_sync)
      = Ok s /\
    ParseRangeMetricsByString s
      = Ok (List.map round5 (zip_with fadd (List.map round5 [dx_half])
                               (List.map round5 [f64_of_Z 1]))).
Proof.
  apply (pod_reconcile_delta (fun _ => Ok ("ns", "x")) (fixed_env 0) (FixedZone 0) (fun _ => None)
           (fun _ _ => Ok dx_pod) (fun _ _ => Ok dx_rs) (fun _ _ => Ok dx_deploy)
           (fun _ => Ok dx_node) dx_policy (fun _ => 0) "ns/x" "ns" "x" dx_pod dx_deploy dx_node
           dx_sync fadd [dx_half] [f64_of_Z 1] 0 0).
  - reflexivity.
  - reflexivity.
  - reflexivity.
  - reflexivity.
  - reflexivity.
  - reflexivity.
  - reflexivity.
  - left. split; reflexivity.
  - reflexivity.
  - vm_compute. split; [reflexivity|discriminate].
  - vm_compute. split; [discriminate|reflexivity].
  - reflexivity.
  - vm_compute. split; [discriminate|reflexivity].
  - vm_compute. split; [discriminate|reflexivity].
  - unfold dx_deploy, annos. cbn [dep_meta dx_meta om_Annotations default]. apply lookup_singleton_eq.
  - reflexivity.
  - unfold dx_node, node_annos, annos. cbn [node_meta dx_meta om_Annotations default].
    apply lookup_singleton_eq.
  - discriminate.
  - reflexivity.
  - vm_compute. reflexivity.
  - vm_compute. reflexivity.
Defined.

Definition dx_prom (answer : result string) : PromClient :=
  {| QueryByNodeIP _ _ _ := answer; QueryByNodeName _ _ _ := answer;
     QueryRangeByNodeIP _ _ _ := answer; QueryRangeByNodeName _ _ _ := answer;
     QueryByNodeIPWithOffset _ _ _ _ := answer; QueryByDeployment _ _ _ := answer;
     QueryRangeByDeployment _ _ _ := answer |}.

(** A deployment that has run for less than a day has no range yet, and is passed over. *)
Lemma deployment_item_requeued_witness :
  exists w forget,
    deployment_processNextWorkItem (Some "ns/range_cpu")
      (@syncDeployment (dx_prom (Err (Errorf ErrEmptyMsg []))) (fixed_env 0) (fun _ => None)
         (fun _ => Ok [dx_deploy]) (fun _ _ => 0))
    = (w, Ret (true, [if forget : bool then QForget "ns/range_cpu" else QAddRateLimited "ns/range_cpu";
                      QDone "ns/range_cpu"])) /\
    (forget = true <->
     exists ns m ds, "ns/range_cpu" = handlingMetaKeyWithMetricName ns m /\ no_char "/" ns = true /\
       no_char "/" m = true /\ Ok [dx_deploy] = Ok ds /\
       forall i d, ds !! i = Some d ->
         snd (@annotateDeploymentLoad (dx_prom (Err (Errorf ErrEmptyMsg []))) (fixed_env 0)
                (fun _ => None) (fun _ => 0) d m) = Ret None).
Proof.
  apply (@deployment_item_requeued (dx_prom (Err (Errorf ErrEmptyMsg []))) (fixed_env 0) (fun _ => None)
    (fun _ => Ok [dx_deploy]) (fun _ _ => 0) "ns/range_cpu").
  - discriminate.
  - intros ns ds [= <-]. constructor; [discriminate|constructor].
Defined.

Lemma annotator_counts_exact_witness :
  exists br, run (ctl_bindingRecords (NewNodeAnnotator dx_policy 3)) bx_ops = Ret br /\
    GetLastNodeBindingCount br (6 * Second) "a" Minute
    = Z.of_nat (length (counted (timeline (6 * Second) Minute) "a" (adds bx_ops))).
Proof.
  apply (annotator_counts_exact dx_policy 3 bx_ops (6 * Second) "a"
           {| hv_TimeRange := Minute; hv_Count := 5 |}).
  - left.
  - constructor; [|constructor; [|constructor]].
    + exists 60. vm_compute. split; [reflexivity|split; [discriminate|reflexivity]].
    + exists 3600. vm_compute. split; [reflexivity|split; [discriminate|reflexivity]].
  - vm_compute. discriminate.
  - reflexivity.
Defined.

End Witnesses.
