(* ===== verification/HotValues.v ===== *)
(** * The hot value in both programs

    The scheduler counts the bindings it makes itself (PostBind of pkg/plugins/dynamic), the
    annotator the "Scheduled" events it receives (event.go of pkg/controller/annotator); each has
    its own heap of bindings with its own size and collector, and both run the same loop over the
    hot-value policies. Here they run side by side, as a transition system: pods are bound, their
    events arrive later, in any order, and the collectors run at any time. *)

From S2P Require Import Prelude GoStrings GoFloat GoTime GoHeap K8s Policy Utils Binding HotValue Config.
From S2P Require Import AnnotatorQueue AnnotatorNode AnnotatorEvent AnnotatorApp Metrics Dynamic.

Open Scope string_scope.
Open Scope Z_scope.

(** ** Counts of a run at an earlier or later clock *)

Lemma run_app br ops ops' : run br (ops ++ ops') = (let! br' := run br ops in run br' ops').
Proof.
  revert br. induction ops as [|o ops IH]; intros br; [done|]. cbn [run app].
  destruct (exec br o) as [br'|]; [|done]. cbn [go_bind]. apply IH.
Qed.

Lemma adds_app ops ops' : adds (ops ++ ops') = (adds ops ++ adds ops')%list.
Proof. induction ops as [|[b|t] ops IH]; cbn [adds app]; by rewrite ?IH. Qed.

Lemma gcs_before_app now ops ops' :
  gcs_before now (ops ++ ops') = gcs_before now ops && gcs_before now ops'.
Proof. induction ops as [|[b|t] ops IH]; cbn [gcs_before app]; rewrite ?IH; [done|done|by rewrite andb_assoc]. Qed.

Lemma gcs_before_mono now now' ops : now <= now' -> gcs_before now ops = true -> gcs_before now' ops = true.
Proof.
  intros Hn. induction ops as [|[b|t] ops IH]; cbn [gcs_before]; [done|done|].
  intros [Ht Hg]%andb_true_iff. apply andb_true_iff. split; [|by apply IH].
  apply Z.leb_le in Ht. apply Z.leb_le. lia.
Qed.

(** A store that never overflowed counts what was added, over any window that its collections
    have not reached. *)
Lemma run_counted_at size gc ops br now c tr node :
  run (NewBindingRecords size gc) ops = Ret br -> roomy (NewBindingRecords size gc) ops = true ->
  gcs_before now ops = true -> timeline now gc <= timeline c tr ->
  GetLastNodeBindingCount br c node tr = Z.of_nat (length (counted (timeline c tr) node (adds ops))).
Proof.
  intros Hr Hl Hg Ht. destruct (NewBindingRecords_inv size gc) as [Hi He].
  destruct (run_fresh (NewBindingRecords size gc) ops now (timeline c tr) Hi) as (br' & Hr' & _ & Hp);
    [done|done|done|].
  assert (br' = br) as -> by congruence. rewrite count_counted, He in *. simpl in Hp.
  rewrite <- (counted_fresh (timeline c tr) (timeline c tr) node (br_bindings br)) by done.
  by rewrite Hp, counted_fresh by done.
Qed.

(** ** Matched bindings *)

(** Two records of one binding, their times at most [d] seconds apart. *)
Definition matched (d : Z) (p : Binding * Binding) : Prop :=
  b_Node p.1 = b_Node p.2 /\ Z.abs (b_Timestamp p.1 - b_Timestamp p.2) <= d.

Lemma counted_cons tl node b bs :
  length (counted tl node (b :: bs))
  = ((if (tl <? b_Timestamp b)%Z && String.eqb (b_Node b) node then 1 else 0) + length (counted tl node bs))%nat.
Proof.
  unfold counted. rewrite filter_cons.
  destruct (Z.ltb_spec tl (b_Timestamp b)), (String.eqb_spec (b_Node b) node); case_decide; naive_solver lia.
Qed.

Lemma matched_counted d tl node pairs :
  Forall (matched d) pairs ->
  (length (counted (tl + d)%Z node pairs.*1) <= length (counted tl node pairs.*2) /\
   length (counted tl node pairs.*2) <= length (counted (tl - d)%Z node pairs.*1))%nat.
Proof.
  induction 1 as [|[b b'] pairs [Hn Ht] _ IH]; [done|]. cbn [fmap list_fmap fst snd] in *.
  rewrite !counted_cons, Hn. destruct (String.eqb (b_Node b') node); rewrite ?andb_true_r, ?andb_false_r; [|lia].
  repeat match goal with |- context [?a <? ?b] => destruct (Z.ltb_spec a b) end; lia.
Qed.

(** The loop's value over counts that are in order. *)
Lemma hot_value_mono br br' c c' node l :
  Forall (fun hv => 0 < hv_Count hv /\
    GetLastNodeBindingCount br c node (hv_TimeRange hv)
      <= GetLastNodeBindingCount br' c' node (hv_TimeRange hv)) l ->
  forall i, hot_value (fun _ => br) (fun _ => c) i node l <= hot_value (fun _ => br') (fun _ => c') i node l.
Proof.
  induction 1 as [|hv l [Hc Hle] _ IH]; intros i; cbn [hot_value]; [lia|].
  specialize (IH (S i)). apply Z.add_le_mono; [by apply Z.div_le_mono|done].
Qed.

Section Both.
Context `{QL : QuantityLib}.
Variable SplitMetaNamespaceKey : string -> result (string * string).
Context (env : Env) (policy : DynamicSchedulerPolicy).

(** The two stores, the operations they have run, the bindings whose event is still to come and
    the time of the last step. *)
Record both := {
  bo_now : Z;
  bo_scheduler : BindingRecords;
  bo_annotator : BindingRecords;
  bo_sops : list op;
  bo_aops : list op;
  bo_waiting : list Binding }.

(** The event of a binding: the scheduler's message, at most [d] seconds from the binding. *)
Definition announces (d : Z) (ev : Event) (b : Binding) : Prop :=
  exists metaKey, ev_Message ev = "Successfully assigned " ++ metaKey ++ " to " ++ b_Node b /\
    solid metaKey = true /\ metaKey <> "" /\ solid (b_Node b) = true /\ b_Node b <> "" /\
    SplitMetaNamespaceKey metaKey = Ok (b_Namespace b, b_PodName b) /\
    Z.abs ((if ev_Count ev =? 0 then ev_EventTime ev / Second else ev_LastTimestamp ev / Second)
           - b_Timestamp b) <= d.

Definition posted (now : Z) (p : Pod) (nodeName : string) : Binding :=
  {| b_Node := nodeName; b_Namespace := om_Namespace (pod_meta p); b_PodName := om_Name (pod_meta p);
     b_Timestamp := now / Second |}.

Inductive both_step (d : Z) : both -> both -> Prop :=
| both_bind s now p nodeName br :
    bo_now s <= now -> PostBind (bo_scheduler s) now p nodeName = Ret br ->
    both_step d s {| bo_now := now; bo_scheduler := br; bo_annotator := bo_annotator s;
                     bo_sops := (bo_sops s ++ [OAdd (posted now p nodeName)])%list;
                     bo_aops := bo_aops s;
                     bo_waiting := posted now p nodeName :: bo_waiting s |}
| both_event s now b rest ev kc eventLister nodeLister observe hclock key ns name binding rqs br err :
    bo_now s <= now -> bo_waiting s ≡ₚ b :: rest -> announces d ev b ->
    SplitMetaNamespaceKey key = Ok (ns, name) -> eventLister ns name = Ok ev ->
    translateEventToBinding SplitMetaNamespaceKey ev = Ok binding ->
    reconcile SplitMetaNamespaceKey env kc eventLister nodeLister policy (bo_annotator s) observe
      hclock now key = (rqs, Ret (br, err)) ->
    both_step d s {| bo_now := now; bo_scheduler := bo_scheduler s; bo_annotator := br;
                     bo_sops := bo_sops s; bo_aops := (bo_aops s ++ [OAdd binding])%list;
                     bo_waiting := rest |}
| both_sgc s now br :
    bo_now s <= now -> BindingsGC (bo_scheduler s) now = Ret br ->
    both_step d s {| bo_now := now; bo_scheduler := br; bo_annotator := bo_annotator s;
                     bo_sops := (bo_sops s ++ [OGC now])%list; bo_aops := bo_aops s;
                     bo_waiting := bo_waiting s |}
| both_agc s now br :
    bo_now s <= now -> BindingsGC (bo_annotator s) now = Ret br ->
    both_step d s {| bo_now := now; bo_scheduler := bo_scheduler s; bo_annotator := br;
                     bo_sops := bo_sops s; bo_aops := (bo_aops s ++ [OGC now])%list;
                     bo_waiting := bo_waiting s |}.

(** Both programs start with empty stores. *)
Definition both_start (size : Z) (ds : DynamicScheduler) (now : Z) : both :=
  {| bo_now := now; bo_scheduler := bindingRecords ds;
     bo_annotator := ctl_bindingRecords (NewNodeAnnotator policy size);
     bo_sops := []; bo_aops := []; bo_waiting := [] |}.

Definition both_inv (d size : Z) (s : both) : Prop :=
  run (NewBindingRecords 1024 (5 * Minute)) (bo_sops s) = Ret (bo_scheduler s) /\
  run (ctl_bindingRecords (NewNodeAnnotator policy size)) (bo_aops s) = Ret (bo_annotator s) /\
  gcs_before (bo_now s) (bo_sops s) = true /\ gcs_before (bo_now s) (bo_aops s) = true /\
  exists pairs, Forall (matched d) pairs /\ adds (bo_sops s) ≡ₚ (pairs.*1 ++ bo_waiting s)%list /\
    adds (bo_aops s) ≡ₚ pairs.*2.

(** The event's binding is of the announced node, at the event's time. *)
Lemma announces_matched d ev b binding :
  announces d ev b -> translateEventToBinding SplitMetaNamespaceKey ev = Ok binding ->
  matched d (b, binding).
Proof.
  intros (mk & Hm & Hs & Hne & Hsn & Hnn & Hsp & Ht). unfold translateEventToBinding.
  rewrite Hm, fscanf_assigned, Hsp by done. intros [= <-]. split; [done|].
  cbn [fst snd b_Timestamp]. lia.
Qed.

Lemma reconcile_adds kc eventLister nodeLister br observe hclock now key ns name ev binding rqs br' err :
  SplitMetaNamespaceKey key = Ok (ns, name) -> eventLister ns name = Ok ev ->
  translateEventToBinding SplitMetaNamespaceKey ev = Ok binding ->
  reconcile SplitMetaNamespaceKey env kc eventLister nodeLister policy br observe hclock now key
    = (rqs, Ret (br', err)) -> AddBinding br binding = Ret br'.
Proof.
  intros Hk He Ht. unfold reconcile. rewrite Hk, He, Ht.
  destruct (AddBinding br binding) as [br1|]; [|done]. cbn [io_go io_bind].
  destruct (nodeLister (b_Node binding)) as [node|]; [|unfold io_ret; naive_solver].
  destruct (annotateNodeHotValue _ _ _ _ _ _ _) as [w [e|]]; [|done]. cbn [io_bind].
  destruct e; unfold io_ret; naive_solver.
Qed.

Lemma run_snoc br ops o br' br'' :
  run br ops = Ret br' -> exec br' o = Ret br'' -> run br (ops ++ [o]) = Ret br''.
Proof. intros H1 H2. rewrite run_app, H1. cbn [go_bind run]. by rewrite H2. Qed.

Lemma gcs_snoc now now' ops o :
  now <= now' -> gcs_before now ops = true -> gcs_before now' [o] = true ->
  gcs_before now' (ops ++ [o]) = true.
Proof. intros Hn Hg Ho. rewrite gcs_before_app, Ho. by rewrite (gcs_before_mono now now' ops Hn Hg). Qed.

Lemma both_inv_step d size s s' : both_step d s s' -> both_inv d size s -> both_inv d size s'.
Proof.
  assert (forall now, gcs_before now [OGC now] = true) as Hgc by (intros; cbn; by rewrite Z.leb_refl).
  destruct 1 as [s now p n br Hn Hb|s now b rest ev kc el nl ob hc key ns name bi rqs br err Hn Hw Ha Hk He Ht Hr
                |s now br Hn Hb|s now br Hn Hb]; intros (Rs & Ra & Gs & Ga & pairs & Hp & As & Aa);
    unfold both_inv; cbn [bo_now bo_scheduler bo_annotator bo_sops bo_aops bo_waiting].
  - split_and!; [by eapply run_snoc|done|by eapply gcs_snoc|by eapply gcs_before_mono|].
    exists pairs. split; [done|]. split; [|done]. rewrite adds_app, As. cbn [adds]. by solve_Permutation.
  - split_and!; [done| |by eapply gcs_before_mono|by eapply gcs_snoc|].
    + eapply run_snoc; [done|]. by eapply reconcile_adds.
    + exists ((b, bi) :: pairs). split; [constructor; [by eapply announces_matched|done]|].
      cbn [fmap list_fmap fst snd]. rewrite adds_app, Aa, As, Hw. cbn [adds]. split; solve_Permutation.
  - split_and!; [by eapply run_snoc|done|by eapply gcs_snoc|by eapply gcs_before_mono|].
    exists pairs. rewrite adds_app, app_nil_r. done.
  - split_and!; [done|by eapply run_snoc|by eapply gcs_before_mono|by eapply gcs_snoc|].
    exists pairs. rewrite adds_app, app_nil_r. done.
Qed.

End Both.

Lemma timeline_shift now d tr : timeline (now + d * Second) tr = timeline now tr + d.
Proof. unfold timeline. rewrite Z.div_add by done. lia. Qed.

(** Stores of a program stay small. *)
Lemma run_small size gc ops br :
  0 < size <= 2 ^ 32 -> run (NewBindingRecords size gc) ops = Ret br -> small (fun _ => br).
Proof.
  intros Hsz Hrun _. destruct (NewBindingRecords_inv size gc) as [Hi He].
  destruct (run_wf (NewBindingRecords size gc) ops) as (br' & Hr' & [_ Hl] & Hs & _);
    [cbn; lia|split; [done|cbn; lia]|].
  rewrite Hrun in Hr'. injection Hr' as <-. rewrite Hs in Hl. cbn in Hl. lia.
Qed.

Lemma both_inv_reached `{QL : QuantityLib} split env policy d size start s :
  rtc (both_step split env policy d) (both_start policy size
    {| schedulerPolicy := policy; bindingRecords := NewBindingRecords 1024 (5 * Minute) |} start) s ->
  both_inv policy d size s.
Proof.
  intros Hr. refine (rtc_ind_l (fun s0 => both_inv policy d size s0 -> both_inv policy d size s) s _ _ _ Hr _).
  - done.
  - intros x y Hs _ IH Hx. apply IH. by eapply both_inv_step.
  - split_and!; [done|done|done|done|]. exists []. done.
Qed.

(** What both stores count for a policy, once every event has been handled. *)
Lemma both_counts policy d size s now hv :
  both_inv policy d size s -> bo_waiting s = [] -> bo_now s <= now -> 0 <= d ->
  roomy (NewBindingRecords 1024 (5 * Minute)) (bo_sops s) = true ->
  roomy (ctl_bindingRecords (NewNodeAnnotator policy size)) (bo_aops s) = true ->
  hv ∈ HotValue (Spec policy) ->
  Forall (fun h => exists k, hv_TimeRange h = k * Second /\ 0 <= k /\ k + d <= 300) (HotValue (Spec policy)) ->
  forall node,
  GetLastNodeBindingCount (bo_scheduler s) (now + d * Second) node (hv_TimeRange hv)
    <= GetLastNodeBindingCount (bo_annotator s) now node (hv_TimeRange hv)
    <= GetLastNodeBindingCount (bo_scheduler s) (now - d * Second) node (hv_TimeRange hv).
Proof.
  intros (Rs & Ra & Gs & Ga & pairs & Hp & As & Aa) Hw Hn Hd Hrs Hra Hin Hall node.
  rewrite Hw, app_nil_r in As. replace (now - d * Second) with (now + (- d) * Second) by lia.
  destruct (proj1 (Forall_forall _ _) Hall hv Hin) as (k & Hk & Hk0 & Hkd).
  pose proof (timeline_mono (bo_now s) now (5 * Minute) (5 * Minute) Hn ltac:(lia)) as Ht5.
  assert (durSeconds (5 * Minute) = 300) as H5 by (by apply (durSeconds_whole 300)).
  assert (timeline now (5 * Minute) <= timeline now (hv_TimeRange hv) - d) as Hwin.
  { unfold timeline. rewrite H5, Hk, durSeconds_whole by lia. lia. }
  assert (timeline (bo_now s) (getMaxHotVauleTimeRange (HotValue (Spec policy)))
    <= timeline now (hv_TimeRange hv)) as Hmax.
  { apply timeline_mono; [done|]. apply max_range_seconds; [done|].
    eapply Forall_impl; [exact Hall|]. intros h (k' & ? & ? & ?). exists k'. lia. }
  rewrite (run_counted_at _ _ _ _ _ now (hv_TimeRange hv) node Ra) by (done || lia).
  rewrite !(run_counted_at _ _ _ _ _ _ (hv_TimeRange hv) node Rs Hrs Gs) by
    (rewrite timeline_shift; lia).
  rewrite !timeline_shift. destruct (matched_counted d (timeline now (hv_TimeRange hv)) node pairs Hp).
  rewrite Z.add_opp_r, As, Aa. lia.
Qed.

(** ** Property *)

(** C18: the two programs see the same hot values. However bindings, their events and the two
    collectors interleave from the start of both programs, when every binding's event has been
    reconciled, the hot value that the annotator's loop computes for a node lies between what the
    scheduler's loop computes [d] seconds later and [d] seconds earlier, where [d] bounds the
    distance of an event's time from the scheduler's: with [d = 0] they are equal. Neither heap
    may have overflowed ([roomy]: each binding was added while its heap was not full, however many
    were added and collected in all), and the policy's time ranges are whole seconds that the
    scheduler's collector of five minutes leaves alone. *)
Theorem hot_values_agree `{QL : QuantityLib} `{MR : MetricsRegistry} (reg reg' : registry)
    (SplitMetaNamespaceKey : string -> result (string * string)) (env : Env)
    (policy : DynamicSchedulerPolicy) (args : DynamicArgs) (ds : DynamicScheduler)
    (size d start now : Z) (s : both) (node : string) :
  NewDynamicScheduler (fun _ => Ok policy) (Some args) reg = Ret (reg', Ok ds) -> 0 < size < 2 ^ 31 -> 0 <= d ->
  rtc (both_step SplitMetaNamespaceKey env policy d) (both_start policy size ds start) s ->
  bo_waiting s = [] -> bo_now s <= now ->
  roomy (bindingRecords ds) (bo_sops s) = true ->
  roomy (ctl_bindingRecords (NewNodeAnnotator policy size)) (bo_aops s) = true ->
  Forall (fun hv => (exists k, hv_TimeRange hv = k * Second /\ 0 <= k /\ k + d <= 300) /\
    0 < hv_Count hv) (HotValue (Spec policy)) ->
  Z.of_nat (length (HotValue (Spec policy))) <= 2 ^ 20 ->
  exists later h earlier,
    let hot br c := hot_loop (fun _ => br) (fun _ => c) 0 node (HotValue (Spec policy)) 0 in
    hot (bo_scheduler s) (now + d * Second) = Ret later /\
    hot (bo_annotator s) now = Ret h /\
    hot (bo_scheduler s) (now - d * Second) = Ret earlier /\ later <= h <= earlier.
Proof.
  unfold NewDynamicScheduler. destruct (RegisterDynamicSchedulerMetrics reg) as [r|]; [|done].
  intros [= _ <-] Hsz Hd Hr Hw Hn Hrs Hra Hall Hpl. apply both_inv_reached in Hr as Hi.
  apply Forall_and in Hall as [Hall Hc]. destruct Hi as (Rs & Ra & _).
  pose proof (run_small 1024 _ _ _ ltac:(lia) Rs) as Hs1.
  pose proof (run_small size _ _ _ ltac:(lia) Ra) as Hs2.
  do 3 eexists. cbv zeta. split_and!; [apply hot_loop_value; (done || lia)..| |];
    (apply Z.add_le_mono; [done|]); apply hot_value_mono, Forall_forall; intros hv Hin;
    (split; [by apply (proj1 (Forall_forall _ _) Hc)|]); by eapply both_counts; [by eapply both_inv_reached|..].
Qed.

(** ** Witness *)

Section Witness.
#[local] Existing Instance MilliQuantities.

Definition zx_args : DynamicArgs := {| da_PolicyConfigPath := "" |}.

Definition zx_policy : DynamicSchedulerPolicy :=
  {| policy_APIVersion := "";
     Spec := {| SyncPeriod := []; SyncAppPeriod := []; Predicate := []; Priority := [];
                HotValue := [{| hv_TimeRange := Minute; hv_Count := 1 |}] |} |}.

(** A pod is bound to n1 at second 10, its event is of second 10 and handled at second 12. *)
Definition zx_pod : Pod :=
  {| pod_meta := {| om_Name := "web"; om_Namespace := "ns"; om_Annotations := None;
                    om_OwnerReferences := []; om_DeletionTimestamp := None; om_ResourceVersion := "" |};
     pod_NodeName := ""; pod_Containers := [] |}.

Definition zx_event : Event :=
  {| ev_meta := meta0 "e"; ev_Type := "Normal"; ev_Reason := "Scheduled";
     ev_Message := "Successfully assigned ns/web to n1"; ev_Count := 1; ev_EventTime := 0;
     ev_LastTimestamp := 10 * Second |}.

Definition zx_store (size gc : Z) (bs : list Binding) : BindingRecords :=
  {| br_size := size; br_bindings := bs; br_gcTimeRange := gc |}.

Definition zx_binding : Binding := posted (10 * Second) zx_pod "n1".

Definition zx_bound : both :=
  {| bo_now := 10 * Second; bo_scheduler := zx_store 1024 (5 * Minute) [zx_binding];
     bo_annotator := zx_store 8 Minute []; bo_sops := [OAdd zx_binding]; bo_aops := [];
     bo_waiting := [zx_binding] |}.

Definition zx_seen : both :=
  {| bo_now := 12 * Second; bo_scheduler := zx_store 1024 (5 * Minute) [zx_binding];
     bo_annotator := zx_store 8 Minute [zx_binding]; bo_sops := [OAdd zx_binding];
     bo_aops := [OAdd zx_binding]; bo_waiting := [] |}.

Definition zx_reconcile : list request * go (BindingRecords * option error) :=
  reconcile vx_split (fixed_env 0) (fun _ => None) (fun _ _ => Ok zx_event) (fun _ => Ok nx_node)
    zx_policy (zx_store 8 Minute []) (fun br _ => br) (fun _ => 12 * Second) (12 * Second) "default/e".

Lemma zx_reached :
  rtc (both_step vx_split (fixed_env 0) zx_policy 0)
    (both_start zx_policy 8
       {| schedulerPolicy := zx_policy; bindingRecords := NewBindingRecords 1024 (5 * Minute) |} 0) zx_seen.
Proof.
  eapply rtc_l; [|apply rtc_once].
  - apply (both_bind vx_split (fixed_env 0) zx_policy 0 (both_start zx_policy 8 _ 0) (10 * Second) zx_pod
             "n1" (zx_store 1024 (5 * Minute) [zx_binding])); [by apply Z.leb_le|vm_compute; reflexivity].
  - apply (both_event vx_split (fixed_env 0) zx_policy 0 zx_bound (12 * Second) zx_binding [] zx_event
             (fun _ => None) (fun _ _ => Ok zx_event) (fun _ => Ok nx_node) (fun br _ => br)
             (fun _ => 12 * Second) "default/e" "default" "e" zx_binding zx_reconcile.1
             (zx_store 8 Minute [zx_binding]) None).
    + by apply Z.leb_le.
    + reflexivity.
    + exists "ns/web". split_and!; try reflexivity; discriminate.
    + reflexivity.
    + reflexivity.
    + vm_compute. reflexivity.
    + vm_compute. reflexivity.
Qed.

Lemma hot_values_agree_witness :
  exists later h earlier,
    let hot br c := hot_loop (fun _ => br) (fun _ => c) 0 "n1" (HotValue (Spec zx_policy)) 0 in
    hot (bo_scheduler zx_seen) (20 * Second + 0 * Second) = Ret later /\
    hot (bo_annotator zx_seen) (20 * Second) = Ret h /\
    hot (bo_scheduler zx_seen) (20 * Second - 0 * Second) = Ret earlier /\ later <= h <= earlier.
Proof.
  apply (hot_values_agree (MR := ListRegistry) ([] : list MetricVec)
           ([DynamicPriorityAvailableNodesNumber] : list MetricVec) vx_split (fixed_env 0) zx_policy zx_args
           {| schedulerPolicy := zx_policy; bindingRecords := NewBindingRecords 1024 (5 * Minute) |}
           8 0 0 (20 * Second) zx_seen "n1").
  - reflexivity.
  - split; [reflexivity|]. vm_compute. reflexivity.
  - discriminate.
  - exact zx_reached.
  - reflexivity.
  - vm_compute. discriminate.
  - reflexivity.
  - reflexivity.
  - constructor; [|constructor]. split; [|reflexivity]. exists 60. split; [reflexivity|].
    split; discriminate.
  - vm_compute. discriminate.
Defined.

End Witness.
