(* ===== verification/Burst.v ===== *)
(** * Bursts of pods

    Hot values are there to spread bursts: while many pods are scheduled in a short time the
    annotations of the nodes stay as they are, and without them every pod would go to the same
    node (pkg/plugins/dynamic/plugins.go). Here a scheduler that picks a node of the highest
    [Score] handles a burst: scheduling cycles follow one another, while the binds of earlier pods
    are still on their way, and [PostBind] and the collector run at any time, also between two
    reads of one [Score]. No pod is placed on a node that another one beats by more than what
    the binds under way explain. *)

From S2P Require Import Prelude GoStrings GoFloat GoTime GoHeap K8s Policy Utils Binding HotValue Dynamic.

Open Scope string_scope.
Open Scope Z_scope.

(** ** The scheduler *)

Section Burst.
Context `{QL : QuantityLib} `{SL : ScoreLib}.
Context (env : Env) (oob : f64 -> Z) (policy : DynamicSchedulerPolicy).

(** The nodes that fit the pods, what [getNodeScore] makes of their annotations, the time of
    the burst and the number of binds that may be under way when a cycle begins. *)
Context (nodes : list string) (usage : string -> Z) (t0 t1 : Z) (others : Z).

(** [bu_cycle] are the stores there have been since the scheduling cycle began; [bu_flight] the
    pods with a node whose bind is under way, [bu_picked] the nodes picked so far, less the binds
    that failed. *)
Record burst := {
  bu_now : Z;
  bu_store : BindingRecords;
  bu_cycle : option (list BindingRecords);
  bu_flight : list (Pod * string);
  bu_picked : list string }.

(** The snapshot of a cycle shows the node with its usage unchanged. *)
Definition same_usage (snapshot : string -> result NodeInfo) (clock : nat -> Z) (b : string) : Prop :=
  exists ni node, snapshot b = Ok ni /\ ni_Node ni = Some node /\
    getNodeScore env oob clock (node_annos node) (Spec policy) = Ret (usage b).

Inductive burst_step : burst -> burst -> Prop :=
| burst_begin s : bu_cycle s = None -> Z.of_nat (length (bu_flight s)) <= others ->
    burst_step s {| bu_now := bu_now s; bu_store := bu_store s; bu_cycle := Some [bu_store s];
                    bu_flight := bu_flight s; bu_picked := bu_picked s |}
| burst_pick s now seen p a snapshot recs hclock clock value :
    bu_now s <= now <= t1 -> bu_cycle s = Some seen -> a ∈ nodes ->
    (forall b i, b ∈ nodes -> recs b i ∈ seen /\ t0 <= hclock b i <= now) ->
    (forall b, b ∈ nodes -> same_usage snapshot (clock b) b /\
       Score env oob policy snapshot (recs b) (hclock b) (clock b) b = Ret (value b, None) /\
       value b <= value a) ->
    burst_step s {| bu_now := now; bu_store := bu_store s; bu_cycle := None;
                    bu_flight := (p, a) :: bu_flight s; bu_picked := a :: bu_picked s |}
| burst_bind s now p a rest br :
    bu_now s <= now <= t1 -> bu_flight s ≡ₚ (p, a) :: rest ->
    Z.of_nat (length (br_bindings (bu_store s))) < br_size (bu_store s) ->
    PostBind (bu_store s) now p a = Ret br ->
    burst_step s {| bu_now := now; bu_store := br; bu_cycle := option_map (cons br) (bu_cycle s);
                    bu_flight := rest; bu_picked := bu_picked s |}
| burst_failed s p a rest picked :
    bu_flight s ≡ₚ (p, a) :: rest -> bu_picked s ≡ₚ a :: picked ->
    burst_step s {| bu_now := bu_now s; bu_store := bu_store s; bu_cycle := bu_cycle s;
                    bu_flight := rest; bu_picked := picked |}
| burst_gc s now br :
    bu_now s <= now <= t1 -> BindingsGC (bu_store s) now = Ret br ->
    burst_step s {| bu_now := now; bu_store := br; bu_cycle := option_map (cons br) (bu_cycle s);
                    bu_flight := bu_flight s; bu_picked := bu_picked s |}.

(** A store of the plugin's, whose bindings no hot-value policy counts any more. *)
Definition quiet_store (br : BindingRecords) : Prop :=
  heap_inv (br_bindings br) /\ br_size br = 1024 /\ br_gcTimeRange br = 5 * Minute /\
  Z.of_nat (length (br_bindings br)) <= 1024 /\
  Forall (fun b => b_Timestamp b < t0 / Second /\
    Forall (fun hv => b_Timestamp b <= timeline t0 (hv_TimeRange hv)) (HotValue (Spec policy)))
    (br_bindings br).

Definition burst_start (br : BindingRecords) : burst :=
  {| bu_now := t0; bu_store := br; bu_cycle := None; bu_flight := []; bu_picked := [] |}.

(** The burst is shorter than the range of every policy and than the collector's. *)
Definition brief : Prop :=
  t0 <= t1 /\ t1 / Second - t0 / Second < 300 /\
  Forall (fun hv => t1 / Second - t0 / Second < durSeconds (hv_TimeRange hv)) (HotValue (Spec policy)).

Definition moderate_policy : Prop :=
  Forall (fun hv => 0 < hv_Count hv) (HotValue (Spec policy)) /\
  Z.of_nat (length (HotValue (Spec policy))) <= 2 ^ 20 /\
  forall b, b ∈ nodes -> int64_min + 2 ^ 60 <= usage b <= int64_max.

End Burst.

(** The hot value of [k] bindings that every policy counts. *)
Definition heat (l : list HotValuePolicy) (k : Z) : Z :=
  foldr (fun hv h => k / hv_Count hv + h) 0 l.

(** What the binds under way and the pod itself can add to a hot value. *)
Definition heat_slack (l : list HotValuePolicy) (others : Z) : Z :=
  foldr (fun hv h => others / hv_Count hv + 1 + h) 0 l.

(** ** Lemmas *)

Lemma filter_iff_Forall {A} (P Q : A -> Prop) `{!forall x, Decision (P x)} `{!forall x, Decision (Q x)} l :
  Forall (fun x => P x <-> Q x) l -> filter P l = filter Q l.
Proof.
  induction 1 as [|x l Hx _ IH]; [done|]. rewrite !filter_cons, IH.
  by destruct (decide (P x)), (decide (Q x)); naive_solver.
Qed.

Lemma heat_mono l k k' : Forall (fun hv => 0 < hv_Count hv) l -> k <= k' -> heat l k <= heat l k'.
Proof.
  intros Hl Hk. induction Hl as [|hv l Hhv _ IH]; cbn [heat foldr]; [done|].
  apply Z.add_le_mono; [|done]. by apply Z.div_le_mono.
Qed.

Lemma heat_add l k m : Forall (fun hv => 0 < hv_Count hv) l ->
  heat l (k + m + 1) <= heat l k + heat_slack l m.
Proof.
  intros Hl. induction Hl as [|hv l Hhv _ IH]; cbn [heat heat_slack foldr]; [done|].
  fold (heat l (k + m + 1)) (heat l k) (heat_slack l m).
  assert ((k + m + 1) / hv_Count hv <= k / hv_Count hv + (m / hv_Count hv + 1)); [|lia].
  set (c := hv_Count hv) in *.
  pose proof (Z.div_mod k c ltac:(lia)). pose proof (Z.div_mod m c ltac:(lia)).
  pose proof (Z.mod_pos_bound k c Hhv). pose proof (Z.mod_pos_bound m c Hhv).
  assert (k + m + 1 < c * (k / c + (m / c + 1) + 1)) as Hlt by nia.
  apply Z.div_lt_upper_bound in Hlt; lia.
Qed.

(** A hot value that is read from stores with at least, or at most, [k] bindings each. *)
Lemma hot_value_heat recs clock n l k : Forall (fun hv => 0 < hv_Count hv) l ->
  (forall i hv, hv ∈ l -> k <= GetLastNodeBindingCount (recs i) (clock i) n (hv_TimeRange hv)) ->
  forall i, heat l k <= hot_value recs clock i n l.
Proof.
  intros Hl. induction Hl as [|hv l Hhv _ IH]; intros Hk i; cbn [heat foldr hot_value]; [done|].
  apply Z.add_le_mono; [apply Z.div_le_mono; [done|apply Hk; left]|].
  apply IH. intros i' hv' Hin. apply Hk. by right.
Qed.

Lemma heat_hot_value recs clock n l k : Forall (fun hv => 0 < hv_Count hv) l ->
  (forall i hv, hv ∈ l -> GetLastNodeBindingCount (recs i) (clock i) n (hv_TimeRange hv) <= k) ->
  forall i, hot_value recs clock i n l <= heat l k.
Proof.
  intros Hl. induction Hl as [|hv l Hhv _ IH]; intros Hk i; cbn [heat foldr hot_value]; [done|].
  apply Z.add_le_mono; [apply Z.div_le_mono; [done|apply Hk; left]|].
  apply IH. intros i' hv' Hin. apply Hk. by right.
Qed.

Section BurstLemmas.
Context `{QL : QuantityLib} `{SL : ScoreLib}.
Context (env : Env) (oob : f64 -> Z) (policy : DynamicSchedulerPolicy).
Context (nodes : list string) (usage : string -> Z) (t0 t1 : Z) (others : Z).
Hypothesis Hbrief : brief policy t0 t1.
Hypothesis Hmod : moderate_policy policy nodes usage.

Let hots := HotValue (Spec policy).

(** The bindings of the burst are those since its first second. *)
Definition burst_count (br : BindingRecords) (n : string) : Z :=
  Z.of_nat (length (counted (t0 / Second - 1) n (br_bindings br))).

(** A store of the burst: its bindings are of the burst, or no policy counts them. *)
Definition burst_store (br : BindingRecords) : Prop :=
  heap_inv (br_bindings br) /\ br_size br = 1024 /\ br_gcTimeRange br = 5 * Minute /\
  Z.of_nat (length (br_bindings br)) <= 1024 /\
  Forall (fun b => t0 / Second <= b_Timestamp b \/ b_Timestamp b < t0 / Second /\
    Forall (fun hv => b_Timestamp b <= timeline t0 (hv_TimeRange hv)) hots) (br_bindings br).

(** Every policy counts exactly the bindings of the burst, at any time of it. *)
Lemma burst_window br c n hv : burst_store br -> t0 <= c <= t1 -> hv ∈ hots ->
  GetLastNodeBindingCount br c n (hv_TimeRange hv) = burst_count br n.
Proof.
  intros (_ & _ & _ & _ & Hall) [Hc Hc'] Hhv. rewrite count_counted. unfold burst_count, counted.
  do 2 f_equal. destruct Hbrief as (_ & _ & Hw).
  pose proof (proj1 (Forall_forall _ _) Hw hv Hhv) as Hr. cbn beta in Hr.
  assert (timeline t0 (hv_TimeRange hv) <= timeline c (hv_TimeRange hv)) as Ht by (by apply timeline_mono).
  assert (timeline c (hv_TimeRange hv) < t0 / Second) as Hlt.
  { unfold timeline. pose proof (Z.div_le_mono c t1 Second ltac:(done) Hc'). lia. }
  apply filter_iff_Forall, (Forall_impl _ _ _ Hall). intros b [Hb|[Hb Hold]].
  { split; intros [? ?]; (split; [lia|done]). }
  pose proof (proj1 (Forall_forall _ _) Hold hv Hhv) as Ho. cbn beta in Ho.
  split; intros [? _]; lia.
Qed.

Lemma burst_store_small br : burst_store br -> Z.of_nat (length (br_bindings br)) <= 2 ^ 32.
Proof. intros (_ & _ & _ & Hl & _). etrans; [exact Hl|]. by apply Z.leb_le. Qed.

(** The score of a node with [k] bindings of the burst. *)
Definition level (n : string) (k : Z) : Z :=
  Z.max MinNodeScore (Z.min (usage n - 10 * heat hots k) MaxNodeScore).

Lemma level_mono n k k' : k <= k' -> level n k' <= level n k.
Proof. intros Hk. unfold level. pose proof (heat_mono hots k k' (proj1 Hmod) Hk). lia. Qed.

Lemma heat_slack_pos l m : Forall (fun hv => 0 < hv_Count hv) l -> 0 <= m -> 0 <= heat_slack l m.
Proof.
  intros Hl Hm. induction Hl as [|hv l Hhv _ IH]; cbn [heat_slack foldr]; [done|].
  fold (heat_slack l m). pose proof (Z.div_pos m (hv_Count hv) Hm Hhv). lia.
Qed.

Lemma level_add n k m : 0 <= m -> level n k - 10 * heat_slack hots m <= level n (k + m + 1).
Proof.
  intros Hm. unfold level. pose proof (heat_add hots k m (proj1 Hmod)).
  pose proof (heat_slack_pos hots m (proj1 Hmod) Hm). lia.
Qed.

(** What [Score] returns in the burst lies between the levels of the counts it may have seen. *)
Lemma burst_score snapshot recs hclock clock b v k k' :
  b ∈ nodes -> same_usage env oob policy usage snapshot clock b ->
  (forall i, burst_store (recs i) /\ t0 <= hclock i <= t1 /\ k <= burst_count (recs i) b <= k') ->
  Score env oob policy snapshot recs hclock clock b = Ret (v, None) -> level b k' <= v <= level b k.
Proof.
  intros Hb (ni & node & Hsn & Hni & Hu) Hr. destruct Hmod as (Hc & Hlen & Hus).
  rewrite (Score_from env oob policy snapshot recs hclock clock b ni node (usage b))
    by (done || apply Hus || (intros i; apply burst_store_small, Hr); done).
  intros [= <-].
  assert (forall i hv, hv ∈ hots ->
    k <= GetLastNodeBindingCount (recs i) (hclock i) b (hv_TimeRange hv) <= k') as Hk.
  { intros i hv Hhv. destruct (Hr i) as (Hs & Ht & Hki). by rewrite burst_window. }
  pose proof (hot_value_heat recs hclock b hots k Hc (fun i hv Hhv => proj1 (Hk i hv Hhv)) 0%nat).
  pose proof (heat_hot_value recs hclock b hots k' Hc (fun i hv Hhv => proj2 (Hk i hv Hhv)) 0%nat).
  unfold level, hots in *. lia.
Qed.

(** *** The stores *)

Lemma counted_snoc_at w n b bs :
  Z.of_nat (length (counted (w - 1) n (b :: bs)))
  = Z.of_nat (length (counted (w - 1) n bs)) + (if decide (w <= b_Timestamp b /\ b_Node b = n) then 1 else 0).
Proof.
  unfold counted. rewrite filter_cons.
  repeat case_decide; cbn [length]; try lia; exfalso; naive_solver lia.
Qed.

Lemma burst_bind_store br now p a br' :
  burst_store br -> t0 <= now -> Z.of_nat (length (br_bindings br)) < br_size br ->
  PostBind br now p a = Ret br' ->
  burst_store br' /\ forall n, burst_count br' n = burst_count br n + (if decide (a = n) then 1 else 0).
Proof.
  intros (Hi & Hs & Hg & Hl & Hall) Ht Hroom Hp. unfold PostBind in Hp.
  match type of Hp with AddBinding _ ?x = _ => set (b := x) in Hp end.
  destruct (AddBinding_room br b Hi ltac:(lia)) as (br1 & Ha & Hi' & Hs' & Hg' & Hperm).
  assert (br1 = br') as -> by congruence.
  assert (t0 / Second <= b_Timestamp b) as Hb by (by apply Z.div_le_mono). split.
  - split_and!; [done|congruence|congruence| |].
    + rewrite (Permutation_length Hperm). cbn [length]. lia.
    + rewrite Hperm. constructor; [by left|done].
  - intros n. unfold burst_count. rewrite Hperm, counted_snoc_at. f_equal. cbn [b_Node b].
    repeat case_decide; naive_solver.
Qed.

Lemma burst_gc_store br now br' :
  burst_store br -> now <= t1 -> BindingsGC br now = Ret br' ->
  burst_store br' /\ forall n, burst_count br' n = burst_count br n.
Proof.
  intros (Hi & Hs & Hg & Hl & Hall) Ht Hgc.
  destruct (BindingsGC_spec br now Hi) as (br1 & He & Hi' & Hs' & Hg' & Hperm).
  assert (br1 = br') as -> by congruence. rewrite Hg in Hperm.
  change (5 * Minute =? 0) with false in Hperm. cbn [negb] in Hperm.
  assert (durSeconds (5 * Minute) = 300) as H5 by (by apply (durSeconds_whole 300)).
  assert (timeline now (5 * Minute) <= t0 / Second - 1) as Htl.
  { unfold timeline. rewrite H5. pose proof (Z.div_le_mono now t1 Second ltac:(done) Ht).
    destruct Hbrief as (_ & Hb & _). lia. }
  split.
  - split_and!; [done|congruence|congruence| |].
    + rewrite (Permutation_length Hperm).
      pose proof (fresh_length (timeline now (5 * Minute)) (br_bindings br)).
      lia.
    + rewrite Hperm. apply Forall_forall. intros x [_ Hx]%list_elem_of_filter.
      by apply (proj1 (Forall_forall _ _) Hall).
  - intros n. unfold burst_count. by rewrite Hperm, counted_fresh.
Qed.

(** *** Every state of a burst *)

(** The binds that are under way for a node, and the pods placed on it. *)
Definition under_way (s : burst) (n : string) : Z :=
  Z.of_nat (length (filter (fun f : Pod * string => f.2 = n) (bu_flight s))).
Definition placed (s : burst) (n : string) : Z :=
  Z.of_nat (length (filter (fun a => a = n) (bu_picked s))).

(** A store that a read of the cycle may find: at most [others] bindings behind the picks, and
    not ahead of the store as it is now. *)
Definition readable (s : burst) (br : BindingRecords) : Prop :=
  burst_store br /\ forall n, placed s n <= burst_count br n + others /\
    burst_count br n <= burst_count (bu_store s) n.

(** When [a] was picked last it beat [b], with [ka] and [kb] bindings. *)
Definition beat (s : burst) (a b : string) : Prop :=
  exists ka kb, kb <= burst_count (bu_store s) b /\ placed s a <= ka + others + 1 /\
    level b kb <= level a ka.

Definition burst_inv (s : burst) : Prop :=
  t0 <= bu_now s /\ burst_store (bu_store s) /\
  (forall n, burst_count (bu_store s) n + under_way s n = placed s n) /\
  (forall seen, bu_cycle s = Some seen ->
     Z.of_nat (length (bu_flight s)) <= others /\ Forall (readable s) seen) /\
  forall a b, a ∈ bu_picked s -> b ∈ nodes -> beat s a b.

Lemma quiet_burst_store br : quiet_store policy t0 br -> burst_store br.
Proof.
  intros (? & ? & ? & ? & Hall). split_and!; try done. eapply Forall_impl; [exact Hall|].
  intros b Hb. by right.
Qed.

Lemma quiet_count br n : quiet_store policy t0 br -> burst_count br n = 0.
Proof.
  intros (_ & _ & _ & _ & Hall). unfold burst_count, counted.
  induction Hall as [|b bs [Hb _] _ IH]; [done|]. by rewrite filter_cons_False by lia.
Qed.

Lemma burst_start_inv br : quiet_store policy t0 br -> burst_inv (burst_start t0 br).
Proof.
  intros Hq. split_and!; cbn; [done|by apply quiet_burst_store|intros n; by rewrite quiet_count|done|].
  by intros a b ?%elem_of_nil.
Qed.

Lemma placed_cons (a n : string) l :
  Z.of_nat (length (filter (fun x => x = n) (a :: l)))
  = (if decide (a = n) then 1 else 0) + Z.of_nat (length (filter (fun x => x = n) l)).
Proof. rewrite filter_cons. case_decide; cbn [length]; lia. Qed.

Lemma under_way_cons (p : Pod) (a n : string) l :
  Z.of_nat (length (filter (fun f : Pod * string => f.2 = n) ((p, a) :: l)))
  = (if decide (a = n) then 1 else 0) + Z.of_nat (length (filter (fun f : Pod * string => f.2 = n) l)).
Proof. rewrite filter_cons. cbn [snd]. case_decide; cbn [length]; lia. Qed.

(** What a step that adds bindings keeps. *)
Lemma inv_stores s s' :
  bu_picked s' = bu_picked s ->
  (forall n, burst_count (bu_store s) n <= burst_count (bu_store s') n) ->
  (forall br, readable s br -> readable s' br) /\ (forall a b, beat s a b -> beat s' a b).
Proof.
  intros Hp Hc. unfold readable, beat, placed. rewrite Hp. split.
  - intros br [Hb Hr]. split; [done|]. intros n. destruct (Hr n). specialize (Hc n). lia.
  - intros a b (ka & kb & ? & ? & ?). exists ka, kb. specialize (Hc b). split_and!; try done. lia.
Qed.

Lemma inv_pick s now seen p a snapshot recs hclock clock value :
  0 <= others -> burst_inv s -> bu_now s <= now <= t1 -> bu_cycle s = Some seen -> a ∈ nodes ->
  (forall b i, b ∈ nodes -> recs b i ∈ seen /\ t0 <= hclock b i <= now) ->
  (forall b, b ∈ nodes -> same_usage env oob policy usage snapshot (clock b) b /\
     Score env oob policy snapshot (recs b) (hclock b) (clock b) b = Ret (value b, None) /\
     value b <= value a) ->
  burst_inv {| bu_now := now; bu_store := bu_store s; bu_cycle := None;
               bu_flight := (p, a) :: bu_flight s; bu_picked := a :: bu_picked s |}.
Proof.
  intros Ho (Ht & Hs & Hf & Hc & Hb) Hn Hcy Ha Hr Hv.
  match goal with |- burst_inv ?x => set (s' := x) end.
  assert (forall a', placed s' a' = (if decide (a = a') then 1 else 0) + placed s a') as Hpl
    by (intros; apply placed_cons).
  split_and!; [cbn; lia|done| |done|].
  - intros n. rewrite Hpl. specialize (Hf n).
    assert (under_way s' n = (if decide (a = n) then 1 else 0) + under_way s n) as ->
      by apply under_way_cons.
    change (bu_store s') with (bu_store s). lia.
  - intros a' b Hin Hbn. destruct (decide (a' = a)) as [->|Hne].
    + exists (Z.max 0 (placed s a - others)), (burst_count (bu_store s) b).
      rewrite Hpl, decide_True by done. split_and!; [done|lia|].
      assert (forall b' i, b' ∈ nodes -> burst_store (recs b' i) /\ t0 <= hclock b' i <= t1 /\
        Z.max 0 (placed s b' - others) <= burst_count (recs b' i) b' <= burst_count (bu_store s) b') as Hread.
      { intros b' i Hb'. destruct (Hr b' i Hb') as [Hin' Hcl].
        destruct (proj1 (Forall_forall _ _) (proj2 (Hc seen Hcy)) _ Hin') as [Hst Hcn]. specialize (Hcn b').
        split_and!; try done; unfold burst_count in *; lia. }
      destruct (Hv b Hbn) as (Hu & Hsc & Hle). destruct (Hv a Ha) as (Hu' & Hsc' & _).
      destruct (burst_score snapshot (recs b) (hclock b) (clock b) b _ _ _ Hbn Hu (fun i => Hread b i Hbn) Hsc).
      destruct (burst_score snapshot (recs a) (hclock a) (clock a) a _ _ _ Ha Hu' (fun i => Hread a i Ha) Hsc').
      lia.
    + apply elem_of_cons in Hin as [|Hin]; [done|]. destruct (Hb a' b Hin Hbn) as (ka & kb & ? & ? & ?).
      exists ka, kb. rewrite Hpl, decide_False by done. by split_and!.
Qed.

Lemma inv_failed s p a rest picked :
  burst_inv s -> bu_flight s ≡ₚ (p, a) :: rest -> bu_picked s ≡ₚ a :: picked ->
  burst_inv {| bu_now := bu_now s; bu_store := bu_store s; bu_cycle := bu_cycle s;
               bu_flight := rest; bu_picked := picked |}.
Proof.
  intros (Ht & Hs & Hf & Hc & Hb) Hfl Hp.
  match goal with |- burst_inv ?x => set (s' := x) end.
  assert (forall n, placed s n = (if decide (a = n) then 1 else 0) + placed s' n) as Hpl
    by (intros n; unfold placed; rewrite Hp; apply placed_cons).
  assert (forall n, placed s' n <= placed s n) as Hle by (intros n; rewrite Hpl; case_decide; lia).
  assert (forall n, under_way s n = (if decide (a = n) then 1 else 0) + under_way s' n) as Hun
    by (intros n; unfold under_way; rewrite Hfl; apply under_way_cons).
  split_and!; [done|done| | |].
  - intros n. specialize (Hf n). rewrite Hpl, Hun in Hf. cbn [bu_store s']. lia.
  - intros seen Hcy. destruct (Hc seen Hcy) as [Hlen Hread]. split.
    { rewrite Hfl in Hlen. cbn [length s' bu_flight] in *. lia. }
    eapply Forall_impl; [exact Hread|]. intros br [Hbs Hr]. split; [done|].
    intros n. specialize (Hr n). specialize (Hle n). cbn [bu_store s']. lia.
  - intros a' b Hin Hbn. destruct (Hb a' b) as (ka & kb & ? & ? & ?); [by rewrite Hp; right|done|].
    exists ka, kb. specialize (Hle a'). split_and!; try done. lia.
Qed.

Lemma under_way_bounds s n : 0 <= under_way s n <= Z.of_nat (length (bu_flight s)).
Proof.
  unfold under_way. pose proof (length_filter (fun f : Pod * string => f.2 = n) (bu_flight s)). lia.
Qed.

Lemma inv_grows s s' :
  burst_inv s -> bu_now s <= bu_now s' -> burst_store (bu_store s') ->
  bu_cycle s' = option_map (cons (bu_store s')) (bu_cycle s) -> bu_picked s' = bu_picked s ->
  (length (bu_flight s') <= length (bu_flight s))%nat ->
  (forall n, burst_count (bu_store s) n <= burst_count (bu_store s') n /\
    burst_count (bu_store s') n + under_way s' n = placed s n) ->
  burst_inv s'.
Proof.
  intros (Ht & Hs & Hf & Hc & Hb) Hn Hst Hcy Hp Hlen Hcn.
  destruct (inv_stores s s' Hp) as [Hread Hbeat]; [apply Hcn|].
  split_and!; [lia|done| | |].
  - intros n. unfold placed. rewrite Hp. apply Hcn.
  - intros seen. rewrite Hcy. destruct (bu_cycle s) as [seen0|]; [|done]. intros [= <-].
    destruct (Hc seen0 eq_refl) as [Hl Hr]. split; [lia|]. constructor; [|by eapply Forall_impl; [exact Hr|]].
    split; [done|]. intros n. destruct (Hcn n) as [_ He]. pose proof (under_way_bounds s' n).
    unfold placed in *. rewrite Hp. lia.
  - intros a b. rewrite Hp. intros Ha Hbn. by apply Hbeat, Hb.
Qed.

Lemma burst_inv_step s s' :
  0 <= others -> burst_inv s -> burst_step env oob policy nodes usage t0 t1 others s s' -> burst_inv s'.
Proof.
  intros Ho Hi Hst. destruct Hst as [s Hcy Hl|s now seen p a snap recs hc clock value Hn Hcy Ha Hr Hv
    |s now p a rest br Hn Hfl Hroom Hp|s p a rest picked Hfl Hp|s now br Hn Hg].
  - destruct Hi as (Ht & Hs & Hf & _ & Hb). split_and!; try done. intros seen [= <-]. split; [done|].
    constructor; [|constructor]. split; [done|]. intros n. specialize (Hf n).
    pose proof (under_way_bounds s n). unfold placed in *. cbn [bu_store bu_picked]. lia.
  - by eapply inv_pick.
  - pose proof Hi as (Ht & Hs & Hf & _ & _).
    destruct (burst_bind_store (bu_store s) now p a br Hs ltac:(lia) Hroom Hp) as [Hbs Hcn].
    eapply (inv_grows s); try done; [cbn; lia| |].
    + cbn [bu_flight]. rewrite Hfl. cbn [length]. lia.
    + intros n. cbn [bu_store]. rewrite Hcn. specialize (Hf n).
      assert (under_way s n = (if decide (a = n) then 1 else 0) + Z.of_nat (length (filter
        (fun f : Pod * string => f.2 = n) rest))) as Hu by (unfold under_way; rewrite Hfl; apply under_way_cons).
      unfold under_way at 1. cbn [bu_flight]. case_decide; lia.
  - by eapply inv_failed.
  - pose proof Hi as (Ht & Hs & Hf & _ & _).
    destruct (burst_gc_store (bu_store s) now br Hs ltac:(lia) Hg) as [Hbs Hcn].
    eapply (inv_grows s); try done; [cbn; lia|].
    intros n. cbn [bu_store]. rewrite Hcn. split; [done|]. apply Hf.
Qed.

Lemma burst_reached br s :
  0 <= others -> quiet_store policy t0 br ->
  rtc (burst_step env oob policy nodes usage t0 t1 others) (burst_start t0 br) s -> burst_inv s.
Proof.
  intros Ho Hq Hr. pose proof (burst_start_inv br Hq) as H0.
  induction Hr as [|s1 s2 s3 Hs _ IH]; [done|]. by eapply IH, burst_inv_step.
Qed.

End BurstLemmas.

(** ** Property *)

(** C5: hot values spread bursts. However scheduling cycles, binds that are under way and the
    collector interleave, from a store with nothing recent and for a time shorter than the
    policies' ranges, while the usages in the annotations stay the same and the store has room:
    the score of a node is always its usage's less ten times the hot value of exactly the pods that
    the burst has bound to it ([level]), and when every pod is put on a node of the highest [Score],
    no node that got a pod is, at any later point of the burst, beaten by another one by more than
    ten times what the pod itself and the binds that may be under way add to the hot value
    ([heat_slack]). With one bind at a time that is ten per policy. *)
Theorem burst_spreads `{QL : QuantityLib} `{SL : ScoreLib} (env : Env) (oob : f64 -> Z)
    (policy : DynamicSchedulerPolicy) (nodes : list string) (usage : string -> Z) (t0 t1 others : Z)
    (br : BindingRecords) (s : burst) (snapshot : string -> result NodeInfo) (hclock : nat -> Z)
    (clock : string -> nat -> Z) (a b : string) (va vb : Z) :
  brief policy t0 t1 -> moderate_policy policy nodes usage -> 0 <= others -> quiet_store policy t0 br ->
  rtc (burst_step env oob policy nodes usage t0 t1 others) (burst_start t0 br) s ->
  a ∈ bu_picked s -> a ∈ nodes -> b ∈ nodes -> (forall i, t0 <= hclock i <= t1) ->
  same_usage env oob policy usage snapshot (clock a) a ->
  same_usage env oob policy usage snapshot (clock b) b ->
  Score env oob policy snapshot (fun _ => bu_store s) hclock (clock a) a = Ret (va, None) ->
  Score env oob policy snapshot (fun _ => bu_store s) hclock (clock b) b = Ret (vb, None) ->
  va = level policy usage a (placed s a - under_way s a) /\
  vb = level policy usage b (placed s b - under_way s b) /\
  vb <= va + 10 * heat_slack (HotValue (Spec policy)) others.
Proof.
  intros Hbr Hm Ho Hq Hr Hp Ha Hb Hh Hua Hub Hva Hvb.
  destruct (burst_reached env oob policy nodes usage t0 t1 others Hbr Hm br s Ho Hq Hr)
    as (Ht & Hs & Hf & _ & Hbeat).
  destruct (Hbeat a b Hp Hb) as (ka & kb & Hkb & Hka & Hlev).
  destruct (burst_score env oob policy nodes usage t0 t1 Hbr Hm snapshot _ hclock (clock a) a va _ _ Ha Hua
    (fun i => conj Hs (conj (Hh i) (conj (Z.le_refl _) (Z.le_refl _)))) Hva) as [Hla Hla'].
  destruct (burst_score env oob policy nodes usage t0 t1 Hbr Hm snapshot _ hclock (clock b) b vb _ _ Hb Hub
    (fun i => conj Hs (conj (Hh i) (conj (Z.le_refl _) (Z.le_refl _)))) Hvb) as [Hlb' Hlb].
  assert (forall n, burst_count t0 (bu_store s) n = placed s n - under_way s n) as Hcn
    by (intros n; specialize (Hf n); lia).
  rewrite <- !Hcn. split; [lia|]. split; [lia|].
  pose proof (level_mono policy nodes usage Hm b kb _ Hkb) as H1.
  pose proof (level_add policy nodes usage Hm a ka others Ho) as H2.
  assert (burst_count t0 (bu_store s) a <= ka + others + 1) as Hc.
  { specialize (Hf a). pose proof (under_way_bounds s a). lia. }
  pose proof (level_mono policy nodes usage Hm a _ _ Hc) as H3. lia.
Qed.

(** ** Witness *)

Section Witness.
#[local] Existing Instance MilliQuantities.
#[local] Existing Instance ZeroToHundred.

(** Two nodes of the same usage, 10%; the first pod is on [n1]. *)
Definition bx_node (name : string) : Node :=
  {| node_meta := {| om_Name := name; om_Namespace := "";
                     om_Annotations := Some {["cpu" := "0.10000,1970-01-01T08:00:00Z"]};
                     om_OwnerReferences := []; om_DeletionTimestamp := None; om_ResourceVersion := "" |};
     node_Addresses := []; node_Capacity := ∅ |}.

Definition bx_snapshot (n : string) : result NodeInfo :=
  Ok {| ni_Node := Some (bx_node n); ni_Pods := [] |}.

Definition bx_policy : DynamicSchedulerPolicy := ex_policy (f64_of_Z 1) 1.
Definition bx_nodes : list string := ["n1"; "n2"].
Definition bx_time : Z := 60 * Second.
Definition bx_empty : BindingRecords := {| br_size := 1024; br_bindings := []; br_gcTimeRange := 5 * Minute |}.

Definition bx_store : BindingRecords :=
  {| br_size := 1024;
     br_bindings := [{| b_Node := "n1"; b_Namespace := ""; b_PodName := "p1"; b_Timestamp := 60 |}];
     br_gcTimeRange := 5 * Minute |}.

Definition bx_state : burst :=
  {| bu_now := bx_time; bu_store := bx_store; bu_cycle := None; bu_flight := []; bu_picked := ["n1"] |}.

Lemma bx_usage b : same_usage ex_env amd64 bx_policy (fun _ => 90) bx_snapshot ex_clock b.
Proof. exists {| ni_Node := Some (bx_node b); ni_Pods := [] |}, (bx_node b). by split_and!; vm_compute. Qed.

Definition bx_begun : burst :=
  {| bu_now := bx_time; bu_store := bx_empty; bu_cycle := Some [bx_empty]; bu_flight := [];
     bu_picked := [] |}.
Definition bx_picked : burst :=
  {| bu_now := bx_time; bu_store := bx_empty; bu_cycle := None; bu_flight := [(ex_pod, "n1")];
     bu_picked := ["n1"] |}.

Lemma bx_run : rtc (burst_step ex_env amd64 bx_policy bx_nodes (fun _ => 90) bx_time (61 * Second) 0)
  (burst_start bx_time bx_empty) bx_state.
Proof.
  apply (rtc_l _ _ bx_begun).
  { by apply (burst_begin _ _ _ _ _ _ _ _ (burst_start bx_time bx_empty)). }
  apply (rtc_l _ _ bx_picked).
  { apply (burst_pick _ _ _ _ _ _ _ _ bx_begun bx_time [bx_empty] ex_pod "n1" bx_snapshot (fun _ _ => bx_empty)
      (fun _ _ => bx_time) (fun _ => ex_clock) (fun _ => 90)); cbn; [done|done|left| |].
    - intros b i _. split; [left|done].
    - intros b _. split_and!; [apply bx_usage|by vm_compute|done]. }
  apply rtc_once.
  by apply (burst_bind _ _ _ _ _ _ _ _ bx_picked bx_time ex_pod "n1" [] bx_store).
Qed.

(** The other node is ahead by exactly ten now. *)
Lemma burst_spreads_witness :
  Score ex_env amd64 bx_policy bx_snapshot (fun _ => bx_store) ex_clock ex_clock "n1" = Ret (80, None) /\
  Score ex_env amd64 bx_policy bx_snapshot (fun _ => bx_store) ex_clock ex_clock "n2" = Ret (90, None) /\
  80 = level bx_policy (fun _ => 90) "n1" (placed bx_state "n1" - under_way bx_state "n1") /\
  90 = level bx_policy (fun _ => 90) "n2" (placed bx_state "n2" - under_way bx_state "n2") /\
  90 <= 80 + 10 * heat_slack (HotValue (Spec bx_policy)) 0.
Proof.
  split; [vm_compute; reflexivity|]. split; [vm_compute; reflexivity|].
  apply (burst_spreads ex_env amd64 bx_policy bx_nodes (fun _ => 90) bx_time (61 * Second) 0 bx_empty bx_state
    bx_snapshot ex_clock (fun _ => ex_clock) "n1" "n2").
  - split_and!; [done|done|repeat constructor].
  - split_and!; [repeat constructor|done|intros b _; split; vm_compute; discriminate].
  - done.
  - split_and!; done || constructor.
  - exact bx_run.
  - by left.
  - by left.
  - right. left.
  - intros i. split; vm_compute; discriminate.
  - apply bx_usage.
  - apply bx_usage.
  - vm_compute. reflexivity.
  - vm_compute. reflexivity.
Defined.

End Witness.
