(* ===== verification/Options.v ===== *)
(** * cmd/controller/app: options and configuration of the annotator

    The defaults of the command line, and how they become the controller's configuration. The
    Kubernetes and Prometheus clients are made by libraries: [make_clients] says whether that
    succeeds. Flag parsing is pflag's. *)

From S2P Require Import Prelude GoTime K8s Policy Utils AnnotatorApp.

Open Scope string_scope.
Open Scope Z_scope.

(** pkg/controller/annotator/config/types.go *)
Record AnnotatorConfiguration := {
  BindingHeapSize : Z;
  ConcurrentSyncs : Z;
  PolicyConfigPath : string;
  PrometheusAddr : string }.

Record LeaderElectionConfiguration := {
  LeaderElect : bool;
  LeaseDuration : Duration;
  RenewDeadline : Duration;
  RetryPeriod : Duration;
  ResourceLock : string;
  ResourceName : string;
  ResourceNamespace : string }.

Record Options := {
  o_AnnotatorConfiguration : AnnotatorConfiguration;
  o_LeaderElection : LeaderElectionConfiguration;
  o_master : string;
  o_kubeconfig : string;
  o_healthPort : string }.

Definition NewOptions (env : Env) : Options :=
  {| o_AnnotatorConfiguration :=
       {| BindingHeapSize := 1024; ConcurrentSyncs := 1;
          PolicyConfigPath := "/etc/kubernetes/policy.yaml"; PrometheusAddr := "" |};
     o_LeaderElection :=
       {| LeaderElect := true; LeaseDuration := 15 * Second; RenewDeadline := 10 * Second;
          RetryPeriod := 2 * Second; ResourceLock := "leases";
          ResourceName := "crane-scheduler-controller";
          ResourceNamespace := GetSystemNamespace env |};
     o_master := ""; o_kubeconfig := ""; o_healthPort := "8090" |}.

Definition Validate (o : Options) : option error := None.

(** ** Flags

    The flags the program binds itself, with what setting one does; [ParseInt32] is pflag's. The
    flags of leader election are bound by a library. *)

Section Flags.
Variable ParseInt32 : string -> result Z.
Variable LeaderElectionFlags : list (string * (string -> Options -> result Options)).

Definition set_annotator (f : AnnotatorConfiguration -> AnnotatorConfiguration) (o : Options) : Options :=
  {| o_AnnotatorConfiguration := f (o_AnnotatorConfiguration o); o_LeaderElection := o_LeaderElection o;
     o_master := o_master o; o_kubeconfig := o_kubeconfig o; o_healthPort := o_healthPort o |}.

Definition StringVar (set : string -> Options -> Options) (v : string) (o : Options) : result Options :=
  Ok (set v o).

Definition Int32Var (set : Z -> Options -> Options) (v : string) (o : Options) : result Options :=
  match ParseInt32 v with Ok z => Ok (set z o) | Err e => Err e end.

Definition Flags : list (string * (string -> Options -> result Options)) :=
  ([("policy-config-path", StringVar (fun v => set_annotator (fun c =>
       {| BindingHeapSize := BindingHeapSize c; ConcurrentSyncs := ConcurrentSyncs c;
          PolicyConfigPath := v; PrometheusAddr := PrometheusAddr c |})));
    ("prometheus-address", StringVar (fun v => set_annotator (fun c =>
       {| BindingHeapSize := BindingHeapSize c; ConcurrentSyncs := ConcurrentSyncs c;
          PolicyConfigPath := PolicyConfigPath c; PrometheusAddr := v |})));
    ("binding-heap-size", Int32Var (fun v => set_annotator (fun c =>
       {| BindingHeapSize := v; ConcurrentSyncs := ConcurrentSyncs c;
          PolicyConfigPath := PolicyConfigPath c; PrometheusAddr := PrometheusAddr c |})));
    ("concurrent-syncs", Int32Var (fun v => set_annotator (fun c =>
       {| BindingHeapSize := BindingHeapSize c; ConcurrentSyncs := v;
          PolicyConfigPath := PolicyConfigPath c; PrometheusAddr := PrometheusAddr c |})));
    ("kubeconfig", StringVar (fun v o =>
       {| o_AnnotatorConfiguration := o_AnnotatorConfiguration o; o_LeaderElection := o_LeaderElection o;
          o_master := o_master o; o_kubeconfig := v; o_healthPort := o_healthPort o |}));
    ("master", StringVar (fun v o =>
       {| o_AnnotatorConfiguration := o_AnnotatorConfiguration o; o_LeaderElection := o_LeaderElection o;
          o_master := v; o_kubeconfig := o_kubeconfig o; o_healthPort := o_healthPort o |}));
    ("health-port", StringVar (fun v o =>
       {| o_AnnotatorConfiguration := o_AnnotatorConfiguration o; o_LeaderElection := o_LeaderElection o;
          o_master := o_master o; o_kubeconfig := o_kubeconfig o; o_healthPort := v |}))]
   ++ LeaderElectionFlags)%list.

End Flags.

(** ** The configuration *)

Section Configuration.
(** rest.Config, the API clients and the Prometheus client are types of libraries, and so are
    the functions that make them; [NewForConfigOrDie] panics where the other returns an error. *)
Context {rest clientset prom : Type}.

(** The configuration, without the event recorder, which nothing sets. *)
Record Config := {
  c_AnnotatorConfig : AnnotatorConfiguration;
  c_LeaderElection : LeaderElectionConfiguration;
  c_KubeClient : clientset;
  c_PromClient : prom;
  c_Policy : DynamicSchedulerPolicy;
  c_LeaderElectionClient : clientset;
  c_HealthPort : string }.

Variable LoadPolicy : string -> result DynamicSchedulerPolicy.
Variable InClusterConfig : result rest.
Variable BuildConfigFromFlags : string -> string -> result rest.
Variable AddUserAgent : rest -> string -> rest.
Variable NewForConfig : rest -> result clientset.
Variable NewPromClient : string -> result prom.

Definition NewForConfigOrDie (r : rest) : go clientset :=
  match NewForConfig r with Ok c => Ret c | Err _ => Panic "NewForConfigOrDie" end.

Definition ControllerUserAgent : string := "crane-scheduler-controller".

(** [Options.Config]: what fails first ends it. [ApplyTo] keeps the two configurations. *)
Definition Options_Config (o : Options) : go (result Config) :=
  match Validate o with
  | Some e => Ret (Err e)
  | None =>
  match LoadPolicy (PolicyConfigPath (o_AnnotatorConfiguration o)) with
  | Err e => Ret (Err e)
  | Ok policy =>
  match (if String.eqb (o_kubeconfig o) "" then InClusterConfig
         else BuildConfigFromFlags (o_master o) (o_kubeconfig o)) with
  | Err e => Ret (Err e)
  | Ok kubeconfig =>
  match NewForConfig (AddUserAgent kubeconfig ControllerUserAgent) with
  | Err e => Ret (Err e)
  | Ok kubeClient =>
      let! leaderElectionClient := NewForConfigOrDie (AddUserAgent kubeconfig "leader-election") in
      match NewPromClient (PrometheusAddr (o_AnnotatorConfiguration o)) with
      | Err e => Ret (Err e)
      | Ok promClient =>
          Ret (Ok {| c_AnnotatorConfig := o_AnnotatorConfiguration o;
                     c_LeaderElection := o_LeaderElection o;
                     c_KubeClient := kubeClient; c_PromClient := promClient; c_Policy := policy;
                     c_LeaderElectionClient := leaderElectionClient;
                     c_HealthPort := o_healthPort o |})
      end
  end end end end.

(** The controller [Run] of server.go makes from a configuration. *)
Definition controller_of (c : Config) : Controller :=
  NewNodeAnnotator (c_Policy c) (BindingHeapSize (c_AnnotatorConfig c)).

(** ** server.go

    The process after its flags were parsed. It is waiting for the lease or running the annotator,
    it has left with an exit code, or it has panicked. *)

Inductive fate :=
| Waits
| Annotates (start : list start_action)
| Exits (code : Z)
| Crashes (msg : string).

(** The callbacks of the leader election, in the order they happen. *)
Inductive election := OnStartedLeading | OnStoppedLeading.

(** What the annotator does once started: [synced] is [None] while its caches are not synced, and
    [stopped] says whether [Run] was stopped. Whatever it returns is panicked with. *)
Definition run (cc : Config) (synced : option bool) (stopped : bool) : fate :=
  match synced with
  | None => Annotates []
  | Some b =>
      match Run b (ConcurrentSyncs (c_AnnotatorConfig cc)) with
      | (start, None) => if stopped then Crashes "nil" else Annotates start
      | (_, Some _) => Crashes "error"
      end
  end.

Fixpoint RunOrDie (cc : Config) (synced : option bool) (stopped : bool) (events : list election)
    (now : fate) : fate :=
  match events with
  | [] => now
  | OnStartedLeading :: events' =>
      match run cc synced stopped with
      | Annotates start => RunOrDie cc synced stopped events' (Annotates start)
      | fate => fate
      end
  | OnStoppedLeading :: _ => Crashes "leaderelection lost"
  end.

(** The health server, a goroutine of its own: [ListenAndServe] is the error it returned for the
    address, or [None] while it serves. [klog.Fatal] exits with 255. *)
Definition health_server (ListenAndServe : string -> option error) (cc : Config) : option fate :=
  match ListenAndServe (":" ++ c_HealthPort cc) with Some _ => Some (Exits 255) | None => None end.

(** [hostname] is the host's; [NewLock] makes the lock for an identity. [inl] is the error [Run]
    returns; it returns nothing else. A health server that fails before anything else ends the
    process ends it. *)
Definition server_Run (ListenAndServe : string -> option error) (hostname : result string)
    (uuid : string) (NewLock : string -> option error)
    (cc : Config) (synced : option bool) (stopped : bool) (events : list election) : error + fate :=
  match health_server ListenAndServe cc with Some f => inr f | None =>
  if negb (LeaderElect (c_LeaderElection cc)) then inr (run cc synced stopped)
  else
    match hostname with
    | Err e => inl e
    | Ok id =>
        match NewLock (id ++ "_" ++ uuid) with
        | Some _ => inr (Crashes "error")
        | None => inr (RunOrDie cc synced stopped events Waits)
        end
    end
  end.

(** The command: a configuration or a run that fails is exit code 1. *)
Definition NewControllerCommand_Run (o : Options) (server : Config -> error + fate) : fate :=
  match Options_Config o with
  | Panic msg => Crashes msg
  | Ret (Err _) => Exits 1
  | Ret (Ok c) => match server c with inl _ => Exits 1 | inr f => f end
  end.

(** *** Lemmas *)

Lemma RunOrDie_annotates cc synced stopped events now start :
  RunOrDie cc synced stopped events now = Annotates start ->
  ~ In OnStoppedLeading events /\ (now = Annotates start /\ events = [] \/
    run cc synced stopped = Annotates start /\ events <> []).
Proof.
  revert now. induction events as [|[] events IH]; intros now; cbn [RunOrDie]; [by eauto| |done].
  destruct (run cc synced stopped) as [|st|c|m] eqn:Hr; try done. intros [Hn H]%IH. split.
  - intros [|?]; [done|by apply Hn].
  - right. split; [|done]. destruct H as [[? _]|[? _]]; congruence.
Qed.

(** A process that is asked to elect a leader runs the annotator only as one: it got the lease
    and has not lost it since. *)
Lemma annotates_as_leader ListenAndServe hostname uuid NewLock cc synced stopped events start :
  LeaderElect (c_LeaderElection cc) = true ->
  server_Run ListenAndServe hostname uuid NewLock cc synced stopped events = inr (Annotates start) ->
  In OnStartedLeading events /\ ~ In OnStoppedLeading events /\
  ListenAndServe (":" ++ c_HealthPort cc) = None /\
  exists id, hostname = Ok id /\ NewLock (id ++ "_" ++ uuid) = None.
Proof.
  intros Hl. unfold server_Run, health_server.
  destruct (ListenAndServe _) eqn:Hh; [done|]. rewrite Hl. cbn [negb]. destruct hostname as [id|]; [|done].
  destruct (NewLock _) eqn:Hlock; [done|]. intros [= [Hn H]%RunOrDie_annotates].
  destruct H as [[? _]|[_ He]]; [done|]. split; [|split_and!; [done|done|by exists id]].
  destruct events as [|[] events]; [done|by left|]. exfalso. apply Hn. by left.
Qed.

(** The annotator has workers exactly when the configured number is positive. *)
Lemma Run_workers n w : w <> GCWorker ->
  In (Go w) (fst (Run true n)) <-> 0 < n.
Proof.
  intros Hw. cbn [Run fst]. rewrite in_app_iff, in_app_iff, in_map_iff. unfold workers.
  assert (forall k, In w (concat (replicate k [NodeWorker; EventWorker; PodWorker; DeltaWorker])
    ++ replicate (2 * k) DeploymentWorker ++ [GCWorker])%list <-> (0 < k)%nat) as Hk.
  { intros k. rewrite !in_app_iff, in_concat. split.
    - intros [(l & Hl & _)|[Hl|[?|[]]]]; [| |congruence]; destruct k; [done|lia|done|lia].
    - intros H. destruct k as [|k]; [lia|]. destruct w; try done;
        try (left; eexists; split; [by left|by firstorder]). right. left. by left. }
  split.
  - intros [[?|[?|[]]]|[(x & [= ->] & Hx)|Hx]]; try done.
    + apply Hk in Hx. lia.
    + by repeat (destruct Hx as [?|Hx]).
  - intros Hn. right. left. exists w. split; [done|]. apply Hk. lia.
Qed.

End Configuration.

(** factory.go: the field selector of the event informer. *)
Definition event_selector : string := "type=" ++ "Normal" ++ ",reason=Scheduled".
