(* ===== verification/DeepCopy.v ===== *)
(** * Generated deep copies

    The DeepCopyInto, DeepCopy and DeepCopyObject methods of pkg/plugins/apis/policy (and its
    v1alpha1) and of pkg/plugins/apis/config (and its v1beta2 and v1beta3), over the memory of
    GoMemory, since what they promise is about sharing: the copy has the same value, and no write
    through the one is seen through the other. *)

From S2P Require Import Prelude GoFloat GoTime GoMemory Policy.

Open Scope string_scope.

Record TypeMeta := { Kind : string; APIVersion : string }.

(** [metav1.Duration.DeepCopyInto] copies the receiver, writing into out. *)
Class DurationCopy (cell : Type) := {
  Duration_DeepCopyInto : ref cell Duration -> ref cell Duration -> mem cell unit;
  Duration_DeepCopyInto_spec : forall i o h d e,
    peek h i = Some d -> peek h o = Some e -> Duration_DeepCopyInto i o h = store o d h }.

(** ** The shapes the generator emits *)

Section Shapes.
Context {cell : Type}.

(** A list of flat elements: make and copy. *)
Definition copy_list {T} `{Storable cell (list T)} (zero : T) (i o : ref cell slice)
    : mem cell unit :=
  do s <- load i;;
  match s with
  | None => mem_ret tt
  | Some _ =>
      do s' <- make zero (len s);; store o s';;
      do src <- load i;; do dst <- load o;; copy (T := T) dst src
  end.

(** A list whose elements have a DeepCopyInto of their own. *)
Definition deep_copy_list {T} `{Storable cell (list T)} (zero : T)
    (DeepCopyInto : ref cell T -> ref cell T -> mem cell unit) (i o : ref cell slice)
    : mem cell unit :=
  do s <- load i;;
  match s with
  | None => mem_ret tt
  | Some _ =>
      do s' <- make zero (len s);; store o s';;
      range_loop (fun k =>
        do src <- load i;; do p <- index src k;;
        do dst <- load o;; do q <- index dst k;; DeepCopyInto p q) 0 (len s)
  end.

(** A pointer to a string. *)
Definition copy_string_ptr `{Storable cell string} (i o : ref cell (option loc)) : mem cell unit :=
  do p <- load i;;
  match p with
  | None => mem_ret tt
  | Some _ =>
      do q <- alloc "";; store o (Some q);;
      do p <- load i;; do q <- load o;;
      match p, q with
      | Some p, Some q => do s <- load (var p : ref cell string);; store (var q) s
      | _, _ => nil_deref
      end
  end.

(** [DeepCopy] and [DeepCopyObject] of a type. *)
Definition deep_copy {T} `{Storable cell T} (zero : T)
    (DeepCopyInto : ref cell T -> ref cell T -> mem cell unit) (i : ptr cell T)
    : mem cell (ptr cell T) :=
  match i with
  | None => mem_ret None
  | Some i => do o <- new zero;; DeepCopyInto i o;; mem_ret (Some o)
  end.

Definition as_object {T} (c : ptr cell T) : iface (ptr cell T) :=
  match c with Some _ => IPtr c | None => INil end.

End Shapes.

(** [*out = *in] and [out.F = in.F] *)
Definition copy_whole {cell T} (i o : ref cell T) : mem cell unit :=
  do x <- load i;; store o x.

Definition assign_field {cell T F} (get : T -> F) (set : F -> T -> T) (i o : ref cell T)
    : mem cell unit :=
  do x <- load (field get set i);; store (field get set o) x.

(** ** What a copy promises *)

Section Promises.
Context {cell : Type}.

(** An operation that copies a value without parts elsewhere. *)
Definition flat {T} (f : ref cell T -> ref cell T -> mem cell unit) : Prop :=
  forall i o h x y, wf_ref o -> r_loc i <> r_loc o -> peek h i = Some x -> peek h o = Some y ->
    f i o h = store o x h.

(** What a handle (a slice, a pointer) stands for, and the variables that hold it. *)
Class Handle (H V : Type) := {
  look : heap cell -> H -> option V;
  locs : H -> list loc;
  look_frame : forall h h' s, (forall l, l ∈ locs s -> h' !! l = h !! l) -> look h' s = look h s;
  look_live : forall h s v l, look h s = Some v -> l ∈ locs s -> is_Some (h !! l) }.

#[export] Instance slice_handle {T} `{Storable cell (list T)} : Handle slice (option (list T)) :=
  {| look := elements; locs := arrays; look_frame h h' s := elements_frame s h h';
     look_live h s v l := elements_live s h v l |}.

Definition pointee `{Storable cell string} (h : heap cell) (p : option loc) : option (option string) :=
  match p with None => Some None | Some l => Some <$> (h !! l ≫= prj) end.

#[export] Program Instance pointer_handle `{Storable cell string} : Handle (option loc) (option string) :=
  {| look := pointee; locs p := match p with None => [] | Some l => [l] end |}.
Next Obligation. intros ? h h' [l|] Hl; cbn; [|done]. rewrite Hl; [done|left]. Qed.
Next Obligation.
  intros ? h [l|] v k Hl Hk; [|by apply not_elem_of_nil in Hk]. apply list_elem_of_singleton in Hk as ->.
  cbn in Hl. destruct (h !! l); [by eexists|done].
Qed.

(** The handle stands for [v] in variables that [h] does not have. *)
Definition copied {H V} `{Handle H V} (h h' : heap cell) (s : H) (v : V) : Prop :=
  look h' s = Some v /\ forall l, l ∈ locs s -> h !! l = None /\ is_Some (h' !! l).

(** An operation that, where both handles are the same, makes [o]'s its own. *)
Definition copier {H V} `{Handle H V} (op : ref cell H -> ref cell H -> mem cell unit) : Prop :=
  forall i o h s v, wf_ref i -> wf_ref o -> r_loc i <> r_loc o -> peek h i = Some s ->
    peek h o = Some s -> look h s = Some v -> r_loc o ∉ locs s ->
    exists s' h', op i o h = Ret (tt, h') /\ put o s' h h' /\ copied h h' s' v.

(** A part of a struct that is elsewhere. *)
Record part (T : Type) := Part {
  pt_H : Type; pt_V : Type; pt_handle : Handle pt_H pt_V; pt_get : T -> pt_H }.

(** The parts of [x] stand for values, and none of them is in the variable [l]. *)
Definition sound {T} (parts : list (part T)) (h : heap cell) (l : loc) (x : T) : Prop :=
  Forall (fun p => is_Some (@look _ _ (pt_handle _ p) h (pt_get _ p x)) /\
    l ∉ @locs _ _ (pt_handle _ p) (pt_get _ p x)) parts.

(** [y] has the values of the parts of [x], in variables of its own. *)
Definition own_parts {T} (parts : list (part T)) (h h' : heap cell) (x y : T) : Prop :=
  Forall (fun p => exists v, @look _ _ (pt_handle _ p) h (pt_get _ p x) = Some v /\
    @copied _ _ (pt_handle _ p) h h' (pt_get _ p y) v) parts.

(** A DeepCopyInto: [out] becomes a value with the same scalar fields and parts of its own;
    no other variable changes. *)
Definition deep {T S} (parts : list (part T)) (scalars : T -> S)
    (f : ref cell T -> ref cell T -> mem cell unit) : Prop :=
  forall i o h x y0, wf_ref i -> wf_ref o -> r_loc i <> r_loc o -> peek h i = Some x ->
    peek h o = Some y0 -> sound parts h (r_loc o) x ->
    exists y h', f i o h = Ret (tt, h') /\ put o y h h' /\ scalars y = scalars x /\
      own_parts parts h h' x y.

(** A DeepCopy: a new variable, with the value of the old one as long as the new variables are
    not written to, whatever happens to those that were there before. *)
Definition independent {T S} (parts : list (part T)) (scalars : T -> S)
    (f : ptr cell T -> mem cell (ptr cell T)) : Prop :=
  (forall h, f None h = Ret (None, h)) /\
  forall i h x, wf_ref i -> peek h i = Some x -> Forall (fun p => is_Some (@look _ _
      (pt_handle _ p) h (pt_get _ p x))) parts ->
    exists o h', f (Some i) h = Ret (Some o, h') /\ h !! r_loc o = None /\ h ⊆ h' /\
      forall h2, (forall l, h !! l = None -> h2 !! l = h' !! l) ->
        exists y, peek h2 o = Some y /\ scalars y = scalars x /\
          Forall (fun p => @look _ _ (pt_handle _ p) h2 (pt_get _ p y)
                           = @look _ _ (pt_handle _ p) h (pt_get _ p x)) parts.

(** *** The shapes keep it *)

Lemma fresh_None (h : heap cell) : h !! fresh (dom h) = None.
Proof. apply not_elem_of_dom, is_fresh. Qed.

Lemma peek_Some_loc {T} (r : ref cell T) x h : peek h r = Some x -> is_Some (h !! r_loc r).
Proof. unfold peek. destruct (h !! r_loc r); [by eexists|done]. Qed.

(** After [make] and the assignment of the new slice. *)
Lemma make_store {T} `{Storable cell (list T)} (zero : T) (o : ref cell slice) s n h :
  wf_ref o -> peek h o = Some s ->
  let a := fresh (dom h) in
  let s' := Some {| s_arr := a; s_off := 0; s_len := n; s_cap := n |} in
  exists h0, (do s' <- make zero n;; store o s') h = Ret (tt, <[a := inj (replicate n zero)]> h0) /\
    put o s' h h0 /\ h0 !! a = None.
Proof.
  intros Ho Hs a s'. pose proof (fresh_None h) as Ha. fold a in Ha.
  destruct (peek_Some_loc o s h Hs) as [c0 Hc0].
  assert (a <> r_loc o) as Hne by (intros He; by rewrite He, Hc0 in Ha).
  destruct (store_put o Ho s' s h Hs) as (c & Hc & _ & Hp). exists (<[r_loc o := c]> h).
  split; [|split; [done|by rewrite lookup_insert_ne]].
  unfold make, alloc, mem_bind, mem_ret. cbn. fold a. unfold store.
  rewrite lookup_insert_ne by done. fold s'. rewrite Hc. by rewrite insert_insert_ne.
Qed.

Lemma elements_Some {T} `{Storable cell (list T)} h s (xs : list T) :
  elements h (Some s) = Some (Some xs) ->
  length xs = s_len s /\ exists l, h !! s_arr s ≫= prj = Some l /\
    forall k, xs !! k = (if decide (k < s_len s)%nat then l !! (s_off s + k)%nat else None).
Proof.
  cbn. destruct (h !! s_arr s ≫= prj) as [l|]; [|done]. cbn. destruct (Nat.leb_spec
      (s_off s + s_len s) (length l)); [|done].
  intros [= <-]. split; [rewrite length_take, length_drop; lia|]. exists l. split; [done|].
  intros k. case_decide; [|rewrite lookup_take_ge by lia; done].
  by rewrite lookup_take_lt, lookup_drop by lia.
Qed.

(** A list is filled by any loop whose round [k] stores the old element [k] as the new one. *)
Lemma fill_list {T} `{Storable cell (list T)} (zero : T) (i o : ref cell slice) h s (xs : list T)
    (body : nat -> mem cell unit) (rest : mem cell unit) :
  wf_ref i -> wf_ref o -> r_loc i <> r_loc o -> peek h i = Some (Some s) -> peek h o = Some (Some s) ->
  elements h (Some s) = Some (Some xs) -> s_arr s <> r_loc o ->
  (forall h', peek h' i = Some (Some s) ->
     peek h' o = Some (Some {| s_arr := fresh (dom h); s_off := 0; s_len := s_len s; s_cap := s_len s |}) ->
     rest h' = range_loop body 0 (s_len s) h') ->
  (forall a h' k x y, a = {| s_arr := fresh (dom h); s_off := 0; s_len := s_len s; s_cap := s_len s |} ->
     peek h' i = Some (Some s) -> peek h' o = Some (Some a) -> (k < s_len s)%nat ->
     peek h' (elem s k) = Some x -> peek h' (elem a k) = Some y -> s_arr s <> s_arr a ->
     body k h' = store (T := T) (elem a k) x h') ->
  exists s' h', (do s' <- make zero (s_len s);; store o s';; rest) h
      = Ret (tt, h') /\ put o s' h h' /\ copied h h' s' (Some xs).
Proof.
  intros Hi Ho Hne Hpi Hpo Hel Har Hrest Hb. set (a := fresh (dom h)).
  destruct (make_store zero o (Some s) (s_len s) h Ho Hpo) as
      (h0 & Hms & Hput & Hh0). fold a in Hms, Hput, Hh0.
  set (s' := {| s_arr := a; s_off := 0; s_len := s_len s; s_cap := s_len s |}) in *.
  destruct (elements_Some h s xs Hel) as (Hlen & l0 & Hl0 & Hxs).
  pose proof (fresh_None h) as Ha. fold a in Ha.
  assert (forall l, is_Some (h !! l) -> a <> l) as Hold by (intros l [c Hc] <-; congruence).
  assert (is_Some (h !! s_arr s)) as Hsa by (destruct (h !! s_arr s); [by eexists|done]).
  pose proof (Hold _ Hsa) as Hasa. pose proof (Hold _ (peek_Some_loc _ _ _ Hpi)) as Hai.
  pose proof (Hold _ (peek_Some_loc _ _ _ Hpo)) as Hao.
  assert (put o (Some s') h (<[a := inj xs]> h0)) as Hput'.
  { destruct Hput as [(c & Hc & Hc') Hk]. split.
    - exists c. split; [done|]. by rewrite lookup_insert_ne.
    - intros l Hl Hin. rewrite lookup_insert_ne by (by apply Hold). by apply Hk. }
  exists (Some s'), (<[a := inj xs]> h0). split; [|split; [done|split]].
  - assert (forall m, (do s' <- make zero (s_len s);; store o s';; m) h
      = match (do s' <- make zero (s_len s);; store o s') h with
        | Ret (_, h1) => m h1 | Panic e => Panic e end) as ->.
    { intros m. unfold mem_bind. by destruct (make zero (s_len s) h) as [[]|]. }
    assert (forall l U (r : ref cell U) u, r_loc r <> a -> peek h0 r = Some u ->
      peek (<[a := inj l]> h0) r = Some u) as Hlift.
    { intros l U r u Hr. unfold peek. by rewrite lookup_insert_ne. }
    assert (peek h0 i = Some (Some s)) as Hi0 by (by eapply (put_other o)).
    assert (peek h0 o = Some (Some s')) as Ho0 by (by eapply (put_peek o)).
    rewrite Hms, Hrest by (by apply Hlift). rewrite <- Hlen.
    apply range_loop_all; [|by rewrite length_replicate]. intros k l x Hx Hll.
    assert (k < s_len s)%nat as Hk by (rewrite <- Hlen; by eapply lookup_lt_Some).
    rewrite Hxs, decide_True in Hx by done. destruct (lookup_lt_is_Some_2 l k ltac:(lia)) as [y Hy].
    rewrite (Hb s' _ k x y); [..|done].
    + unfold store. cbn [r_loc r_set elem s_arr s' s_off]. rewrite lookup_insert_eq. cbn.
      rewrite prj_inj. cbn. rewrite Hy. cbn. by rewrite insert_insert_eq.
    + done.
    + by apply Hlift.
    + by apply Hlift.
    + done.
    + apply Hlift; [done|]. unfold peek. cbn [r_loc r_get elem]. destruct Hput as [_ Hkk].
      rewrite Hkk by done. destruct (h !! s_arr s); [|done]. cbn in Hl0 |- *. rewrite Hl0. done.
    + unfold peek. cbn [r_loc r_get elem s_arr s' s_off]. rewrite lookup_insert_eq. cbn.
      rewrite prj_inj. cbn. done.
  - cbn. rewrite lookup_insert_eq. cbn. rewrite prj_inj. cbn. rewrite <- Hlen, Nat.leb_refl.
    by rewrite drop_0, take_ge.
  - intros l ->%list_elem_of_singleton. split; [done|]. rewrite lookup_insert_eq. by eexists.
Qed.


Lemma index_elem {T} `{Storable cell (list T)} s k (h : heap cell) :
  (k < s_len s)%nat -> index (T := T) (Some s) k h = Ret (elem s k, h).
Proof. intros Hk. unfold index. by destruct (Nat.ltb_spec k (s_len s)); [|lia]. Qed.

Lemma elements_not_nil {T} `{Storable cell (list T)} (h : heap cell) s :
  elements (T := T) h (Some s) <> Some None.
Proof. cbn. destruct (h !! s_arr s ≫= prj); [|done]. cbn. by destruct (_ <=? _)%nat. Qed.

Lemma nil_copied {H V} `{Handle H V} h s v : look h s = Some v -> locs s = [] -> copied h h s v.
Proof. intros Hl Hn. split; [done|]. intros l. rewrite Hn. by intros ?%not_elem_of_nil. Qed.

Lemma deep_copy_list_copier {T} `{Storable cell (list T)} (zero : T) f :
  flat f -> copier (deep_copy_list zero f).
Proof.
  intros Hf i o h [s|] v Hi Ho Hne Hpi Hpo Hl Hn.
  - destruct v as [xs|]; [|by apply elements_not_nil in Hl].
    unfold deep_copy_list. unfold mem_bind at 1. rewrite (load_peek _ _ _ Hpi). cbn [len].
    eapply (fill_list zero i o h s xs); try done; [cbn in Hn; set_solver|].
    intros a h' k x y -> H1 H2 Hk Hx Hy Hd. unfold mem_bind at 1. rewrite (load_peek _ _ _ H1).
    unfold mem_bind at 1. rewrite index_elem by done. unfold mem_bind at 1. rewrite (load_peek _ _ _ H2).
    unfold mem_bind at 1. rewrite index_elem by done.
    apply (Hf _ _ _ x y); [apply wf_elem|done|done|done].
  - exists None, h. unfold deep_copy_list, mem_bind. rewrite (load_peek _ _ _ Hpi).
    split; [done|]. split; [by apply put_same|]. by apply nil_copied.
Qed.

Lemma copy_list_copier {T} `{Storable cell (list T)} (zero : T) : copier (copy_list zero).
Proof.
  intros i o h [s|] v Hi Ho Hne Hpi Hpo Hl Hn.
  - destruct v as [xs|]; [|by apply elements_not_nil in Hl].
    unfold copy_list. unfold mem_bind at 1. rewrite (load_peek _ _ _ Hpi). cbn [len].
    set (a := {| s_arr := fresh (dom h); s_off := 0; s_len := s_len s; s_cap := s_len s |}).
    eapply (fill_list zero i o h s xs (fun k => do p <- index (Some s) k;; do x <- load p;;
      do q <- index (Some a) k;; store (T := T) q x)); try done; [cbn in Hn; set_solver| |].
    + intros h' H1 H2. unfold mem_bind at 1. rewrite (load_peek _ _ _ H1).
      unfold mem_bind at 1. rewrite (load_peek _ _ _ H2). unfold copy. cbn [len a s_len].
      by rewrite Nat.min_id.
    + intros a' h' k x y -> H1 H2 Hk Hx Hy Hd. unfold mem_bind at 1. rewrite index_elem by done.
      unfold mem_bind at 1. rewrite (load_peek _ _ _ Hx). unfold mem_bind at 1.
      by rewrite index_elem by done.
  - exists None, h. unfold copy_list, mem_bind. rewrite (load_peek _ _ _ Hpi).
    split; [done|]. split; [by apply put_same|]. by apply nil_copied.
Qed.

Lemma copy_string_ptr_copier `{Storable cell string} : copier copy_string_ptr.
Proof.
  intros i o h [p|] v Hi Ho Hne Hpi Hpo Hl Hn.
  - cbn in Hl. destruct (h !! p ≫= prj) as [s|] eqn:Hs; [|done]. cbn in Hl. simplify_eq.
    unfold copy_string_ptr. set (a := fresh (dom h)).
    pose proof (fresh_None h) as Ha. fold a in Ha.
    assert (forall l, is_Some (h !! l) -> a <> l) as Hold by (intros l [c Hc] <-; congruence).
    pose proof (Hold _ (peek_Some_loc _ _ _ Hpi)) as Hai. pose proof (Hold _
        (peek_Some_loc _ _ _ Hpo)) as Hao.
    assert (a <> p) as Hap by (apply Hold; destruct (h !! p); [by eexists|done]).
    assert (p <> r_loc o) as Hpo' by (cbn in Hn; set_solver).
    destruct (store_put o Ho (Some a) (Some p) h Hpo) as (c & Hc & _ & Hput).
    set (h0 := <[r_loc o := c]> h) in *.
    assert (peek h0 i = Some (Some p)) as Hi0 by (by eapply (put_other o)).
    assert (peek h0 o = Some (Some a)) as Ho0 by (by eapply (put_peek o)).
    assert (forall l U (r : ref cell U) u, r_loc r <> a -> peek h0 r = Some u ->
      peek (<[a := inj l]> h0) r = Some u) as Hlift.
    { intros l U r u Hr. unfold peek. by rewrite lookup_insert_ne. }
    assert (h0 !! p ≫= prj = Some s) as Hs0 by (unfold h0; by rewrite lookup_insert_ne).
    exists (Some a), (<[a := inj s]> h0). split; [|split; [|split]].
    + unfold mem_bind at 1. rewrite (load_peek _ _ _ Hpi). unfold mem_bind at 1, alloc. fold a.
      unfold mem_bind at 1. unfold store at 1. rewrite lookup_insert_ne, Hc by done.
      rewrite insert_insert_ne by done. fold h0.
      unfold mem_bind at 1. rewrite (load_peek _ _ _ (Hlift "" _ i _ (not_eq_sym Hai) Hi0)).
      unfold mem_bind at 1. rewrite (load_peek _ _ _ (Hlift "" _ o _ (not_eq_sym Hao) Ho0)).
      unfold mem_bind, load, peek. cbn [r_loc r_get var]. rewrite lookup_insert_ne, Hs0 by done.
      unfold store. cbn [r_loc r_set var]. rewrite lookup_insert_eq. cbn. rewrite prj_inj.
      by rewrite insert_insert_eq.
    + destruct Hput as [(c' & Hc1 & Hc2) Hk]. split.
      * exists c'. split; [done|]. by rewrite lookup_insert_ne.
      * intros l Hl Hin. rewrite lookup_insert_ne by (by apply Hold). by apply Hk.
    + cbn. rewrite lookup_insert_eq. cbn. by rewrite prj_inj.
    + intros l ->%list_elem_of_singleton. split; [done|]. rewrite lookup_insert_eq. by eexists.
  - exists None, h. unfold copy_string_ptr, mem_bind. rewrite (load_peek _ _ _ Hpi).
    split; [done|]. split; [by apply put_same|]. by apply nil_copied.
Qed.

(** *** Structs *)

Lemma copy_whole_put {T} (i o : ref cell T) h x y :
  wf_ref o -> peek h i = Some x -> peek h o = Some y ->
  exists h1, copy_whole i o h = Ret (tt, h1) /\ store o x h = Ret (tt, h1) /\ put o x h h1.
Proof.
  intros Ho Hx Hy. destruct (store_put o Ho x y h Hy) as (c & _ & Hs & Hp).
  eexists. split; [|split; [exact Hs|exact Hp]].
  unfold copy_whole, mem_bind. by rewrite (load_peek _ _ _ Hx).
Qed.

(** Once [out] is the same as [in], assigning a field changes nothing. *)
Lemma assign_field_same {T F} (get : T -> F) set (i o : ref cell T) h x :
  wf_ref o -> lens get set -> peek h i = Some x -> peek h o = Some x ->
  assign_field get set i o h = Ret (tt, h).
Proof.
  intros Ho Hl Hi Hp. unfold assign_field, mem_bind.
  rewrite (load_peek _ _ _ (peek_field get set i x h Hi)).
  apply (store_same _ (wf_field _ _ _ Ho Hl)). by apply (peek_field get set o x h).
Qed.

Lemma flat_deep {T} (f : ref cell T -> ref cell T -> mem cell unit) : flat f -> deep [] id f.
Proof.
  intros Hf i o h x y Hi Ho Hne Hx Hy _. destruct (copy_whole_put i o h x y Ho Hx Hy) as (h1 & _ & Hs & Hp).
  exists x, h1. rewrite (Hf i o h x y) by done. split_and!; try done. constructor.
Qed.

(** What holds while the parts of [o] become its own one after the other. *)
Record midway {T} (i o : ref cell T) (h : heap cell) (x : T) (hk : heap cell) (y : T) : Prop := {
  mid_in : peek hk i = Some x;
  mid_out : peek hk o = Some y;
  mid_put : put o y h hk }.

Definition keeps_new (h hk hk' : heap cell) : Prop :=
  forall l, h !! l = None -> is_Some (hk !! l) -> hk' !! l = hk !! l.

Lemma copied_kept {H V} `{Handle H V} h hk hk' s v :
  keeps_new h hk hk' -> copied h hk s v -> copied h hk' s v.
Proof.
  intros Hk [Hl Hn]. split.
  - rewrite (look_frame hk hk'); [done|]. intros l Hin. by apply Hk; apply Hn.
  - intros l Hin. destruct (Hn l Hin) as [Hx Hy]. split; [done|]. by rewrite Hk.
Qed.

Lemma put_live {T} (o : ref cell T) y h h' l : put o y h h' -> is_Some (h !! l) -> is_Some (h' !! l).
Proof.
  intros [(c & _ & Hc) Hk] Hl. destruct (decide (l = r_loc o)) as [->|Hne]; [by rewrite Hc|].
  by rewrite Hk.
Qed.

Lemma field_step {T H V} `{Handle H V} (get : T -> H) set op (i o : ref cell T) h hk x y v :
  copier op -> lens get set -> wf_ref i -> wf_ref o -> r_loc i <> r_loc o ->
  peek h i = Some x -> is_Some (peek h o) -> midway i o h x hk y -> get y = get x ->
  look h (get x) = Some v -> r_loc o ∉ locs (get x) ->
  exists s' hk', op (field get set i) (field get set o) hk = Ret (tt, hk') /\
    midway i o h x hk' (set s' y) /\ copied h hk' s' v /\ keeps_new h hk hk'.
Proof.
  intros Hop Hl Hi Ho Hne Hx [z Hz] [Hmi Hmo Hmp] Hg Hlook Hn.
  destruct (Hop (field get set i) (field get set o) hk (get x) v) as (s' & hk' & Hr & Hp & Hcl & Hcn).
  - by apply wf_field.
  - by apply wf_field.
  - done.
  - by apply (peek_field get set i x hk).
  - rewrite <- Hg. by apply (peek_field get set o y hk).
  - rewrite (look_frame h hk); [done|]. intros l Hin. apply Hmp; [by intros ->|].
    by eapply look_live.
  - done.
  - assert (put o (set s' y) hk hk') as Hput by (by apply (put_field _ get)).
    exists s', hk'. split; [done|]. split; [split|split].
    + by eapply (put_other o).
    + by eapply (put_peek o).
    + by eapply put_trans.
    + split; [done|]. intros l Hin. destruct (Hcn l Hin) as [Hnone Hsome]. split; [|done].
      apply eq_None_not_Some. intros Hs. apply (put_live _ _ _ _ l Hmp) in Hs. rewrite Hnone in Hs.
      by destruct Hs.
    + intros l Hnone Hs. apply Hp; [|done]. cbn. intros ->.
      destruct (peek_Some_loc _ _ _ Hz) as [c Hc]. congruence.
Qed.

Lemma midway_start {T} (i o : ref cell T) h x y :
  wf_ref o -> r_loc i <> r_loc o -> peek h i = Some x -> peek h o = Some y ->
  exists h1, copy_whole i o h = Ret (tt, h1) /\ midway i o h x h1 x.
Proof.
  intros Ho Hne Hx Hy. destruct (copy_whole_put i o h x y Ho Hx Hy) as (h1 & Hc & _ & Hp).
  exists h1. split; [done|]. split; [by eapply (put_other o)|by eapply (put_peek o)|done].
Qed.

Lemma bind_step {A B} (m : mem cell A) (k : A -> mem cell B) h a h' :
  m h = Ret (a, h') -> mem_bind m k h = k a h'.
Proof. unfold mem_bind. by intros ->. Qed.

(** A field whose value is elsewhere, with the operation that copies it. *)
Record part_copy (T : Type) := {
  pc_part : part T;
  pc_set : pt_H _ pc_part -> T -> T;
  pc_op : ref cell (pt_H _ pc_part) -> ref cell (pt_H _ pc_part) -> mem cell unit;
  pc_lens : lens (pt_get _ pc_part) pc_set;
  pc_copier : @copier _ _ (pt_handle _ pc_part) pc_op }.

Definition run_part {T} (c : part_copy T) (i o : ref cell T) : mem cell unit :=
  pc_op T c (field (pt_get _ (pc_part T c)) (pc_set T c) i) (field (pt_get _ (pc_part T c)) (pc_set T c) o).

(** One field after the other, then the return. *)
Definition run_parts {T} (cs : list (part_copy T)) (i o : ref cell T) : mem cell unit :=
  foldr (fun c m => run_part c i o;; m) (mem_ret tt) cs.

(** Setting the field of one does not change [get]. *)
Definition leaves {T F} (get : T -> F) (c : part_copy T) : Prop :=
  forall s x, get (pc_set T c s x) = get x.

Definition apart {T} (c d : part_copy T) : Prop :=
  leaves (pt_get _ (pc_part T c)) d /\ leaves (pt_get _ (pc_part T d)) c.

Lemma run_parts_copied {T} (cs : list (part_copy T)) (i o : ref cell T) h x z :
  wf_ref i -> wf_ref o -> r_loc i <> r_loc o -> peek h i = Some x -> peek h o = Some z ->
  ForallOrdPairs apart cs -> sound (List.map (pc_part T) cs) h (r_loc o) x ->
  forall hk y, midway i o h x hk y ->
    Forall (fun c => pt_get _ (pc_part T c) y = pt_get _ (pc_part T c) x) cs ->
    exists y' h', run_parts cs i o hk = Ret (tt, h') /\ midway i o h x h' y' /\
      keeps_new h hk h' /\ own_parts (List.map (pc_part T) cs) h h' x y' /\
      forall F (get : T -> F), Forall (leaves get) cs -> get y' = get y.
Proof.
  intros Hi Ho Hne Hx Hz Hap. induction Hap as [|c cs Hc Hap IH]; intros Hs hk y Hm Hy.
  { exists y, hk. split_and!; try done; constructor. }
  apply Forall_cons in Hs as [[[v Hv] Hl] Hs]. apply Forall_cons in Hy as [Hyc Hy].
  destruct (@field_step T _ _ (pt_handle _ (pc_part T c)) (pt_get _ (pc_part T c)) (pc_set T c) (pc_op T c)
    i o h hk x y v) as (s' & hk' & Hr & Hm' & Hcp & Hkn); try done; [apply pc_copier|apply pc_lens|].
  destruct (IH Hs hk' (pc_set T c s' y) Hm') as (y' & h' & Hr' & Hm2 & Hkn' & Hown & Hg).
  { rewrite Forall_forall in Hc, Hy |- *. intros d Hd. rewrite <- (Hy d Hd). by apply Hc. }
  assert (keeps_new h hk h') as Hkk.
  { intros l Hn Hs'. rewrite Hkn'; [by apply Hkn|done|]. by rewrite Hkn. }
  exists y', h'. split; [|split; [done|split; [done|split]]].
  - cbn [run_parts foldr]. rewrite (bind_step _ _ _ _ _ Hr). exact Hr'.
  - constructor; [|done]. exists v. split; [done|].
    rewrite (Hg _ (pt_get _ (pc_part T c))) by (eapply Forall_impl; [exact Hc|]; by intros d []).
    rewrite (lens_get _ _ (pc_lens T c)).
    by apply (@copied_kept _ _ (pt_handle _ (pc_part T c)) h hk' h').
  - intros F get Hall. apply Forall_cons in Hall as [Hgc Hall]. rewrite (Hg _ get Hall). apply Hgc.
Qed.

(** A struct whose DeepCopyInto assigns everything, then copies its parts. *)
Lemma run_parts_deep {T S} (cs : list (part_copy T)) (scalars : T -> S) f :
  ForallOrdPairs apart cs -> Forall (leaves scalars) cs ->
  (forall i o h h1 x, wf_ref i -> wf_ref o -> peek h1 i = Some x -> peek h1 o = Some x ->
     copy_whole i o h = Ret (tt, h1) -> f i o h = run_parts cs i o h1) ->
  deep (List.map (pc_part T) cs) scalars f.
Proof.
  intros Hap Hsc Hf i o h x z Hi Ho Hne Hx Hz Hs.
  destruct (midway_start i o h x z Ho Hne Hx Hz) as (h1 & Hc & Hm).
  destruct (run_parts_copied cs i o h x z Hi Ho Hne Hx Hz Hap Hs h1 x Hm) as
      (y & h' & Hr & Hm' & _ & Hown & Hg).
  { by apply Forall_true. }
  exists y, h'. rewrite (Hf i o h h1 x Hi Ho (mid_in _ _ _ _ _ _ Hm) (mid_out _ _ _ _ _ _ Hm) Hc).
  split; [done|]. split; [apply Hm'|]. split; [by apply Hg|done].
Qed.

(** The parts of a field. *)
Definition part_of {T U} (get : T -> U) (p : part U) : part T :=
  {| pt_H := pt_H _ p; pt_V := pt_V _ p; pt_handle := pt_handle _ p; pt_get x := pt_get _ p (get x) |}.

(** A struct that assigns everything, then has a field's own DeepCopyInto copy that field. *)
Lemma nested_deep {T U S M} (get : T -> U) set (parts : list (part U)) (scalars : U -> S) (g : T
    -> M) f fU :
  lens get set -> (forall u x, g (set u x) = g x) -> deep parts scalars fU ->
  (forall i o h h1 x, wf_ref i -> wf_ref o -> peek h1 i = Some x -> peek h1 o = Some x ->
     copy_whole i o h = Ret (tt, h1) -> f i o h = fU (field get set i) (field get set o) h1) ->
  deep (List.map (part_of get) parts) (fun x => (g x, scalars (get x))) f.
Proof.
  intros Hl Hg Hd Hf i o h x z Hi Ho Hne Hx Hz Hs.
  destruct (midway_start i o h x z Ho Hne Hx Hz) as (h1 & Hc & [Hmi Hmo Hmp]).
  assert (forall p v, @look _ _ (pt_handle _ p) h (pt_get _ p (get x)) = Some v ->
    r_loc o ∉ @locs _ _ (pt_handle _ p) (pt_get _ p (get x)) ->
    @look _ _ (pt_handle _ p) h1 (pt_get _ p (get x)) = Some v) as Hlk.
  { intros p v Hv Hn. rewrite (@look_frame _ _ (pt_handle _ p) h h1); [done|].
    intros l Hin. apply Hmp; [by intros ->|]. by eapply (@look_live _ _ (pt_handle _ p)). }
  unfold sound in Hs. rewrite Forall_map in Hs.
  destruct (Hd (field get set i) (field get set o) h1 (get x) (get x)) as (u & h' & Hr & Hp & Hsc & Hown).
  - by apply wf_field.
  - by apply wf_field.
  - done.
  - by apply (peek_field get set i x h1).
  - by apply (peek_field get set o x h1).
  - eapply Forall_impl; [exact Hs|]. intros p [[v Hv] Hn]. split; [|done]. exists v. by apply Hlk.
  - assert (put o (set u x) h1 h') as Hp' by (by apply (put_field _ get)).
    exists (set u x), h'. split; [by rewrite (Hf i o h h1 x)|]. split; [by eapply put_trans|].
    split; [by rewrite (lens_get _ _ Hl), Hg, Hsc|].
    unfold own_parts in *. rewrite Forall_map. rewrite Forall_forall in Hs, Hown |- *. intros p Hin.
    destruct (Hown p Hin) as (v & Hv & Hcl & Hcn). destruct (Hs p Hin) as [[w Hw] Hn].
    cbn in Hw, Hn. rewrite (Hlk p w Hw Hn) in Hv. simplify_eq. exists v. split; [done|].
    cbn. rewrite (lens_get _ _ Hl). split; [done|]. intros l Hll. destruct (Hcn l Hll) as [Hnn Hss].
    split; [|done]. apply eq_None_not_Some. intros Hsl. apply (put_live _ _ _ _ l Hmp) in Hsl.
    rewrite Hnn in Hsl. by destruct Hsl.
Qed.

(** *** DeepCopy from DeepCopyInto *)

Lemma deep_independent {T S} `{Storable cell T} (zero : T) parts (scalars : T -> S) f :
  deep parts scalars f -> independent parts scalars (deep_copy zero f).
Proof.
  intros Hf. split; [done|]. intros i h x Hi Hx Hlook. set (a := fresh (dom h)).
  pose proof (fresh_None h) as Ha. fold a in Ha. set (h1 := <[a := inj zero]> h).
  assert (forall l, is_Some (h !! l) -> a <> l) as Hold by (intros l [c Hc] <-; congruence).
  assert (forall l, is_Some (h !! l) -> h1 !! l = h !! l) as Hh1
    by (intros l Hl; apply lookup_insert_ne; by apply Hold).
  pose proof (Hold _ (peek_Some_loc _ _ _ Hx)) as Hai.
  assert (forall p v, @look _ _ (pt_handle _ p) h (pt_get T p x) = Some v ->
    @look _ _ (pt_handle _ p) h1 (pt_get _ p x) = Some v) as Hlk.
  { intros p v Hv. rewrite (@look_frame _ _ (pt_handle _ p) h h1); [done|].
    intros l Hl. apply Hh1. by eapply (@look_live _ _ (pt_handle _ p)). }
  destruct (Hf i (var a) h1 x zero) as (y & h' & Hr & Hput & Hsc & Hown).
  - done.
  - apply wf_var.
  - done.
  - unfold peek, h1. by rewrite lookup_insert_ne.
  - unfold peek, h1. cbn. rewrite lookup_insert_eq. cbn. apply prj_inj.
  - eapply Forall_impl; [exact Hlook|]. intros p [v Hv]. split; [by eexists; apply Hlk|].
    cbn. intros Hin. apply (@look_live _ _ (pt_handle _ p) _ _ _ _ Hv) in Hin.
    rewrite Ha in Hin. by destruct Hin.
  - exists (var a), h'. split.
    { unfold deep_copy, new, alloc, mem_bind, mem_ret. fold a h1. by rewrite Hr. }
    split; [done|]. split.
    { apply map_subseteq_spec. intros l c Hl. rewrite (proj2 Hput l).
      - by rewrite Hh1.
      - cbn. symmetry. by apply Hold.
      - by rewrite Hh1. }
    intros h2 Hh2. exists y. split; [|split; [done|]].
    + unfold peek. cbn. rewrite (Hh2 a Ha). apply (put_peek _ (wf_var a) _ _ _ Hput).
    + unfold own_parts in Hown. rewrite Forall_forall in Hown, Hlook |- *. intros p Hp.
      destruct (Hown p Hp) as (v & Hv & Hcl & Hcn).
      destruct (Hlook p Hp) as [w Hw]. rewrite (Hlk p w Hw) in Hv. simplify_eq. rewrite Hw, <- Hcl.
      apply (@look_frame _ _ (pt_handle _ p)). intros l Hl. destruct (Hcn l Hl) as [Hn Hs].
      apply Hh2. apply eq_None_not_Some. intros Hin. rewrite <- Hh1 in Hin by done.
      rewrite Hn in Hin. by destruct Hin.
Qed.

(** A struct whose only part with a DeepCopyInto is a duration. *)
Lemma flat_duration {T} `{DurationCopy cell} (get : T -> Duration) set :
  lens get set ->
  flat (fun i o => copy_whole i o;; Duration_DeepCopyInto (field get set i) (field get set o)).
Proof.
  intros Hl i o h x y Ho Hne Hx Hy. destruct (copy_whole_put i o h x y Ho Hx Hy) as (h1 & Hc & Hs & Hp).
  rewrite (bind_step _ _ _ _ _ Hc), Hs.
  assert (peek h1 (field get set o) = Some (get x)) as Ho1
    by (by apply (peek_field get set o x h1), (put_peek o Ho x h)).
  rewrite (Duration_DeepCopyInto_spec _ _ h1 (get x) (get x)); [|by apply
      (peek_field get set i x h1), (put_other o i x x h)|done].
  apply (store_same _ (wf_field _ _ _ Ho Hl)). done.
Qed.

Lemma flat_typemeta {T F} (get : T -> F) set :
  lens get set -> flat (fun i o => copy_whole i o;; assign_field get set i o).
Proof.
  intros Hl i o h x y Ho Hne Hx Hy. destruct (copy_whole_put i o h x y Ho Hx Hy) as (h1 & Hc & Hs & Hp).
  rewrite (bind_step _ _ _ _ _ Hc), Hs. apply (assign_field_same get set i o h1 x Ho Hl).
  - by apply (put_other o i x x h).
  - by apply (put_peek o Ho x h).
Qed.

Lemma flat_copy {T} : flat (copy_whole (cell := cell) (T := T)).
Proof.
  intros i o h x y Ho Hne Hx Hy. destruct (copy_whole_put i o h x y Ho Hx Hy) as
      (h1 & Hc & Hs & _). congruence.
Qed.

End Promises.

(** ** pkg/plugins/apis/policy *)

Module policy.
Section Copies.
Context {cell : Type} `{DC : DurationCopy cell}.
Context `{!Storable cell SyncPolicy} `{!Storable cell PredicatePolicy} `{!Storable cell
    PriorityPolicy} `{!Storable cell HotValuePolicy}.
Context `{!Storable cell (list SyncPolicy)} `{!Storable cell
    (list PredicatePolicy)} `{!Storable cell (list PriorityPolicy)} `{!Storable cell (list HotValuePolicy)}.

(** The structs as they lie in memory: a list is a slice. *)
Record PolicySpec := {
  SyncPeriod : slice;
  SyncAppPeriod : slice;
  Predicate : slice;
  Priority : slice;
  HotValue : slice }.

Record DynamicSchedulerPolicy := { TypeMeta_ : TypeMeta; Spec : PolicySpec }.

Context `{!Storable cell PolicySpec} `{!Storable cell DynamicSchedulerPolicy}.

Definition set_TimeRange (d : Duration) (x : HotValuePolicy) : HotValuePolicy :=
  {| hv_TimeRange := d; hv_Count := hv_Count x |}.
Definition set_Period (d : Duration) (x : SyncPolicy) : SyncPolicy :=
  {| sync_Name := sync_Name x; sync_Period := d |}.
Definition set_SyncPeriod (s : slice) (x : PolicySpec) : PolicySpec :=
  {| SyncPeriod := s; SyncAppPeriod := SyncAppPeriod x; Predicate := Predicate x; Priority
      := Priority x; HotValue := HotValue x |}.
Definition set_SyncAppPeriod (s : slice) (x : PolicySpec) : PolicySpec :=
  {| SyncPeriod := SyncPeriod x; SyncAppPeriod := s; Predicate := Predicate x; Priority
      := Priority x; HotValue := HotValue x |}.
Definition set_Predicate (s : slice) (x : PolicySpec) : PolicySpec :=
  {| SyncPeriod := SyncPeriod x; SyncAppPeriod := SyncAppPeriod x; Predicate := s; Priority
      := Priority x; HotValue := HotValue x |}.
Definition set_Priority (s : slice) (x : PolicySpec) : PolicySpec :=
  {| SyncPeriod := SyncPeriod x; SyncAppPeriod := SyncAppPeriod x; Predicate := Predicate x;
      Priority := s; HotValue := HotValue x |}.
Definition set_HotValue (s : slice) (x : PolicySpec) : PolicySpec :=
  {| SyncPeriod := SyncPeriod x; SyncAppPeriod := SyncAppPeriod x; Predicate := Predicate x;
      Priority := Priority x; HotValue := s |}.
Definition set_TypeMeta (m : TypeMeta) (x : DynamicSchedulerPolicy) : DynamicSchedulerPolicy :=
  {| TypeMeta_ := m; Spec := Spec x |}.
Definition set_Spec (s : PolicySpec) (x : DynamicSchedulerPolicy) : DynamicSchedulerPolicy :=
  {| TypeMeta_ := TypeMeta_ x; Spec := s |}.

Definition zero_SyncPolicy : SyncPolicy := {| sync_Name := ""; sync_Period := 0%Z |}.
Definition zero_PredicatePolicy : PredicatePolicy := {| pred_Name := ""; MaxLimitPecent := f64_zero |}.
Definition zero_PriorityPolicy : PriorityPolicy := {| prio_Name := ""; prio_Weight := f64_zero |}.
Definition zero_HotValuePolicy : HotValuePolicy := {| hv_TimeRange := 0%Z; hv_Count := 0%Z |}.
Definition zero_PolicySpec : PolicySpec :=
  {| SyncPeriod := None; SyncAppPeriod := None; Predicate := None; Priority := None; HotValue := None |}.
Definition zero_DynamicSchedulerPolicy : DynamicSchedulerPolicy :=
  {| TypeMeta_ := {| Kind := ""; APIVersion := "" |}; Spec := zero_PolicySpec |}.

Definition HotValuePolicy_DeepCopyInto (i o : ref cell HotValuePolicy) : mem cell unit :=
  copy_whole i o;;
  Duration_DeepCopyInto (field hv_TimeRange set_TimeRange i) (field hv_TimeRange set_TimeRange o).

Definition HotValuePolicy_DeepCopy (i : ptr cell HotValuePolicy) : mem cell (ptr cell HotValuePolicy) :=
  deep_copy zero_HotValuePolicy HotValuePolicy_DeepCopyInto i.

Definition PredicatePolicy_DeepCopyInto (i o : ref cell PredicatePolicy) : mem cell unit :=
  copy_whole i o.

Definition PredicatePolicy_DeepCopy (i : ptr cell PredicatePolicy) : mem cell (ptr cell PredicatePolicy) :=
  deep_copy zero_PredicatePolicy PredicatePolicy_DeepCopyInto i.

Definition PriorityPolicy_DeepCopyInto (i o : ref cell PriorityPolicy) : mem cell unit :=
  copy_whole i o.

Definition PriorityPolicy_DeepCopy (i : ptr cell PriorityPolicy) : mem cell (ptr cell PriorityPolicy) :=
  deep_copy zero_PriorityPolicy PriorityPolicy_DeepCopyInto i.

Definition SyncPolicy_DeepCopyInto (i o : ref cell SyncPolicy) : mem cell unit :=
  copy_whole i o;;
  Duration_DeepCopyInto (field sync_Period set_Period i) (field sync_Period set_Period o).

Definition SyncPolicy_DeepCopy (i : ptr cell SyncPolicy) : mem cell (ptr cell SyncPolicy) :=
  deep_copy zero_SyncPolicy SyncPolicy_DeepCopyInto i.

Definition PolicySpec_DeepCopyInto (i o : ref cell PolicySpec) : mem cell unit :=
  copy_whole i o;;
  deep_copy_list zero_SyncPolicy SyncPolicy_DeepCopyInto
    (field SyncPeriod set_SyncPeriod i) (field SyncPeriod set_SyncPeriod o);;
  deep_copy_list zero_SyncPolicy SyncPolicy_DeepCopyInto
    (field SyncAppPeriod set_SyncAppPeriod i) (field SyncAppPeriod set_SyncAppPeriod o);;
  copy_list zero_PredicatePolicy
    (field Predicate set_Predicate i) (field Predicate set_Predicate o);;
  copy_list zero_PriorityPolicy
    (field Priority set_Priority i) (field Priority set_Priority o);;
  deep_copy_list zero_HotValuePolicy HotValuePolicy_DeepCopyInto
    (field HotValue set_HotValue i) (field HotValue set_HotValue o);;
  mem_ret tt.

Definition PolicySpec_DeepCopy (i : ptr cell PolicySpec) : mem cell (ptr cell PolicySpec) :=
  deep_copy zero_PolicySpec PolicySpec_DeepCopyInto i.

Definition DynamicSchedulerPolicy_DeepCopyInto (i o : ref cell DynamicSchedulerPolicy)
    : mem cell unit :=
  copy_whole i o;;
  assign_field TypeMeta_ set_TypeMeta i o;;
  PolicySpec_DeepCopyInto (field Spec set_Spec i) (field Spec set_Spec o).

Definition DynamicSchedulerPolicy_DeepCopy (i : ptr cell DynamicSchedulerPolicy)
    : mem cell (ptr cell DynamicSchedulerPolicy) :=
  deep_copy zero_DynamicSchedulerPolicy DynamicSchedulerPolicy_DeepCopyInto i.

Definition DynamicSchedulerPolicy_DeepCopyObject (i : ptr cell DynamicSchedulerPolicy)
    : mem cell (iface (ptr cell DynamicSchedulerPolicy)) :=
  do c <- DynamicSchedulerPolicy_DeepCopy i;; mem_ret (as_object c).

(** *** What they keep *)

Lemma flat_SyncPolicy : flat SyncPolicy_DeepCopyInto.
Proof. apply flat_duration. by split; intros; [..|destruct x]. Qed.

Lemma flat_HotValuePolicy : flat HotValuePolicy_DeepCopyInto.
Proof. apply flat_duration. by split; intros; [..|destruct x]. Qed.

Definition list_part {T} `{Storable cell (list T)} (get : PolicySpec -> slice) : part (cell
    := cell) PolicySpec :=
  {| pt_handle := slice_handle (T := T); pt_get := get |}.

Definition spec_copies : list (part_copy (cell := cell) PolicySpec).
Proof.
  refine [ {| pc_part := list_part (T := SyncPolicy) SyncPeriod; pc_set := set_SyncPeriod;
              pc_op := deep_copy_list zero_SyncPolicy SyncPolicy_DeepCopyInto |};
           {| pc_part := list_part (T := SyncPolicy) SyncAppPeriod; pc_set := set_SyncAppPeriod;
              pc_op := deep_copy_list zero_SyncPolicy SyncPolicy_DeepCopyInto |};
           {| pc_part := list_part (T := PredicatePolicy) Predicate; pc_set := set_Predicate;
              pc_op := copy_list zero_PredicatePolicy |};
           {| pc_part := list_part (T := PriorityPolicy) Priority; pc_set := set_Priority;
              pc_op := copy_list zero_PriorityPolicy |};
           {| pc_part := list_part (T := HotValuePolicy) HotValue; pc_set := set_HotValue;
              pc_op := deep_copy_list zero_HotValuePolicy HotValuePolicy_DeepCopyInto |} ];
    first [ by split; intros; [..|destruct x]
          | by apply deep_copy_list_copier, flat_SyncPolicy
          | by apply deep_copy_list_copier, flat_HotValuePolicy
          | apply copy_list_copier ].
Defined.

Definition spec_parts : list (part (cell := cell) PolicySpec) := List.map (pc_part PolicySpec) spec_copies.
Definition policy_parts : list (part (cell := cell) DynamicSchedulerPolicy) := List.map
    (part_of Spec) spec_parts.

Lemma spec_deep : deep spec_parts (fun _ => tt) PolicySpec_DeepCopyInto.
Proof.
  apply run_parts_deep.
  - repeat constructor.
  - repeat constructor.
  - intros i o h h1 x _ _ _ _ Hc. unfold PolicySpec_DeepCopyInto. by rewrite (bind_step _ _ _ _ _ Hc).
Qed.

Lemma policy_deep :
  deep policy_parts (fun x => (TypeMeta_ x, tt)) DynamicSchedulerPolicy_DeepCopyInto.
Proof.
  apply (nested_deep Spec set_Spec spec_parts (fun _ => tt) TypeMeta_ _ PolicySpec_DeepCopyInto);
    [by split; intros; [..|destruct x]|done|apply spec_deep|].
  intros i o h h1 x Hi Ho Hx Hy Hc. unfold DynamicSchedulerPolicy_DeepCopyInto.
  rewrite (bind_step _ _ _ _ _ Hc), (bind_step _ _ _ tt h1); [done|].
  by apply (assign_field_same TypeMeta_ set_TypeMeta i o h1 x Ho); [split; intros; [..|destruct x0]|..].
Qed.

End Copies.
End policy.

(** ** pkg/plugins/apis/policy/v1alpha1 *)

Module v1alpha1.
Import Policy.v1alpha1.
Section Copies.
Context {cell : Type} `{DC : DurationCopy cell}.
Context `{!Storable cell SyncPolicy1} `{!Storable cell PredicatePolicy1} `{!Storable cell
    PriorityPolicy1} `{!Storable cell HotValuePolicy1}.
Context `{!Storable cell (list SyncPolicy1)} `{!Storable cell
    (list PredicatePolicy1)} `{!Storable cell (list PriorityPolicy1)} `{!Storable cell
        (list HotValuePolicy1)}.

Record PolicySpec := {
  SyncPeriod : slice;
  SyncAppPeriod : slice;
  Predicate : slice;
  Priority : slice;
  HotValue : slice }.

Record DynamicSchedulerPolicy := { TypeMeta_ : TypeMeta; Spec : PolicySpec }.

Context `{!Storable cell PolicySpec} `{!Storable cell DynamicSchedulerPolicy}.

Definition set_TimeRange (d : Duration) (x : HotValuePolicy1) : HotValuePolicy1 :=
  {| TimeRange := d; Count := Count x |}.
Definition set_Period (d : Duration) (x : SyncPolicy1) : SyncPolicy1 :=
  {| Name := Name x; Period := d |}.
Definition set_SyncPeriod (s : slice) (x : PolicySpec) : PolicySpec :=
  {| SyncPeriod := s; SyncAppPeriod := SyncAppPeriod x; Predicate := Predicate x; Priority
      := Priority x; HotValue := HotValue x |}.
Definition set_SyncAppPeriod (s : slice) (x : PolicySpec) : PolicySpec :=
  {| SyncPeriod := SyncPeriod x; SyncAppPeriod := s; Predicate := Predicate x; Priority
      := Priority x; HotValue := HotValue x |}.
Definition set_Predicate (s : slice) (x : PolicySpec) : PolicySpec :=
  {| SyncPeriod := SyncPeriod x; SyncAppPeriod := SyncAppPeriod x; Predicate := s; Priority
      := Priority x; HotValue := HotValue x |}.
Definition set_Priority (s : slice) (x : PolicySpec) : PolicySpec :=
  {| SyncPeriod := SyncPeriod x; SyncAppPeriod := SyncAppPeriod x; Predicate := Predicate x;
      Priority := s; HotValue := HotValue x |}.
Definition set_HotValue (s : slice) (x : PolicySpec) : PolicySpec :=
  {| SyncPeriod := SyncPeriod x; SyncAppPeriod := SyncAppPeriod x; Predicate := Predicate x;
      Priority := Priority x; HotValue := s |}.
Definition set_TypeMeta (m : TypeMeta) (x : DynamicSchedulerPolicy) : DynamicSchedulerPolicy :=
  {| TypeMeta_ := m; Spec := Spec x |}.
Definition set_Spec (s : PolicySpec) (x : DynamicSchedulerPolicy) : DynamicSchedulerPolicy :=
  {| TypeMeta_ := TypeMeta_ x; Spec := s |}.

Definition zero_SyncPolicy : SyncPolicy1 := {| Name := ""; Period := 0%Z |}.
Definition zero_PredicatePolicy : PredicatePolicy1 := {| PredName := ""; PredMaxLimitPecent := f64_zero |}.
Definition zero_PriorityPolicy : PriorityPolicy1 := {| PrioName := ""; Weight := f64_zero |}.
Definition zero_HotValuePolicy : HotValuePolicy1 := {| TimeRange := 0%Z; Count := 0%Z |}.
Definition zero_PolicySpec : PolicySpec :=
  {| SyncPeriod := None; SyncAppPeriod := None; Predicate := None; Priority := None; HotValue := None |}.
Definition zero_DynamicSchedulerPolicy : DynamicSchedulerPolicy :=
  {| TypeMeta_ := {| Kind := ""; APIVersion := "" |}; Spec := zero_PolicySpec |}.

Definition HotValuePolicy_DeepCopyInto (i o : ref cell HotValuePolicy1) : mem cell unit :=
  copy_whole i o;;
  Duration_DeepCopyInto (field TimeRange set_TimeRange i) (field TimeRange set_TimeRange o).

Definition HotValuePolicy_DeepCopy (i : ptr cell HotValuePolicy1) : mem cell (ptr cell HotValuePolicy1) :=
  deep_copy zero_HotValuePolicy HotValuePolicy_DeepCopyInto i.

Definition PredicatePolicy_DeepCopyInto (i o : ref cell PredicatePolicy1) : mem cell unit :=
  copy_whole i o.

Definition PredicatePolicy_DeepCopy (i : ptr cell PredicatePolicy1) : mem cell
    (ptr cell PredicatePolicy1) :=
  deep_copy zero_PredicatePolicy PredicatePolicy_DeepCopyInto i.

Definition PriorityPolicy_DeepCopyInto (i o : ref cell PriorityPolicy1) : mem cell unit :=
  copy_whole i o.

Definition PriorityPolicy_DeepCopy (i : ptr cell PriorityPolicy1) : mem cell (ptr cell PriorityPolicy1) :=
  deep_copy zero_PriorityPolicy PriorityPolicy_DeepCopyInto i.

Definition SyncPolicy_DeepCopyInto (i o : ref cell SyncPolicy1) : mem cell unit :=
  copy_whole i o;;
  Duration_DeepCopyInto (field Period set_Period i) (field Period set_Period o).

Definition SyncPolicy_DeepCopy (i : ptr cell SyncPolicy1) : mem cell (ptr cell SyncPolicy1) :=
  deep_copy zero_SyncPolicy SyncPolicy_DeepCopyInto i.

Definition PolicySpec_DeepCopyInto (i o : ref cell PolicySpec) : mem cell unit :=
  copy_whole i o;;
  deep_copy_list zero_SyncPolicy SyncPolicy_DeepCopyInto
    (field SyncPeriod set_SyncPeriod i) (field SyncPeriod set_SyncPeriod o);;
  deep_copy_list zero_SyncPolicy SyncPolicy_DeepCopyInto
    (field SyncAppPeriod set_SyncAppPeriod i) (field SyncAppPeriod set_SyncAppPeriod o);;
  copy_list zero_PredicatePolicy
    (field Predicate set_Predicate i) (field Predicate set_Predicate o);;
  copy_list zero_PriorityPolicy
    (field Priority set_Priority i) (field Priority set_Priority o);;
  deep_copy_list zero_HotValuePolicy HotValuePolicy_DeepCopyInto
    (field HotValue set_HotValue i) (field HotValue set_HotValue o);;
  mem_ret tt.

Definition PolicySpec_DeepCopy (i : ptr cell PolicySpec) : mem cell (ptr cell PolicySpec) :=
  deep_copy zero_PolicySpec PolicySpec_DeepCopyInto i.

Definition DynamicSchedulerPolicy_DeepCopyInto (i o : ref cell DynamicSchedulerPolicy)
    : mem cell unit :=
  copy_whole i o;;
  assign_field TypeMeta_ set_TypeMeta i o;;
  PolicySpec_DeepCopyInto (field Spec set_Spec i) (field Spec set_Spec o).

Definition DynamicSchedulerPolicy_DeepCopy (i : ptr cell DynamicSchedulerPolicy)
    : mem cell (ptr cell DynamicSchedulerPolicy) :=
  deep_copy zero_DynamicSchedulerPolicy DynamicSchedulerPolicy_DeepCopyInto i.

Definition DynamicSchedulerPolicy_DeepCopyObject (i : ptr cell DynamicSchedulerPolicy)
    : mem cell (iface (ptr cell DynamicSchedulerPolicy)) :=
  do c <- DynamicSchedulerPolicy_DeepCopy i;; mem_ret (as_object c).

(** *** What they keep *)

Lemma flat_SyncPolicy1 : flat SyncPolicy_DeepCopyInto.
Proof. apply flat_duration. by split; intros; [..|destruct x]. Qed.

Lemma flat_HotValuePolicy1 : flat HotValuePolicy_DeepCopyInto.
Proof. apply flat_duration. by split; intros; [..|destruct x]. Qed.

Definition list_part {T} `{Storable cell (list T)} (get : PolicySpec -> slice) : part (cell
    := cell) PolicySpec :=
  {| pt_handle := slice_handle (T := T); pt_get := get |}.

Definition spec_copies : list (part_copy (cell := cell) PolicySpec).
Proof.
  refine [ {| pc_part := list_part (T := SyncPolicy1) SyncPeriod; pc_set := set_SyncPeriod;
              pc_op := deep_copy_list zero_SyncPolicy SyncPolicy_DeepCopyInto |};
           {| pc_part := list_part (T := SyncPolicy1) SyncAppPeriod; pc_set := set_SyncAppPeriod;
              pc_op := deep_copy_list zero_SyncPolicy SyncPolicy_DeepCopyInto |};
           {| pc_part := list_part (T := PredicatePolicy1) Predicate; pc_set := set_Predicate;
              pc_op := copy_list zero_PredicatePolicy |};
           {| pc_part := list_part (T := PriorityPolicy1) Priority; pc_set := set_Priority;
              pc_op := copy_list zero_PriorityPolicy |};
           {| pc_part := list_part (T := HotValuePolicy1) HotValue; pc_set := set_HotValue;
              pc_op := deep_copy_list zero_HotValuePolicy HotValuePolicy_DeepCopyInto |} ];
    first [ by split; intros; [..|destruct x]
          | by apply deep_copy_list_copier, flat_SyncPolicy1
          | by apply deep_copy_list_copier, flat_HotValuePolicy1
          | apply copy_list_copier ].
Defined.

Definition spec_parts : list (part (cell := cell) PolicySpec) := List.map (pc_part PolicySpec) spec_copies.
Definition policy_parts : list (part (cell := cell) DynamicSchedulerPolicy) := List.map
    (part_of Spec) spec_parts.

Lemma spec_deep1 : deep spec_parts (fun _ => tt) PolicySpec_DeepCopyInto.
Proof.
  apply run_parts_deep.
  - repeat constructor.
  - repeat constructor.
  - intros i o h h1 x _ _ _ _ Hc. unfold PolicySpec_DeepCopyInto. by rewrite (bind_step _ _ _ _ _ Hc).
Qed.

Lemma policy_deep1 :
  deep policy_parts (fun x => (TypeMeta_ x, tt)) DynamicSchedulerPolicy_DeepCopyInto.
Proof.
  apply (nested_deep Spec set_Spec spec_parts (fun _ => tt) TypeMeta_ _ PolicySpec_DeepCopyInto);
    [by split; intros; [..|destruct x]|done|apply spec_deep1|].
  intros i o h h1 x Hi Ho Hx Hy Hc. unfold DynamicSchedulerPolicy_DeepCopyInto.
  rewrite (bind_step _ _ _ _ _ Hc), (bind_step _ _ _ tt h1); [done|].
  by apply (assign_field_same TypeMeta_ set_TypeMeta i o h1 x Ho); [split; intros; [..|destruct x0]|..].
Qed.

End Copies.
End v1alpha1.

(** ** pkg/plugins/apis/config *)

Module config.
Section Copies.
Context {cell : Type} `{!Storable cell string} `{!Storable cell (list string)}.

Record DynamicArgs := { da_TypeMeta : TypeMeta; da_PolicyConfigPath : string }.

Context `{!Storable cell DynamicArgs}.

Definition da_set_TypeMeta (m : TypeMeta) (x : DynamicArgs) : DynamicArgs :=
  {| da_TypeMeta := m; da_PolicyConfigPath := da_PolicyConfigPath x |}.

Definition DynamicArgs_DeepCopyInto (i o : ref cell DynamicArgs) : mem cell unit :=
  copy_whole i o;;
  assign_field da_TypeMeta da_set_TypeMeta i o.

Definition DynamicArgs_DeepCopy (i : ptr cell DynamicArgs) : mem cell (ptr cell DynamicArgs) :=
  deep_copy {| da_TypeMeta := {| Kind := ""; APIVersion := "" |}; da_PolicyConfigPath := ""
      |} DynamicArgs_DeepCopyInto i.

Definition DynamicArgs_DeepCopyObject (i : ptr cell DynamicArgs) : mem cell (iface
    (ptr cell DynamicArgs)) :=
  do c <- DynamicArgs_DeepCopy i;; mem_ret (as_object c).

Record NodeResourceTopologyMatchArgs := { na_TypeMeta : TypeMeta; TopologyAwareResources : slice }.

Context `{!Storable cell NodeResourceTopologyMatchArgs}.

Definition na_set_TypeMeta (m : TypeMeta) (x : NodeResourceTopologyMatchArgs) :
    NodeResourceTopologyMatchArgs :=
  {| na_TypeMeta := m; TopologyAwareResources := TopologyAwareResources x |}.
Definition set_TopologyAwareResources (s : slice)
    (x : NodeResourceTopologyMatchArgs) : NodeResourceTopologyMatchArgs :=
  {| na_TypeMeta := na_TypeMeta x; TopologyAwareResources := s |}.

Definition NodeResourceTopologyMatchArgs_DeepCopyInto
    (i o : ref cell NodeResourceTopologyMatchArgs) : mem cell unit :=
  copy_whole i o;;
  assign_field na_TypeMeta na_set_TypeMeta i o;;
  copy_list "" (field TopologyAwareResources set_TopologyAwareResources i)
    (field TopologyAwareResources set_TopologyAwareResources o);;
  mem_ret tt.

Definition NodeResourceTopologyMatchArgs_DeepCopy (i : ptr cell NodeResourceTopologyMatchArgs) :
    mem cell (ptr cell NodeResourceTopologyMatchArgs) :=
  deep_copy {| na_TypeMeta := {| Kind := ""; APIVersion := "" |}; TopologyAwareResources := None
      |} NodeResourceTopologyMatchArgs_DeepCopyInto i.

Definition NodeResourceTopologyMatchArgs_DeepCopyObject
    (i : ptr cell NodeResourceTopologyMatchArgs) : mem cell (iface
        (ptr cell NodeResourceTopologyMatchArgs)) :=
  do c <- NodeResourceTopologyMatchArgs_DeepCopy i;; mem_ret (as_object c).

Record ApplicationResourceAwareArgs := { aa_TypeMeta : TypeMeta; aa_PolicyConfigPath : string }.

Context `{!Storable cell ApplicationResourceAwareArgs}.

Definition aa_set_TypeMeta (m : TypeMeta) (x : ApplicationResourceAwareArgs) :
    ApplicationResourceAwareArgs :=
  {| aa_TypeMeta := m; aa_PolicyConfigPath := aa_PolicyConfigPath x |}.

Definition ApplicationResourceAwareArgs_DeepCopyInto (i o : ref cell ApplicationResourceAwareArgs) :
    mem cell unit :=
  copy_whole i o;;
  assign_field aa_TypeMeta aa_set_TypeMeta i o.

Definition ApplicationResourceAwareArgs_DeepCopy (i : ptr cell ApplicationResourceAwareArgs) :
    mem cell (ptr cell ApplicationResourceAwareArgs) :=
  deep_copy {| aa_TypeMeta := {| Kind := ""; APIVersion := "" |}; aa_PolicyConfigPath := ""
      |} ApplicationResourceAwareArgs_DeepCopyInto i.

Definition ApplicationResourceAwareArgs_DeepCopyObject (i : ptr cell ApplicationResourceAwareArgs) :
    mem cell (iface (ptr cell ApplicationResourceAwareArgs)) :=
  do c <- ApplicationResourceAwareArgs_DeepCopy i;; mem_ret (as_object c).

Lemma da_deep : deep (cell := cell) [] id DynamicArgs_DeepCopyInto.
Proof. apply flat_deep, flat_typemeta. by split; intros; [..|destruct x]. Qed.

Definition na_copies : list (part_copy (cell := cell) NodeResourceTopologyMatchArgs).
Proof.
  refine [ {| pc_part := {| pt_handle := slice_handle (T := string); pt_get
      := TopologyAwareResources |}; pc_set := set_TopologyAwareResources; pc_op := copy_list "" |} ];
    first [ by split; intros; [..|destruct x] | apply copy_list_copier | apply copy_string_ptr_copier ].
Defined.

Lemma na_deep : deep (List.map (pc_part NodeResourceTopologyMatchArgs) na_copies) na_TypeMeta
    NodeResourceTopologyMatchArgs_DeepCopyInto.
Proof.
  apply run_parts_deep; [repeat constructor|repeat constructor|].
  intros i o h h1 x _ Ho Hx Hy Hc. unfold NodeResourceTopologyMatchArgs_DeepCopyInto.
  rewrite (bind_step _ _ _ _ _ Hc), (bind_step _ _ _ tt h1); [done|].
  by apply (assign_field_same na_TypeMeta na_set_TypeMeta i o h1 x Ho); [split; intros;
      [..|destruct x0]|..].
Qed.

Lemma aa_deep : deep (cell := cell) [] id ApplicationResourceAwareArgs_DeepCopyInto.
Proof. apply flat_deep, flat_typemeta. by split; intros; [..|destruct x]. Qed.

End Copies.
End config.

(** ** pkg/plugins/apis/config/v1beta2 *)

Module v1beta2.
Section Copies.
Context {cell : Type} `{!Storable cell string} `{!Storable cell (list string)}.

Record DynamicArgs := { da_TypeMeta : TypeMeta; da_PolicyConfigPath : string }.

Context `{!Storable cell DynamicArgs}.

Definition da_set_TypeMeta (m : TypeMeta) (x : DynamicArgs) : DynamicArgs :=
  {| da_TypeMeta := m; da_PolicyConfigPath := da_PolicyConfigPath x |}.

Definition DynamicArgs_DeepCopyInto (i o : ref cell DynamicArgs) : mem cell unit :=
  copy_whole i o;;
  assign_field da_TypeMeta da_set_TypeMeta i o.

Definition DynamicArgs_DeepCopy (i : ptr cell DynamicArgs) : mem cell (ptr cell DynamicArgs) :=
  deep_copy {| da_TypeMeta := {| Kind := ""; APIVersion := "" |}; da_PolicyConfigPath := ""
      |} DynamicArgs_DeepCopyInto i.

Definition DynamicArgs_DeepCopyObject (i : ptr cell DynamicArgs) : mem cell (iface
    (ptr cell DynamicArgs)) :=
  do c <- DynamicArgs_DeepCopy i;; mem_ret (as_object c).

Record NodeResourceTopologyMatchArgs := { na_TypeMeta : TypeMeta; TopologyAwareResources : slice }.

Context `{!Storable cell NodeResourceTopologyMatchArgs}.

Definition na_set_TypeMeta (m : TypeMeta) (x : NodeResourceTopologyMatchArgs) :
    NodeResourceTopologyMatchArgs :=
  {| na_TypeMeta := m; TopologyAwareResources := TopologyAwareResources x |}.
Definition set_TopologyAwareResources (s : slice)
    (x : NodeResourceTopologyMatchArgs) : NodeResourceTopologyMatchArgs :=
  {| na_TypeMeta := na_TypeMeta x; TopologyAwareResources := s |}.

Definition NodeResourceTopologyMatchArgs_DeepCopyInto
    (i o : ref cell NodeResourceTopologyMatchArgs) : mem cell unit :=
  copy_whole i o;;
  assign_field na_TypeMeta na_set_TypeMeta i o;;
  copy_list "" (field TopologyAwareResources set_TopologyAwareResources i)
    (field TopologyAwareResources set_TopologyAwareResources o);;
  mem_ret tt.

Definition NodeResourceTopologyMatchArgs_DeepCopy (i : ptr cell NodeResourceTopologyMatchArgs) :
    mem cell (ptr cell NodeResourceTopologyMatchArgs) :=
  deep_copy {| na_TypeMeta := {| Kind := ""; APIVersion := "" |}; TopologyAwareResources := None
      |} NodeResourceTopologyMatchArgs_DeepCopyInto i.

Definition NodeResourceTopologyMatchArgs_DeepCopyObject
    (i : ptr cell NodeResourceTopologyMatchArgs) : mem cell (iface
        (ptr cell NodeResourceTopologyMatchArgs)) :=
  do c <- NodeResourceTopologyMatchArgs_DeepCopy i;; mem_ret (as_object c).

Record ApplicationResourceAwareArgs := { aa_TypeMeta : TypeMeta; aa_PolicyConfigPath : string }.

Context `{!Storable cell ApplicationResourceAwareArgs}.

Definition aa_set_TypeMeta (m : TypeMeta) (x : ApplicationResourceAwareArgs) :
    ApplicationResourceAwareArgs :=
  {| aa_TypeMeta := m; aa_PolicyConfigPath := aa_PolicyConfigPath x |}.

Definition ApplicationResourceAwareArgs_DeepCopyInto (i o : ref cell ApplicationResourceAwareArgs) :
    mem cell unit :=
  copy_whole i o;;
  assign_field aa_TypeMeta aa_set_TypeMeta i o.

Definition ApplicationResourceAwareArgs_DeepCopy (i : ptr cell ApplicationResourceAwareArgs) :
    mem cell (ptr cell ApplicationResourceAwareArgs) :=
  deep_copy {| aa_TypeMeta := {| Kind := ""; APIVersion := "" |}; aa_PolicyConfigPath := ""
      |} ApplicationResourceAwareArgs_DeepCopyInto i.

Definition ApplicationResourceAwareArgs_DeepCopyObject (i : ptr cell ApplicationResourceAwareArgs) :
    mem cell (iface (ptr cell ApplicationResourceAwareArgs)) :=
  do c <- ApplicationResourceAwareArgs_DeepCopy i;; mem_ret (as_object c).

Lemma da_deep2 : deep (cell := cell) [] id DynamicArgs_DeepCopyInto.
Proof. apply flat_deep, flat_typemeta. by split; intros; [..|destruct x]. Qed.

Definition na_copies : list (part_copy (cell := cell) NodeResourceTopologyMatchArgs).
Proof.
  refine [ {| pc_part := {| pt_handle := slice_handle (T := string); pt_get
      := TopologyAwareResources |}; pc_set := set_TopologyAwareResources; pc_op := copy_list "" |} ];
    first [ by split; intros; [..|destruct x] | apply copy_list_copier | apply copy_string_ptr_copier ].
Defined.

Lemma na_deep2 : deep (List.map (pc_part NodeResourceTopologyMatchArgs) na_copies) na_TypeMeta
    NodeResourceTopologyMatchArgs_DeepCopyInto.
Proof.
  apply run_parts_deep; [repeat constructor|repeat constructor|].
  intros i o h h1 x _ Ho Hx Hy Hc. unfold NodeResourceTopologyMatchArgs_DeepCopyInto.
  rewrite (bind_step _ _ _ _ _ Hc), (bind_step _ _ _ tt h1); [done|].
  by apply (assign_field_same na_TypeMeta na_set_TypeMeta i o h1 x Ho); [split; intros;
      [..|destruct x0]|..].
Qed.

Lemma aa_deep2 : deep (cell := cell) [] id ApplicationResourceAwareArgs_DeepCopyInto.
Proof. apply flat_deep, flat_typemeta. by split; intros; [..|destruct x]. Qed.

End Copies.
End v1beta2.

(** ** pkg/plugins/apis/config/v1beta3 *)

Module v1beta3.
Section Copies.
Context {cell : Type} `{!Storable cell string} `{!Storable cell (list string)}.

Record DynamicArgs := { da_TypeMeta : TypeMeta; da_PolicyConfigPath : option loc }.

Context `{!Storable cell DynamicArgs}.

Definition da_set_TypeMeta (m : TypeMeta) (x : DynamicArgs) : DynamicArgs :=
  {| da_TypeMeta := m; da_PolicyConfigPath := da_PolicyConfigPath x |}.
Definition da_set_PolicyConfigPath (p : option loc) (x : DynamicArgs) : DynamicArgs :=
  {| da_TypeMeta := da_TypeMeta x; da_PolicyConfigPath := p |}.

Definition DynamicArgs_DeepCopyInto (i o : ref cell DynamicArgs) : mem cell unit :=
  copy_whole i o;;
  assign_field da_TypeMeta da_set_TypeMeta i o;;
  copy_string_ptr (field da_PolicyConfigPath da_set_PolicyConfigPath i)
    (field da_PolicyConfigPath da_set_PolicyConfigPath o);;
  mem_ret tt.

Definition DynamicArgs_DeepCopy (i : ptr cell DynamicArgs) : mem cell (ptr cell DynamicArgs) :=
  deep_copy {| da_TypeMeta := {| Kind := ""; APIVersion := "" |}; da_PolicyConfigPath := None
      |} DynamicArgs_DeepCopyInto i.

Definition DynamicArgs_DeepCopyObject (i : ptr cell DynamicArgs) : mem cell (iface
    (ptr cell DynamicArgs)) :=
  do c <- DynamicArgs_DeepCopy i;; mem_ret (as_object c).

Record NodeResourceTopologyMatchArgs := { na_TypeMeta : TypeMeta; TopologyAwareResources : slice }.

Context `{!Storable cell NodeResourceTopologyMatchArgs}.

Definition na_set_TypeMeta (m : TypeMeta) (x : NodeResourceTopologyMatchArgs) :
    NodeResourceTopologyMatchArgs :=
  {| na_TypeMeta := m; TopologyAwareResources := TopologyAwareResources x |}.
Definition set_TopologyAwareResources (s : slice)
    (x : NodeResourceTopologyMatchArgs) : NodeResourceTopologyMatchArgs :=
  {| na_TypeMeta := na_TypeMeta x; TopologyAwareResources := s |}.

Definition NodeResourceTopologyMatchArgs_DeepCopyInto
    (i o : ref cell NodeResourceTopologyMatchArgs) : mem cell unit :=
  copy_whole i o;;
  assign_field na_TypeMeta na_set_TypeMeta i o;;
  copy_list "" (field TopologyAwareResources set_TopologyAwareResources i)
    (field TopologyAwareResources set_TopologyAwareResources o);;
  mem_ret tt.

Definition NodeResourceTopologyMatchArgs_DeepCopy (i : ptr cell NodeResourceTopologyMatchArgs) :
    mem cell (ptr cell NodeResourceTopologyMatchArgs) :=
  deep_copy {| na_TypeMeta := {| Kind := ""; APIVersion := "" |}; TopologyAwareResources := None
      |} NodeResourceTopologyMatchArgs_DeepCopyInto i.

Definition NodeResourceTopologyMatchArgs_DeepCopyObject
    (i : ptr cell NodeResourceTopologyMatchArgs) : mem cell (iface
        (ptr cell NodeResourceTopologyMatchArgs)) :=
  do c <- NodeResourceTopologyMatchArgs_DeepCopy i;; mem_ret (as_object c).

Record ApplicationResourceAwareArgs := { aa_TypeMeta : TypeMeta; aa_PolicyConfigPath : option loc }.

Context `{!Storable cell ApplicationResourceAwareArgs}.

Definition aa_set_TypeMeta (m : TypeMeta) (x : ApplicationResourceAwareArgs) :
    ApplicationResourceAwareArgs :=
  {| aa_TypeMeta := m; aa_PolicyConfigPath := aa_PolicyConfigPath x |}.
Definition aa_set_PolicyConfigPath (p : option loc)
    (x : ApplicationResourceAwareArgs) : ApplicationResourceAwareArgs :=
  {| aa_TypeMeta := aa_TypeMeta x; aa_PolicyConfigPath := p |}.

Definition ApplicationResourceAwareArgs_DeepCopyInto (i o : ref cell ApplicationResourceAwareArgs) :
    mem cell unit :=
  copy_whole i o;;
  assign_field aa_TypeMeta aa_set_TypeMeta i o;;
  copy_string_ptr (field aa_PolicyConfigPath aa_set_PolicyConfigPath i)
    (field aa_PolicyConfigPath aa_set_PolicyConfigPath o);;
  mem_ret tt.

Definition ApplicationResourceAwareArgs_DeepCopy (i : ptr cell ApplicationResourceAwareArgs) :
    mem cell (ptr cell ApplicationResourceAwareArgs) :=
  deep_copy {| aa_TypeMeta := {| Kind := ""; APIVersion := "" |}; aa_PolicyConfigPath := None
      |} ApplicationResourceAwareArgs_DeepCopyInto i.

Definition ApplicationResourceAwareArgs_DeepCopyObject (i : ptr cell ApplicationResourceAwareArgs) :
    mem cell (iface (ptr cell ApplicationResourceAwareArgs)) :=
  do c <- ApplicationResourceAwareArgs_DeepCopy i;; mem_ret (as_object c).

Definition da_copies : list (part_copy (cell := cell) DynamicArgs).
Proof.
  refine [ {| pc_part := {| pt_handle := pointer_handle; pt_get := da_PolicyConfigPath |}; pc_set
      := da_set_PolicyConfigPath; pc_op := copy_string_ptr |} ];
    first [ by split; intros; [..|destruct x] | apply copy_list_copier | apply copy_string_ptr_copier ].
Defined.

Lemma da_deep3 : deep (List.map (pc_part DynamicArgs) da_copies) da_TypeMeta DynamicArgs_DeepCopyInto.
Proof.
  apply run_parts_deep; [repeat constructor|repeat constructor|].
  intros i o h h1 x _ Ho Hx Hy Hc. unfold DynamicArgs_DeepCopyInto.
  rewrite (bind_step _ _ _ _ _ Hc), (bind_step _ _ _ tt h1); [done|].
  by apply (assign_field_same da_TypeMeta da_set_TypeMeta i o h1 x Ho); [split; intros;
      [..|destruct x0]|..].
Qed.

Definition na_copies : list (part_copy (cell := cell) NodeResourceTopologyMatchArgs).
Proof.
  refine [ {| pc_part := {| pt_handle := slice_handle (T := string); pt_get
      := TopologyAwareResources |}; pc_set := set_TopologyAwareResources; pc_op := copy_list "" |} ];
    first [ by split; intros; [..|destruct x] | apply copy_list_copier | apply copy_string_ptr_copier ].
Defined.

Lemma na_deep3 : deep (List.map (pc_part NodeResourceTopologyMatchArgs) na_copies) na_TypeMeta
    NodeResourceTopologyMatchArgs_DeepCopyInto.
Proof.
  apply run_parts_deep; [repeat constructor|repeat constructor|].
  intros i o h h1 x _ Ho Hx Hy Hc. unfold NodeResourceTopologyMatchArgs_DeepCopyInto.
  rewrite (bind_step _ _ _ _ _ Hc), (bind_step _ _ _ tt h1); [done|].
  by apply (assign_field_same na_TypeMeta na_set_TypeMeta i o h1 x Ho); [split; intros;
      [..|destruct x0]|..].
Qed.

Definition aa_copies : list (part_copy (cell := cell) ApplicationResourceAwareArgs).
Proof.
  refine [ {| pc_part := {| pt_handle := pointer_handle; pt_get := aa_PolicyConfigPath |}; pc_set
      := aa_set_PolicyConfigPath; pc_op := copy_string_ptr |} ];
    first [ by split; intros; [..|destruct x] | apply copy_list_copier | apply copy_string_ptr_copier ].
Defined.

Lemma aa_deep3 : deep (List.map (pc_part ApplicationResourceAwareArgs) aa_copies) aa_TypeMeta
    ApplicationResourceAwareArgs_DeepCopyInto.
Proof.
  apply run_parts_deep; [repeat constructor|repeat constructor|].
  intros i o h h1 x _ Ho Hx Hy Hc. unfold ApplicationResourceAwareArgs_DeepCopyInto.
  rewrite (bind_step _ _ _ _ _ Hc), (bind_step _ _ _ tt h1); [done|].
  by apply (assign_field_same aa_TypeMeta aa_set_TypeMeta i o h1 x Ho); [split; intros;
      [..|destruct x0]|..].
Qed.

End Copies.
End v1beta3.

(** ** Properties *)

Section Properties.
Context {cell : Type} `{DC : DurationCopy cell}.

(** C35: a deep copy is independent. For a policy (internal or v1alpha1) and for the plugin arguments
    that hold a list or a pointer, DeepCopy of a pointer that is not nil returns a pointer to a new
    variable, changes no variable that was there before, and whatever is written to those later
    (to the lists of the original, say), the copy keeps the value the original had: the same
    scalar fields, the same lists, nil where the original has nil. Of nil it returns nil. *)
Theorem copies_independent
    `{!Storable cell SyncPolicy} `{!Storable cell PredicatePolicy} `{!Storable cell PriorityPolicy}
    `{!Storable cell HotValuePolicy} `{!Storable cell (list SyncPolicy)}
    `{!Storable cell (list PredicatePolicy)} `{!Storable cell (list PriorityPolicy)}
    `{!Storable cell (list HotValuePolicy)} `{!Storable cell policy.PolicySpec}
    `{!Storable cell policy.DynamicSchedulerPolicy}
    `{!Storable cell Policy.v1alpha1.SyncPolicy1} `{!Storable cell Policy.v1alpha1.PredicatePolicy1}
    `{!Storable cell Policy.v1alpha1.PriorityPolicy1} `{!Storable cell Policy.v1alpha1.HotValuePolicy1}
    `{!Storable cell (list Policy.v1alpha1.SyncPolicy1)}
    `{!Storable cell (list Policy.v1alpha1.PredicatePolicy1)}
    `{!Storable cell (list Policy.v1alpha1.PriorityPolicy1)}
    `{!Storable cell (list Policy.v1alpha1.HotValuePolicy1)} `{!Storable cell v1alpha1.PolicySpec}
    `{!Storable cell v1alpha1.DynamicSchedulerPolicy}
    `{!Storable cell string} `{!Storable cell (list string)}
    `{!Storable cell config.NodeResourceTopologyMatchArgs}
    `{!Storable cell v1beta2.NodeResourceTopologyMatchArgs}
    `{!Storable cell v1beta3.NodeResourceTopologyMatchArgs}
    `{!Storable cell v1beta3.DynamicArgs} `{!Storable cell v1beta3.ApplicationResourceAwareArgs} :
  independent policy.policy_parts (fun x => (policy.TypeMeta_ x, tt))
    policy.DynamicSchedulerPolicy_DeepCopy /\
  independent v1alpha1.policy_parts (fun x => (v1alpha1.TypeMeta_ x, tt))
    v1alpha1.DynamicSchedulerPolicy_DeepCopy /\
  independent policy.spec_parts (fun _ => tt) policy.PolicySpec_DeepCopy /\
  independent v1alpha1.spec_parts (fun _ => tt) v1alpha1.PolicySpec_DeepCopy /\
  independent (List.map (pc_part _) config.na_copies) config.na_TypeMeta
    config.NodeResourceTopologyMatchArgs_DeepCopy /\
  independent (List.map (pc_part _) v1beta2.na_copies) v1beta2.na_TypeMeta
    v1beta2.NodeResourceTopologyMatchArgs_DeepCopy /\
  independent (List.map (pc_part _) v1beta3.na_copies) v1beta3.na_TypeMeta
    v1beta3.NodeResourceTopologyMatchArgs_DeepCopy /\
  independent (List.map (pc_part _) v1beta3.da_copies) v1beta3.da_TypeMeta
    v1beta3.DynamicArgs_DeepCopy /\
  independent (List.map (pc_part _) v1beta3.aa_copies) v1beta3.aa_TypeMeta
    v1beta3.ApplicationResourceAwareArgs_DeepCopy.
Proof.
  split_and!; apply deep_independent;
    [apply policy.policy_deep|apply v1alpha1.policy_deep1|apply policy.spec_deep
    |apply v1alpha1.spec_deep1|apply config.na_deep|apply v1beta2.na_deep2|apply v1beta3.na_deep3
    |apply v1beta3.da_deep3|apply v1beta3.aa_deep3].
Qed.

(** The types without such parts: the copy is a new variable with the same value. *)
Lemma flat_copies_independent
    `{!Storable cell SyncPolicy} `{!Storable cell PredicatePolicy} `{!Storable cell PriorityPolicy}
    `{!Storable cell HotValuePolicy} `{!Storable cell Policy.v1alpha1.SyncPolicy1}
    `{!Storable cell Policy.v1alpha1.PredicatePolicy1} `{!Storable cell Policy.v1alpha1.PriorityPolicy1}
    `{!Storable cell Policy.v1alpha1.HotValuePolicy1} `{!Storable cell config.DynamicArgs}
    `{!Storable cell config.ApplicationResourceAwareArgs} `{!Storable cell v1beta2.DynamicArgs}
    `{!Storable cell v1beta2.ApplicationResourceAwareArgs} :
  independent [] id policy.SyncPolicy_DeepCopy /\ independent [] id policy.PredicatePolicy_DeepCopy /\
  independent [] id policy.PriorityPolicy_DeepCopy /\ independent [] id policy.HotValuePolicy_DeepCopy /\
  independent [] id v1alpha1.SyncPolicy_DeepCopy /\ independent [] id v1alpha1.PredicatePolicy_DeepCopy /\
  independent [] id v1alpha1.PriorityPolicy_DeepCopy
      /\ independent [] id v1alpha1.HotValuePolicy_DeepCopy /\
  independent [] id config.DynamicArgs_DeepCopy /\
  independent [] id config.ApplicationResourceAwareArgs_DeepCopy /\
  independent [] id v1beta2.DynamicArgs_DeepCopy /\
  independent [] id v1beta2.ApplicationResourceAwareArgs_DeepCopy.
Proof.
  split_and!; apply deep_independent, flat_deep;
    first [apply flat_copy | by apply flat_duration; split; intros; [..|destruct x]
          | by apply flat_typemeta; split; intros; [..|destruct x]].
Qed.

(** DeepCopyObject wraps the pointer, and never a nil one. *)
Lemma as_object_nil {T} (c : ptr cell T) : as_object c = INil <-> c = None.
Proof. by destruct c. Qed.

End Properties.

(** ** An example

    A policy whose list is written to after the copy was made. *)

Section Example_.
Inductive ycell :=
| YSyncs (l : list SyncPolicy) | YPreds (l : list PredicatePolicy) | YPrios (l : list PriorityPolicy)
| YHots (l : list HotValuePolicy) | YSpec (x : policy.PolicySpec).

#[local] Instance ysyncs : Storable ycell (list SyncPolicy).
Proof. refine {| inj := YSyncs; prj c := match c with YSyncs l => Some l | _ => None end |};
    [done|by intros [] ? [=->]]. Defined.
#[local] Instance ypreds : Storable ycell (list PredicatePolicy).
Proof. refine {| inj := YPreds; prj c := match c with YPreds l => Some l | _ => None end |};
    [done|by intros [] ? [=->]]. Defined.
#[local] Instance yprios : Storable ycell (list PriorityPolicy).
Proof. refine {| inj := YPrios; prj c := match c with YPrios l => Some l | _ => None end |};
    [done|by intros [] ? [=->]]. Defined.
#[local] Instance yhots : Storable ycell (list HotValuePolicy).
Proof. refine {| inj := YHots; prj c := match c with YHots l => Some l | _ => None end |};
    [done|by intros [] ? [=->]]. Defined.
#[local] Instance yspec : Storable ycell policy.PolicySpec.
Proof. refine {| inj := YSpec; prj c := match c with YSpec l => Some l | _ => None end |};
    [done|by intros [] ? [=->]]. Defined.
#[local] Instance yduration : DurationCopy ycell.
Proof.
  refine {| Duration_DeepCopyInto i o := do d <- load i;; store o d |}.
  intros i o h d e Hd _. unfold mem_bind. by rewrite (load_peek _ _ _ Hd).
Defined.

Definition y_policy (n : string) : SyncPolicy := {| sync_Name := n; sync_Period := Minute |}.
Definition y_heap : heap ycell :=
  {[1%positive := YSyncs [y_policy "cpu"; y_policy "mem"];
    2%positive := YSpec {| policy.SyncPeriod := Some {| s_arr := 1%positive; s_off := 1; s_len := 1;
        s_cap := 1 |};
                           policy.SyncAppPeriod := None; policy.Predicate := None;
                           policy.Priority := None; policy.HotValue := None |} ]}.

(** What the copy's first list holds after the original's second array element was written to. *)
Definition y_run : option (option (list SyncPolicy)) :=
  match policy.PolicySpec_DeepCopy (Some (var 2%positive)) y_heap with
  | Ret (Some o, h) =>
      match store (elem {| s_arr := 1%positive; s_off := 0; s_len := 2; s_cap := 2 |} 1)
              (y_policy "disk") h with
      | Ret (_, h') => x ← peek h' o; elements h' (policy.SyncPeriod x)
      | Panic _ => None
      end
  | _ => None
  end.

Example copy_keeps : y_run = Some (Some [y_policy "mem"]).
Proof. vm_compute. reflexivity. Qed.

End Example_.
