(* ===== verification/Conversions.v ===== *)
(** * Conversions of a policy in memory

    pkg/plugins/apis/policy/v1alpha1/conversion_generated.go over the memory of GoMemory.
    Policy.v has the conversions by value; here they are operations on pointers, and the lists go
    through [unsafe.Pointer]: a converted policy has the same slice headers, so it shares the lists
    with the policy it was made from. The last parameter, the conversion's scope, is not used. *)

From S2P Require Import Prelude GoFloat GoTime Policy GoMemory DeepCopy.
Import Policy.v1alpha1.

Open Scope string_scope.

Abbreviation iSpec := policy.PolicySpec.
Abbreviation vSpec := DeepCopy.v1alpha1.PolicySpec.
Abbreviation iPolicy := policy.DynamicSchedulerPolicy.
Abbreviation vPolicy := DeepCopy.v1alpha1.DynamicSchedulerPolicy.

(** ** The operations *)

(** The fields of a HotValuePolicy, in both versions. *)
Definition set_TimeRange (v : Duration) (x : HotValuePolicy) : HotValuePolicy :=
  {| hv_TimeRange := v; hv_Count := hv_Count x |}.
Definition set1_TimeRange (v : Duration) (x : HotValuePolicy1) : HotValuePolicy1 :=
  {| TimeRange := v; Count := Count x |}.
Definition set_Count (v : Z) (x : HotValuePolicy) : HotValuePolicy :=
  {| hv_TimeRange := hv_TimeRange x; hv_Count := v |}.
Definition set1_Count (v : Z) (x : HotValuePolicy1) : HotValuePolicy1 :=
  {| TimeRange := TimeRange x; Count := v |}.

(** The fields of a PredicatePolicy, in both versions. *)
Definition set_PredName (v : string) (x : PredicatePolicy) : PredicatePolicy :=
  {| pred_Name := v; MaxLimitPecent := MaxLimitPecent x |}.
Definition set1_PredName (v : string) (x : PredicatePolicy1) : PredicatePolicy1 :=
  {| PredName := v; PredMaxLimitPecent := PredMaxLimitPecent x |}.
Definition set_MaxLimitPecent (v : f64) (x : PredicatePolicy) : PredicatePolicy :=
  {| pred_Name := pred_Name x; MaxLimitPecent := v |}.
Definition set1_MaxLimitPecent (v : f64) (x : PredicatePolicy1) : PredicatePolicy1 :=
  {| PredName := PredName x; PredMaxLimitPecent := v |}.

(** The fields of a PriorityPolicy, in both versions. *)
Definition set_PrioName (v : string) (x : PriorityPolicy) : PriorityPolicy :=
  {| prio_Name := v; prio_Weight := prio_Weight x |}.
Definition set1_PrioName (v : string) (x : PriorityPolicy1) : PriorityPolicy1 :=
  {| PrioName := v; Weight := Weight x |}.
Definition set_Weight (v : f64) (x : PriorityPolicy) : PriorityPolicy :=
  {| prio_Name := prio_Name x; prio_Weight := v |}.
Definition set1_Weight (v : f64) (x : PriorityPolicy1) : PriorityPolicy1 :=
  {| PrioName := PrioName x; Weight := v |}.

(** The fields of a SyncPolicy, in both versions. *)
Definition set_SyncName (v : string) (x : SyncPolicy) : SyncPolicy :=
  {| sync_Name := v; sync_Period := sync_Period x |}.
Definition set1_SyncName (v : string) (x : SyncPolicy1) : SyncPolicy1 :=
  {| Name := v; Period := Period x |}.
Definition set_Period (v : Duration) (x : SyncPolicy) : SyncPolicy :=
  {| sync_Name := sync_Name x; sync_Period := v |}.
Definition set1_Period (v : Duration) (x : SyncPolicy1) : SyncPolicy1 := {| Name := Name x; Period := v |}.

Section Operations.
Context {cell : Type}.

(** [out.F = in.G] *)
Definition assign {A B F} (g : A -> F) (get : B -> F) (set : F -> B -> B) (i : ref cell A) (o : ref cell B)
    : mem cell unit :=
  do x <- load i;; store (field get set o) (g x).

(** [*( *[]U)(unsafe.Pointer(&in.F))]: the header of the slice, read as one of another type. *)
Definition cast {A} (g : A -> slice) (x : A) : slice := g x.

Definition autoConvert_v1alpha1_HotValuePolicy_To_policy_HotValuePolicy (i : ref cell HotValuePolicy1)
    (o : ref cell HotValuePolicy)
    : mem cell (option error) :=
  assign TimeRange hv_TimeRange set_TimeRange i o;;
  assign Count hv_Count set_Count i o;;
  mem_ret None.
Definition Convert_v1alpha1_HotValuePolicy_To_policy_HotValuePolicy (i : ref cell HotValuePolicy1)
    (o : ref cell HotValuePolicy)
    : mem cell (option error) := autoConvert_v1alpha1_HotValuePolicy_To_policy_HotValuePolicy i o.

Definition autoConvert_policy_HotValuePolicy_To_v1alpha1_HotValuePolicy (i : ref cell HotValuePolicy)
    (o : ref cell HotValuePolicy1)
    : mem cell (option error) :=
  assign hv_TimeRange TimeRange set1_TimeRange i o;;
  assign hv_Count Count set1_Count i o;;
  mem_ret None.
Definition Convert_policy_HotValuePolicy_To_v1alpha1_HotValuePolicy (i : ref cell HotValuePolicy)
    (o : ref cell HotValuePolicy1)
    : mem cell (option error) := autoConvert_policy_HotValuePolicy_To_v1alpha1_HotValuePolicy i o.

Definition autoConvert_v1alpha1_PolicySpec_To_policy_PolicySpec (i : ref cell vSpec) (o : ref cell iSpec)
    : mem cell (option error) :=
  assign (cast DeepCopy.v1alpha1.SyncPeriod) policy.SyncPeriod policy.set_SyncPeriod i o;;
  assign (cast DeepCopy.v1alpha1.SyncAppPeriod) policy.SyncAppPeriod policy.set_SyncAppPeriod i o;;
  assign (cast DeepCopy.v1alpha1.Predicate) policy.Predicate policy.set_Predicate i o;;
  assign (cast DeepCopy.v1alpha1.Priority) policy.Priority policy.set_Priority i o;;
  assign (cast DeepCopy.v1alpha1.HotValue) policy.HotValue policy.set_HotValue i o;;
  mem_ret None.
Definition Convert_v1alpha1_PolicySpec_To_policy_PolicySpec (i : ref cell vSpec) (o : ref cell iSpec)
    : mem cell (option error) := autoConvert_v1alpha1_PolicySpec_To_policy_PolicySpec i o.

Definition autoConvert_policy_PolicySpec_To_v1alpha1_PolicySpec (i : ref cell iSpec) (o : ref cell vSpec)
    : mem cell (option error) :=
  assign (cast policy.SyncPeriod) DeepCopy.v1alpha1.SyncPeriod DeepCopy.v1alpha1.set_SyncPeriod i o;;
  assign (cast policy.SyncAppPeriod) DeepCopy.v1alpha1.SyncAppPeriod DeepCopy.v1alpha1.set_SyncAppPeriod i o;;
  assign (cast policy.Predicate) DeepCopy.v1alpha1.Predicate DeepCopy.v1alpha1.set_Predicate i o;;
  assign (cast policy.Priority) DeepCopy.v1alpha1.Priority DeepCopy.v1alpha1.set_Priority i o;;
  assign (cast policy.HotValue) DeepCopy.v1alpha1.HotValue DeepCopy.v1alpha1.set_HotValue i o;;
  mem_ret None.
Definition Convert_policy_PolicySpec_To_v1alpha1_PolicySpec (i : ref cell iSpec) (o : ref cell vSpec)
    : mem cell (option error) := autoConvert_policy_PolicySpec_To_v1alpha1_PolicySpec i o.

Definition autoConvert_v1alpha1_PredicatePolicy_To_policy_PredicatePolicy (i : ref cell PredicatePolicy1)
    (o : ref cell PredicatePolicy)
    : mem cell (option error) :=
  assign PredName pred_Name set_PredName i o;;
  assign PredMaxLimitPecent MaxLimitPecent set_MaxLimitPecent i o;;
  mem_ret None.
Definition Convert_v1alpha1_PredicatePolicy_To_policy_PredicatePolicy (i : ref cell PredicatePolicy1)
    (o : ref cell PredicatePolicy)
    : mem cell (option error) := autoConvert_v1alpha1_PredicatePolicy_To_policy_PredicatePolicy i o.

Definition autoConvert_policy_PredicatePolicy_To_v1alpha1_PredicatePolicy (i : ref cell PredicatePolicy)
    (o : ref cell PredicatePolicy1)
    : mem cell (option error) :=
  assign pred_Name PredName set1_PredName i o;;
  assign MaxLimitPecent PredMaxLimitPecent set1_MaxLimitPecent i o;;
  mem_ret None.
Definition Convert_policy_PredicatePolicy_To_v1alpha1_PredicatePolicy (i : ref cell PredicatePolicy)
    (o : ref cell PredicatePolicy1)
    : mem cell (option error) := autoConvert_policy_PredicatePolicy_To_v1alpha1_PredicatePolicy i o.

Definition autoConvert_v1alpha1_PriorityPolicy_To_policy_PriorityPolicy (i : ref cell PriorityPolicy1)
    (o : ref cell PriorityPolicy)
    : mem cell (option error) :=
  assign PrioName prio_Name set_PrioName i o;;
  assign Weight prio_Weight set_Weight i o;;
  mem_ret None.
Definition Convert_v1alpha1_PriorityPolicy_To_policy_PriorityPolicy (i : ref cell PriorityPolicy1)
    (o : ref cell PriorityPolicy)
    : mem cell (option error) := autoConvert_v1alpha1_PriorityPolicy_To_policy_PriorityPolicy i o.

Definition autoConvert_policy_PriorityPolicy_To_v1alpha1_PriorityPolicy (i : ref cell PriorityPolicy)
    (o : ref cell PriorityPolicy1)
    : mem cell (option error) :=
  assign prio_Name PrioName set1_PrioName i o;;
  assign prio_Weight Weight set1_Weight i o;;
  mem_ret None.
Definition Convert_policy_PriorityPolicy_To_v1alpha1_PriorityPolicy (i : ref cell PriorityPolicy)
    (o : ref cell PriorityPolicy1)
    : mem cell (option error) := autoConvert_policy_PriorityPolicy_To_v1alpha1_PriorityPolicy i o.

Definition autoConvert_v1alpha1_SyncPolicy_To_policy_SyncPolicy (i : ref cell SyncPolicy1)
    (o : ref cell SyncPolicy)
    : mem cell (option error) :=
  assign Name sync_Name set_SyncName i o;;
  assign Period sync_Period set_Period i o;;
  mem_ret None.
Definition Convert_v1alpha1_SyncPolicy_To_policy_SyncPolicy (i : ref cell SyncPolicy1)
    (o : ref cell SyncPolicy)
    : mem cell (option error) := autoConvert_v1alpha1_SyncPolicy_To_policy_SyncPolicy i o.

Definition autoConvert_policy_SyncPolicy_To_v1alpha1_SyncPolicy (i : ref cell SyncPolicy)
    (o : ref cell SyncPolicy1)
    : mem cell (option error) :=
  assign sync_Name Name set1_SyncName i o;;
  assign sync_Period Period set1_Period i o;;
  mem_ret None.
Definition Convert_policy_SyncPolicy_To_v1alpha1_SyncPolicy (i : ref cell SyncPolicy)
    (o : ref cell SyncPolicy1)
    : mem cell (option error) := autoConvert_policy_SyncPolicy_To_v1alpha1_SyncPolicy i o.

Definition autoConvert_v1alpha1_DynamicSchedulerPolicy_To_policy_DynamicSchedulerPolicy
    (i : ref cell vPolicy) (o : ref cell iPolicy) : mem cell (option error) :=
  do err <- Convert_v1alpha1_PolicySpec_To_policy_PolicySpec
    (field DeepCopy.v1alpha1.Spec DeepCopy.v1alpha1.set_Spec i)
    (field policy.Spec policy.set_Spec o);;
  match err with Some err => mem_ret (Some err) | None => mem_ret None end.
Definition Convert_v1alpha1_DynamicSchedulerPolicy_To_policy_DynamicSchedulerPolicy
    (i : ref cell vPolicy) (o : ref cell iPolicy) : mem cell (option error) :=
  autoConvert_v1alpha1_DynamicSchedulerPolicy_To_policy_DynamicSchedulerPolicy i o.

Definition autoConvert_policy_DynamicSchedulerPolicy_To_v1alpha1_DynamicSchedulerPolicy
    (i : ref cell iPolicy) (o : ref cell vPolicy) : mem cell (option error) :=
  do err <- Convert_policy_PolicySpec_To_v1alpha1_PolicySpec (field policy.Spec policy.set_Spec i)
    (field DeepCopy.v1alpha1.Spec DeepCopy.v1alpha1.set_Spec o);;
  match err with Some err => mem_ret (Some err) | None => mem_ret None end.
Definition Convert_policy_DynamicSchedulerPolicy_To_v1alpha1_DynamicSchedulerPolicy
    (i : ref cell iPolicy) (o : ref cell vPolicy) : mem cell (option error) :=
  autoConvert_policy_DynamicSchedulerPolicy_To_v1alpha1_DynamicSchedulerPolicy i o.

End Operations.

(** ** What a policy in memory says *)

(** The arrays of the two versions have the same layout: what was written as the one can be read
    as the other, element by element. *)
Class SameLayout (cell A B : Type) (f : A -> B) `{!Storable cell (list A)} `{!Storable cell (list B)} := {
  same_layout : forall c : cell, (prj c : option (list B)) = map f <$> (prj c : option (list A)) }.

Section Contents.
Context {cell : Type}.

(** A list, which is empty when the slice is nil. *)
Definition items {T} `{!Storable cell (list T)} (h : heap cell) (s : slice) : option (list T) :=
  default [] <$> elements h s.

Context `{!Storable cell (list SyncPolicy)} `{!Storable cell (list PredicatePolicy)}.
Context `{!Storable cell (list PriorityPolicy)} `{!Storable cell (list HotValuePolicy)}.
Context `{!Storable cell (list SyncPolicy1)} `{!Storable cell (list PredicatePolicy1)}.
Context `{!Storable cell (list PriorityPolicy1)} `{!Storable cell (list HotValuePolicy1)}.

Definition spec_at (h : heap cell) (x : iSpec) : option PolicySpec :=
  a ← items h (policy.SyncPeriod x); b ← items h (policy.SyncAppPeriod x);
  c ← items h (policy.Predicate x); d ← items h (policy.Priority x); e ← items h (policy.HotValue x);
  Some {| SyncPeriod := a; SyncAppPeriod := b; Predicate := c; Priority := d; HotValue := e |}.

Definition spec1_at (h : heap cell) (x : vSpec) : option PolicySpec1 :=
  a ← items h (DeepCopy.v1alpha1.SyncPeriod x); b ← items h (DeepCopy.v1alpha1.SyncAppPeriod x);
  c ← items h (DeepCopy.v1alpha1.Predicate x); d ← items h (DeepCopy.v1alpha1.Priority x);
  e ← items h (DeepCopy.v1alpha1.HotValue x);
  Some {| SyncPeriod1 := a; SyncAppPeriod1 := b; Predicate1 := c; Priority1 := d; HotValue1 := e |}.

(** *** Lemmas *)

Lemma items_cast {A B} (f : A -> B) `{!Storable cell (list A)} `{!Storable cell (list B)}
    `{!SameLayout cell A B f} (h : heap cell) s :
  items (T := B) h s = map f <$> items (T := A) h s.
Proof.
  unfold items. destruct s as [s|]; [|done]. cbn. destruct (h !! s_arr s) as [c|]; [|done]. cbn.
  rewrite (same_layout c). destruct (prj c) as [l|]; [|done]. cbn. rewrite length_map.
  destruct (_ <=? _)%nat; [|done]. cbn. by rewrite skipn_map, firstn_map.
Qed.

Context `{!SameLayout cell SyncPolicy1 SyncPolicy Convert_SyncPolicy_To_policy}.
Context `{!SameLayout cell PredicatePolicy1 PredicatePolicy Convert_PredicatePolicy_To_policy}.
Context `{!SameLayout cell PriorityPolicy1 PriorityPolicy Convert_PriorityPolicy_To_policy}.
Context `{!SameLayout cell HotValuePolicy1 HotValuePolicy Convert_HotValuePolicy_To_policy}.

(** Two structs with the same headers say the same in every heap. *)
Lemma spec_cast h (x : vSpec) (y : iSpec) :
  policy.SyncPeriod y = DeepCopy.v1alpha1.SyncPeriod x ->
  policy.SyncAppPeriod y = DeepCopy.v1alpha1.SyncAppPeriod x ->
  policy.Predicate y = DeepCopy.v1alpha1.Predicate x -> policy.Priority y = DeepCopy.v1alpha1.Priority x ->
  policy.HotValue y = DeepCopy.v1alpha1.HotValue x ->
  spec_at h y = Convert_PolicySpec_To_policy <$> spec1_at h x.
Proof.
  intros H1 H2 H3 H4 H5. unfold spec_at, spec1_at. rewrite H1, H2, H3, H4, H5.
  rewrite !(items_cast Convert_SyncPolicy_To_policy), (items_cast Convert_PredicatePolicy_To_policy),
    (items_cast Convert_PriorityPolicy_To_policy), (items_cast Convert_HotValuePolicy_To_policy).
  by repeat match goal with |- context [items h ?s] => destruct (items h s) end.
Qed.

Lemma spec_cast_back h (x : vSpec) (y : iSpec) :
  spec_at h y = Convert_PolicySpec_To_policy <$> spec1_at h x ->
  spec1_at h x = Convert_policy_To_PolicySpec <$> spec_at h y.
Proof.
  intros ->. destruct (spec1_at h x); [|done]. cbn. by rewrite policy_spec_roundtrip'.
Qed.

End Contents.

(** *** Assignments *)

Section Assignments.
Context {cell : Type}.

(** A conversion that makes [out] [step in out], in memory of its own, and changes nothing else. *)
Definition runs {A B} (conv : ref cell A -> ref cell B -> mem cell (option error)) (step : A -> B -> B)
    : Prop :=
  forall i o h x y, wf_ref i -> wf_ref o -> r_loc i <> r_loc o -> peek h i = Some x -> peek h o = Some y ->
    exists h', conv i o h = Ret (None, h') /\ put o (step x y) h h'.

Lemma runs_ret {A B} : runs (A := A) (B := B) (fun _ _ => mem_ret None) (fun _ y => y).
Proof. intros i o h x y _ Ho _ _ Hy. exists h. split; [done|]. by apply put_same. Qed.

Lemma runs_eq {A B} (conv : ref cell A -> ref cell B -> mem cell (option error)) step step' :
  runs conv step -> (forall x y, step x y = step' x y) -> runs conv step'.
Proof. intros Hc He i o h x y. rewrite <- He. apply Hc. Qed.

Lemma runs_assign {A B F} (g : A -> F) (get : B -> F) set conv step :
  lens get set -> runs conv step ->
  runs (fun i o => assign g get set i o;; conv i o) (fun x y => step x (set (g x) y)).
Proof.
  intros Hl Hc i o h x y Hi Ho Hne Hx Hy.
  destruct (store_put (field get set o) (wf_field get set o Ho Hl) (g x) _ _ (peek_field get set o y h Hy))
    as (c & _ & Hs & Hput).
  apply (put_field o get set (g x) y) in Hput; [|done].
  destruct (Hc i o _ x (set (g x) y) Hi Ho Hne (put_other o i x _ _ _ Hput Hne Hx) (put_peek o Ho _ _ _ Hput))
    as (h' & Hr & Hput').
  exists h'. split; [|by eapply put_trans]. unfold mem_bind, assign, mem_bind.
  by rewrite (load_peek _ _ _ Hx), Hs.
Qed.

Lemma runs_field {A B F G} (g : A -> F) setg (get : B -> G) set conv step :
  lens g setg -> lens get set -> runs conv step ->
  runs (fun i o => do err <- conv (field g setg i) (field get set o);;
          match err with Some err => mem_ret (Some err) | None => mem_ret None end)
    (fun x y => set (step (g x) (get y)) y).
Proof.
  intros Hlg Hl Hc i o h x y Hi Ho Hne Hx Hy.
  destruct (Hc (field g setg i) (field get set o) h (g x) (get y)) as (h' & Hr & Hput).
  - by apply wf_field.
  - by apply wf_field.
  - done.
  - by apply peek_field.
  - by apply peek_field.
  - exists h'. unfold mem_bind. rewrite Hr. split; [done|]. by apply (put_field o get set).
Qed.

End Assignments.

Ltac solve_lens := split; [done|done|by intros []].
Ltac run_assignments :=
  eapply runs_eq; [repeat (eapply runs_assign; [solve_lens|]); apply runs_ret|done].

(** ** The conversions *)

Section Conversions.
Context {cell : Type}.

(** Types without lists: the result is that of the conversion by value. *)
Lemma flat_conversions :
  runs (cell := cell) Convert_v1alpha1_HotValuePolicy_To_policy_HotValuePolicy
    (fun x _ => Convert_HotValuePolicy_To_policy x) /\
  runs (cell := cell) Convert_policy_HotValuePolicy_To_v1alpha1_HotValuePolicy
    (fun x _ => Convert_policy_To_HotValuePolicy x) /\
  runs (cell := cell) Convert_v1alpha1_PredicatePolicy_To_policy_PredicatePolicy
    (fun x _ => Convert_PredicatePolicy_To_policy x) /\
  runs (cell := cell) Convert_policy_PredicatePolicy_To_v1alpha1_PredicatePolicy
    (fun x _ => Convert_policy_To_PredicatePolicy x) /\
  runs (cell := cell) Convert_v1alpha1_PriorityPolicy_To_policy_PriorityPolicy
    (fun x _ => Convert_PriorityPolicy_To_policy x) /\
  runs (cell := cell) Convert_policy_PriorityPolicy_To_v1alpha1_PriorityPolicy
    (fun x _ => Convert_policy_To_PriorityPolicy x) /\
  runs (cell := cell) Convert_v1alpha1_SyncPolicy_To_policy_SyncPolicy
    (fun x _ => Convert_SyncPolicy_To_policy x) /\
  runs (cell := cell) Convert_policy_SyncPolicy_To_v1alpha1_SyncPolicy
    (fun x _ => Convert_policy_To_SyncPolicy x).
Proof. split_and!; run_assignments. Qed.

(** The spec's lists: the headers of [in]. *)
Lemma spec_to_policy :
  runs (cell := cell) Convert_v1alpha1_PolicySpec_To_policy_PolicySpec (fun x _ =>
    {| policy.SyncPeriod := DeepCopy.v1alpha1.SyncPeriod x;
       policy.SyncAppPeriod := DeepCopy.v1alpha1.SyncAppPeriod x;
       policy.Predicate := DeepCopy.v1alpha1.Predicate x; policy.Priority := DeepCopy.v1alpha1.Priority x;
       policy.HotValue := DeepCopy.v1alpha1.HotValue x |}).
Proof. run_assignments. Qed.

Lemma spec_from_policy :
  runs (cell := cell) Convert_policy_PolicySpec_To_v1alpha1_PolicySpec (fun x _ =>
    {| DeepCopy.v1alpha1.SyncPeriod := policy.SyncPeriod x;
       DeepCopy.v1alpha1.SyncAppPeriod := policy.SyncAppPeriod x;
       DeepCopy.v1alpha1.Predicate := policy.Predicate x; DeepCopy.v1alpha1.Priority := policy.Priority x;
       DeepCopy.v1alpha1.HotValue := policy.HotValue x |}).
Proof. run_assignments. Qed.

Lemma policy_to_policy :
  runs (cell := cell) Convert_v1alpha1_DynamicSchedulerPolicy_To_policy_DynamicSchedulerPolicy (fun x y =>
    policy.set_Spec {| policy.SyncPeriod := DeepCopy.v1alpha1.SyncPeriod (DeepCopy.v1alpha1.Spec x);
       policy.SyncAppPeriod := DeepCopy.v1alpha1.SyncAppPeriod (DeepCopy.v1alpha1.Spec x);
       policy.Predicate := DeepCopy.v1alpha1.Predicate (DeepCopy.v1alpha1.Spec x);
       policy.Priority := DeepCopy.v1alpha1.Priority (DeepCopy.v1alpha1.Spec x);
       policy.HotValue := DeepCopy.v1alpha1.HotValue (DeepCopy.v1alpha1.Spec x) |} y).
Proof. by eapply runs_eq; [eapply runs_field; [solve_lens|solve_lens|apply spec_to_policy]|]. Qed.

Lemma policy_from_policy :
  runs (cell := cell) Convert_policy_DynamicSchedulerPolicy_To_v1alpha1_DynamicSchedulerPolicy (fun x y =>
    DeepCopy.v1alpha1.set_Spec {| DeepCopy.v1alpha1.SyncPeriod := policy.SyncPeriod (policy.Spec x);
       DeepCopy.v1alpha1.SyncAppPeriod := policy.SyncAppPeriod (policy.Spec x);
       DeepCopy.v1alpha1.Predicate := policy.Predicate (policy.Spec x);
       DeepCopy.v1alpha1.Priority := policy.Priority (policy.Spec x);
       DeepCopy.v1alpha1.HotValue := policy.HotValue (policy.Spec x) |} y).
Proof. by eapply runs_eq; [eapply runs_field; [solve_lens|solve_lens|apply spec_from_policy]|]. Qed.

End Conversions.

(** ** Property *)

(** C36: a converted policy shares its lists. Converting a policy that is in another variable than
    the result writes the result's spec only, and never fails; the result keeps its type metadata,
    which is not converted. From then on, in every later state of the memory, what the result says
    is the by-value conversion of what the original says: a write to an element of the one's list
    is seen in the other's, as the slices are the same. In both directions. *)
Theorem conversions_share {cell : Type}
    `{!Storable cell (list SyncPolicy)} `{!Storable cell (list PredicatePolicy)}
    `{!Storable cell (list PriorityPolicy)} `{!Storable cell (list HotValuePolicy)}
    `{!Storable cell (list SyncPolicy1)} `{!Storable cell (list PredicatePolicy1)}
    `{!Storable cell (list PriorityPolicy1)} `{!Storable cell (list HotValuePolicy1)}
    `{!SameLayout cell SyncPolicy1 SyncPolicy Convert_SyncPolicy_To_policy}
    `{!SameLayout cell PredicatePolicy1 PredicatePolicy Convert_PredicatePolicy_To_policy}
    `{!SameLayout cell PriorityPolicy1 PriorityPolicy Convert_PriorityPolicy_To_policy}
    `{!SameLayout cell HotValuePolicy1 HotValuePolicy Convert_HotValuePolicy_To_policy}
    (v : ref cell vPolicy) (p : ref cell iPolicy) (h : heap cell) (x : vPolicy) (y : iPolicy) :
  wf_ref v -> wf_ref p -> r_loc v <> r_loc p -> peek h v = Some x -> peek h p = Some y ->
  (exists y' h', Convert_v1alpha1_DynamicSchedulerPolicy_To_policy_DynamicSchedulerPolicy v p h
       = Ret (None, h') /\ put p y' h h' /\ policy.TypeMeta_ y' = policy.TypeMeta_ y /\
     forall later, spec_at later (policy.Spec y')
       = Convert_PolicySpec_To_policy <$> spec1_at later (DeepCopy.v1alpha1.Spec x)) /\
  exists x' h', Convert_policy_DynamicSchedulerPolicy_To_v1alpha1_DynamicSchedulerPolicy p v h
       = Ret (None, h') /\ put v x' h h' /\ DeepCopy.v1alpha1.TypeMeta_ x' = DeepCopy.v1alpha1.TypeMeta_ x /\
     forall later, spec1_at later (DeepCopy.v1alpha1.Spec x')
       = Convert_policy_To_PolicySpec <$> spec_at later (policy.Spec y).
Proof.
  intros Hv Hp Hne Hx Hy. split.
  - destruct (policy_to_policy v p h x y Hv Hp Hne Hx Hy) as (h' & Hr & Hput).
    do 2 eexists. split_and!; [exact Hr|exact Hput|done|]. intros later. by apply spec_cast.
  - destruct (policy_from_policy p v h y x Hp Hv (not_eq_sym Hne) Hy Hx) as (h' & Hr & Hput).
    do 2 eexists. split_and!; [exact Hr|exact Hput|done|]. intros later.
    by apply spec_cast_back, spec_cast.
Qed.

(** ** Witness

    A policy of version v1alpha1 with one list; after the conversion the list's element is written
    to through the original. *)

Section Witness.
Inductive kcell :=
| KSyncs (l : list SyncPolicy) | KPreds (l : list PredicatePolicy) | KPrios (l : list PriorityPolicy)
| KHots (l : list HotValuePolicy) | KPolicy (x : iPolicy) | KPolicy1 (x : vPolicy).

#[local] Instance ksyncs : Storable kcell (list SyncPolicy).
Proof. refine {| inj := KSyncs; prj c := match c with KSyncs l => Some l | _ => None end |};
    [done|by intros [] ? [=->]]. Defined.
#[local] Instance kpreds : Storable kcell (list PredicatePolicy).
Proof. refine {| inj := KPreds; prj c := match c with KPreds l => Some l | _ => None end |};
    [done|by intros [] ? [=->]]. Defined.
#[local] Instance kprios : Storable kcell (list PriorityPolicy).
Proof. refine {| inj := KPrios; prj c := match c with KPrios l => Some l | _ => None end |};
    [done|by intros [] ? [=->]]. Defined.
#[local] Instance khots : Storable kcell (list HotValuePolicy).
Proof. refine {| inj := KHots; prj c := match c with KHots l => Some l | _ => None end |};
    [done|by intros [] ? [=->]]. Defined.
#[local] Instance kpolicy : Storable kcell iPolicy.
Proof. refine {| inj := KPolicy; prj c := match c with KPolicy l => Some l | _ => None end |};
    [done|by intros [] ? [=->]]. Defined.
#[local] Instance kpolicy1 : Storable kcell vPolicy.
Proof. refine {| inj := KPolicy1; prj c := match c with KPolicy1 l => Some l | _ => None end |};
    [done|by intros [] ? [=->]]. Defined.

(** The arrays of the served version are read off those of the internal one. *)
Definition casted {A B} (f : A -> B) (g : B -> A) (Hgf : forall x, g (f x) = x) (Hfg : forall x, f (g x) = x)
    (S : Storable kcell (list B)) : Storable kcell (list A).
Proof.
  refine {| inj l := inj (map f l); prj c := map g <$> (prj c : option (list B)) |}.
  - intros l. rewrite prj_inj. cbn. rewrite map_map. f_equal. rewrite <- (map_id l) at 2. by apply map_ext.
  - intros c l. destruct (prj c) as [l'|] eqn:Hc; [|done]. cbn. intros [= <-]. rewrite map_map.
    rewrite (map_ext _ id), map_id by done. by apply prj_Some.
Defined.

#[local] Instance ksyncs1 : Storable kcell (list SyncPolicy1).
Proof. by apply (casted Convert_SyncPolicy_To_policy Convert_policy_To_SyncPolicy);
    [intros []..|exact _]. Defined.
#[local] Instance kpreds1 : Storable kcell (list PredicatePolicy1).
Proof. by apply (casted Convert_PredicatePolicy_To_policy Convert_policy_To_PredicatePolicy);
    [intros []..|exact _]. Defined.
#[local] Instance kprios1 : Storable kcell (list PriorityPolicy1).
Proof. by apply (casted Convert_PriorityPolicy_To_policy Convert_policy_To_PriorityPolicy);
    [intros []..|exact _]. Defined.
#[local] Instance khots1 : Storable kcell (list HotValuePolicy1).
Proof. by apply (casted Convert_HotValuePolicy_To_policy Convert_policy_To_HotValuePolicy);
    [intros []..|exact _]. Defined.

Ltac same_layout :=
  split; intros []; try done; cbn; f_equal; rewrite map_map, (map_ext _ id), map_id; [done|by intros []].

#[local] Instance ksame : SameLayout kcell SyncPolicy1 SyncPolicy Convert_SyncPolicy_To_policy.
Proof. same_layout. Defined.
#[local] Instance ksame' : SameLayout kcell PredicatePolicy1 PredicatePolicy Convert_PredicatePolicy_To_policy.
Proof. same_layout. Defined.
#[local] Instance ksame2 : SameLayout kcell PriorityPolicy1 PriorityPolicy Convert_PriorityPolicy_To_policy.
Proof. same_layout. Defined.
#[local] Instance ksame3 : SameLayout kcell HotValuePolicy1 HotValuePolicy Convert_HotValuePolicy_To_policy.
Proof. same_layout. Defined.

Definition k_array : header := {| s_arr := 1%positive; s_off := 0; s_len := 1; s_cap := 1 |}.
Definition k_policy1 : vPolicy :=
  {| DeepCopy.v1alpha1.TypeMeta_ := {| Kind := "DynamicSchedulerPolicy"; APIVersion := "v1alpha1" |};
     DeepCopy.v1alpha1.Spec :=
       {| DeepCopy.v1alpha1.SyncPeriod := Some k_array; DeepCopy.v1alpha1.SyncAppPeriod := None;
          DeepCopy.v1alpha1.Predicate := None; DeepCopy.v1alpha1.Priority := None;
          DeepCopy.v1alpha1.HotValue := None |} |}.
Definition k_sync (n : string) : SyncPolicy1 := {| Name := n; Period := Minute |}.
Definition k_heap : heap kcell :=
  {[1%positive := inj [k_sync "cpu"]; 2%positive := KPolicy1 k_policy1;
    3%positive := KPolicy policy.zero_DynamicSchedulerPolicy]}.

(** What the result's first list holds after the write through the original. *)
Definition k_run : option (list string) :=
  match Convert_v1alpha1_DynamicSchedulerPolicy_To_policy_DynamicSchedulerPolicy
          (var 2%positive) (var 3%positive : ref kcell iPolicy) k_heap with
  | Ret (None, h) =>
      match store (elem k_array 0) (k_sync "mem") h with
      | Ret (_, h') =>
          y ← peek h' (var 3%positive : ref kcell iPolicy); s ← spec_at h' (policy.Spec y);
          Some (map sync_Name (SyncPeriod s))
      | Panic _ => None
      end
  | _ => None
  end.

Example conversion_aliases : k_run = Some ["mem"].
Proof. vm_compute. reflexivity. Qed.

Lemma conversions_share_witness :
  exists y' h', Convert_v1alpha1_DynamicSchedulerPolicy_To_policy_DynamicSchedulerPolicy
       (var 2%positive) (var 3%positive) k_heap = Ret (None, h') /\
     put (var 3%positive : ref kcell iPolicy) y' k_heap h' /\
     policy.TypeMeta_ y' = policy.TypeMeta_ policy.zero_DynamicSchedulerPolicy /\
     forall later, spec_at later (policy.Spec y')
       = Convert_PolicySpec_To_policy <$> spec1_at later (DeepCopy.v1alpha1.Spec k_policy1).
Proof.
  apply (conversions_share (var 2%positive) (var 3%positive) k_heap k_policy1
    policy.zero_DynamicSchedulerPolicy); [apply wf_var|apply wf_var|done|reflexivity|reflexivity].
Defined.

End Witness.
