(* ===== verification/Schemes.v ===== *)
(** * Schemes: registration of types, defaults and conversions

    pkg/plugins/apis/config (register.go, scheme/scheme.go, and register.go,
    zz_generated.defaults.go and the registration of zz_generated.conversion.go in v1beta2 and
    v1beta3) and pkg/plugins/apis/policy (register.go, scheme/scheme.go, and register.go and the
    registration of conversion_generated.go in v1alpha1). The scheme itself is apimachinery's: the
    class [SchemeLib] states what its operations record and what its universal decoder does with
    it. The point of the registrations is that decoding a served version runs that version's
    defaults and its conversion to the internal type. *)

From S2P Require Import Prelude Policy Config.

Open Scope string_scope.

(** A Go type: its package and its name. *)
Definition goType := (string * string)%type.

(** Values of the registered types, and of those of other packages. *)
Inductive object :=
| I_DynamicArgs (x : Config.DynamicArgs)
| I_NodeResourceTopologyMatchArgs (x : Config.NodeResourceTopologyMatchArgs)
| I_ApplicationResourceAwareArgs (x : Config.ApplicationResourceAwareArgs)
| V2_DynamicArgs (x : Config.v1beta2.DynamicArgs2)
| V2_NodeResourceTopologyMatchArgs (x : Config.v1beta2.NodeResourceTopologyMatchArgs2)
| V2_ApplicationResourceAwareArgs (x : Config.v1beta2.ApplicationResourceAwareArgs2)
| V3_DynamicArgs (x : Config.v1beta3.DynamicArgs3)
| V3_NodeResourceTopologyMatchArgs (x : Config.v1beta3.NodeResourceTopologyMatchArgs3)
| V3_ApplicationResourceAwareArgs (x : Config.v1beta3.ApplicationResourceAwareArgs3)
| P_DynamicSchedulerPolicy (x : Policy.DynamicSchedulerPolicy)
| P_HotValuePolicy (x : Policy.HotValuePolicy)
| P_PolicySpec (x : Policy.PolicySpec)
| P_PredicatePolicy (x : Policy.PredicatePolicy)
| P_PriorityPolicy (x : Policy.PriorityPolicy)
| P_SyncPolicy (x : Policy.SyncPolicy)
| A_DynamicSchedulerPolicy (x : Policy.v1alpha1.DynamicSchedulerPolicy1)
| A_HotValuePolicy (x : Policy.v1alpha1.HotValuePolicy1)
| A_PolicySpec (x : Policy.v1alpha1.PolicySpec1)
| A_PredicatePolicy (x : Policy.v1alpha1.PredicatePolicy1)
| A_PriorityPolicy (x : Policy.v1alpha1.PriorityPolicy1)
| A_SyncPolicy (x : Policy.v1alpha1.SyncPolicy1)
| Foreign (t : goType).

Abbreviation func := (object -> go object).

(** [a.( *T)] of another type. *)
Definition bad_assertion : go object := Panic "interface conversion".

Record GroupVersion := { gv_Group : string; gv_Version : string }.

#[export] Instance GroupVersion_eq_dec : EqDecision GroupVersion.
Proof. solve_decision. Defined.

Definition kubescheduler_group : string := "kubescheduler.config.k8s.io".
Definition APIVersionInternal : string := "__internal".

(** runtime.Scheme, as far as the registrations and the universal decoder go. [known] is the type
    registered for a group, version and kind, [defaulter] a type's defaulting function,
    [converter] the generated conversion between two types and [custom] one registered with
    AddConversionFunc, which is preferred. AddKnownTypes panics when a kind is already registered
    with a different type (or the version is empty) and does not otherwise; it may also register the conversion of a type to
    itself, so that only the conversions between two types are stated to stay. [Decode] is the
    universal decoder of the scheme's codecs on an object already parsed into the type [t] known
    for its group, version and kind: it applies the type's defaulter, then the conversion to the
    type of the internal version of the kind under which [t] is registered. *)
Class SchemeLib := {
  Scheme : Type;
  NewScheme : Scheme;
  known : Scheme -> GroupVersion -> string -> option goType;
  defaulter : Scheme -> goType -> option func;
  converter : Scheme -> goType -> goType -> option func;
  custom : Scheme -> goType -> goType -> option func;
  AddKnownTypes : GroupVersion -> list goType -> Scheme -> go Scheme;
  AddTypeDefaultingFunc : goType -> func -> Scheme -> Scheme;
  AddGeneratedConversionFunc : goType -> goType -> func -> Scheme -> result Scheme;
  Decode : Scheme -> GroupVersion -> string -> object -> go (option object);
  known_NewScheme : forall gv k, known NewScheme gv k = None;
  defaulter_NewScheme : forall t, defaulter NewScheme t = None;
  custom_NewScheme : forall a b, custom NewScheme a b = None;
  AddKnownTypes_Ret : forall gv ts s, gv_Version gv <> "" -> NoDup (snd <$> ts) ->
    Forall (fun t => known s gv (snd t) = None \/ known s gv (snd t) = Some t) ts ->
    exists s', AddKnownTypes gv ts s = Ret s';
  AddKnownTypes_Panic : forall gv ts s t t', t ∈ ts -> known s gv (snd t) = Some t' -> t' <> t ->
    exists msg, AddKnownTypes gv ts s = Panic msg;
  known_AddKnownTypes : forall gv ts s s' gv' k, AddKnownTypes gv ts s = Ret s' ->
    known s' gv' k =
    if decide (gv = gv') then
      match List.find (fun t => String.eqb (snd t) k) ts with Some t => Some t | None => known s gv' k end
    else known s gv' k;
  known_AddTypeDefaultingFunc : forall t f s gv k, known (AddTypeDefaultingFunc t f s) gv k = known s gv k;
  known_AddConversion : forall a b f s s' gv k,
    AddGeneratedConversionFunc a b f s = Ok s' -> known s' gv k = known s gv k;
  defaulter_AddKnownTypes : forall gv ts s s' t,
    AddKnownTypes gv ts s = Ret s' -> defaulter s' t = defaulter s t;
  defaulter_AddTypeDefaultingFunc : forall t f s t',
    defaulter (AddTypeDefaultingFunc t f s) t' = if decide (t = t') then Some f else defaulter s t';
  defaulter_AddConversion : forall a b f s s' t,
    AddGeneratedConversionFunc a b f s = Ok s' -> defaulter s' t = defaulter s t;
  converter_AddKnownTypes : forall gv ts s s' a b,
    AddKnownTypes gv ts s = Ret s' -> a <> b -> converter s' a b = converter s a b;
  converter_AddTypeDefaultingFunc : forall t f s a b,
    converter (AddTypeDefaultingFunc t f s) a b = converter s a b;
  AddConversion_Ok : forall a b f s, exists s', AddGeneratedConversionFunc a b f s = Ok s';
  converter_AddConversion : forall a b f s s' a' b',
    AddGeneratedConversionFunc a b f s = Ok s' ->
    converter s' a' b' = if decide ((a, b) = (a', b')) then Some f else converter s a' b';
  custom_AddKnownTypes : forall gv ts s s' a b, AddKnownTypes gv ts s = Ret s' -> custom s' a b = custom s a b;
  custom_AddTypeDefaultingFunc : forall t f s a b, custom (AddTypeDefaultingFunc t f s) a b = custom s a b;
  custom_AddConversion : forall a b f s s' a' b',
    AddGeneratedConversionFunc a b f s = Ok s' -> custom s' a' b' = custom s a' b';
  Decode_registered : forall s gv k t u c x y z,
    known s gv k = Some t -> (forall gv' k', known s gv' k' = Some t -> gv' = gv /\ k' = k) ->
    known s {| gv_Group := gv_Group gv; gv_Version := APIVersionInternal |} k = Some u ->
    custom s t u = None -> converter s t u = Some c ->
    match defaulter s t with Some f => f x | None => Ret x end = Ret y -> c y = Ret z ->
    Decode s gv k x = Ret (Some z) }.

Section Registration.
Context `{SL : SchemeLib}.

(** runtime.SchemeBuilder: functions that each add something to a scheme. *)
Definition SchemeBuilder := list (Scheme -> go (result Scheme)).

(** It applies all of them in order, until one fails. *)
Fixpoint build (b : SchemeBuilder) (s : Scheme) : go (result Scheme) :=
  match b with
  | [] => Ret (Ok s)
  | f :: b' => let! r := f s in match r with Ok s' => build b' s' | Err e => Ret (Err e) end
  end.

Definition Must (r : go (result Scheme)) : go Scheme :=
  let! r := r in match r with Ok s => Ret s | Err _ => Panic "error" end.

(** [if err := s.AddGeneratedConversionFunc(...); err != nil { return err }] for each. *)
Fixpoint add_conversions (l : list (goType * goType * func)) (s : Scheme) : result Scheme :=
  match l with
  | [] => Ok s
  | (a, b, f) :: l' =>
      match AddGeneratedConversionFunc a b f s with
      | Ok s' => add_conversions l' s'
      | Err e => Err e
      end
  end.

End Registration.

(** ** pkg/plugins/apis/config *)

Module config.
Section Config.
Context `{SL : SchemeLib}.

Definition SchemeGroupVersion : GroupVersion :=
  {| gv_Group := kubescheduler_group; gv_Version := APIVersionInternal |}.

Definition addKnownTypes (s : Scheme) : go (result Scheme) :=
  let! s := AddKnownTypes SchemeGroupVersion
        [("config", "DynamicArgs"); ("config", "NodeResourceTopologyMatchArgs");
         ("config", "ApplicationResourceAwareArgs")] s in
  Ret (Ok s).

(** What [init] registers with the builder of the in-tree package. *)
Definition localSchemeBuilder (in_tree : SchemeBuilder) : SchemeBuilder :=
  (in_tree ++ [addKnownTypes])%list.

End Config.
End config.

(** ** pkg/plugins/apis/config/v1beta2 *)

Module v1beta2.
Section Version.
Context `{SL : SchemeLib}.

Definition SchemeGroupVersion : GroupVersion :=
  {| gv_Group := kubescheduler_group; gv_Version := "v1beta2" |}.

Definition addKnownTypes (s : Scheme) : go (result Scheme) :=
  let! s := AddKnownTypes SchemeGroupVersion
        [("v1beta2", "DynamicArgs"); ("v1beta2", "NodeResourceTopologyMatchArgs");
         ("v1beta2", "ApplicationResourceAwareArgs")] s in
  Ret (Ok s).

Definition SetObjectDefaults_DynamicArgs (x : Config.v1beta2.DynamicArgs2) : Config.v1beta2.DynamicArgs2 :=
  Config.v1beta2.SetDefaults_DynamicArgs x.

Definition SetObjectDefaults_NodeResourceTopologyMatchArgs
    (x : Config.v1beta2.NodeResourceTopologyMatchArgs2) : Config.v1beta2.NodeResourceTopologyMatchArgs2 :=
  Config.v1beta2.SetDefaults_NodeResourceTopologyMatchArgs x.

Definition SetObjectDefaults_ApplicationResourceAwareArgs
    (x : Config.v1beta2.ApplicationResourceAwareArgs2) : Config.v1beta2.ApplicationResourceAwareArgs2 :=
  Config.v1beta2.SetDefaults_ApplicationResourceAwareArgs x.

Definition default_DynamicArgs : func :=
  fun a => match a with V2_DynamicArgs x => Ret (V2_DynamicArgs (SetObjectDefaults_DynamicArgs x))
      | _ => bad_assertion end.

Definition default_NodeResourceTopologyMatchArgs : func :=
  fun a => match a with V2_NodeResourceTopologyMatchArgs x => Ret (V2_NodeResourceTopologyMatchArgs
      (SetObjectDefaults_NodeResourceTopologyMatchArgs x)) | _ => bad_assertion end.

Definition default_ApplicationResourceAwareArgs : func :=
  fun a => match a with V2_ApplicationResourceAwareArgs x => Ret (V2_ApplicationResourceAwareArgs
      (SetObjectDefaults_ApplicationResourceAwareArgs x)) | _ => bad_assertion end.

Definition RegisterDefaults (s : Scheme) : go (result Scheme) :=
  let s := AddTypeDefaultingFunc ("v1beta2", "DynamicArgs") default_DynamicArgs s in
  let s := AddTypeDefaultingFunc ("v1beta2", "NodeResourceTopologyMatchArgs")
      default_NodeResourceTopologyMatchArgs s in
  let s := AddTypeDefaultingFunc ("v1beta2", "ApplicationResourceAwareArgs")
      default_ApplicationResourceAwareArgs s in
  Ret (Ok s).

Definition conversions : list (goType * goType * func) :=
    [(("v1beta2", "DynamicArgs"), ("config", "DynamicArgs"),
      (fun a => match a with V2_DynamicArgs x => Ret (I_DynamicArgs
          (Config.v1beta2.Convert_DynamicArgs_To_config x))
                        | _ => bad_assertion end));
     (("config", "DynamicArgs"), ("v1beta2", "DynamicArgs"),
      (fun a => match a with I_DynamicArgs x => Ret (V2_DynamicArgs
          (Config.v1beta2.Convert_config_To_DynamicArgs x))
                        | _ => bad_assertion end));
     (("v1beta2", "NodeResourceTopologyMatchArgs"), ("config", "NodeResourceTopologyMatchArgs"),
      (fun a => match a with V2_NodeResourceTopologyMatchArgs x => Ret
          (I_NodeResourceTopologyMatchArgs
              (Config.v1beta2.Convert_NodeResourceTopologyMatchArgs_To_config x))
                        | _ => bad_assertion end));
     (("config", "NodeResourceTopologyMatchArgs"), ("v1beta2", "NodeResourceTopologyMatchArgs"),
      (fun a => match a with I_NodeResourceTopologyMatchArgs x => Ret
          (V2_NodeResourceTopologyMatchArgs
              (Config.v1beta2.Convert_config_To_NodeResourceTopologyMatchArgs x))
                        | _ => bad_assertion end));
     (("v1beta2", "ApplicationResourceAwareArgs"), ("config", "ApplicationResourceAwareArgs"),
      (fun a => match a with V2_ApplicationResourceAwareArgs x => Ret
          (I_ApplicationResourceAwareArgs (Config.v1beta2.Convert_ApplicationResourceAwareArgs_To_config x))
                        | _ => bad_assertion end));
     (("config", "ApplicationResourceAwareArgs"), ("v1beta2", "ApplicationResourceAwareArgs"),
      (fun a => match a with I_ApplicationResourceAwareArgs x => Ret
          (V2_ApplicationResourceAwareArgs
              (Config.v1beta2.Convert_config_To_ApplicationResourceAwareArgs x))
                        | _ => bad_assertion end))].

Definition RegisterConversions (s : Scheme) : go (result Scheme) := Ret (add_conversions conversions s).

(** Registered by register.go, and once more by the generated file's [init]. *)
Definition localSchemeBuilder (in_tree : SchemeBuilder) : SchemeBuilder :=
  (in_tree ++ [addKnownTypes; RegisterDefaults; RegisterConversions; RegisterConversions])%list.

End Version.
End v1beta2.

(** ** pkg/plugins/apis/config/v1beta3 *)

Module v1beta3.
Section Version.
Context `{SL : SchemeLib}.

Definition SchemeGroupVersion : GroupVersion :=
  {| gv_Group := kubescheduler_group; gv_Version := "v1beta3" |}.

Definition addKnownTypes (s : Scheme) : go (result Scheme) :=
  let! s := AddKnownTypes SchemeGroupVersion
        [("v1beta3", "DynamicArgs"); ("v1beta3", "NodeResourceTopologyMatchArgs");
         ("v1beta3", "ApplicationResourceAwareArgs")] s in
  Ret (Ok s).

Definition SetObjectDefaults_DynamicArgs (x : Config.v1beta3.DynamicArgs3) : Config.v1beta3.DynamicArgs3 :=
  Config.v1beta3.SetDefaults_DynamicArgs x.

Definition SetObjectDefaults_NodeResourceTopologyMatchArgs
    (x : Config.v1beta3.NodeResourceTopologyMatchArgs3) : Config.v1beta3.NodeResourceTopologyMatchArgs3 :=
  Config.v1beta3.SetDefaults_NodeResourceTopologyMatchArgs x.

Definition SetObjectDefaults_ApplicationResourceAwareArgs
    (x : Config.v1beta3.ApplicationResourceAwareArgs3) : Config.v1beta3.ApplicationResourceAwareArgs3 :=
  Config.v1beta3.SetDefaults_ApplicationResourceAwareArgs x.

Definition default_DynamicArgs : func :=
  fun a => match a with V3_DynamicArgs x => Ret (V3_DynamicArgs (SetObjectDefaults_DynamicArgs x))
      | _ => bad_assertion end.

Definition default_NodeResourceTopologyMatchArgs : func :=
  fun a => match a with V3_NodeResourceTopologyMatchArgs x => Ret (V3_NodeResourceTopologyMatchArgs
      (SetObjectDefaults_NodeResourceTopologyMatchArgs x)) | _ => bad_assertion end.

Definition default_ApplicationResourceAwareArgs : func :=
  fun a => match a with V3_ApplicationResourceAwareArgs x => Ret (V3_ApplicationResourceAwareArgs
      (SetObjectDefaults_ApplicationResourceAwareArgs x)) | _ => bad_assertion end.

Definition RegisterDefaults (s : Scheme) : go (result Scheme) :=
  let s := AddTypeDefaultingFunc ("v1beta3", "DynamicArgs") default_DynamicArgs s in
  let s := AddTypeDefaultingFunc ("v1beta3", "NodeResourceTopologyMatchArgs")
      default_NodeResourceTopologyMatchArgs s in
  let s := AddTypeDefaultingFunc ("v1beta3", "ApplicationResourceAwareArgs")
      default_ApplicationResourceAwareArgs s in
  Ret (Ok s).

Definition conversions : list (goType * goType * func) :=
    [(("v1beta3", "DynamicArgs"), ("config", "DynamicArgs"),
      (fun a => match a with V3_DynamicArgs x => Ret (I_DynamicArgs
          (Config.v1beta3.Convert_DynamicArgs_To_config x))
                        | _ => bad_assertion end));
     (("config", "DynamicArgs"), ("v1beta3", "DynamicArgs"),
      (fun a => match a with I_DynamicArgs x => Ret (V3_DynamicArgs
          (Config.v1beta3.Convert_config_To_DynamicArgs x))
                        | _ => bad_assertion end));
     (("v1beta3", "NodeResourceTopologyMatchArgs"), ("config", "NodeResourceTopologyMatchArgs"),
      (fun a => match a with V3_NodeResourceTopologyMatchArgs x => Ret
          (I_NodeResourceTopologyMatchArgs
              (Config.v1beta3.Convert_NodeResourceTopologyMatchArgs_To_config x))
                        | _ => bad_assertion end));
     (("config", "NodeResourceTopologyMatchArgs"), ("v1beta3", "NodeResourceTopologyMatchArgs"),
      (fun a => match a with I_NodeResourceTopologyMatchArgs x => Ret
          (V3_NodeResourceTopologyMatchArgs
              (Config.v1beta3.Convert_config_To_NodeResourceTopologyMatchArgs x))
                        | _ => bad_assertion end));
     (("v1beta3", "ApplicationResourceAwareArgs"), ("config", "ApplicationResourceAwareArgs"),
      (fun a => match a with V3_ApplicationResourceAwareArgs x => Ret
          (I_ApplicationResourceAwareArgs (Config.v1beta3.Convert_ApplicationResourceAwareArgs_To_config x))
                        | _ => bad_assertion end));
     (("config", "ApplicationResourceAwareArgs"), ("v1beta3", "ApplicationResourceAwareArgs"),
      (fun a => match a with I_ApplicationResourceAwareArgs x => Ret
          (V3_ApplicationResourceAwareArgs
              (Config.v1beta3.Convert_config_To_ApplicationResourceAwareArgs x))
                        | _ => bad_assertion end))].

Definition RegisterConversions (s : Scheme) : go (result Scheme) := Ret (add_conversions conversions s).

(** Registered by register.go, and once more by the generated file's [init]. *)
Definition localSchemeBuilder (in_tree : SchemeBuilder) : SchemeBuilder :=
  (in_tree ++ [addKnownTypes; RegisterDefaults; RegisterConversions; RegisterConversions])%list.

End Version.
End v1beta3.

(** ** pkg/plugins/apis/policy *)

Module policy.
Section Policy.
Context `{SL : SchemeLib}.

Definition GroupName : string := "scheduler.policy.crane.io".

Definition SchemeGroupVersion : GroupVersion :=
  {| gv_Group := GroupName; gv_Version := APIVersionInternal |}.

Definition addKnownTypes (s : Scheme) : go (result Scheme) :=
  let! s := AddKnownTypes SchemeGroupVersion
        [("policy", "DynamicSchedulerPolicy")] s in
  Ret (Ok s).

Definition Builder : SchemeBuilder := [addKnownTypes].

End Policy.
End policy.

(** ** pkg/plugins/apis/policy/v1alpha1 *)

Module v1alpha1.
Section Version.
Context `{SL : SchemeLib}.

Definition GroupName : string := "scheduler.policy.crane.io".

Definition SchemeGroupVersion : GroupVersion :=
  {| gv_Group := GroupName; gv_Version := "v1alpha1" |}.

Definition addKnownTypes (s : Scheme) : go (result Scheme) :=
  let! s := AddKnownTypes SchemeGroupVersion
        [("v1alpha1", "DynamicSchedulerPolicy")] s in
  Ret (Ok s).

Definition conversions : list (goType * goType * func) :=
    [(("v1alpha1", "DynamicSchedulerPolicy"), ("policy", "DynamicSchedulerPolicy"),
      (fun a => match a with A_DynamicSchedulerPolicy x => Ret (P_DynamicSchedulerPolicy
          (Policy.v1alpha1.Convert_DynamicSchedulerPolicy_To_policy x))
                        | _ => bad_assertion end));
     (("policy", "DynamicSchedulerPolicy"), ("v1alpha1", "DynamicSchedulerPolicy"),
      (fun a => match a with P_DynamicSchedulerPolicy x => Ret (A_DynamicSchedulerPolicy
          (Policy.v1alpha1.Convert_policy_To_DynamicSchedulerPolicy x))
                        | _ => bad_assertion end));
     (("v1alpha1", "HotValuePolicy"), ("policy", "HotValuePolicy"),
      (fun a => match a with A_HotValuePolicy x => Ret (P_HotValuePolicy
          (Policy.v1alpha1.Convert_HotValuePolicy_To_policy x))
                        | _ => bad_assertion end));
     (("policy", "HotValuePolicy"), ("v1alpha1", "HotValuePolicy"),
      (fun a => match a with P_HotValuePolicy x => Ret (A_HotValuePolicy
          (Policy.v1alpha1.Convert_policy_To_HotValuePolicy x))
                        | _ => bad_assertion end));
     (("v1alpha1", "PolicySpec"), ("policy", "PolicySpec"),
      (fun a => match a with A_PolicySpec x => Ret (P_PolicySpec
          (Policy.v1alpha1.Convert_PolicySpec_To_policy x))
                        | _ => bad_assertion end));
     (("policy", "PolicySpec"), ("v1alpha1", "PolicySpec"),
      (fun a => match a with P_PolicySpec x => Ret (A_PolicySpec
          (Policy.v1alpha1.Convert_policy_To_PolicySpec x))
                        | _ => bad_assertion end));
     (("v1alpha1", "PredicatePolicy"), ("policy", "PredicatePolicy"),
      (fun a => match a with A_PredicatePolicy x => Ret (P_PredicatePolicy
          (Policy.v1alpha1.Convert_PredicatePolicy_To_policy x))
                        | _ => bad_assertion end));
     (("policy", "PredicatePolicy"), ("v1alpha1", "PredicatePolicy"),
      (fun a => match a with P_PredicatePolicy x => Ret (A_PredicatePolicy
          (Policy.v1alpha1.Convert_policy_To_PredicatePolicy x))
                        | _ => bad_assertion end));
     (("v1alpha1", "PriorityPolicy"), ("policy", "PriorityPolicy"),
      (fun a => match a with A_PriorityPolicy x => Ret (P_PriorityPolicy
          (Policy.v1alpha1.Convert_PriorityPolicy_To_policy x))
                        | _ => bad_assertion end));
     (("policy", "PriorityPolicy"), ("v1alpha1", "PriorityPolicy"),
      (fun a => match a with P_PriorityPolicy x => Ret (A_PriorityPolicy
          (Policy.v1alpha1.Convert_policy_To_PriorityPolicy x))
                        | _ => bad_assertion end));
     (("v1alpha1", "SyncPolicy"), ("policy", "SyncPolicy"),
      (fun a => match a with A_SyncPolicy x => Ret (P_SyncPolicy
          (Policy.v1alpha1.Convert_SyncPolicy_To_policy x))
                        | _ => bad_assertion end));
     (("policy", "SyncPolicy"), ("v1alpha1", "SyncPolicy"),
      (fun a => match a with P_SyncPolicy x => Ret (A_SyncPolicy
          (Policy.v1alpha1.Convert_policy_To_SyncPolicy x))
                        | _ => bad_assertion end))].

Definition RegisterConversions (s : Scheme) : go (result Scheme) := Ret (add_conversions conversions s).

Definition Builder : SchemeBuilder := [addKnownTypes; RegisterConversions].

End Version.
End v1alpha1.

(** ** The two schemes *)

Section Schemes.
Context `{SL : SchemeLib}.

(** pkg/plugins/apis/config/scheme: the in-tree builders are those of kube-scheduler. *)
Definition config_AddToScheme (in_tree in_tree_v1beta2 in_tree_v1beta3 : SchemeBuilder) (s : Scheme)
    : go Scheme :=
  let! s := Must (build (config.localSchemeBuilder in_tree) s) in
  let! s := Must (build (v1beta2.localSchemeBuilder in_tree_v1beta2) s) in
  Must (build (v1beta3.localSchemeBuilder in_tree_v1beta3) s).

(** pkg/plugins/apis/policy/scheme *)
Definition policy_AddToScheme (s : Scheme) : go Scheme :=
  let! s := Must (build policy.Builder s) in
  Must (build v1alpha1.Builder s).

End Schemes.

(** ** What a scheme has recorded *)

(** The entries of a scheme. *)
Record view := {
  v_known : GroupVersion -> string -> option goType;
  v_defaulter : goType -> option func;
  v_converter : goType -> goType -> option func;
  v_custom : goType -> goType -> option func }.

Definition view_types (gv : GroupVersion) (ts : list goType) (v : view) : view :=
  {| v_known gv' k := if decide (gv = gv') then
       match List.find (fun t => String.eqb (snd t) k) ts with Some t => Some t | None
           => v_known v gv' k end
       else v_known v gv' k;
     v_defaulter := v_defaulter v; v_converter := v_converter v; v_custom := v_custom v |}.

Definition view_default (t : goType) (f : func) (v : view) : view :=
  {| v_known := v_known v;
     v_defaulter t' := if decide (t = t') then Some f else v_defaulter v t';
     v_converter := v_converter v; v_custom := v_custom v |}.

Definition view_conversion (v : view) (c : goType * goType * func) : view :=
  {| v_known := v_known v; v_defaulter := v_defaulter v;
     v_converter a b := if decide (c.1 = (a, b)) then Some c.2 else v_converter v a b;
     v_custom := v_custom v |}.

(** No kind of the list is registered with a different type. *)
Definition clear (v : view) (gv : GroupVersion) (ts : list goType) : bool :=
  forallb (fun t => match v_known v gv (snd t) with None => true | Some t' => bool_decide (t' = t) end) ts.

Lemma view_types_known gv ts v gv' k t :
  v_known (view_types gv ts v) gv' k = Some t ->
  (gv' = gv /\ t ∈ ts /\ k = snd t) \/ v_known v gv' k = Some t.
Proof.
  cbn [v_known view_types]. destruct (decide (gv = gv')) as [->|]; [|by right].
  destruct (List.find (fun t => String.eqb (snd t) k) ts) as [t1|] eqn:He; [|by right]. intros [= ->]. left.
  apply List.find_some in He as [Hin Hk%String.eqb_eq]. split_and!; [done|by apply list_elem_of_In|done].
Qed.

Lemma find_other_kind k (ts : list goType) : k ∉ (snd <$> ts) -> List.find (fun t => String.eqb (snd t) k) ts = None.
Proof.
  intros Hk. destruct (List.find (fun t => String.eqb (snd t) k) ts) as [t|] eqn:He; [|done].
  apply List.find_some in He as [Hin <-%String.eqb_eq]. destruct Hk. by apply list_elem_of_fmap_2, list_elem_of_In.
Qed.

Section View.
Context `{SL : SchemeLib}.

(** The packages, by the names of their directories, and the kinds that they register. *)
Definition packages : list string := ["config"; "v1beta2"; "v1beta3"; "policy"; "v1alpha1"].
Definition kinds : list string :=
  ["DynamicArgs"; "NodeResourceTopologyMatchArgs"; "ApplicationResourceAwareArgs";
   "DynamicSchedulerPolicy"].

(** The view has the scheme's entries for these kinds and for the types of these packages. *)
Definition sees (s : Scheme) (v : view) : Prop :=
  (forall gv k, k ∈ kinds -> known s gv k = v_known v gv k) /\
  (forall gv k t, fst t ∈ packages -> known s gv k = Some t -> v_known v gv k = Some t) /\
  (forall t, fst t ∈ packages -> defaulter s t = v_defaulter v t) /\
  (forall a b, fst a ∈ packages -> a <> b -> converter s a b = v_converter v a b) /\
  (forall a b, fst a ∈ packages -> custom s a b = v_custom v a b).

Definition own_view (s : Scheme) : view :=
  {| v_known := known s; v_defaulter := defaulter s; v_converter := converter s; v_custom := custom s |}.

(** The builders of kube-scheduler: [ready] is what they need of a scheme. It does not depend on
    the kinds of these packages, and in a ready scheme they succeed, leave it ready and keep the
    entries of these packages. *)
Definition needs (ready : Scheme -> Prop) : Prop :=
  forall s s', (forall gv k, k ∉ kinds -> known s' gv k = known s gv k) -> ready s -> ready s'.
Definition foreign (ready : Scheme -> Prop) (b : SchemeBuilder) : Prop :=
  Forall (fun f => forall s, ready s -> exists s', f s = Ret (Ok s') /\ ready s' /\ sees s' (own_view s)) b.

(** What the packages of the configuration register, and where. *)
Definition config_types : list goType :=
  [("config", "DynamicArgs"); ("config", "NodeResourceTopologyMatchArgs");
   ("config", "ApplicationResourceAwareArgs")].
Definition v1beta2_types : list goType :=
  [("v1beta2", "DynamicArgs"); ("v1beta2", "NodeResourceTopologyMatchArgs");
   ("v1beta2", "ApplicationResourceAwareArgs")].
Definition v1beta3_types : list goType :=
  [("v1beta3", "DynamicArgs"); ("v1beta3", "NodeResourceTopologyMatchArgs");
   ("v1beta3", "ApplicationResourceAwareArgs")].
Definition registrations : list (GroupVersion * list goType) :=
  [(config.SchemeGroupVersion, config_types); (v1beta2.SchemeGroupVersion, v1beta2_types);
   (v1beta3.SchemeGroupVersion, v1beta3_types)].

(** No other type has one of the kinds, in one of the three versions. *)
Definition unclaimed (s : Scheme) : bool :=
  forallb (fun r => clear (own_view s) (fst r) (snd r)) registrations.

(** The types of these packages are registered nowhere else, and have no conversions of another
    origin. *)
Definition unused (s : Scheme) : Prop :=
  (forall gv k t, fst t ∈ packages -> known s gv k = Some t ->
     exists ts, (gv, ts) ∈ registrations /\ t ∈ ts /\ k = snd t) /\
  (forall a b, fst a ∈ packages -> custom s a b = None).

Section Steps.
Variable ready : Scheme -> Prop.
Hypothesis Hready : needs ready.

Definition tracks (s : Scheme) (v : view) : Prop := sees s v /\ ready s.

Lemma ready_known s s' : (forall gv k, known s' gv k = known s gv k) -> ready s -> ready s'.
Proof. intros Hk. apply Hready. intros gv k _. apply Hk. Qed.

Lemma clear_Forall s v gv ts :
  sees s v -> Forall (fun t => snd t ∈ kinds) ts ->
  if clear v gv ts then Forall (fun t => known s gv (snd t) = None \/ known s gv (snd t) = Some t) ts
  else exists t t', t ∈ ts /\ known s gv (snd t) = Some t' /\ t' <> t.
Proof.
  intros (Hk & _). unfold clear. induction 1 as [|t ts Hin _ IH]; cbn [forallb]; [constructor|].
  rewrite <- (Hk gv (snd t)) by done. destruct (known s gv (snd t)) as [t'|] eqn:He; cbn [andb].
  - case_bool_decide as Ht; cbn [andb].
    + subst t'. case_match; [by constructor; [right|]|].
      destruct IH as (t1 & t' & ? & ? & ?). exists t1, t'. split; [by right|done].
    + exists t, t'. split; [by left|done].
  - case_match; [by constructor; [left|]|].
    destruct IH as (t1 & t' & ? & ? & ?). exists t1, t'. split; [by right|done].
Qed.

Lemma sees_types gv ts s s' v :
  AddKnownTypes gv ts s = Ret s' -> sees s v -> sees s' (view_types gv ts v).
Proof.
  intros Ha (Hk & Ho & Hd & Hc & Hu). split_and!.
  - intros gv' k Hin. rewrite (known_AddKnownTypes _ _ _ _ _ _ Ha), Hk by done. done.
  - intros gv' k t Ht. rewrite (known_AddKnownTypes _ _ _ _ _ _ Ha). cbn [v_known view_types].
    destruct (decide (gv = gv')); [case_match; [done|]|]; by apply Ho.
  - intros t Hin. rewrite (defaulter_AddKnownTypes _ _ _ _ _ Ha). by apply Hd.
  - intros a b Hin Hne. rewrite (converter_AddKnownTypes _ _ _ _ _ _ Ha Hne). by apply Hc.
  - intros a b Hin. rewrite (custom_AddKnownTypes _ _ _ _ _ _ Ha). by apply Hu.
Qed.

(** The kinds of a registration are of these packages and all different. *)
Definition fine (ts : list goType) : bool :=
  bool_decide (NoDup (snd <$> ts)) && bool_decide (Forall (fun t => snd t ∈ kinds) ts).

(** A registration records its types, or it panics because another type has one of the kinds. *)
Lemma types_step gv ts s v :
  gv_Version gv <> "" -> fine ts = true -> tracks s v ->
  if clear v gv ts then exists s', AddKnownTypes gv ts s = Ret s' /\ tracks s' (view_types gv ts v)
  else exists msg, AddKnownTypes gv ts s = Panic msg.
Proof.
  intros Hgv [Hnd%bool_decide_eq_true Hin%bool_decide_eq_true]%andb_true_iff [Hs Hr]. pose proof (clear_Forall s v gv ts Hs Hin) as Hcl.
  destruct (clear v gv ts).
  - destruct (AddKnownTypes_Ret gv ts s Hgv Hnd Hcl) as [s' Ha]. exists s'. split; [done|].
    split; [by eapply sees_types|]. apply (Hready s); [|done]. intros gv' k Hk.
    rewrite (known_AddKnownTypes _ _ _ _ _ _ Ha), find_other_kind; [by destruct (decide _)|].
    intros (t & -> & Ht)%list_elem_of_fmap. by apply Hk, (proj1 (Forall_forall _ _) Hin).
  - destruct Hcl as (t & t' & Ht & He & Hne). by eapply AddKnownTypes_Panic.
Qed.

Lemma default_step t f s v : tracks s v -> tracks (AddTypeDefaultingFunc t f s) (view_default t f v).
Proof.
  intros [(Hk & Ho & Hd & Hc & Hu) Hr].
  split; [split_and!|by eapply ready_known; [|exact Hr]; intros; apply known_AddTypeDefaultingFunc].
  - intros gv' k Hin. rewrite known_AddTypeDefaultingFunc. by apply Hk.
  - intros gv' k t' Hin. rewrite known_AddTypeDefaultingFunc. by apply Ho.
  - intros t' Hin. rewrite defaulter_AddTypeDefaultingFunc, Hd by done. done.
  - intros a b Hin Hne. rewrite converter_AddTypeDefaultingFunc. by apply Hc.
  - intros a b Hin. rewrite custom_AddTypeDefaultingFunc. by apply Hu.
Qed.

Lemma conversions_step l s v : tracks s v ->
  exists s', add_conversions l s = Ok s' /\ tracks s' (foldl view_conversion v l).
Proof.
  revert s v. induction l as [|[[a b] f] l IH]; intros s v Hs; [by exists s|].
  destruct (AddConversion_Ok a b f s) as [s1 H1]. cbn [add_conversions foldl]. rewrite H1.
  apply IH. destruct Hs as [(Hk & Ho & Hd & Hc & Hu) Hr].
  split; [split_and!; cbn|by eapply ready_known; [|exact Hr]; intros; apply (known_AddConversion _ _ _ _ _ _ _ H1)].
  - intros gv' k Hin. rewrite (known_AddConversion _ _ _ _ _ _ _ H1). by apply Hk.
  - intros gv' k t Hin. rewrite (known_AddConversion _ _ _ _ _ _ _ H1). by apply Ho.
  - intros t' Hin. rewrite (defaulter_AddConversion _ _ _ _ _ _ H1). by apply Hd.
  - intros a' b' Hin Hne. rewrite (converter_AddConversion _ _ _ _ _ _ _ H1), Hc by done. done.
  - intros a' b' Hin. rewrite (custom_AddConversion _ _ _ _ _ _ _ H1). by apply Hu.
Qed.

Lemma sees_trans s s' v : sees s v -> sees s' (own_view s) -> sees s' v.
Proof.
  intros (Hk & Ho & Hd & Hc & Hu) (Hk' & Ho' & Hd' & Hc' & Hu'). split_and!.
  - intros gv k Hin. rewrite Hk' by done. by apply Hk.
  - intros gv k t Hin Ht. by apply Ho, (Ho' gv k t).
  - intros t Hin. rewrite Hd' by done. by apply Hd.
  - intros a b Hin Hne. rewrite Hc' by done. by apply Hc.
  - intros a b Hin. rewrite Hu' by done. by apply Hu.
Qed.

Lemma foreign_step b s v : foreign ready b -> tracks s v -> exists s', build b s = Ret (Ok s') /\ tracks s' v.
Proof.
  intros Hb. revert s. induction Hb as [|f b Hf _ IH]; intros s [Hs Hr]; [by exists s|].
  destruct (Hf s Hr) as (s1 & H1 & Hr1 & Hs1). cbn [build]. rewrite H1. cbn [go_bind]. apply IH.
  split; [by eapply sees_trans|done].
Qed.

Lemma build_app b b' s :
  build (b ++ b')%list s = (let! r := build b s in match r with Ok s' => build b' s' | Err e => Ret (Err e) end).
Proof.
  revert s. induction b as [|f b IH]; intros s; [done|]. cbn. destruct (f s) as [[s'|e]|msg]; cbn; [apply IH|done..].
Qed.

Lemma foreign_build b b' s v : foreign ready b -> tracks s v ->
  exists s', build (b ++ b')%list s = build b' s' /\ tracks s' v.
Proof.
  intros Hb Hs. destruct (foreign_step b s v Hb Hs) as (s1 & H1 & Hs1). exists s1. split; [|done].
  by rewrite build_app, H1.
Qed.

(** What the decoder does with an object of a type whose entries are in the view. *)
Lemma sees_decode s v gv k t u c x y z :
  sees s v -> v_known v gv k = Some t ->
  (forall gv' k', v_known v gv' k' = Some t -> gv' = gv /\ k' = k) ->
  v_known v {| gv_Group := gv_Group gv; gv_Version := APIVersionInternal |} k = Some u ->
  v_custom v t u = None -> v_converter v t u = Some c ->
  match v_defaulter v t with Some f => f x | None => Ret x end = Ret y -> c y = Ret z ->
  k ∈ kinds -> fst t ∈ packages -> t <> u -> Decode s gv k x = Ret (Some z).
Proof.
  intros (Hk & Ho & Hd & Hc & Hcu) Ht Honly Hu Hn Hcv Hy Hz Hin Hp Hne.
  apply (Decode_registered s gv k t u c x y z);
    [by rewrite Hk| |by rewrite Hk|by rewrite Hcu|by rewrite Hc|by rewrite Hd|done].
  intros gv' k' He. by apply Honly, Ho.
Qed.

(** *** The two schemes *)

Definition view2 (v : view) : view :=
  foldl view_conversion (foldl view_conversion
    (view_default ("v1beta2", "ApplicationResourceAwareArgs") v1beta2.default_ApplicationResourceAwareArgs
    (view_default ("v1beta2", "NodeResourceTopologyMatchArgs") v1beta2.default_NodeResourceTopologyMatchArgs
    (view_default ("v1beta2", "DynamicArgs") v1beta2.default_DynamicArgs
    (view_types v1beta2.SchemeGroupVersion v1beta2_types v))))
    v1beta2.conversions) v1beta2.conversions.

Definition view3 (v : view) : view :=
  foldl view_conversion (foldl view_conversion
    (view_default ("v1beta3", "ApplicationResourceAwareArgs") v1beta3.default_ApplicationResourceAwareArgs
    (view_default ("v1beta3", "NodeResourceTopologyMatchArgs") v1beta3.default_NodeResourceTopologyMatchArgs
    (view_default ("v1beta3", "DynamicArgs") v1beta3.default_DynamicArgs
    (view_types v1beta3.SchemeGroupVersion v1beta3_types v))))
    v1beta3.conversions) v1beta3.conversions.

Definition config_view (v : view) : view :=
  view3 (view2 (view_types config.SchemeGroupVersion config_types v)).

Definition policy_view (v : view) : view :=
  foldl view_conversion
    (view_types v1alpha1.SchemeGroupVersion [("v1alpha1", "DynamicSchedulerPolicy")]
    (view_types policy.SchemeGroupVersion [("policy", "DynamicSchedulerPolicy")] v))
    v1alpha1.conversions.

(** A stage of a scheme's construction: it leads to the new view, or it panics because a kind is
    taken. *)
Definition stage (r : go Scheme) (ok : bool) (v : view) : Prop :=
  if ok then exists s, r = Ret s /\ tracks s v else exists msg, r = Panic msg.

Lemma stage_types gv ts s v (f : Scheme -> go Scheme) (g : view -> view) :
  gv_Version gv <> "" -> fine ts = true -> tracks s v ->
  (forall s' v', tracks s' v' -> exists s'', f s' = Ret s'' /\ tracks s'' (g v')) ->
  stage (let! s' := AddKnownTypes gv ts s in f s') (clear v gv ts) (g (view_types gv ts v)).
Proof.
  intros Hgv Hf Hs Hg. unfold stage. pose proof (types_step gv ts s v Hgv Hf Hs) as Ht. destruct (clear v gv ts).
  - destruct Ht as (s1 & -> & Hs1). by apply Hg.
  - destruct Ht as (msg & ->). by exists msg.
Qed.

Lemma stage_eq r r' ok v : r = r' -> stage r' ok v -> stage r ok v.
Proof. by intros ->. Qed.

Lemma config_stage b s v : foreign ready b -> tracks s v ->
  stage (Must (build (config.localSchemeBuilder b) s)) (clear v config.SchemeGroupVersion config_types)
    (view_types config.SchemeGroupVersion config_types v).
Proof.
  intros Hb Hs. unfold config.localSchemeBuilder. destruct (foreign_build b [config.addKnownTypes] s v Hb Hs)
    as (s1 & -> & Hs1). cbn [build]. unfold config.addKnownTypes. fold config_types.
  eapply stage_eq; [|apply (stage_types _ config_types s1 v Ret id); [done|done|done|by eauto]].
  by destruct (AddKnownTypes _ _ _).
Qed.

Lemma version2_stage b s v : foreign ready b -> tracks s v ->
  stage (Must (build (v1beta2.localSchemeBuilder b) s)) (clear v v1beta2.SchemeGroupVersion v1beta2_types)
    (view2 v).
Proof.
  intros Hb Hs. unfold v1beta2.localSchemeBuilder.
  destruct (foreign_build b [v1beta2.addKnownTypes; v1beta2.RegisterDefaults; v1beta2.RegisterConversions;
    v1beta2.RegisterConversions] s v Hb Hs) as (s1 & -> & Hs1).
  eapply stage_eq; [|apply (stage_types v1beta2.SchemeGroupVersion v1beta2_types s1 v
    (fun s' => Must (build [v1beta2.RegisterDefaults; v1beta2.RegisterConversions;
       v1beta2.RegisterConversions] s'))
    (fun w => foldl view_conversion (foldl view_conversion
      (view_default ("v1beta2", "ApplicationResourceAwareArgs") v1beta2.default_ApplicationResourceAwareArgs
      (view_default ("v1beta2", "NodeResourceTopologyMatchArgs") v1beta2.default_NodeResourceTopologyMatchArgs
      (view_default ("v1beta2", "DynamicArgs") v1beta2.default_DynamicArgs w)))
      v1beta2.conversions) v1beta2.conversions)); [done|done|done|]].
  - cbn [build]. unfold v1beta2.addKnownTypes. fold v1beta2_types. by destruct (AddKnownTypes _ _ _).
  - intros s' v' Ht. cbn [build Must go_bind]. unfold v1beta2.RegisterDefaults, v1beta2.RegisterConversions. cbv zeta.
    edestruct (conversions_step v1beta2.conversions) as (s2 & H2 & Hs2); [do 3 apply default_step; exact Ht|].
    cbn [go_bind]. rewrite H2.
    destruct (conversions_step v1beta2.conversions _ _ Hs2) as (s3 & H3 & Hs3). rewrite H3. by exists s3.
Qed.

Lemma version3_stage b s v : foreign ready b -> tracks s v ->
  stage (Must (build (v1beta3.localSchemeBuilder b) s)) (clear v v1beta3.SchemeGroupVersion v1beta3_types)
    (view3 v).
Proof.
  intros Hb Hs. unfold v1beta3.localSchemeBuilder.
  destruct (foreign_build b [v1beta3.addKnownTypes; v1beta3.RegisterDefaults; v1beta3.RegisterConversions;
    v1beta3.RegisterConversions] s v Hb Hs) as (s1 & -> & Hs1).
  eapply stage_eq; [|apply (stage_types v1beta3.SchemeGroupVersion v1beta3_types s1 v
    (fun s' => Must (build [v1beta3.RegisterDefaults; v1beta3.RegisterConversions;
       v1beta3.RegisterConversions] s'))
    (fun w => foldl view_conversion (foldl view_conversion
      (view_default ("v1beta3", "ApplicationResourceAwareArgs") v1beta3.default_ApplicationResourceAwareArgs
      (view_default ("v1beta3", "NodeResourceTopologyMatchArgs") v1beta3.default_NodeResourceTopologyMatchArgs
      (view_default ("v1beta3", "DynamicArgs") v1beta3.default_DynamicArgs w)))
      v1beta3.conversions) v1beta3.conversions)); [done|done|done|]].
  - cbn [build]. unfold v1beta3.addKnownTypes. fold v1beta3_types. by destruct (AddKnownTypes _ _ _).
  - intros s' v' Ht. cbn [build Must go_bind]. unfold v1beta3.RegisterDefaults, v1beta3.RegisterConversions. cbv zeta.
    edestruct (conversions_step v1beta3.conversions) as (s2 & H2 & Hs2); [do 3 apply default_step; exact Ht|].
    cbn [go_bind]. rewrite H2.
    destruct (conversions_step v1beta3.conversions _ _ Hs2) as (s3 & H3 & Hs3). rewrite H3. by exists s3.
Qed.

Lemma config_built b1 b2 b3 s0 : foreign ready b1 -> foreign ready b2 -> foreign ready b3 -> ready s0 ->
  stage (config_AddToScheme b1 b2 b3 s0) (unclaimed s0) (config_view (own_view s0)).
Proof.
  intros H1 H2 H3 Hr. unfold config_AddToScheme, unclaimed. cbn [forallb registrations fst snd].
  assert (tracks s0 (own_view s0)) as Hs0 by done.
  pose proof (config_stage b1 s0 _ H1 Hs0) as St1.
  destruct (clear (own_view s0) config.SchemeGroupVersion config_types); cbn [andb stage] in *;
    [|destruct St1 as (msg & ->); by exists msg].
  destruct St1 as (s1 & -> & Hs1). cbn [go_bind].
  pose proof (version2_stage b2 s1 _ H2 Hs1) as St2. change (clear _ _ _) with
    (clear (own_view s0) v1beta2.SchemeGroupVersion v1beta2_types) in St2.
  destruct (clear (own_view s0) v1beta2.SchemeGroupVersion v1beta2_types); cbn [andb stage] in *;
    [|destruct St2 as (msg & ->); by exists msg].
  destruct St2 as (s2 & -> & Hs2). cbn [go_bind].
  pose proof (version3_stage b3 s2 _ H3 Hs2) as St3. change (clear _ _ _) with
    (clear (own_view s0) v1beta3.SchemeGroupVersion v1beta3_types) in St3.
  rewrite andb_true_r. exact St3.
Qed.

Lemma policy_built s0 : ready s0 ->
  clear (own_view s0) policy.SchemeGroupVersion [("policy", "DynamicSchedulerPolicy")] = true ->
  clear (own_view s0) v1alpha1.SchemeGroupVersion [("v1alpha1", "DynamicSchedulerPolicy")] = true ->
  exists s, policy_AddToScheme s0 = Ret s /\ tracks s (policy_view (own_view s0)).
Proof.
  intros Hr Hc1 Hc2. assert (tracks s0 (own_view s0)) as Hs0 by done.
  pose proof (types_step policy.SchemeGroupVersion [("policy", "DynamicSchedulerPolicy")] s0 _ ltac:(done) eq_refl Hs0) as H1.
  rewrite Hc1 in H1. destruct H1 as (s1 & H1 & Hs1).
  pose proof (types_step v1alpha1.SchemeGroupVersion [("v1alpha1", "DynamicSchedulerPolicy")] s1 _ ltac:(done) eq_refl Hs1) as H2.
  change (clear _ _ _) with
    (clear (own_view s0) v1alpha1.SchemeGroupVersion [("v1alpha1", "DynamicSchedulerPolicy")]) in H2.
  rewrite Hc2 in H2. destruct H2 as (s2 & H2 & Hs2).
  destruct (conversions_step v1alpha1.conversions _ _ Hs2) as (s3 & H3 & Hs3).
  exists s3. split; [|exact Hs3]. unfold policy_AddToScheme, policy.Builder, v1alpha1.Builder.
  cbn [build]. unfold policy.addKnownTypes. rewrite H1. cbn [go_bind Must].
  unfold v1alpha1.addKnownTypes. rewrite H2. cbn [go_bind].
  unfold v1alpha1.RegisterConversions. by rewrite H3.
Qed.

End Steps.

(** A type of the configuration packages is known only where it is registered. *)
Lemma config_known s0 gv k t : unused s0 -> fst t ∈ packages ->
  v_known (config_view (own_view s0)) gv k = Some t ->
  exists ts, (gv, ts) ∈ registrations /\ t ∈ ts /\ k = snd t.
Proof.
  intros [Hu _] Hp Hk. change (v_known (view_types v1beta3.SchemeGroupVersion v1beta3_types
    (view_types v1beta2.SchemeGroupVersion v1beta2_types
    (view_types config.SchemeGroupVersion config_types (own_view s0)))) gv k = Some t) in Hk.
  apply view_types_known in Hk as [(-> & ? & ?)|Hk]; [eexists; split; [right; right; left|done]|].
  apply view_types_known in Hk as [(-> & ? & ?)|Hk]; [eexists; split; [right; left|done]|].
  apply view_types_known in Hk as [(-> & ? & ?)|Hk]; [eexists; split; [left|done]|]. by apply Hu.
Qed.

(** The package of a registered type tells its version. *)
Lemma registered_package gv ts t : (gv, ts) ∈ registrations -> t ∈ ts ->
  fst t ∈ packages /\
  gv = (if String.eqb (fst t) "config" then config.SchemeGroupVersion
        else if String.eqb (fst t) "v1beta2" then v1beta2.SchemeGroupVersion
        else v1beta3.SchemeGroupVersion).
Proof.
  intros Hr Ht. unfold registrations in Hr.
  repeat (apply elem_of_cons in Hr as [[= -> ->]|Hr]); [..|by apply elem_of_nil in Hr];
    repeat (apply elem_of_cons in Ht as [->|Ht]; [split; [unfold packages; cbn; set_solver|done]|]);
    by apply elem_of_nil in Ht.
Qed.

(** A registered type is known for one version and kind. *)
Lemma config_home s0 gv ts t : unused s0 -> (gv, ts) ∈ registrations -> t ∈ ts ->
  forall gv' k', v_known (config_view (own_view s0)) gv' k' = Some t -> gv' = gv /\ k' = snd t.
Proof.
  intros Hu Hr Ht gv' k' Hk. destruct (registered_package gv ts t Hr Ht) as [Hp ->].
  destruct (config_known s0 gv' k' t Hu Hp Hk) as (ts' & Hr' & Ht' & ->). split; [|done].
  by apply (registered_package gv' ts' t Hr' Ht').
Qed.

(** What the decoder does with an object of a registered type. *)
Lemma config_decode s s0 gv ts k t u c x y z :
  sees s (config_view (own_view s0)) -> unused s0 ->
  v_known (config_view (own_view s0)) gv k = Some t ->
  bool_decide ((gv, ts) ∈ registrations) = true -> bool_decide (t ∈ ts) = true -> k = snd t ->
  bool_decide (k ∈ kinds) = true ->
  v_known (config_view (own_view s0)) {| gv_Group := gv_Group gv; gv_Version := APIVersionInternal |} k
    = Some u -> bool_decide (t = u) = false ->
  v_converter (config_view (own_view s0)) t u = Some c ->
  match v_defaulter (config_view (own_view s0)) t with Some f => f x | None => Ret x end = Ret y ->
  c y = Ret z -> Decode s gv k x = Ret (Some z).
Proof.
  intros Hv Hu Ht Hr%bool_decide_eq_true Hin%bool_decide_eq_true -> Hk%bool_decide_eq_true Hi
    Hne%bool_decide_eq_false Hc Hy Hz.
  destruct (registered_package gv ts t Hr Hin) as [Hp _].
  apply (sees_decode _ _ _ _ _ _ c x y z Hv Ht (config_home s0 gv ts t Hu Hr Hin) Hi); try done.
  by apply Hu.
Qed.

(** ** Properties *)

(** C37: both schemes decode as the packages intend. The configuration scheme is built on
    kube-scheduler's, by builders that first run those of kube-scheduler ([needs], [foreign]):
    when the scheme has none of the packages' kinds registered with a different type, building it
    does not fail, and an argument object of v1beta2 or v1beta3 is decoded by the defaults of its
    own version followed by the conversion to the internal type ([decode_DynamicArgs] and the
    others), whatever else the scheme holds; when it has one, building it panics. Building the
    policy scheme does not fail, and a v1alpha1 policy is decoded by its conversion. *)
Theorem registered_decoders (ready : Scheme -> Prop) (in_tree in_tree2 in_tree3 : SchemeBuilder) (s0 : Scheme) :
  needs ready -> foreign ready in_tree -> foreign ready in_tree2 -> foreign ready in_tree3 ->
  ready s0 -> unused s0 ->
  (if unclaimed s0 then
     exists s, config_AddToScheme in_tree in_tree2 in_tree3 s0 = Ret s /\
     (forall x, Decode s v1beta2.SchemeGroupVersion "DynamicArgs" (V2_DynamicArgs x)
        = Ret (Some (I_DynamicArgs (Config.v1beta2.decode_DynamicArgs x)))) /\
     (forall x, Decode s v1beta2.SchemeGroupVersion "NodeResourceTopologyMatchArgs"
          (V2_NodeResourceTopologyMatchArgs x)
        = Ret (Some (I_NodeResourceTopologyMatchArgs
                       (Config.v1beta2.decode_NodeResourceTopologyMatchArgs x)))) /\
     (forall x, Decode s v1beta2.SchemeGroupVersion "ApplicationResourceAwareArgs"
          (V2_ApplicationResourceAwareArgs x)
        = Ret (Some (I_ApplicationResourceAwareArgs
                       (Config.v1beta2.decode_ApplicationResourceAwareArgs x)))) /\
     (forall x, Decode s v1beta3.SchemeGroupVersion "DynamicArgs" (V3_DynamicArgs x)
        = Ret (Some (I_DynamicArgs (Config.v1beta3.decode_DynamicArgs x)))) /\
     (forall x, Decode s v1beta3.SchemeGroupVersion "NodeResourceTopologyMatchArgs"
          (V3_NodeResourceTopologyMatchArgs x)
        = Ret (Some (I_NodeResourceTopologyMatchArgs
                       (Config.v1beta3.decode_NodeResourceTopologyMatchArgs x)))) /\
     (forall x, Decode s v1beta3.SchemeGroupVersion "ApplicationResourceAwareArgs"
          (V3_ApplicationResourceAwareArgs x)
        = Ret (Some (I_ApplicationResourceAwareArgs
                       (Config.v1beta3.decode_ApplicationResourceAwareArgs x))))
   else exists msg, config_AddToScheme in_tree in_tree2 in_tree3 s0 = Panic msg) /\
  (exists s, policy_AddToScheme NewScheme = Ret s /\
     forall x, Decode s v1alpha1.SchemeGroupVersion "DynamicSchedulerPolicy" (A_DynamicSchedulerPolicy x)
       = Ret (Some (P_DynamicSchedulerPolicy
                      (Policy.v1alpha1.Convert_DynamicSchedulerPolicy_To_policy x)))).
Proof.
  intros Hn H1 H2 H3 Hr Hu. split.
  - pose proof (config_built ready Hn in_tree in_tree2 in_tree3 s0 H1 H2 H3 Hr) as Hst.
    destruct (unclaimed s0); [|exact Hst]. destruct Hst as (s & Hs & Hv & _). exists s.
    split; [done|].
    split_and!; intros x; (eapply (config_decode _ s0 _ v1beta2_types); [exact Hv|exact Hu|reflexivity..]) ||
      (eapply (config_decode _ s0 _ v1beta3_types); [exact Hv|exact Hu|reflexivity..]).
  - destruct (policy_built (fun _ => True) ltac:(done) NewScheme) as (s & Hs & Hv & _); [done|..].
    { cbn. by rewrite known_NewScheme. }
    { cbn. by rewrite known_NewScheme. }
    exists s. split; [done|]. intros x. eapply (sees_decode _ _ _ _ _ _ _ _ _ _ Hv).
    + reflexivity.
    + intros gv' k' Hk. change (v_known (view_types v1alpha1.SchemeGroupVersion
        [("v1alpha1", "DynamicSchedulerPolicy")] (view_types policy.SchemeGroupVersion
        [("policy", "DynamicSchedulerPolicy")] (own_view NewScheme))) gv' k'
        = Some ("v1alpha1", "DynamicSchedulerPolicy")) in Hk.
      apply view_types_known in Hk as [(-> & _ & ->)|Hk]; [done|].
      apply view_types_known in Hk as [(_ & [=]%list_elem_of_singleton & _)|Hk].
      cbn in Hk. by rewrite known_NewScheme in Hk.
    + reflexivity.
    + cbn. apply custom_NewScheme.
    + reflexivity.
    + cbn. by rewrite defaulter_NewScheme.
    + reflexivity.
    + by unfold kinds; set_solver.
    + by unfold packages; set_solver.
    + done.
Qed.

End View.

(** ** Witnesses *)

Section Witnesses.

(** A scheme as the view of its entries, and the decoder they define. *)
Definition zx_decode (s : view) (gv : GroupVersion) (k : string) (x : object) : go (option object) :=
  match v_known s gv k, v_known s {| gv_Group := gv_Group gv; gv_Version := APIVersionInternal |} k with
  | Some t, Some u =>
      match v_custom s t u, v_converter s t u with
      | None, Some c =>
          let! y := match v_defaulter s t with Some f => f x | None => Ret x end in
          let! z := c y in Ret (Some z)
      | _, _ => Ret None
      end
  | _, _ => Ret None
  end.

Definition zx_types (gv : GroupVersion) (ts : list goType) (s : view) : go view :=
  if clear s gv ts && bool_decide (NoDup (snd <$> ts)) then Ret (view_types gv ts s)
  else Panic "Double registration of different types".

#[local] Instance zx_lib : SchemeLib.
Proof.
  refine {| Scheme := view;
    NewScheme := {| v_known _ _ := None; v_defaulter _ := None; v_converter _ _ := None; v_custom _ _ := None |};
    known := v_known; defaulter := v_defaulter; converter := v_converter; custom := v_custom;
    AddKnownTypes := zx_types; AddTypeDefaultingFunc := view_default;
    AddGeneratedConversionFunc a b f s := Ok (view_conversion s (a, b, f)); Decode := zx_decode |}.
  all: try done; try (by intros; simplify_eq);
    try (by unfold zx_types; intros; case_match; simplify_eq).
  - intros gv ts s _ Hn Hc. unfold zx_types. rewrite bool_decide_eq_true_2, andb_true_r by done.
    assert (clear s gv ts = true) as ->; [|by eexists].
    apply forallb_forall. intros t Hin%list_elem_of_In.
    destruct (proj1 (Forall_forall _ _) Hc t Hin) as [-> | ->]; [done|by apply bool_decide_eq_true].
  - intros gv ts s t t' Hin Ht Hne. unfold zx_types.
    assert (clear s gv ts = false) as ->; [|by eexists].
    apply not_true_iff_false. intros Hc. pose proof (proj1 (forallb_forall _ _) Hc t) as H.
    cbn beta in H. rewrite Ht in H. apply Hne, (bool_decide_unpack _). rewrite H; [done|]. by apply list_elem_of_In.
  - intros a b f s. by eexists.
  - intros s gv k t u c x y z H1 _ H2 H3 H4 H5 H6. unfold zx_decode. rewrite H1, H2, H3, H4. cbn.
    rewrite H5. cbn. by rewrite H6.
Defined.

(** A builder of kube-scheduler's: it registers a kind of its own. *)
Definition zx_types0 : list goType := [("kubescheduler", "InterPodAffinityArgs")].
Definition zx_in_tree : SchemeBuilder :=
  [fun s => let! s := AddKnownTypes config.SchemeGroupVersion zx_types0 s in Ret (Ok s)].
Definition zx_ready (s : view) : Prop := clear s config.SchemeGroupVersion zx_types0 = true.

Lemma zx_needs : needs zx_ready.
Proof.
  intros s s' Hk. unfold zx_ready, clear. cbn. cbn in Hk. rewrite Hk; [done|].
  unfold kinds. set_solver.
Qed.

Lemma zx_foreign : foreign zx_ready zx_in_tree.
Proof.
  constructor; [|constructor]. intros s Hr. exists (view_types config.SchemeGroupVersion zx_types0 s).
  cbn. unfold zx_types, zx_ready in *. rewrite Hr. cbn [andb].
  split; [done|]. split; [done|]. split; [|split; [|done]].
  - intros gv k Hk. change (v_known (view_types config.SchemeGroupVersion zx_types0 s) gv k = v_known s gv k).
    cbn [v_known view_types]. destruct (decide _); [|done]. rewrite find_other_kind; [done|].
    unfold zx_types0, kinds in *. set_solver.
  - intros gv k t Hp [(_ & ->%list_elem_of_singleton & _)|Hk]%view_types_known; [|exact Hk].
    unfold packages in Hp. cbn in Hp. set_solver.
Qed.

(** A scheme in which a kind is taken. *)
Definition zx_taken : view := view_types config.SchemeGroupVersion [("other", "DynamicArgs")] NewScheme.

Lemma registered_decoders_witness :
  ((exists s, config_AddToScheme zx_in_tree [] zx_in_tree NewScheme = Ret s /\
     (forall x, Decode s v1beta2.SchemeGroupVersion "DynamicArgs" (V2_DynamicArgs x)
        = Ret (Some (I_DynamicArgs (Config.v1beta2.decode_DynamicArgs x))))) /\
   (exists s, policy_AddToScheme NewScheme = Ret s /\
     forall x, Decode s v1alpha1.SchemeGroupVersion "DynamicSchedulerPolicy" (A_DynamicSchedulerPolicy x)
       = Ret (Some (P_DynamicSchedulerPolicy
                      (Policy.v1alpha1.Convert_DynamicSchedulerPolicy_To_policy x))))) /\
  (exists msg, config_AddToScheme zx_in_tree [] zx_in_tree zx_taken = Panic msg).
Proof.
  split.
  - destruct (registered_decoders (SL := zx_lib) zx_ready zx_in_tree [] zx_in_tree NewScheme zx_needs zx_foreign
      (List.Forall_nil _) zx_foreign eq_refl) as [Hc Hp]; [by split|].
    change (unclaimed NewScheme) with true in Hc. destruct Hc as (s & Hs & H & _).
    split; [exists s; split; [exact Hs|exact H]|exact Hp].
  - destruct (registered_decoders (SL := zx_lib) zx_ready zx_in_tree [] zx_in_tree zx_taken zx_needs zx_foreign
      (List.Forall_nil _) zx_foreign eq_refl) as [Hc _]; [|exact Hc].
    split; [|done]. intros gv k t Hp Hk. apply view_types_known in Hk as [(_ & ->%list_elem_of_singleton & _)|Hk].
    + exfalso. unfold packages in Hp. cbn in Hp. set_solver.
    + discriminate.
Defined.

End Witnesses.
