(* ===== verification/TopologyCache.v ===== *)
(** * pkg/plugins/noderesourcetopology/cache.go

    The cache of topology results of pods that are reserved but not bound yet: two maps with the
    same keys, the results and their deadlines. Every method holds the cache's lock for its whole
    body, so a run is a sequence of atomic operations. [now] is the clock in nanoseconds. *)

From S2P Require Import Prelude GoTime K8s.

Open Scope string_scope.
Open Scope Z_scope.

Definition cleanAssumedPeriod : Duration := 1 * Second.

Section Cache.
Context `{QL : QuantityLib} `{PK : !PodKeys}.

Abbreviation ZoneList := (list Zone).

Record podTopologyCacheImpl := {
  ttl : Duration;
  period : Duration;
  podTopology : gmap string ZoneList;
  podTopologyTTL : gmap string Z }.

(** The constructor also starts [cleanupExpiredAssumedPods], once per [period]. *)
Definition NewPodTopologyCache (ttl : Duration) : podTopologyCacheImpl :=
  {| ttl := ttl; period := cleanAssumedPeriod; podTopology := ∅; podTopologyTTL := ∅ |}.

Definition with_maps (c : podTopologyCacheImpl) (m : gmap string ZoneList) (d : gmap string Z)
    : podTopologyCacheImpl :=
  {| ttl := ttl c; period := period c; podTopology := m; podTopologyTTL := d |}.

Definition removePod (c : podTopologyCacheImpl) (key : string) : podTopologyCacheImpl :=
  with_maps c (delete key (podTopology c)) (delete key (podTopologyTTL c)).

(** [None] is a nil error. *)
Definition AssumePod (c : podTopologyCacheImpl) (now : Z) (pod : Pod) (zone : ZoneList)
    : podTopologyCacheImpl * option error :=
  match GetPodKey pod with
  | Err e => (c, Some e)
  | Ok key =>
      match podTopology c !! key with
      | Some _ =>
          (c, Some (Errorf "pod %v is in the podTopologyCache, so can't be assumed" [key]))
      | None =>
          let dl := now + ttl c in
          (with_maps c (<[key := zone]> (podTopology c)) (<[key := dl]> (podTopologyTTL c)), None)
      end
  end.

Definition ForgetPod (c : podTopologyCacheImpl) (pod : Pod)
    : podTopologyCacheImpl * option error :=
  match GetPodKey pod with
  | Err e => (c, Some e)
  | Ok key => (removePod c key, None)
  end.

Definition PodCount (c : podTopologyCacheImpl) : nat := size (podTopology c).

Definition GetPodTopology (c : podTopologyCacheImpl) (pod : Pod) : result ZoneList :=
  match GetPodKey pod with
  | Err e => Err e
  | Ok key =>
      match podTopology c !! key with
      | None => Err (Errorf "pod topology %v does not exist in cache" [key])
      | Some topology => Ok topology
      end
  end.

(** The loop over the deadlines; the order in which Go visits the map does not matter
    ([cleanup_entries_lookup]). *)
Fixpoint cleanup_entries (c : podTopologyCacheImpl) (now : Z) (l : list (string * Z))
    : podTopologyCacheImpl :=
  match l with
  | [] => c
  | (key, dl) :: l' => cleanup_entries (if dl <? now then removePod c key else c) now l'
  end.

Definition cleanupAssumedPods (c : podTopologyCacheImpl) (now : Z) : podTopologyCacheImpl :=
  cleanup_entries c now (map_to_list (podTopologyTTL c)).

(** ** Runs *)

Inductive cache_op :=
| CAssume (now : Z) (pod : Pod) (zone : ZoneList)
| CForget (pod : Pod)
| CCleanup (now : Z).

Definition cache_exec (c : podTopologyCacheImpl) (o : cache_op) : podTopologyCacheImpl :=
  match o with
  | CAssume now pod zone => fst (AssumePod c now pod zone)
  | CForget pod => fst (ForgetPod c pod)
  | CCleanup now => cleanupAssumedPods c now
  end.

Definition cache_run (c : podTopologyCacheImpl) (ops : list cache_op) : podTopologyCacheImpl :=
  foldl cache_exec c ops.

(** ** The abstract cache: one map from keys to results with their deadlines *)

Abbreviation acache := (gmap string (ZoneList * Z)).

Definition abstract (c : podTopologyCacheImpl) : acache :=
  map_zip (podTopology c) (podTopologyTTL c).

Definition spec_exec (t : Duration) (m : acache) (o : cache_op) : acache :=
  match o with
  | CAssume now pod zone =>
      match GetPodKey pod with
      | Ok key => match m !! key with Some _ => m | None => <[key := (zone, now + t)]> m end
      | Err _ => m
      end
  | CForget pod => match GetPodKey pod with Ok key => delete key m | Err _ => m end
  | CCleanup now => filter (fun kv => now <= snd (snd kv)) m
  end.

(** The two maps have the same keys. *)
Definition cache_inv (c : podTopologyCacheImpl) : Prop :=
  dom (podTopology c) = dom (podTopologyTTL c).

Lemma cache_inv_lookup c key :
  cache_inv c -> podTopology c !! key = None <-> podTopologyTTL c !! key = None.
Proof. unfold cache_inv. intros H. rewrite <- !not_elem_of_dom. by rewrite H. Qed.

Lemma abstract_None c key :
  cache_inv c -> abstract c !! key = None <-> podTopology c !! key = None.
Proof.
  intros Hi. unfold abstract. rewrite map_lookup_zip_with.
  pose proof (cache_inv_lookup c key Hi).
  destruct (podTopology c !! key), (podTopologyTTL c !! key); naive_solver.
Qed.

Definition expired (now : Z) (key : string) (l : list (string * Z)) : bool :=
  existsb (fun kd => String.eqb (fst kd) key && (snd kd <? now)) l.

Lemma cleanup_entries_lookup c now l key :
  podTopology (cleanup_entries c now l) !! key
  = (if expired now key l then None else podTopology c !! key) /\
  podTopologyTTL (cleanup_entries c now l) !! key
  = (if expired now key l then None else podTopologyTTL c !! key).
Proof.
  revert c. induction l as [|[k d] l IH]; intros c; [done|].
  cbn [cleanup_entries expired existsb fst snd]. destruct (IH (if d <? now then removePod c k else c))
    as [-> ->]. fold (expired now key l). destruct (expired now key l); [by rewrite orb_true_r|].
  rewrite orb_false_r. destruct (String.eqb_spec k key) as [->|Hk], (d <? now); cbn [andb]; try done;
    cbn [removePod with_maps podTopology podTopologyTTL];
    by rewrite ?lookup_delete_eq, ?lookup_delete_ne by done.
Qed.

Lemma expired_map now key (m : gmap string Z) :
  expired now key (map_to_list m) = match m !! key with Some dl => dl <? now | None => false end.
Proof.
  unfold expired. apply Bool.eq_true_iff_eq. rewrite existsb_exists. split.
  - intros ([k d] & Hin%list_elem_of_In & [Hk Hd]%andb_true_iff). simpl in *.
    apply elem_of_map_to_list in Hin. apply String.eqb_eq in Hk as ->. by rewrite Hin.
  - destruct (m !! key) as [dl|] eqn:Hm; [|done]. intros Hd. exists (key, dl).
    split; [by apply list_elem_of_In, elem_of_map_to_list|]. simpl. by rewrite String.eqb_refl.
Qed.

Lemma cleanup_lookup c now key :
  let gone := match podTopologyTTL c !! key with Some dl => dl <? now | None => false end in
  podTopology (cleanupAssumedPods c now) !! key
  = (if gone then None else podTopology c !! key) /\
  podTopologyTTL (cleanupAssumedPods c now) !! key
  = (if gone then None else podTopologyTTL c !! key).
Proof.
  cbn zeta. unfold cleanupAssumedPods. rewrite <- expired_map. apply cleanup_entries_lookup.
Qed.

Lemma cleanup_entries_ttl c now l : ttl (cleanup_entries c now l) = ttl c.
Proof. revert c. induction l as [|[k d] l IH]; intros c; simpl; [done|]. rewrite IH. by case_match. Qed.

Lemma AssumePod_abstract c now pod zone :
  cache_inv c ->
  cache_inv (fst (AssumePod c now pod zone)) /\
  abstract (fst (AssumePod c now pod zone)) = spec_exec (ttl c) (abstract c) (CAssume now pod zone).
Proof.
  intros Hi. unfold AssumePod. cbn [spec_exec]. destruct (GetPodKey pod) as [key|e]; [|done].
  pose proof (abstract_None c key Hi) as Hn.
  destruct (podTopology c !! key) as [z|] eqn:Hk; cbn [fst].
  - destruct (abstract c !! key); naive_solver.
  - rewrite (proj2 Hn eq_refl). split.
    + unfold cache_inv in *. cbn. by rewrite !dom_insert_L, Hi.
    + unfold abstract. cbn. by rewrite map_insert_zip_with.
Qed.

Lemma ForgetPod_abstract c pod :
  cache_inv c ->
  cache_inv (fst (ForgetPod c pod)) /\
  abstract (fst (ForgetPod c pod)) = spec_exec (ttl c) (abstract c) (CForget pod).
Proof.
  intros Hi. unfold ForgetPod. cbn [spec_exec]. destruct (GetPodKey pod) as [key|e]; [|done].
  cbn [fst]. split.
  - unfold cache_inv in *. cbn. by rewrite !dom_delete_L, Hi.
  - unfold abstract. cbn. by rewrite map_delete_zip_with.
Qed.

Lemma cleanup_abstract c now :
  cache_inv c ->
  cache_inv (cleanupAssumedPods c now) /\
  abstract (cleanupAssumedPods c now) = spec_exec (ttl c) (abstract c) (CCleanup now).
Proof.
  intros Hi. split.
  - unfold cache_inv. apply set_eq. intros key. rewrite !elem_of_dom.
    destruct (cleanup_lookup c now key) as [-> ->]. pose proof (cache_inv_lookup c key Hi) as Hn.
    unfold is_Some. destruct (podTopology c !! key), (podTopologyTTL c !! key) as [dl|];
      try destruct (dl <? now); naive_solver.
  - apply map_eq. intros key. cbn [spec_exec]. unfold abstract.
    rewrite map_lookup_zip_with. destruct (cleanup_lookup c now key) as [-> ->].
    destruct (podTopologyTTL c !! key) as [dl|] eqn:Hd.
    + destruct (podTopology c !! key) as [z|] eqn:Hz; destruct (Z.ltb_spec dl now) as [Hl|Hl]; simpl;
        symmetry; try (apply map_lookup_filter_None_2; left; rewrite map_lookup_zip_with;
          by rewrite Hd, Hz).
      * apply map_lookup_filter_None_2. right. intros x. rewrite map_lookup_zip_with, Hd, Hz. simpl.
        intros [= <-]. simpl. lia.
      * apply map_lookup_filter_Some_2; [by rewrite map_lookup_zip_with, Hd, Hz|]. simpl. lia.
    + destruct (podTopology c !! key) as [z|] eqn:Hz; simpl; symmetry;
        apply map_lookup_filter_None_2; left; by rewrite map_lookup_zip_with, Hd, Hz.
Qed.

Lemma cache_exec_ttl c o : ttl (cache_exec c o) = ttl c.
Proof.
  destruct o as [now pod zone|pod|now]; simpl.
  - unfold AssumePod. repeat case_match; done.
  - unfold ForgetPod. by case_match.
  - apply cleanup_entries_ttl.
Qed.

Lemma cache_exec_abstract c o :
  cache_inv c ->
  cache_inv (cache_exec c o) /\ abstract (cache_exec c o) = spec_exec (ttl c) (abstract c) o.
Proof.
  intros Hi. destruct o; [by apply AssumePod_abstract|by apply ForgetPod_abstract
    |by apply cleanup_abstract].
Qed.

Lemma NewPodTopologyCache_inv t : cache_inv (NewPodTopologyCache t) /\
  abstract (NewPodTopologyCache t) = ∅.
Proof. split; [done|]. apply map_eq. intros k. unfold abstract. by rewrite map_lookup_zip_with. Qed.

Lemma GetPodTopology_abstract c pod key :
  cache_inv c -> GetPodKey pod = Ok key ->
  GetPodTopology c pod =
  match abstract c !! key with
  | Some (zone, _) => Ok zone
  | None => Err (Errorf "pod topology %v does not exist in cache" [key])
  end.
Proof.
  intros Hi Hk. unfold GetPodTopology. rewrite Hk. pose proof (cache_inv_lookup c key Hi) as Hn.
  unfold abstract. rewrite map_lookup_zip_with.
  destruct (podTopology c !! key), (podTopologyTTL c !! key); naive_solver.
Qed.

(** ** Properties *)

(** C20: the cache refines one map from keys to (result, deadline). After any sequence of
    assumptions, removals and cleanups of a new cache its two maps have the same keys, and
    together they are what the specification computes: an assumption adds a key that is not
    there, a removal deletes it, a cleanup keeps what has not expired. So lookups and the pod
    count are those of the specification. *)
Theorem cache_refines (t : Duration) (ops : list cache_op) :
  let c := cache_run (NewPodTopologyCache t) ops in
  let m := foldl (spec_exec t) ∅ ops in
  cache_inv c /\ abstract c = m /\ PodCount c = size m /\
  forall pod key, GetPodKey pod = Ok key ->
    GetPodTopology c pod =
    match m !! key with
    | Some (zone, _) => Ok zone
    | None => Err (Errorf "pod topology %v does not exist in cache" [key])
    end.
Proof.
  cbn zeta.
  assert (forall c, cache_inv c -> ttl c = t -> cache_inv (cache_run c ops) /\
    abstract (cache_run c ops) = foldl (spec_exec t) (abstract c) ops) as Hrun.
  { unfold cache_run. induction ops as [|o ops IH]; intros c Hi Ht; [done|]. simpl.
    destruct (cache_exec_abstract c o Hi) as [Hi' Ha]. rewrite Ht in Ha.
    rewrite <- Ha. apply IH; [done|]. by rewrite cache_exec_ttl. }
  destruct (NewPodTopologyCache_inv t) as [Hi He].
  destruct (Hrun _ Hi eq_refl) as [Hi' Ha]. rewrite He in Ha. rewrite <- Ha. split_and!.
  - done.
  - done.
  - unfold PodCount. rewrite <- !size_dom. f_equal.
    apply set_eq. intros key. rewrite !elem_of_dom, <- !not_eq_None_Some.
    by rewrite abstract_None.
  - intros pod key Hk. by apply GetPodTopology_abstract.
Qed.

(** An assumed pod is found by [GetPodTopology] with its result, survives every cleanup up to
    and including its deadline, and is gone after one past it. *)
Theorem assumed_until_deadline (c : podTopologyCacheImpl) (now t : Z) (pod : Pod) (key : string)
    (zone : ZoneList) :
  cache_inv c -> GetPodKey pod = Ok key -> podTopology c !! key = None ->
  let c' := fst (AssumePod c now pod zone) in
  snd (AssumePod c now pod zone) = None /\
  GetPodTopology c' pod = Ok zone /\
  GetPodTopology (cleanupAssumedPods c' t) pod =
    (if t <=? now + ttl c then Ok zone
     else Err (Errorf "pod topology %v does not exist in cache" [key])).
Proof.
  intros Hi Hk Hn. cbn zeta. unfold AssumePod, GetPodTopology. rewrite Hk, Hn. cbn [fst snd].
  split_and!; [done|cbn; by rewrite lookup_insert_eq|].
  match goal with |- context [cleanupAssumedPods ?x t] =>
    destruct (cleanup_lookup x t key) as [-> _] end.
  cbn. rewrite !lookup_insert_eq.
  destruct (Z.ltb_spec (now + ttl c) t), (Z.leb_spec t (now + ttl c)); try lia; done.
Qed.

End Cache.

(** ** Witnesses *)

Section Witnesses.
#[local] Existing Instance MilliQuantities.

Definition cx_keys : PodKeys := {| GetPodKey := fun p => Ok (om_Name (pod_meta p)) |}.
#[local] Existing Instance cx_keys.

Definition cx_pod : Pod := {| pod_meta := meta0 "p"; pod_NodeName := ""; pod_Containers := [] |}.

Lemma assumed_until_deadline_witness :
  snd (AssumePod (NewPodTopologyCache Minute) 0 cx_pod []) = None /\
  GetPodTopology (fst (AssumePod (NewPodTopologyCache Minute) 0 cx_pod [])) cx_pod = Ok [] /\
  GetPodTopology (cleanupAssumedPods (fst (AssumePod (NewPodTopologyCache Minute) 0 cx_pod []))
    Hour) cx_pod = Err (Errorf "pod topology %v does not exist in cache" ["p"]).
Proof.
  apply (assumed_until_deadline (NewPodTopologyCache Minute) 0 Hour cx_pod "p" []);
    [reflexivity|reflexivity|reflexivity].
Defined.

End Witnesses.
