(* ===== verification/Topology.v ===== *)
(** * pkg/plugins/noderesourcetopology/helper.go

    What the NUMA plugin computes: a pod's guaranteed containers and their request, the free
    resources of a node's zones, whether one zone fits the request, and how a request is spread
    over the zones. 64-bit additions wrap. A slice of pointers to numa nodes is a list of
    records, since the pointers are distinct and not shared; functions that write through a
    pointer return the new record. *)

From S2P Require Import Prelude GoStrings K8s.

Open Scope string_scope.
Open Scope Z_scope.

Definition add64 (a b : Z) : Z := wrap64 (a + b).
Definition sub64 (a b : Z) : Z := wrap64 (a - b).

(** [m[k]] on a map of integers that may be nil. *)
Definition scalar (m : option (gmap string Z)) (k : string) : Z := default 0 (default ∅ m !! k).
Definition scalar_len (m : option (gmap string Z)) : nat := size (default ∅ m).

Definition min (a b : Z) : Z := if a <? b then a else b.

Section Helper.
Context `{QL : QuantityLib} `{RL : !ResourceLib} `{TN : TopologyNames} `{TC : !TopologyCodec}.
Context `{SS : SortSlice}.

Abbreviation ZoneList := (list Zone).

(** ** Pods *)

Definition SupportedPolicy : gset string :=
  {[AnnotationPodCPUPolicyNone; AnnotationPodCPUPolicyExclusive; AnnotationPodCPUPolicyNUMA;
    AnnotationPodCPUPolicyImmovable]}.

Definition IsPodAwareOfTopology (attr : smap) : option bool :=
  match attr !! AnnotationPodTopologyAwarenessKey with
  | Some val => match ParseBool val with Ok awareness => Some awareness | Err _ => None end
  | None => None
  end.

Definition GetPodCPUPolicy (attr : smap) : string :=
  match attr !! AnnotationPodCPUPolicyKey with
  | Some policy => if decide (policy ∈ SupportedPolicy) then policy else ""
  | None => ""
  end.

Definition GuaranteedCPUs (container : Container) : Z :=
  let cpuQuantity := rl_get (c_Requests container) ResourceCPU in
  let cpuQuantityLimit := rl_get (c_Limits container) ResourceCPU in
  if negb (Cmp cpuQuantity cpuQuantityLimit =? 0)
     || negb (wrap64 (Value cpuQuantity * 1000) =? MilliValue cpuQuantity)
  then 0 else Value cpuQuantity.

Fixpoint target_indices (i : nat) (l : list Container) : list nat :=
  match l with
  | [] => []
  | c :: l' =>
      if 0 <? GuaranteedCPUs c then i :: target_indices (S i) l' else target_indices (S i) l'
  end.

Definition GetPodTargetContainerIndices (pod : Pod) : list nat :=
  if String.eqb (GetPodCPUPolicy (annos (om_Annotations (pod_meta pod))))
       AnnotationPodCPUPolicyNone
  then [] else target_indices 0 (pod_Containers pod).

Definition GetPodTopologyResult (pod : Pod) : ZoneList :=
  match annos (om_Annotations (pod_meta pod)) !! AnnotationPodTopologyResultKey with
  | None => []
  | Some raw => match UnmarshalZones raw with Err _ => [] | Ok zones => zones end
  end.

Definition GetPodNUMANodeResult (pod : Pod) : ZoneList :=
  filter (fun z => z_Type z = ZoneTypeNode) (GetPodTopologyResult pod).

(** ** The zones of a node *)

Record numaNode := {
  name : string;
  allocatable : Resource;
  requested : Resource }.

Definition newNumaNode (zone : Zone) : numaNode :=
  let alloc := match z_Resources zone with Some ri => ri_Allocatable ri | None => ∅ end in
  {| name := z_Name zone; allocatable := NewResource alloc; requested := resource0 |}.

Definition addResource (nn : numaNode) (info : option ResourceInfo) : numaNode :=
  match info with
  | None => nn
  | Some info =>
      {| name := name nn; allocatable := allocatable nn;
         requested := Resource_Add (requested nn) (ri_Capacity info) |}
  end.

Record nodeWrapper := {
  nw_aware : bool;
  nw_node : string;
  nw_numaNodes : list numaNode;
  nw_topologyAwareResources : gset string;
  nw_result : ZoneList }.

Definition newNodeWrapper (node : string) (resourceNames : gset string) (zones : ZoneList)
    : nodeWrapper :=
  {| nw_aware := false; nw_node := node; nw_numaNodes := List.map newNumaNode zones;
     nw_topologyAwareResources := resourceNames; nw_result := [] |}.

Definition with_nodes (nw : nodeWrapper) (ns : list numaNode) : nodeWrapper :=
  {| nw_aware := nw_aware nw; nw_node := nw_node nw; nw_numaNodes := ns;
     nw_topologyAwareResources := nw_topologyAwareResources nw; nw_result := nw_result nw |}.

Definition with_result (nw : nodeWrapper) (r : ZoneList) : nodeWrapper :=
  {| nw_aware := nw_aware nw; nw_node := nw_node nw; nw_numaNodes := nw_numaNodes nw;
     nw_topologyAwareResources := nw_topologyAwareResources nw; nw_result := r |}.

Definition addNUMAResources (nw : nodeWrapper) (numaNodeResult : ZoneList) : nodeWrapper :=
  with_nodes nw
    (foldl (fun nodes result =>
       List.map (fun node => if String.eqb (name node) (z_Name result)
                             then addResource node (z_Resources result) else node) nodes)
       (nw_numaNodes nw) numaNodeResult).

(** [getAssumedPodTopology] is the wrapper's callback into the cache. *)
Definition addPod (getAssumedPodTopology : Pod -> result ZoneList) (nw : nodeWrapper) (pod : Pod)
    : nodeWrapper :=
  let numaNodeResult := GetPodNUMANodeResult pod in
  if (length numaNodeResult =? 0)%nat then
    match getAssumedPodTopology pod with
    | Err _ => nw
    | Ok zones => addNUMAResources nw zones
    end
  else addNUMAResources nw numaNodeResult.

(** ** Requests *)

Definition no_request (r : Resource) : bool :=
  (MilliCPU r =? 0) && (Memory r =? 0) && (EphemeralStorage r =? 0)
  && (scalar_len (ScalarResources r) =? 0)%nat.

Fixpoint compute_loop (pod : Pod) (indices : list nat) (names : gset string) (result : Resource)
    : go Resource :=
  match indices with
  | [] => Ret result
  | idx :: rest =>
      match pod_Containers pod !! idx with
      | None => Panic "runtime error: index out of range"
      | Some container =>
          let resources := filter (fun kv => fst kv ∈ names) (c_Requests container) in
          compute_loop pod rest names (Resource_Add result resources)
      end
  end.

Definition computeContainerSpecifiedResourceRequest (pod : Pod) (indices : list nat)
    (names : gset string) : go Resource :=
  compute_loop pod indices names resource0.

Record InsufficientResource := {
  ir_ResourceName : string;
  ir_Reason : error;
  ir_Requested : Z;
  ir_Used : Z;
  ir_Capacity : Z }.

Definition insufficient (cond : bool) (n : string) (reason : error) (req used cap : Z)
    : list InsufficientResource :=
  if cond then
    [{| ir_ResourceName := n; ir_Reason := reason; ir_Requested := req; ir_Used := used;
        ir_Capacity := cap |}]
  else [].

(** The scalar resources are visited in some order; the callers only use whether the list is
    empty. *)
Definition fitsRequestForNUMANode (podRequest : Resource) (nn : numaNode)
    : list InsufficientResource :=
  let a := allocatable nn in
  let r := requested nn in
  if no_request podRequest then []
  else
    (insufficient (sub64 (MilliCPU a) (MilliCPU r) <? MilliCPU podRequest) ResourceCPU
       (Errorf "Insufficient cpu of NUMA node" []) (MilliCPU podRequest) (MilliCPU r) (MilliCPU a)
     ++ insufficient (sub64 (Memory a) (Memory r) <? Memory podRequest) ResourceMemory
       (Errorf "Insufficient memory of NUMA node" []) (Memory podRequest) (Memory r) (Memory a)
     ++ insufficient
       (sub64 (EphemeralStorage a) (EphemeralStorage r) <? EphemeralStorage podRequest)
       ResourceEphemeralStorage (Errorf "Insufficient ephemeral-storage of NUMA node" [])
       (EphemeralStorage podRequest) (EphemeralStorage r) (EphemeralStorage a)
     ++ concat (List.map (fun '(rName, rQuant) =>
         insufficient
           (sub64 (scalar (ScalarResources a) rName) (scalar (ScalarResources r) rName) <? rQuant)
           rName (Errorf "Insufficient %v of NUMA node" [rName])
           (scalar (ScalarResources podRequest) rName) (scalar (ScalarResources r) rName)
           (scalar (ScalarResources a) rName))
         (map_to_list (default ∅ (ScalarResources podRequest)))))%list.

(** One resource of [assignRequestForNUMANode]: what is assigned, and what is left to ask. *)
Definition assign1 (req alloc used : Z) : Z * Z :=
  let assigned := min req (sub64 alloc used) in
  (assigned, sub64 req assigned).

(** Returns the request left, what the node was assigned and whether nothing is left. The scalar
    map of a new [framework.Resource] is nil, so the first scalar resource panics. *)
Definition assignRequestForNUMANode (podRequest : Resource) (nn : numaNode)
    : go (Resource * option Resource * bool) :=
  let a := allocatable nn in
  let r := requested nn in
  if no_request podRequest then Ret (podRequest, None, false)
  else
    let '(cpu, cpu_left) := assign1 (MilliCPU podRequest) (MilliCPU a) (MilliCPU r) in
    let finished := negb (0 <? cpu_left) in
    let '(mem, mem_left) := assign1 (Memory podRequest) (Memory a) (Memory r) in
    let finished := if 0 <? mem_left then false else finished in
    let '(eph, eph_left) :=
      assign1 (EphemeralStorage podRequest) (EphemeralStorage a) (EphemeralStorage r) in
    let finished := if 0 <? eph_left then false else finished in
    match map_to_list (default ∅ (ScalarResources podRequest)) with
    | _ :: _ => Panic "assignment to entry in nil map"
    | [] =>
        Ret ({| MilliCPU := cpu_left; Memory := mem_left; EphemeralStorage := eph_left;
                AllowedPodNumber := AllowedPodNumber podRequest;
                ScalarResources := ScalarResources podRequest |},
             Some {| MilliCPU := cpu; Memory := mem; EphemeralStorage := eph;
                     AllowedPodNumber := 0; ScalarResources := None |},
             finished)
    end.

(** The memory entry takes the CPU number, as the code does. *)
Definition ResourceListIgnoreZeroResources (r : option Resource) : ResourceList :=
  match r with
  | None => ∅
  | Some r =>
      let put (cond : bool) (k : string) (q : Quantity) (m : ResourceList) :=
        if cond then <[k := q]> m else m in
      let result : ResourceList := ∅ in
      let result := put (0 <? MilliCPU r) ResourceCPU (NewMilliQuantity (MilliCPU r) DecimalSI) result in
      let result := put (0 <? Memory r) ResourceMemory (NewQuantity (MilliCPU r) BinarySI) result in
      let result := put (0 <? AllowedPodNumber r) ResourcePods
                      (NewQuantity (AllowedPodNumber r) BinarySI) result in
      let result := put (0 <? EphemeralStorage r) ResourceEphemeralStorage
                      (NewQuantity (EphemeralStorage r) BinarySI) result in
      map_imap (fun rName rQuant =>
        if 0 <? rQuant then
          Some (NewQuantity rQuant (if IsHugePageResourceName rName then BinarySI else DecimalSI))
        else None) (default ∅ (ScalarResources r)) ∪ result
  end.

Definition numa_zone (n : string) (capacity : ResourceList) : Zone :=
  {| z_Name := n; z_Type := ZoneTypeNode;
     z_Resources := Some {| ri_Capacity := capacity; ri_Allocatable := ∅ |} |}.

(** [MilliCPU / 1000 * 1000] on the allocatable CPU of a node. *)
Definition floor_cpu (nn : numaNode) : numaNode :=
  let a := allocatable nn in
  {| name := name nn;
     allocatable :=
       {| MilliCPU := wrap64 (Z.quot (MilliCPU a) 1000 * 1000); Memory := Memory a;
          EphemeralStorage := EphemeralStorage a; AllowedPodNumber := AllowedPodNumber a;
          ScalarResources := ScalarResources a |};
     requested := requested nn |}.

(** The loop of [assignTopologyResult]: the nodes as it leaves them, and the zones appended. *)
Fixpoint assign_loop (request : Resource) (nodes : list numaNode)
    : go (list numaNode * ZoneList) :=
  match nodes with
  | [] => Ret ([], [])
  | node :: rest =>
      let node := floor_cpu node in
      let! (request', res, finished) := assignRequestForNUMANode request node in
      let capacity := ResourceListIgnoreZeroResources res in
      let zones := if (size capacity =? 0)%nat then [] else [numa_zone (name node) capacity] in
      if finished then Ret (node :: rest, zones)
      else
        let! (rest', zones') := assign_loop request' rest in
        Ret (node :: rest', (zones ++ zones')%list)
  end.

(** More free CPU first. *)
Definition freer (i j : numaNode) : bool :=
  sub64 (MilliCPU (allocatable j)) (MilliCPU (requested j))
  <? sub64 (MilliCPU (allocatable i)) (MilliCPU (requested i)).

Definition zone_less (i j : Zone) : bool := String.ltb (z_Name i) (z_Name j).

Definition assignTopologyResult (nw : nodeWrapper) (request : Resource) : go nodeWrapper :=
  let nw := with_nodes nw (sort_Slice freer (nw_numaNodes nw)) in
  if nw_aware nw then
    match nw_numaNodes nw with
    | [] => Panic "runtime error: index out of range [0] with length 0"
    | n0 :: _ =>
        Ret (with_result nw
               [numa_zone (name n0) (ResourceListIgnoreZeroResources (Some request))])
    end
  else
    let! (nodes, zones) := assign_loop request (nw_numaNodes nw) in
    Ret (with_result (with_nodes nw nodes) (sort_Slice zone_less (nw_result nw ++ zones))).

End Helper.

(** ** Lemmas *)

Section HelperLemmas.
Context `{QL : QuantityLib} `{RL : !ResourceLib} `{TN : TopologyNames} `{TC : !TopologyCodec}.
Context `{SS : SortSlice}.

Lemma sub64_id a b : int64_min <= a - b <= int64_max -> sub64 a b = a - b.
Proof. apply wrap64_id. Qed.

(** *** Fitting *)

(** What is free of each resource on the node covers the request. *)
Definition covers (nn : numaNode) (r : Resource) : Prop :=
  MilliCPU r <= sub64 (MilliCPU (allocatable nn)) (MilliCPU (requested nn)) /\
  Memory r <= sub64 (Memory (allocatable nn)) (Memory (requested nn)) /\
  EphemeralStorage r
    <= sub64 (EphemeralStorage (allocatable nn)) (EphemeralStorage (requested nn)) /\
  forall k q, default ∅ (ScalarResources r) !! k = Some q ->
    q <= sub64 (scalar (ScalarResources (allocatable nn)) k)
               (scalar (ScalarResources (requested nn)) k).

Lemma insufficient_nil cond n reason req used cap :
  insufficient cond n reason req used cap = [] <-> cond = false.
Proof. unfold insufficient. by destruct cond. Qed.

Lemma concat_nil {A} (l : list (list A)) : concat l = [] <-> Forall (fun x => x = []) l.
Proof.
  induction l as [|x l IH]; simpl; [done|]. rewrite Forall_cons, <- IH. split.
  - by intros [-> ->]%app_eq_nil.
  - by intros [-> ->].
Qed.

Lemma fits_nil r nn :
  fitsRequestForNUMANode r nn = [] <-> no_request r = true \/ covers nn r.
Proof.
  unfold fitsRequestForNUMANode, covers. destruct (no_request r); [naive_solver|].
  split.
  - intros (H1 & (H2 & (H3 & H4)%app_eq_nil)%app_eq_nil)%app_eq_nil. right.
    apply insufficient_nil in H1, H2, H3. apply concat_nil in H4. breflect.
    split_and!; try done. intros k q Hk. rewrite Forall_map, Forall_forall in H4.
    specialize (H4 (k, q)). simpl in H4. rewrite insufficient_nil in H4.
    assert ((k, q) ∈ map_to_list (default ∅ (ScalarResources r))) as Hin
      by (by apply elem_of_map_to_list).
    apply H4 in Hin. by breflect.
  - intros [H|(H1 & H2 & H3 & H4)]; [done|].
    rewrite !app_nil. split_and!; try (apply insufficient_nil, Z.ltb_ge; done).
    apply concat_nil. rewrite Forall_map, Forall_forall. intros [k q] Hin. simpl.
    apply insufficient_nil, Z.ltb_ge, H4. by apply elem_of_map_to_list in Hin.
Qed.

(** Nothing is requested. *)
Definition asks_nothing (r : Resource) : Prop :=
  MilliCPU r = 0 /\ Memory r = 0 /\ EphemeralStorage r = 0 /\ default ∅ (ScalarResources r) = ∅.

Definition zone_fits (nn : numaNode) (r : Resource) : Prop := asks_nothing r \/ covers nn r.

Lemma no_request_spec r : no_request r = true <-> asks_nothing r.
Proof.
  unfold no_request, asks_nothing, scalar_len.
  rewrite !andb_true_iff, !Z.eqb_eq, Nat.eqb_eq, map_size_empty_iff. naive_solver.
Qed.

Lemma zone_fits_spec r nn : fitsRequestForNUMANode r nn = [] <-> zone_fits nn r.
Proof. by rewrite fits_nil, no_request_spec. Qed.

(** The CPU that the sort of the zones compares. *)
Definition free_cpu (nn : numaNode) : Z :=
  sub64 (MilliCPU (allocatable nn)) (MilliCPU (requested nn)).

(** *** Assigning *)

Lemma min_spec a b : min a b = Z.min a b.
Proof. unfold min. destruct (Z.ltb_spec a b); lia. Qed.

Lemma assign1_spec req alloc used :
  0 <= req <= int64_max -> 0 <= alloc - used <= int64_max ->
  assign1 req alloc used = (Z.min req (alloc - used), req - Z.min req (alloc - used)).
Proof.
  intros Hr Hf. unfold assign1. cbv zeta. rewrite min_spec, !sub64_id; [done|..];
    unfold int64_min, int64_max in *; rewrite ?sub64_id; unfold int64_min, int64_max; lia.
Qed.

Lemma scalars_empty (r : Resource) :
  scalar_len (ScalarResources r) = 0%nat <-> map_to_list (default ∅ (ScalarResources r)) = [].
Proof. unfold scalar_len. by rewrite map_to_list_empty_iff, map_size_empty_iff. Qed.

Lemma assign_panics r nn :
  scalar_len (ScalarResources r) <> 0%nat ->
  assignRequestForNUMANode r nn = Panic "assignment to entry in nil map".
Proof.
  intros Hs. unfold assignRequestForNUMANode.
  assert (no_request r = false) as ->.
  { unfold no_request. apply Nat.eqb_neq in Hs. rewrite Hs. by rewrite !andb_false_r. }
  rewrite scalars_empty in Hs. repeat case_match; simplify_eq/=; done.
Qed.

Lemma assign_returns r nn :
  scalar_len (ScalarResources r) = 0%nat ->
  exists r' res fin, assignRequestForNUMANode r nn = Ret (r', res, fin) /\
    ScalarResources r' = ScalarResources r.
Proof.
  intros Hs%scalars_empty. unfold assignRequestForNUMANode. destruct (no_request r); [by eauto|].
  unfold assign1. rewrite Hs. by eauto.
Qed.

Definition res_cpu (res : option Resource) : Z :=
  match res with None => 0 | Some x => MilliCPU x end.

Lemma assign_cpu r nn :
  scalar_len (ScalarResources r) = 0%nat -> 0 <= MilliCPU r <= int64_max ->
  0 <= MilliCPU (allocatable nn) - MilliCPU (requested nn) <= int64_max ->
  let a := Z.min (MilliCPU r) (MilliCPU (allocatable nn) - MilliCPU (requested nn)) in
  exists r' res fin, assignRequestForNUMANode r nn = Ret (r', res, fin) /\
    ScalarResources r' = ScalarResources r /\ MilliCPU r' = MilliCPU r - a /\
    res_cpu res = a /\ (fin = true -> MilliCPU r' <= 0) /\
    (forall x, res = Some x -> ScalarResources x = None).
Proof.
  intros Hs Hr Hf. cbn zeta. unfold assignRequestForNUMANode.
  destruct (no_request r) eqn:Hn.
  { unfold no_request in Hn. breflect. eexists _, _, _. split; [done|]. cbn [res_cpu].
    split_and!; [done|lia|lia|done|done]. }
  rewrite assign1_spec by done. apply scalars_empty in Hs. rewrite Hs.
  destruct (assign1 (Memory r) _ _) as [m m']. destruct (assign1 (EphemeralStorage r) _ _) as [e e'].
  eexists _, _, _. split; [done|]. cbn [MilliCPU ScalarResources res_cpu].
  split_and!; [done|done|done| |by intros x [= <-]].
  destruct (0 <? e'), (0 <? m'); try done.
  destruct (Z.ltb_spec 0 (MilliCPU r - Z.min (MilliCPU r)
    (MilliCPU (allocatable nn) - MilliCPU (requested nn)))); [done|lia].
Qed.

(** The CPU a zone of a result holds, in thousandths. *)
Definition zone_cpu (z : Zone) : Z :=
  match z_Resources z with
  | None => 0
  | Some ri => MilliValue (rl_get (ri_Capacity ri) ResourceCPU)
  end.

(** Whole free CPUs of a node, in thousandths. *)
Definition cpu_free (nn : numaNode) : Z :=
  MilliCPU (allocatable nn) / 1000 * 1000 - MilliCPU (requested nn).

Definition cpu_sane (nn : numaNode) : Prop :=
  0 <= MilliCPU (allocatable nn) <= int64_max /\ 0 <= MilliCPU (requested nn) <= int64_max.

Lemma capacity_cpu (r : Resource) :
  ScalarResources r = None ->
  ResourceListIgnoreZeroResources (Some r) !! ResourceCPU =
  if 0 <? MilliCPU r then Some (NewMilliQuantity (MilliCPU r) DecimalSI) else None.
Proof.
  intros Hs. cbn [ResourceListIgnoreZeroResources]. cbv zeta. rewrite Hs. simpl.
  rewrite map_imap_empty, map_empty_union.
  repeat case_match; rewrite ?lookup_insert_ne by done;
    rewrite ?lookup_insert_eq, ?lookup_empty; done.
Qed.

Lemma floor_cpu_free nn : cpu_sane nn ->
  MilliCPU (allocatable (floor_cpu nn)) - MilliCPU (requested (floor_cpu nn)) = cpu_free nn.
Proof.
  intros [Ha _]. cbn [floor_cpu allocatable requested MilliCPU]. unfold cpu_free.
  rewrite Z.quot_div_nonneg by lia.
  pose proof (Z.mul_div_le (MilliCPU (allocatable nn)) 1000 ltac:(lia)).
  pose proof (Z.div_pos (MilliCPU (allocatable nn)) 1000 ltac:(lia) ltac:(lia)).
  rewrite wrap64_id; [done|]. unfold int64_min, int64_max in *. lia.
Qed.

Section Laws.
Context `{!QuantityLaws}.

Lemma zone_cpu_numa n res :
  (forall x, res = Some x -> ScalarResources x = None) -> 0 <= res_cpu res ->
  zone_cpu (numa_zone n (ResourceListIgnoreZeroResources res)) = res_cpu res.
Proof.
  intros Hs Hc. unfold zone_cpu, numa_zone. cbn [z_Resources ri_Capacity]. unfold rl_get.
  destruct res as [x|]; cbn [res_cpu] in *.
  - rewrite capacity_cpu by auto. destruct (Z.ltb_spec 0 (MilliCPU x)); simpl.
    + apply MilliValue_New.
    + rewrite MilliValue_zero. lia.
  - simpl. rewrite lookup_empty. apply MilliValue_zero.
Qed.

Lemma empty_capacity_cpu res :
  (forall x, res = Some x -> ScalarResources x = None) -> 0 <= res_cpu res ->
  size (ResourceListIgnoreZeroResources res) = 0%nat -> res_cpu res = 0.
Proof.
  intros Hs Hc Hz%map_size_empty_iff. destruct res as [x|]; cbn [res_cpu] in *; [|done].
  pose proof (capacity_cpu x (Hs x eq_refl)) as Hcap. rewrite Hz, lookup_empty in Hcap.
  destruct (Z.ltb_spec 0 (MilliCPU x)); [done|lia].
Qed.

Lemma assign_loop_cpu r nodes :
  scalar_len (ScalarResources r) = 0%nat -> 0 <= MilliCPU r <= int64_max ->
  Forall (fun nn => cpu_sane nn /\ 0 <= cpu_free nn) nodes ->
  exists nodes' zones, assign_loop r nodes = Ret (nodes', zones) /\
    zsum zone_cpu zones = Z.min (MilliCPU r) (zsum cpu_free nodes) /\
    Forall (fun z => z_Type z = ZoneTypeNode /\
      exists nn, nn ∈ nodes /\ z_Name z = name nn /\ 0 <= zone_cpu z <= cpu_free nn) zones.
Proof.
  intros Hs Hr Hn. revert r Hs Hr. induction Hn as [|nn nodes [Hsane Hfree] Hn IH]; intros r Hs Hr.
  { exists [], []. split; [done|]. simpl. split; [lia|done]. }
  cbn [assign_loop]. pose proof (floor_cpu_free nn Hsane) as Hfl.
  destruct (assign_cpu r (floor_cpu nn) Hs Hr) as (r' & res & fin & -> & Hs' & Hr' & Hres & Hfin & Hx).
  { rewrite Hfl. unfold cpu_free, cpu_sane, int64_max in *.
    pose proof (Z.mul_div_le (MilliCPU (allocatable nn)) 1000 ltac:(lia)). lia. }
  cbn [go_bind]. rewrite Hfl in *. set (a := Z.min (MilliCPU r) (cpu_free nn)) in *.
  pose proof (zsum_nonneg cpu_free nodes) as Hrest.
  specialize (Hrest ltac:(eapply Forall_impl; [exact Hn|naive_solver])).
  assert (0 <= a) as Ha by lia.
  match goal with |- context [if (?n =? 0)%nat then [] else ?l] =>
    set (zs := if (n =? 0)%nat then [] else l) end.
  assert (zsum zone_cpu zs = a /\
    Forall (fun z => z_Type z = ZoneTypeNode /\
      exists n, n ∈ nn :: nodes /\ z_Name z = name n /\ 0 <= zone_cpu z <= cpu_free n) zs) as [Hz Hzf].
  { unfold zs. destruct (Nat.eqb_spec (size (ResourceListIgnoreZeroResources res)) 0) as [H0|H0].
    - split; [|done]. simpl. rewrite <- Hres. symmetry. apply empty_capacity_cpu; [done|lia|done].
    - pose proof (zone_cpu_numa (name (floor_cpu nn)) res Hx ltac:(lia)) as Hzc.
      split; [cbn [zsum foldr]; rewrite Hzc; lia|]. constructor; [|done]. split; [done|].
      exists nn. rewrite Hzc, Hres. split_and!; [left|done|lia|lia]. }
  clearbody zs. destruct fin.
  - exists (floor_cpu nn :: nodes), zs. split; [done|]. split; [|done]. cbn [zsum foldr]. fold
      (zsum cpu_free nodes).
    specialize (Hfin eq_refl). lia.
  - destruct (IH r') as (nodes' & zones & -> & Hsum & Hall); [by rewrite Hs'|lia|].
    cbn [go_bind]. eexists _, _. split; [done|]. rewrite zsum_app, Hz, Hsum. split.
    + cbn [zsum foldr]. fold (zsum cpu_free nodes). lia.
    + apply Forall_app. split; [done|]. eapply Forall_impl; [exact Hall|].
      intros z (? & n & ? & ? & ?). split; [done|]. exists n. split; [by right|done].
Qed.

End Laws.
End HelperLemmas.

Section HelperLemmas2.
Context `{QL : QuantityLib} `{RL : !ResourceLib} `{TN : TopologyNames} `{TC : !TopologyCodec}.
Context `{SS : SortSlice}.

Lemma target_indices_spec i l k :
  k ∈ target_indices i l <-> exists c, l !! (k - i)%nat = Some c /\ (i <= k)%nat /\ 0 < GuaranteedCPUs c.
Proof.
  revert i. induction l as [|c l IH]; intros i; cbn [target_indices].
  { split; [by intros ?%not_elem_of_nil|]. intros (c & H & _). by rewrite lookup_nil in H. }
  assert (k ∈ target_indices (S i) l <-> exists c', (c :: l) !! (k - i)%nat = Some c' /\
    (i <= k)%nat /\ (k <> i)%nat /\ 0 < GuaranteedCPUs c') as Hrec.
  { rewrite IH. split.
    - intros (c' & H & Hk & Hg). exists c'. split_and!; [|lia|lia|done].
      replace (k - i)%nat with (S (k - S i)) by lia. done.
    - intros (c' & H & Hk & Hne & Hg). exists c'. split_and!; [|lia|done].
      replace (k - i)%nat with (S (k - S i)) in H by lia. done. }
  destruct (Z.ltb_spec 0 (GuaranteedCPUs c)) as [Hc|Hc].
  - rewrite elem_of_cons, Hrec. split.
    + intros [->|(c' & ? & ? & _ & ?)]; [|by exists c'].
      exists c. rewrite Nat.sub_diag. split_and!; [done|lia|done].
    + intros (c' & ? & ? & ?). destruct (Nat.eq_dec k i) as [->|Hne]; [by left|]. right. by exists c'.
  - rewrite Hrec. split; intros (c' & H & Hk & Hrest).
    + exists c'. naive_solver.
    + exists c'. split_and!; try done. intros ->. rewrite Nat.sub_diag in H. simpl in H.
      simplify_eq. lia.
Qed.

Lemma GuaranteedCPUs_pos c :
  0 < GuaranteedCPUs c <->
  Cmp (rl_get (c_Requests c) ResourceCPU) (rl_get (c_Limits c) ResourceCPU) = 0 /\
  wrap64 (Value (rl_get (c_Requests c) ResourceCPU) * 1000)
    = MilliValue (rl_get (c_Requests c) ResourceCPU) /\
  0 < Value (rl_get (c_Requests c) ResourceCPU).
Proof.
  unfold GuaranteedCPUs. destruct (_ || _) eqn:E.
  - split; [lia|]. intros (H1 & H2 & _). apply orb_true_iff in E as [E|E];
      apply negb_true_iff in E; breflect; done.
  - breflect. naive_solver.
Qed.

(** *** Accounting *)

(** The zones of a list that carry a name and resources: their capacities, in order. *)
Definition capacities (n : string) (zs : list Zone) : list ResourceList :=
  omap (fun z => if String.eqb n (z_Name z)
                 then option_map ri_Capacity (z_Resources z) else None) zs.

Lemma addResource_name nn info : name (addResource nn info) = name nn.
Proof. by destruct info. Qed.

Lemma capacities_app n a b : capacities n (a ++ b) = (capacities n a ++ capacities n b)%list.
Proof. unfold capacities. by rewrite omap_app. Qed.

Definition credit (zs : list Zone) (nn : numaNode) : numaNode :=
  {| name := name nn; allocatable := allocatable nn;
     requested := foldl Resource_Add (requested nn) (capacities (name nn) zs) |}.

Lemma credit_app a b nn : credit b (credit a nn) = credit (a ++ b) nn.
Proof. unfold credit. cbn. by rewrite capacities_app, foldl_app. Qed.

Lemma credit_nil nn : credit [] nn = nn.
Proof. by destruct nn. Qed.

Lemma addNUMAResources_credit nw zs :
  addNUMAResources nw zs = with_nodes nw (List.map (credit zs) (nw_numaNodes nw)).
Proof.
  unfold addNUMAResources. f_equal. generalize (nw_numaNodes nw) as l.
  induction zs as [|z zs IH]; intros l; simpl.
  - rewrite <- (map_id l) at 1. apply map_ext. intros nn. by rewrite credit_nil.
  - rewrite IH, map_map. apply map_ext. intros nn.
    unfold credit, capacities. cbn [omap list_omap].
    destruct (String.eqb (name nn) (z_Name z)) eqn:E; cbn; [|done].
    destruct (z_Resources z); cbn; by rewrite ?E.
Qed.

(** The zones a pod occupies on the node, as the plugin finds them. *)
Definition pod_zones (assumed : Pod -> result (list Zone)) (pod : Pod) : list Zone :=
  match GetPodNUMANodeResult pod with
  | [] => match assumed pod with Ok zs => zs | Err _ => [] end
  | zs => zs
  end.

Lemma addPod_credit assumed nw pod :
  addPod assumed nw pod
  = with_nodes nw (List.map (credit (pod_zones assumed pod)) (nw_numaNodes nw)).
Proof.
  unfold addPod, pod_zones. destruct (GetPodNUMANodeResult pod) as [|z zs]; cbn [length Nat.eqb].
  - destruct (assumed pod) as [zs|e]; [apply addNUMAResources_credit|].
    rewrite (map_ext (credit []) id) by apply credit_nil. rewrite map_id. by destruct nw.
  - apply addNUMAResources_credit.
Qed.

Lemma addPods_credit assumed nw pods :
  foldl (addPod assumed) nw pods
  = with_nodes nw (List.map (credit (concat (List.map (pod_zones assumed) pods)))
      (nw_numaNodes nw)).
Proof.
  revert nw. induction pods as [|pod pods IH]; intros nw; simpl.
  - rewrite (map_ext (credit []) id) by apply credit_nil. rewrite map_id. by destruct nw.
  - rewrite IH, addPod_credit. unfold with_nodes. cbn. f_equal. rewrite map_map.
    apply map_ext. intros nn. apply credit_app.
Qed.

(** *** Requests *)

Lemma compute_loop_returns pod indices names acc :
  Forall (fun i => (i < length (pod_Containers pod))%nat) indices ->
  exists r, compute_loop pod indices names acc = Ret r.
Proof.
  intros H. revert acc. induction H as [|i l Hi _ IH]; intros acc; simpl; [eauto|].
  destruct (lookup_lt_is_Some_2 _ _ Hi) as [c ->]. apply IH.
Qed.

Lemma target_indices_lt pod :
  Forall (fun i => (i < length (pod_Containers pod))%nat) (GetPodTargetContainerIndices pod).
Proof.
  unfold GetPodTargetContainerIndices. destruct (String.eqb _ _); [done|].
  apply Forall_forall. intros i (c & Hc & _)%target_indices_spec.
  rewrite Nat.sub_0_r in Hc. by apply lookup_lt_Some in Hc.
Qed.

(** *** Spreading *)

Lemma sort_freer_sorted nodes :
  StronglySorted (fun a b => freer b a = false) (sort_Slice freer nodes).
Proof.
  apply (sort_Slice_sorted _ freer); unfold freer; intros; breflect; apply Z.ltb_ge; lia.
Qed.

Lemma assign_aware (nw : nodeWrapper) (request : Resource) :
  nw_aware nw = true -> nw_numaNodes nw <> [] ->
  exists nw' n0, assignTopologyResult nw request = Ret nw' /\ n0 ∈ nw_numaNodes nw /\
    Forall (fun nn => freer nn n0 = false) (nw_numaNodes nw) /\ nw_node nw' = nw_node nw /\
    nw_result nw' = [numa_zone (name n0) (ResourceListIgnoreZeroResources (Some request))].
Proof.
  intros Ha Hne. unfold assignTopologyResult. cbv zeta. cbn [nw_aware with_nodes nw_numaNodes].
  rewrite Ha. pose proof (sort_Slice_perm _ freer (nw_numaNodes nw)) as Hp.
  pose proof (sort_freer_sorted (nw_numaNodes nw)) as Hs.
  destruct (sort_Slice freer (nw_numaNodes nw)) as [|n0 l].
  { symmetry in Hp. by apply Permutation_nil_r in Hp. }
  eexists _, n0. split; [done|]. split_and!; [rewrite <- Hp; by left| |done|done].
  rewrite <- Hp. apply StronglySorted_inv in Hs as [_ Hs]. constructor; [|done].
  unfold freer. apply Z.ltb_irrefl.
Qed.

Lemma assign_loop_returns r nodes :
  scalar_len (ScalarResources r) = 0%nat -> exists x, assign_loop r nodes = Ret x.
Proof.
  revert r. induction nodes as [|nn nodes IH]; intros r Hs; cbn [assign_loop]; [eauto|].
  destruct (assign_returns r (floor_cpu nn) Hs) as (r' & res & fin & -> & Hs'). cbn [go_bind].
  destruct fin; [eauto|]. destruct (IH r') as [[ns zs] ->]; [by rewrite Hs'|]. cbn [go_bind]. eauto.
Qed.

Lemma assign_unaware (nw : nodeWrapper) (request : Resource) :
  nw_aware nw = false -> scalar_len (ScalarResources request) = 0%nat ->
  exists nw', assignTopologyResult nw request = Ret nw' /\ nw_node nw' = nw_node nw /\
    (nw_numaNodes nw = [] -> nw_result nw' = sort_Slice zone_less (nw_result nw)).
Proof.
  intros Ha Hs. unfold assignTopologyResult. cbv zeta.
  cbn [nw_aware with_nodes nw_numaNodes nw_result]. rewrite Ha.
  destruct (assign_loop_returns request (sort_Slice freer (nw_numaNodes nw)) Hs) as [[ns zs] Hl].
  rewrite Hl. cbn [go_bind]. eexists. split; [done|]. split; [done|]. intros He.
  pose proof (sort_Slice_perm _ freer (nw_numaNodes nw)) as Hp. rewrite He in *.
  apply Permutation_nil_r in Hp. rewrite Hp in Hl. simplify_eq/=. by rewrite app_nil_r.
Qed.

End HelperLemmas2.

(** ** Properties *)

Section HelperProperties.
Context `{QL : QuantityLib} `{RL : !ResourceLib} `{TN : TopologyNames} `{TC : !TopologyCodec}.
Context `{SS : SortSlice}.

(** C12: spreading a request over the zones of a node that is not topology aware assigns exactly
    as much CPU as it can: the zones of the result hold together the requested CPU, or all whole
    free CPUs of the node when that is less; no zone is given more than its own free CPUs, and
    the zones are sorted by name. It holds for a request without scalar resources on zones that
    are not overcommitted, and no step of it overflows or panics. *)
Theorem assign_spreads_cpu `{!QuantityLaws} (nw : nodeWrapper) (request : Resource) :
  nw_aware nw = false -> nw_result nw = [] ->
  scalar_len (ScalarResources request) = 0%nat -> 0 <= MilliCPU request <= int64_max ->
  Forall (fun nn => cpu_sane nn /\ 0 <= cpu_free nn) (nw_numaNodes nw) ->
  exists nw', assignTopologyResult nw request = Ret nw' /\
    zsum zone_cpu (nw_result nw') = Z.min (MilliCPU request) (zsum cpu_free (nw_numaNodes nw)) /\
    Forall (fun z => exists nn, nn ∈ nw_numaNodes nw /\ z_Name z = name nn /\
              0 <= zone_cpu z <= cpu_free nn) (nw_result nw') /\
    StronglySorted (fun z z' => String.ltb (z_Name z') (z_Name z) = false) (nw_result nw').
Proof.
  intros Ha Hr Hs Hc Hn. unfold assignTopologyResult. cbv zeta. cbn [nw_aware with_nodes].
  rewrite Ha. cbn [nw_numaNodes with_nodes nw_result].
  pose proof (sort_Slice_perm _ freer (nw_numaNodes nw)) as Hp.
  destruct (assign_loop_cpu request (sort_Slice freer (nw_numaNodes nw)) Hs Hc)
    as (nodes' & zones & -> & Hsum & Hall); [by rewrite Hp|].
  cbn [go_bind]. eexists. split; [done|]. cbn [nw_result with_result with_nodes].
  rewrite Hr. cbn [app]. pose proof (sort_Slice_perm _ zone_less zones) as Hpz. split_and!.
  - by rewrite Hpz, Hsum, Hp.
  - rewrite Hpz. eapply Forall_impl; [exact Hall|]. intros z (_ & nn & ? & ? & ?). exists nn.
    rewrite Hp in *. done.
  - apply (sort_Slice_sorted _ zone_less).
    + intros z z'. apply string_ltb_asym.
    + intros x y z. apply string_le_trans.
Qed.

(** A zone fits a request exactly when nothing is requested or what is free of every
    resource, scalar resources included, covers it. *)
Theorem fits_decides (request : Resource) (nn : numaNode) :
  fitsRequestForNUMANode request nn = [] <-> no_request request = true \/ covers nn request.
Proof. apply fits_nil. Qed.

(** On a node that is not topology aware, a request that names any scalar resource panics at
    the first zone: the scalar map of the zone's share is nil and is written to. *)
Theorem assign_scalar_panics (nw : nodeWrapper) (request : Resource) :
  nw_aware nw = false -> nw_numaNodes nw <> [] ->
  scalar_len (ScalarResources request) <> 0%nat ->
  assignTopologyResult nw request = Panic "assignment to entry in nil map".
Proof.
  intros Ha Hne Hs. unfold assignTopologyResult. cbv zeta. cbn [nw_aware with_nodes nw_numaNodes].
  rewrite Ha. pose proof (sort_Slice_perm _ freer (nw_numaNodes nw)) as Hp.
  destruct (sort_Slice freer (nw_numaNodes nw)) as [|n0 l].
  { symmetry in Hp. by apply Permutation_nil_r in Hp. }
  cbn [assign_loop]. by rewrite assign_panics.
Qed.

(** The memory a result zone records is the number of its CPU thousandths, not of bytes. *)
Theorem zone_memory_is_cpu (r : Resource) :
  ScalarResources r = None -> 0 < Memory r ->
  ResourceListIgnoreZeroResources (Some r) !! ResourceMemory
  = Some (NewQuantity (MilliCPU r) BinarySI).
Proof.
  intros Hs Hm%Z.ltb_lt. cbn [ResourceListIgnoreZeroResources]. cbv zeta. rewrite Hs, Hm. simpl.
  rewrite map_imap_empty, map_empty_union.
  repeat case_match; rewrite ?lookup_insert_ne by done; by rewrite lookup_insert_eq.
Qed.

(** The target containers of a pod are those, and only those, whose CPU request equals its
    limit and is a positive whole number of CPUs; there are none under the policy "none". Their
    request is always computed without an index out of range. *)
Theorem target_containers (pod : Pod) (k : nat) (names : gset string) :
  (k ∈ GetPodTargetContainerIndices pod <->
   GetPodCPUPolicy (annos (om_Annotations (pod_meta pod))) <> AnnotationPodCPUPolicyNone /\
   exists c, pod_Containers pod !! k = Some c /\
     Cmp (rl_get (c_Requests c) ResourceCPU) (rl_get (c_Limits c) ResourceCPU) = 0 /\
     wrap64 (Value (rl_get (c_Requests c) ResourceCPU) * 1000)
       = MilliValue (rl_get (c_Requests c) ResourceCPU) /\
     0 < Value (rl_get (c_Requests c) ResourceCPU)) /\
  exists r, computeContainerSpecifiedResourceRequest pod (GetPodTargetContainerIndices pod) names
            = Ret r.
Proof.
  split; [|apply compute_loop_returns, target_indices_lt].
  unfold GetPodTargetContainerIndices. destruct (String.eqb_spec
    (GetPodCPUPolicy (annos (om_Annotations (pod_meta pod)))) AnnotationPodCPUPolicyNone) as [Hp|Hp].
  - split; [by intros ?%not_elem_of_nil|naive_solver].
  - rewrite target_indices_spec, Nat.sub_0_r. split.
    + intros (c & Hc & _ & Hg%GuaranteedCPUs_pos). eauto.
    + intros (_ & c & Hc & Hg%GuaranteedCPUs_pos). exists c. split_and!; [done|lia|done].
Qed.

End HelperProperties.

(** ** Witnesses *)

Section Witnesses.
#[local] Existing Instance MilliQuantities.
#[local] Existing Instance MilliResources.
#[local] Existing Instance ExampleTopologyNames.
#[local] Existing Instance InsertionSort.

Definition tx_codec : TopologyCodec := {|
  MarshalZones := fun _ => Ok "zones";
  UnmarshalZones := fun _ => Ok [];
  MarshalPod := fun _ => Ok "pod";
  CreateMergePatch := fun _ _ => Ok "patch" |}.
#[local] Existing Instance tx_codec.

Definition tx_cpu (c m : Z) : Resource :=
  {| MilliCPU := c; Memory := m; EphemeralStorage := 0; AllowedPodNumber := 0;
     ScalarResources := None |}.

Definition tx_node (n : string) (alloc used : Z) : numaNode :=
  {| name := n; allocatable := tx_cpu alloc 0; requested := tx_cpu used 0 |}.

Definition tx_wrapper : nodeWrapper :=
  {| nw_aware := false; nw_node := "n"; nw_numaNodes := [tx_node "a" 4500 1000; tx_node "b" 8000 0];
     nw_topologyAwareResources := {["cpu"]}; nw_result := [] |}.

Example tx_spread :
  match assignTopologyResult tx_wrapper (tx_cpu 10000 0) with
  | Ret nw => List.map (fun z => (z_Name z, zone_cpu z)) (nw_result nw)
  | Panic _ => []
  end = [("a", 2000); ("b", 8000)].
Proof. vm_compute. reflexivity. Qed.

Lemma assign_spreads_cpu_witness :
  exists nw', assignTopologyResult tx_wrapper (tx_cpu 10000 0) = Ret nw' /\
    zsum zone_cpu (nw_result nw')
      = Z.min (MilliCPU (tx_cpu 10000 0)) (zsum cpu_free (nw_numaNodes tx_wrapper)) /\
    Forall (fun z => exists nn, nn ∈ nw_numaNodes tx_wrapper /\ z_Name z = name nn /\
              0 <= zone_cpu z <= cpu_free nn) (nw_result nw') /\
    StronglySorted (fun z z' => String.ltb (z_Name z') (z_Name z) = false) (nw_result nw').
Proof.
  pose proof MilliQuantities_laws as Hlaws.
  apply (assign_spreads_cpu tx_wrapper (tx_cpu 10000 0)).
  - reflexivity.
  - reflexivity.
  - reflexivity.
  - vm_compute. split; discriminate.
  - repeat constructor; vm_compute; discriminate.
Defined.

Definition tx_gpu : Resource :=
  {| MilliCPU := 1000; Memory := 0; EphemeralStorage := 0; AllowedPodNumber := 0;
     ScalarResources := Some {["example.com/gpu" := 1]} |}.

Lemma assign_scalar_panics_witness :
  assignTopologyResult tx_wrapper tx_gpu = Panic "assignment to entry in nil map".
Proof.
  apply (assign_scalar_panics tx_wrapper tx_gpu);
    [reflexivity|discriminate|vm_compute; discriminate].
Defined.

Lemma zone_memory_is_cpu_witness :
  ResourceListIgnoreZeroResources (Some (tx_cpu 2000 1073741824)) !! ResourceMemory
  = Some (NewQuantity (MilliCPU (tx_cpu 2000 1073741824)) BinarySI).
Proof. exact (zone_memory_is_cpu (tx_cpu 2000 1073741824) eq_refl eq_refl). Defined.

End Witnesses.
