(* ===== verification/TopologyPlugin.v ===== *)
(** * pkg/plugins/noderesourcetopology: plugin.go, filter.go, scorer.go, reserver.go, binder.go

    The scheduling cycle of the NUMA plugin: [PreFilter] writes the cycle's [stateData], [Filter]
    adds the wrapper it computes for a node, [Score] reads it, [Reserve] assumes the result in the
    cache, [Unreserve] forgets it, [PreBind] writes it to the pod's annotation. The cycle state
    holds one slot for the plugin; stateData is shared by pointer, so handlers return the new
    slot. *)

From S2P Require Import Prelude GoStrings GoTime K8s Utils TopologyCache Topology Config.

Open Scope string_scope.
Open Scope Z_scope.

Definition Name : string := "NodeResourceTopologyMatch".
Definition ErrReasonNUMAResourceNotEnough : string :=
  "node(s) had insufficient resource of NUMA node".
Definition ErrReasonFailedToGetNRT : string := "node(s) failed to get NRT".

Section Plugin.
Context `{QL : QuantityLib} `{RL : !ResourceLib} `{TN : TopologyNames} `{TC : !TopologyCodec}.
Context `{SS : SortSlice} `{PK : !PodKeys} `{SL : ScoreLib}.

Abbreviation ZoneList := (list Zone).

(** ** plugin.go *)

(** The plugin's own fields; [lister] reads the NodeResourceTopology of a node. *)
Record TopologyMatch := {
  tm_cache : podTopologyCacheImpl;
  lister : string -> result NodeResourceTopology;
  topologyAwareResources : gset string }.

Record stateData := {
  sd_aware : option bool;
  targetContainerIndices : list nat;
  targetContainerResource : Resource;
  podTopologyByNode : gmap string nodeWrapper;
  topologyResult : ZoneList }.

(** The slot of the cycle state at the plugin's key: absent ([state.Read] fails with an error),
    of another type, or the plugin's data. *)
Inductive cycle_slot :=
| SlotMissing (err : error)
| SlotOther
| SlotData (s : stateData).

Definition Clone (s : stateData) : stateData := s.

Definition getStateData (state : cycle_slot) : result stateData :=
  match state with
  | SlotMissing err => Err (Wrapf "failed to read %q from cycleState: %w" [Name] err)
  | SlotOther => Err (Errorf "%+v convert to NodeResourcesTopology.stateData error" [])
  | SlotData s => Ok s
  end.

(** [New], once the clients are up; [args] is [None] when it has another type. *)
Definition New (args : option NodeResourceTopologyMatchArgs)
    (initTopologyInformer : result (string -> result NodeResourceTopology))
    : result TopologyMatch :=
  match args with
  | None => Err (Errorf "want args to be of type NodeResourceTopologyMatchArgs, got %T" [])
  | Some cfg =>
      match initTopologyInformer with
      | Err e => Err e
      | Ok l =>
          Ok {| tm_cache := NewPodTopologyCache (30 * Minute); lister := l;
                topologyAwareResources := list_to_set (na_TopologyAwareResources cfg) |}
      end
  end.

(** ** filter.go *)

Definition PreFilter (tm : TopologyMatch) (pod : Pod) : go (Status * cycle_slot) :=
  let indices :=
    if decide (ResourceCPU ∈ topologyAwareResources tm)
    then GetPodTargetContainerIndices pod else [] in
  let! resources :=
    computeContainerSpecifiedResourceRequest pod indices (topologyAwareResources tm) in
  Ret (None, SlotData
    {| sd_aware := IsPodAwareOfTopology (annos (om_Annotations (pod_meta pod)));
       targetContainerIndices := indices; targetContainerResource := resources;
       podTopologyByNode := ∅; topologyResult := [] |}).

Definition isNodeAwareOfTopology (nrt : NodeResourceTopology) : bool :=
  String.eqb (nrt_TopologyManagerPolicy nrt) TopologyManagerPolicySingleNUMANodePodLevel.

Definition with_aware (nw : nodeWrapper) (b : bool) : nodeWrapper :=
  {| nw_aware := b; nw_node := nw_node nw; nw_numaNodes := nw_numaNodes nw;
     nw_topologyAwareResources := nw_topologyAwareResources nw; nw_result := nw_result nw |}.

Definition initializeNodeWrapper (tm : TopologyMatch) (state : stateData) (node : Node)
    (pods : list Pod) (nrt : NodeResourceTopology) : nodeWrapper :=
  let nw := newNodeWrapper (node_Name node) (topologyAwareResources tm) (nrt_Zones nrt) in
  let nw := foldl (addPod (GetPodTopology (tm_cache tm))) nw pods in
  match sd_aware state with
  | Some aware => with_aware nw aware
  | None => with_aware nw (isNodeAwareOfTopology nrt)
  end.

Definition filterNUMANodeResource (state : stateData) (nw : nodeWrapper) : Status * nodeWrapper :=
  let res := List.filter (fun nn =>
    (length (fitsRequestForNUMANode (targetContainerResource state) nn) =? 0)%nat)
    (nw_numaNodes nw) in
  if (length res =? 0)%nat
  then (NewStatus Unschedulable (Errorf ErrReasonNUMAResourceNotEnough []), nw)
  else (None, with_nodes nw res).

Definition with_wrapper (s : stateData) (nw : nodeWrapper) : stateData :=
  {| sd_aware := sd_aware s; targetContainerIndices := targetContainerIndices s;
     targetContainerResource := targetContainerResource s;
     podTopologyByNode := <[nw_node nw := nw]> (podTopologyByNode s);
     topologyResult := topologyResult s |}.

Definition Filter (tm : TopologyMatch) (state : cycle_slot) (pod : Pod) (nodeInfo : NodeInfo)
    : go (Status * cycle_slot) :=
  match getStateData state with
  | Err err => Ret (AsStatus err, state)
  | Ok s =>
      match ni_Node nodeInfo with
      | None => Ret (NewStatus Error (Errorf "node(s) not found" []), state)
      | Some node =>
          if IsDaemonsetPod pod || (length (targetContainerIndices s) =? 0)%nat
          then Ret (None, state)
          else
            match lister tm (node_Name node) with
            | Err _ => Ret (NewStatus Unschedulable (Errorf ErrReasonFailedToGetNRT []), state)
            | Ok nrt =>
                if negb (String.eqb (nrt_CPUManagerPolicy nrt) CPUManagerPolicyStatic)
                then Ret (None, state)
                else
                  let nw := initializeNodeWrapper tm s node (ni_Pods nodeInfo) nrt in
                  let '(status, nw) :=
                    if nw_aware nw then filterNUMANodeResource s nw else (None, nw) in
                  match status with
                  | Some st => Ret (Some st, state)
                  | None =>
                      let! nw := assignTopologyResult nw (targetContainerResource s) in
                      Ret (None, SlotData (with_wrapper s nw))
                  end
            end
      end
  end.

(** ** scorer.go *)

Definition Score (state : cycle_slot) (nodeName : string) : go (Z * Status) :=
  match getStateData state with
  | Err err => Ret (0, AsStatus err)
  | Ok s =>
      match podTopologyByNode s !! nodeName with
      | None => Ret (0, None)
      | Some nw =>
          let! q := int_div MaxNodeScore (Z.of_nat (length (nw_result nw))) in Ret (q, None)
      end
  end.

(** ** reserver.go *)

Definition with_cache (tm : TopologyMatch) (c : podTopologyCacheImpl) : TopologyMatch :=
  {| tm_cache := c; lister := lister tm; topologyAwareResources := topologyAwareResources tm |}.

Definition set_topologyResult (s : stateData) (r : ZoneList) : stateData :=
  {| sd_aware := sd_aware s; targetContainerIndices := targetContainerIndices s;
     targetContainerResource := targetContainerResource s;
     podTopologyByNode := podTopologyByNode s; topologyResult := r |}.

Definition Reserve (tm : TopologyMatch) (now : Z) (state : cycle_slot) (pod : Pod)
    (nodeName : string) : Status * TopologyMatch * cycle_slot :=
  match getStateData state with
  | Err err => (AsStatus err, tm, state)
  | Ok s =>
      match podTopologyByNode s !! nodeName with
      | None => (None, tm, state)
      | Some nw =>
          if (length (nw_result nw) =? 0)%nat
          then (NewStatus Error (Errorf "node(s) topology result is empty" []), tm, state)
          else
            let s := set_topologyResult s (nw_result nw) in
            let '(c, err) := AssumePod (tm_cache tm) now pod (topologyResult s) in
            match err with
            | Some e => (AsStatus e, with_cache tm c, SlotData s)
            | None => (None, with_cache tm c, SlotData s)
            end
      end
  end.

Definition Unreserve (tm : TopologyMatch) (state : cycle_slot) (pod : Pod) (nodeName : string)
    : TopologyMatch :=
  match getStateData state with
  | Err _ => tm
  | Ok s =>
      match podTopologyByNode s !! nodeName with
      | None => tm
      | Some _ => with_cache tm (fst (ForgetPod (tm_cache tm) pod))
      end
  end.

(** ** binder.go *)

Definition with_annotation (pod : Pod) (k v : string) : Pod :=
  let m := pod_meta pod in
  {| pod_meta :=
       {| om_Name := om_Name m; om_Namespace := om_Namespace m;
          om_Annotations := Some (<[k := v]> (annos (om_Annotations m)));
          om_OwnerReferences := om_OwnerReferences m;
          om_DeletionTimestamp := om_DeletionTimestamp m;
          om_ResourceVersion := om_ResourceVersion m |};
     pod_NodeName := pod_NodeName pod; pod_Containers := pod_Containers pod |}.

Definition PreBind (kc : client) (state : cycle_slot) (pod : Pod) : io Status :=
  match getStateData state with
  | Err err => io_ret (AsStatus err)
  | Ok s =>
      if (length (topologyResult s) =? 0)%nat then io_ret None
      else
        match MarshalZones (topologyResult s) with
        | Err err => io_ret (AsStatus err)
        | Ok result =>
            let newObj := with_annotation pod AnnotationPodTopologyResultKey result in
            match MarshalPod pod with
            | Err err => io_ret (AsStatus err)
            | Ok oldData =>
                match MarshalPod newObj with
                | Err err => io_ret (AsStatus err)
                | Ok newData =>
                    match CreateMergePatch oldData newData with
                    | Err err =>
                        io_ret (AsStatus (Wrapf "failed to create merge patch: %v" [] err))
                    | Ok patchBytes =>
                        let* err := send kc
                          {| rq_resource := "pods";
                             rq_namespace := om_Namespace (pod_meta pod);
                             rq_name := om_Name (pod_meta pod);
                             rq_type := MergePatch; rq_data := patchBytes |} in
                        match err with
                        | Some e => io_ret (AsStatus e)
                        | None => io_ret None
                        end
                    end
                end
            end
        end
  end.

End Plugin.

(** ** Lemmas *)

Section PluginLemmas.
Context `{QL : QuantityLib} `{RL : !ResourceLib} `{TN : TopologyNames} `{TC : !TopologyCodec}.
Context `{SS : SortSlice} `{PK : !PodKeys} `{SL : ScoreLib}.

(** The pod's wish wins over the node's. *)
Definition awareness (s : stateData) (nrt : NodeResourceTopology) : bool :=
  match sd_aware s with Some b => b | None => isNodeAwareOfTopology nrt end.

(** All zones that the node's pods hold, in the order of the pods. *)
Definition held_zones (tm : TopologyMatch) (pods : list Pod) : list Zone :=
  concat (List.map (pod_zones (GetPodTopology (tm_cache tm))) pods).

Lemma initializeNodeWrapper_spec tm s node pods nrt :
  initializeNodeWrapper tm s node pods nrt =
  {| nw_aware := awareness s nrt; nw_node := node_Name node;
     nw_numaNodes := List.map (fun z => credit (held_zones tm pods) (newNumaNode z)) (nrt_Zones nrt);
     nw_topologyAwareResources := topologyAwareResources tm; nw_result := [] |}.
Proof.
  unfold initializeNodeWrapper, awareness, held_zones. cbv zeta. rewrite addPods_credit.
  unfold newNodeWrapper, with_nodes, with_aware. cbn. rewrite map_map.
  by destruct (sd_aware s).
Qed.

(** The state in which [Filter] looks at zones at all. *)
Definition filtering (tm : TopologyMatch) (s : stateData) (pod : Pod) (ni : NodeInfo) (node : Node)
    (nrt : NodeResourceTopology) : Prop :=
  ni_Node ni = Some node /\ IsDaemonsetPod pod = false /\ targetContainerIndices s <> [] /\
  lister tm (node_Name node) = Ok nrt /\ nrt_CPUManagerPolicy nrt = CPUManagerPolicyStatic.

Lemma Filter_zones tm s pod ni node nrt :
  filtering tm s pod ni node nrt ->
  let nw := initializeNodeWrapper tm s node (ni_Pods ni) nrt in
  Filter tm (SlotData s) pod ni =
  let '(status, nw) := if nw_aware nw then filterNUMANodeResource s nw else (None, nw) in
  match status with
  | Some st => Ret (Some st, SlotData s)
  | None =>
      let! nw := assignTopologyResult nw (targetContainerResource s) in
      Ret (None, SlotData (with_wrapper s nw))
  end.
Proof.
  intros (Hn & Hd & Hi & Hl & Hp). cbv zeta. unfold Filter. cbn [getStateData]. rewrite Hn, Hd.
  destruct (targetContainerIndices s); [done|]. cbn [length Nat.eqb orb].
  rewrite Hl, Hp, String.eqb_refl. done.
Qed.

Lemma fitting_nodes s nodes nn :
  nn ∈ List.filter (fun nn =>
    (length (fitsRequestForNUMANode (targetContainerResource s) nn) =? 0)%nat) nodes <->
  nn ∈ nodes /\ fitsRequestForNUMANode (targetContainerResource s) nn = [].
Proof.
  rewrite !list_elem_of_In, filter_In, Nat.eqb_eq. by rewrite length_zero_iff_nil.
Qed.

End PluginLemmas.

(** ** Properties *)

Section PluginProperties.
Context `{QL : QuantityLib} `{RL : !ResourceLib} `{TN : TopologyNames} `{TC : !TopologyCodec}.
Context `{SS : SortSlice} `{PK : !PodKeys} `{SL : ScoreLib}.

(** C13: [Filter] on a topology-aware node either finds no zone that fits, and then reports the
    pod unschedulable and leaves the cycle state alone, or it records for the node a single zone
    that takes the whole request: one that fits and has the most free CPU of those that fit. A
    zone fits when what is free of it (allocatable less what the pods on the node hold of it, a
    64-bit subtraction) is at least the request in CPU, in memory, in ephemeral storage and in
    each scalar resource that is requested; or when nothing is requested. *)
Theorem Filter_aware (tm : TopologyMatch) (s : stateData) (pod : Pod) (ni : NodeInfo)
    (node : Node) (nrt : NodeResourceTopology) :
  filtering tm s pod ni node nrt -> awareness s nrt = true ->
  let nodes := List.map (fun z => credit (held_zones tm (ni_Pods ni)) (newNumaNode z))
                 (nrt_Zones nrt) in
  let request := targetContainerResource s in
  ((forall nn, nn ∈ nodes -> ~ zone_fits nn request) /\
   Filter tm (SlotData s) pod ni
   = Ret (NewStatus Unschedulable (Errorf ErrReasonNUMAResourceNotEnough []), SlotData s)) \/
  (exists nw n0, Filter tm (SlotData s) pod ni = Ret (None, SlotData (with_wrapper s nw)) /\
     nw_node nw = node_Name node /\ n0 ∈ nodes /\ zone_fits n0 request /\
     (forall nn, nn ∈ nodes -> zone_fits nn request -> free_cpu nn <= free_cpu n0) /\
     nw_result nw = [numa_zone (name n0) (ResourceListIgnoreZeroResources (Some request))]).
Proof.
  intros Hf Ha. cbv zeta. rewrite (Filter_zones tm s pod ni node nrt Hf).
  rewrite initializeNodeWrapper_spec, Ha. cbv zeta. cbn [nw_aware].
  unfold filterNUMANodeResource. cbn [nw_numaNodes].
  set (nodes := List.map _ (nrt_Zones nrt)). pose proof (fitting_nodes s nodes) as Hfit.
  set (res := List.filter _ nodes) in *.
  destruct res as [|r0 res'] eqn:Hres.
  - left. cbn [length Nat.eqb]. split; [|done]. intros nn Hnn Hfn%zone_fits_spec.
    assert (nn ∈ []) as Hin by (by apply Hfit). by apply not_elem_of_nil in Hin.
  - right. cbn [length Nat.eqb].
    match goal with |- context [with_nodes ?w _] => set (nw := with_nodes w (r0 :: res')) end.
    destruct (assign_aware nw (targetContainerResource s)) as (nw' & n0 & Hasn & Hin & Hfr & Hnd & Hr);
      [done|done|].
    exists nw', n0. rewrite Hasn. cbn [go_bind]. apply Hfit in Hin as [Hin Hfn0].
    split_and!; try done; [by apply zone_fits_spec|]. intros nn Hnn Hfn%zone_fits_spec.
    rewrite Forall_forall in Hfr. apply Z.ltb_ge, (Hfr nn). by apply Hfit.
Qed.

(** The account of a node: [Filter] charges each of its zones, in the order of the pods and of
    their zones, with the capacities that the pods on the node hold in a zone of that name; a
    pod's zones are those of its annotation or, when it has none, of the assumption cache. *)
Theorem initialize_accounts (tm : TopologyMatch) (s : stateData) (node : Node) (pods : list Pod)
    (nrt : NodeResourceTopology) (i : nat) (z : Zone) :
  nrt_Zones nrt !! i = Some z ->
  nw_numaNodes (initializeNodeWrapper tm s node pods nrt) !! i =
  Some {| name := z_Name z;
          allocatable := NewResource
            (match z_Resources z with Some ri => ri_Allocatable ri | None => ∅ end);
          requested := foldl Resource_Add resource0
            (capacities (z_Name z)
               (concat (List.map (fun p =>
                  match GetPodNUMANodeResult p with
                  | [] => match GetPodTopology (tm_cache tm) p with Ok zs => zs | Err _ => [] end
                  | zs => zs
                  end) pods))) |}.
Proof.
  intros Hz. rewrite initializeNodeWrapper_spec. cbn [nw_numaNodes].
  rewrite list_lookup_fmap, Hz. done.
Qed.

(** C40: a node without topology awareness is never rejected by [Filter], even without zones; when
    no zone is recorded for it the next step, [Score], divides by zero and panics. With zones it
    scores the maximum divided by their number. *)
Theorem Score_after_Filter (tm : TopologyMatch) (s : stateData) (pod : Pod) (ni : NodeInfo)
    (node : Node) (nrt : NodeResourceTopology) :
  filtering tm s pod ni node nrt -> awareness s nrt = false ->
  scalar_len (ScalarResources (targetContainerResource s)) = 0%nat -> 0 <= MaxNodeScore ->
  exists nw, Filter tm (SlotData s) pod ni = Ret (None, SlotData (with_wrapper s nw)) /\
    Score (SlotData (with_wrapper s nw)) (node_Name node) =
      (if (length (nw_result nw) =? 0)%nat then Panic "runtime error: integer divide by zero"
       else Ret (MaxNodeScore / Z.of_nat (length (nw_result nw)), None)) /\
    (nrt_Zones nrt = [] -> nw_result nw = []).
Proof.
  intros Hf Ha Hs Hmax. rewrite (Filter_zones tm s pod ni node nrt Hf).
  rewrite initializeNodeWrapper_spec, Ha. cbv zeta. cbn [nw_aware].
  match goal with |- context [assignTopologyResult ?w _] => set (nw := w) end.
  destruct (assign_unaware nw (targetContainerResource s) eq_refl Hs) as (nw' & Hr & Hnd & He).
  exists nw'. rewrite Hr. cbn [go_bind]. split; [done|]. split.
  - unfold Score. cbn [getStateData podTopologyByNode with_wrapper]. rewrite Hnd.
    change (nw_node nw) with (node_Name node). rewrite lookup_insert_eq.
    destruct (Nat.eqb_spec (length (nw_result nw')) 0) as [Hl|Hl]; [by rewrite Hl|].
    pose proof score_bounds. by rewrite int_div_pos by lia.
  - intros Hz. rewrite He; [apply Permutation_nil_r, sort_Slice_perm|]. unfold nw. cbn. by rewrite Hz.
Qed.

(** C38: [Reserve] of a filtered node assumes the node's zones for the pod, so that a later
    [Filter] charges them, and stores them for [PreBind]; [Unreserve] takes the cache back to
    what it was. *)
Theorem Reserve_Unreserve (tm : TopologyMatch) (now : Z) (s : stateData) (pod : Pod)
    (nodeName key : string) (nw : nodeWrapper) :
  podTopologyByNode s !! nodeName = Some nw -> nw_result nw <> [] ->
  cache_inv (tm_cache tm) -> GetPodKey pod = Ok key -> podTopology (tm_cache tm) !! key = None ->
  exists tm' s', Reserve tm now (SlotData s) pod nodeName = (None, tm', SlotData s') /\
    topologyResult s' = nw_result nw /\
    GetPodTopology (tm_cache tm') pod = Ok (nw_result nw) /\
    Unreserve tm' (SlotData s') pod nodeName = tm.
Proof.
  intros Hn Hr Hi Hk Hc. unfold Reserve. cbn [getStateData]. rewrite Hn.
  destruct (nw_result nw) as [|z zs] eqn:Hres; [done|]. cbn [length Nat.eqb]. rewrite <- Hres.
  unfold AssumePod. rewrite Hk, Hc. cbv zeta. eexists _, _. split; [done|]. split; [done|]. split.
  - unfold GetPodTopology. rewrite Hk. cbn. by rewrite lookup_insert_eq.
  - unfold Unreserve. cbn [getStateData set_topologyResult podTopologyByNode]. rewrite Hn.
    unfold ForgetPod. rewrite Hk. cbn. unfold removePod, with_maps, with_cache. cbn.
    rewrite !delete_insert_id by (first [done | by apply (cache_inv_lookup _ key Hi)]).
    destruct tm as [[] ? ?]. done.
Qed.

(** C28: what [PreBind] writes is what later cycles charge: with a codec that reads back what it
    writes and a merge patch that takes the pod to its annotated copy, [PreBind] sends one patch
    for the pod, after which the pod's NUMA result is the reserved one. *)
Theorem PreBind_roundtrip (kc : client) (s : stateData) (pod : Pod)
    (apply_merge_patch : string -> Pod -> Pod) (raw oldData newData patch : string) :
  topologyResult s <> [] -> Forall (fun z => z_Type z = ZoneTypeNode) (topologyResult s) ->
  MarshalZones (topologyResult s) = Ok raw -> UnmarshalZones raw = Ok (topologyResult s) ->
  MarshalPod pod = Ok oldData ->
  MarshalPod (with_annotation pod AnnotationPodTopologyResultKey raw) = Ok newData ->
  CreateMergePatch oldData newData = Ok patch ->
  apply_merge_patch patch pod = with_annotation pod AnnotationPodTopologyResultKey raw ->
  (forall rq, kc rq = None) ->
  exists rq, PreBind kc (SlotData s) pod = ([rq], Ret None) /\
    rq_resource rq = "pods" /\ rq_namespace rq = om_Namespace (pod_meta pod) /\
    rq_name rq = om_Name (pod_meta pod) /\ rq_type rq = MergePatch /\
    GetPodNUMANodeResult (apply_merge_patch (rq_data rq) pod) = topologyResult s.
Proof.
  intros Hne Hall Hm Hu Ho Hnw Hp Happ Hkc. unfold PreBind. cbn [getStateData].
  destruct (topologyResult s) as [|z zs] eqn:Hs; [done|]. cbn [length Nat.eqb].
  rewrite Hm, Ho, Hnw, Hp. unfold send. cbn [io_bind]. rewrite Hkc.
  eexists. split; [done|]. split_and!; try done. cbn [rq_data]. rewrite Happ.
  unfold GetPodNUMANodeResult, GetPodTopologyResult, with_annotation. cbn.
  rewrite lookup_insert_eq, Hu. by apply list_filter_all.
Qed.

End PluginProperties.

(** ** Witnesses *)

Section Witnesses.
#[local] Existing Instance MilliQuantities.
#[local] Existing Instance MilliResources.
#[local] Existing Instance ExampleTopologyNames.
#[local] Existing Instance InsertionSort.
#[local] Existing Instance cx_keys.
#[local] Existing Instance ZeroToHundred.

Definition px_zone (n : string) (cpu : Z) : Zone :=
  {| z_Name := n; z_Type := "Node";
     z_Resources := Some {| ri_Capacity := {["cpu" := cpu]}; ri_Allocatable := {["cpu" := cpu]} |} |}.

Definition px_codec : TopologyCodec := {|
  MarshalZones := fun _ => Ok "zones";
  UnmarshalZones := fun _ => Ok [px_zone "a" 2000];
  MarshalPod := fun _ => Ok "pod";
  CreateMergePatch := fun _ _ => Ok "patch" |}.
#[local] Existing Instance px_codec.

Definition px_nrt (policy : string) (zones : list Zone) : NodeResourceTopology :=
  {| nrt_CPUManagerPolicy := "Static"; nrt_TopologyManagerPolicy := policy; nrt_Zones := zones |}.

Definition px_node : Node :=
  {| node_meta := meta0 "n1"; node_Addresses := []; node_Capacity := ∅ |}.
Definition px_pod : Pod := {| pod_meta := meta0 "p"; pod_NodeName := ""; pod_Containers := [] |}.
Definition px_info : NodeInfo := {| ni_Node := Some px_node; ni_Pods := [] |}.

Definition px_tm (nrt : NodeResourceTopology) : TopologyMatch :=
  {| tm_cache := NewPodTopologyCache Minute; lister := fun _ => Ok nrt;
     topologyAwareResources := {["cpu"]} |}.

Definition px_state (nws : gmap string nodeWrapper) (zones : list Zone) : stateData :=
  {| sd_aware := None; targetContainerIndices := [0%nat];
     targetContainerResource := tx_cpu 2000 0; podTopologyByNode := nws; topologyResult := zones |}.

Definition px_aware : NodeResourceTopology :=
  px_nrt "SingleNUMANodePodLevel" [px_zone "a" 1000; px_zone "b" 4000].

Lemma px_filtering nrt :
  nrt_CPUManagerPolicy nrt = "Static" ->
  filtering (px_tm nrt) (px_state ∅ []) px_pod px_info px_node nrt.
Proof. intros H. unfold filtering. split_and!; (reflexivity || discriminate || exact H). Defined.

Lemma Filter_aware_witness :
  let nodes := List.map (fun z => credit (held_zones (px_tm px_aware) (ni_Pods px_info)) (newNumaNode z))
                 (nrt_Zones px_aware) in
  let request := targetContainerResource (px_state ∅ []) in
  ((forall nn, nn ∈ nodes -> ~ zone_fits nn request) /\
   Filter (px_tm px_aware) (SlotData (px_state ∅ [])) px_pod px_info
   = Ret (NewStatus Unschedulable (Errorf ErrReasonNUMAResourceNotEnough []),
          SlotData (px_state ∅ []))) \/
  (exists nw n0, Filter (px_tm px_aware) (SlotData (px_state ∅ [])) px_pod px_info
       = Ret (None, SlotData (with_wrapper (px_state ∅ []) nw)) /\
     nw_node nw = node_Name px_node /\ n0 ∈ nodes /\ zone_fits n0 request /\
     (forall nn, nn ∈ nodes -> zone_fits nn request -> free_cpu nn <= free_cpu n0) /\
     nw_result nw = [numa_zone (name n0) (ResourceListIgnoreZeroResources (Some request))]).
Proof.
  apply (Filter_aware (px_tm px_aware) (px_state ∅ []) px_pod px_info px_node px_aware);
    [apply px_filtering; reflexivity|reflexivity].
Defined.

Lemma initialize_accounts_witness :
  nw_numaNodes (initializeNodeWrapper (px_tm px_aware) (px_state ∅ []) px_node [] px_aware) !! 1%nat
  = Some {| name := "b"; allocatable := NewResource {["cpu" := 4000]}; requested := resource0 |}.
Proof.
  apply (initialize_accounts (px_tm px_aware) (px_state ∅ []) px_node [] px_aware 1
           (px_zone "b" 4000)). reflexivity.
Defined.

Lemma Score_after_Filter_witness :
  exists nw, Filter (px_tm (px_nrt "None" [])) (SlotData (px_state ∅ [])) px_pod px_info
      = Ret (None, SlotData (with_wrapper (px_state ∅ []) nw)) /\
    Score (SlotData (with_wrapper (px_state ∅ []) nw)) (node_Name px_node) =
      (if (length (nw_result nw) =? 0)%nat then Panic "runtime error: integer divide by zero"
       else Ret (MaxNodeScore / Z.of_nat (length (nw_result nw)), None)) /\
    (nrt_Zones (px_nrt "None" []) = [] -> nw_result nw = []).
Proof.
  apply (Score_after_Filter (px_tm (px_nrt "None" [])) (px_state ∅ []) px_pod px_info px_node
           (px_nrt "None" []));
    [apply px_filtering; reflexivity|reflexivity|reflexivity|vm_compute; discriminate].
Defined.

Definition px_wrapper : nodeWrapper :=
  {| nw_aware := true; nw_node := "n1"; nw_numaNodes := [];
     nw_topologyAwareResources := ∅; nw_result := [px_zone "a" 2000] |}.

Lemma Reserve_Unreserve_witness :
  exists tm' s', Reserve (px_tm px_aware) 0 (SlotData (px_state {["n1" := px_wrapper]} []))
      px_pod "n1" = (None, tm', SlotData s') /\
    topologyResult s' = nw_result px_wrapper /\
    GetPodTopology (tm_cache tm') px_pod = Ok (nw_result px_wrapper) /\
    Unreserve tm' (SlotData s') px_pod "n1" = px_tm px_aware.
Proof.
  apply (Reserve_Unreserve (px_tm px_aware) 0 (px_state {["n1" := px_wrapper]} []) px_pod "n1" "p"
           px_wrapper); [reflexivity|discriminate|reflexivity|reflexivity|reflexivity].
Defined.

Lemma PreBind_roundtrip_witness :
  exists rq, PreBind (fun _ => None) (SlotData (px_state ∅ [px_zone "a" 2000])) px_pod
      = ([rq], Ret None) /\
    rq_resource rq = "pods" /\ rq_namespace rq = "" /\ rq_name rq = "p" /\
    rq_type rq = MergePatch /\
    GetPodNUMANodeResult ((fun _ p => with_annotation p "topology/result" "zones") (rq_data rq)
      px_pod) = [px_zone "a" 2000].
Proof.
  apply (PreBind_roundtrip (fun _ => None) (px_state ∅ [px_zone "a" 2000]) px_pod
           (fun _ p => with_annotation p "topology/result" "zones") "zones" "pod" "pod" "patch");
    (reflexivity || discriminate || (repeat constructor)).
Defined.

End Witnesses.
