(* ===== verification/TopologyCycle.v ===== *)
(** * The NUMA plugin over time

    The scheduler around the handlers of pkg/plugins/noderesourcetopology: pods are scheduled one
    after the other (PreFilter, Filter on the candidate nodes, Reserve), bound in the background
    (PreBind, after which the informer shows the annotated pod), or given up (Unreserve), while
    the cache of assumptions expires. [exec] runs the handlers of TopologyPlugin as the framework
    calls them; [reachable] collects the states of all interleavings. The main theorem is that no
    NUMA zone is ever granted more CPU than it has.

    What the framework contributes is its documented protocol: one scheduling cycle at a time,
    every node filtered once per cycle, Unreserve after a failed Reserve or bind, node snapshots
    that contain the assumed pods. *)

From S2P Require Import Prelude GoStrings GoTime K8s Utils TopologyCache Topology TopologyPlugin.

Open Scope string_scope.
Open Scope Z_scope.

(** ** What is relied on of the libraries *)

(** [framework.Resource.Add] adds the CPU of the list, a key that is absent counting as zero, and
    keeps native resources out of the scalar map. *)
Class ResourceLaws `{RL : ResourceLib} := {
  Add_cpu : forall r l,
    int64_min <= MilliCPU r + MilliValue (rl_get l ResourceCPU) <= int64_max ->
    MilliCPU (Resource_Add r l) = MilliCPU r + MilliValue (rl_get l ResourceCPU);
  Add_scalars : forall r l,
    default ∅ (ScalarResources r) !! ResourceCPU = None ->
    default ∅ (ScalarResources (Resource_Add r l)) !! ResourceCPU = None }.

(** Zones that hold the same CPU under the same name. *)
Definition same_zone `{QL : QuantityLib} (z z' : Zone) : Prop :=
  z_Name z = z_Name z' /\ z_Type z = z_Type z' /\ zone_cpu z = zone_cpu z'.

(** The API server applies a merge patch as RFC 7386 says, JSON reads back the zones it writes,
    and an annotation does not change the key of a pod (its UID). *)
Class PatchServer `{QL : QuantityLib} `{TN : TopologyNames} `{TC : !TopologyCodec}
    `{PK : !PodKeys} := {
  apply_merge_patch : string -> Pod -> Pod;
  merge_patch_annotates : forall pod v oldData newData patch,
    MarshalPod pod = Ok oldData ->
    MarshalPod (with_annotation pod AnnotationPodTopologyResultKey v) = Ok newData ->
    CreateMergePatch oldData newData = Ok patch ->
    apply_merge_patch patch pod = with_annotation pod AnnotationPodTopologyResultKey v;
  zones_read_back : forall zs raw, MarshalZones zs = Ok raw ->
    exists zs', UnmarshalZones raw = Ok zs' /\ Forall2 same_zone zs zs';
  key_annotation : forall pod k v, GetPodKey (with_annotation pod k v) = GetPodKey pod }.

(** ** The system *)

Section Cycle.
Context `{QL : QuantityLib} `{RL : !ResourceLib} `{TN : TopologyNames} `{TC : !TopologyCodec}.
Context `{SS : SortSlice} `{PK : !PodKeys} `{SL : ScoreLib}.
Context `{PS : !PatchServer}.

(** A pod on a node, as node snapshots show it, and the zones it was granted. *)
Record placement := {
  pl_node : string;
  pl_pod : Pod;
  pl_zones : list Zone }.

(** [cl_binding] holds the cycle states of the pods that are reserved but not bound yet;
    [cl_gone] the keys of pods that were bound and then removed. *)
Record cluster := {
  cl_tm : TopologyMatch;
  cl_now : Z;
  cl_pods : gmap string placement;
  cl_binding : gmap string cycle_slot;
  cl_gone : gset string }.

Definition pods_on (c : cluster) (n : string) : list Pod :=
  omap (fun kp => if String.eqb (pl_node (snd kp)) n then Some (pl_pod (snd kp)) else None)
    (map_to_list (cl_pods c)).

Definition node_info (c : cluster) (node : Node) : NodeInfo :=
  {| ni_Node := Some node; ni_Pods := pods_on c (node_Name node) |}.

(** The framework's filter loop for this plugin: every node, in some order. *)
Fixpoint filter_nodes (tm : TopologyMatch) (slot : cycle_slot) (pod : Pod)
    (infos : list NodeInfo) : go (list Status * cycle_slot) :=
  match infos with
  | [] => Ret ([], slot)
  | ni :: rest =>
      let! (status, slot) := Filter tm slot pod ni in
      let! (statuses, slot) := filter_nodes tm slot pod rest in
      Ret (status :: statuses, slot)
  end.

Definition slot_result (slot : cycle_slot) : list Zone :=
  match slot with SlotData s => topologyResult s | _ => [] end.

(** [None]: the step cannot happen (a panic ends the scheduler). [chosen] is the position of the
    node the framework selects among those that passed. *)
Definition exec_schedule (c : cluster) (pod : Pod) (nodes : list Node) (chosen : nat)
    : option cluster :=
  match GetPodKey pod, PreFilter (cl_tm c) pod with
  | Ok key, Ret (_, slot) =>
      match filter_nodes (cl_tm c) slot pod (List.map (node_info c) nodes) with
      | Panic _ => None
      | Ret (statuses, slot) =>
          match nodes !! chosen, statuses !! chosen with
          | Some node, Some None =>
              let '(status, tm, slot) :=
                Reserve (cl_tm c) (cl_now c) slot pod (node_Name node) in
              match status with
              | None =>
                  Some {| cl_tm := tm; cl_now := cl_now c;
                          cl_pods := <[key := {| pl_node := node_Name node; pl_pod := pod;
                                                 pl_zones := slot_result slot |}]> (cl_pods c);
                          cl_binding := <[key := slot]> (cl_binding c); cl_gone := cl_gone c |}
              | Some _ =>
                  Some {| cl_tm := Unreserve tm slot pod (node_Name node); cl_now := cl_now c;
                          cl_pods := cl_pods c; cl_binding := cl_binding c; cl_gone := cl_gone c |}
              end
          | _, _ => None
          end
      end
  | _, _ => None
  end.

Inductive action :=
| Schedule (pod : Pod) (nodes : list Node) (chosen : nat)
| BindFails (key : string)
| Bound (kc : client) (key : string)
| Removed (key : string)
| Cleanup
| Tick (d : Z).

Definition exec (c : cluster) (a : action) : option cluster :=
  match a with
  | Schedule pod nodes chosen => exec_schedule c pod nodes chosen
  | BindFails key =>
      match cl_binding c !! key, cl_pods c !! key with
      | Some slot, Some pl =>
          Some {| cl_tm := Unreserve (cl_tm c) slot (pl_pod pl) (pl_node pl); cl_now := cl_now c;
                  cl_pods := delete key (cl_pods c); cl_binding := delete key (cl_binding c);
                  cl_gone := cl_gone c |}
      | _, _ => None
      end
  | Bound kc key =>
      match cl_binding c !! key, cl_pods c !! key with
      | Some slot, Some pl =>
          match PreBind kc slot (pl_pod pl) with
          | (requests, Ret None) =>
              let pod := foldl (fun p rq => apply_merge_patch (rq_data rq) p) (pl_pod pl) requests in
              Some {| cl_tm := cl_tm c; cl_now := cl_now c;
                      cl_pods := <[key := {| pl_node := pl_node pl; pl_pod := pod;
                                             pl_zones := pl_zones pl |}]> (cl_pods c);
                      cl_binding := delete key (cl_binding c); cl_gone := cl_gone c |}
          | _ => None
          end
      | _, _ => None
      end
  | Removed key =>
      match cl_binding c !! key with
      | Some _ => None
      | None =>
          Some {| cl_tm := cl_tm c; cl_now := cl_now c; cl_pods := delete key (cl_pods c);
                  cl_binding := cl_binding c; cl_gone := {[key]} ∪ cl_gone c |}
      end
  | Cleanup =>
      Some {| cl_tm := with_cache (cl_tm c) (cleanupAssumedPods (tm_cache (cl_tm c)) (cl_now c));
              cl_now := cl_now c; cl_pods := cl_pods c; cl_binding := cl_binding c;
              cl_gone := cl_gone c |}
  | Tick d =>
      Some {| cl_tm := cl_tm c; cl_now := cl_now c + Z.max 0 d; cl_pods := cl_pods c;
              cl_binding := cl_binding c; cl_gone := cl_gone c |}
  end.

(** A pod that is scheduled is new and carries no result of its own; no assumption of a pod that
    is still being bound has expired when the cache is cleaned up. *)
Definition admissible (c : cluster) (a : action) : Prop :=
  match a with
  | Schedule pod _ _ =>
      (forall key, GetPodKey pod = Ok key -> cl_pods c !! key = None /\ key ∉ cl_gone c) /\
      GetPodNUMANodeResult pod = []
  | Cleanup =>
      forall key dl, is_Some (cl_binding c !! key) ->
        podTopologyTTL (tm_cache (cl_tm c)) !! key = Some dl -> cl_now c <= dl
  | _ => True
  end.

Definition initial (tm : TopologyMatch) (t : Duration) (now : Z) : cluster :=
  {| cl_tm := with_cache tm (NewPodTopologyCache t); cl_now := now; cl_pods := ∅;
     cl_binding := ∅; cl_gone := ∅ |}.

Inductive reachable (c0 : cluster) : cluster -> Prop :=
| reach_refl : reachable c0 c0
| reach_step c a c' :
    reachable c0 c -> admissible c a -> exec c a = Some c' -> reachable c0 c'.

(** What the pods on a node were granted of a zone, in thousandths of a CPU. *)
Definition cpu_in (n : string) (zs : list Zone) : Z :=
  zsum zone_cpu (List.filter (fun z => String.eqb n (z_Name z)) zs).

Definition granted_by (n zone : string) (kp : string * placement) : Z :=
  if String.eqb (pl_node (snd kp)) n then cpu_in zone (pl_zones (snd kp)) else 0.

Definition granted (c : cluster) (n zone : string) : Z :=
  zsum (granted_by n zone) (map_to_list (cl_pods c)).

Definition zone_allocatable (z : Zone) : Z :=
  MilliCPU (allocatable (newNumaNode z)).

End Cycle.

(** ** CPU accounting *)

Section Accounting.
Context `{QL : QuantityLib} `{RL : !ResourceLib} `{TN : TopologyNames} `{TC : !TopologyCodec}.
Context `{SS : SortSlice}.

Lemma cpu_in_cons n z zs :
  cpu_in n (z :: zs) = (if String.eqb n (z_Name z) then zone_cpu z else 0) + cpu_in n zs.
Proof. unfold cpu_in. simpl. by destruct (String.eqb n (z_Name z)). Qed.

Lemma cpu_in_app n a b : cpu_in n (a ++ b) = cpu_in n a + cpu_in n b.
Proof. unfold cpu_in. by rewrite List.filter_app, zsum_app. Qed.

Lemma cpu_in_nonneg n zs : Forall (fun z => 0 <= zone_cpu z) zs -> 0 <= cpu_in n zs.
Proof.
  intros H. apply zsum_nonneg. apply Forall_forall. intros z Hz%list_elem_of_In.
  apply filter_In in Hz as [Hz _]. rewrite Forall_forall in H. by apply H, list_elem_of_In.
Qed.

#[global] Instance cpu_in_proper n : Proper (Permutation ==> eq) (cpu_in n).
Proof.
  intros a b H. induction H; rewrite ?cpu_in_cons; lia.
Qed.

Lemma cpu_in_same n a b : Forall2 same_zone a b -> cpu_in n a = cpu_in n b.
Proof.
  induction 1 as [|z z' a b (Hn & _ & Hc) _ IH]; [done|].
  by rewrite !cpu_in_cons, Hn, Hc, IH.
Qed.

Lemma cpu_in_concat n zss : cpu_in n (concat zss) = zsum (cpu_in n) zss.
Proof. induction zss as [|zs zss IH]; [done|]. simpl. by rewrite cpu_in_app, IH. Qed.

Lemma cpu_in_NoDup n zs b :
  NoDup (List.map z_Name zs) -> 0 <= b ->
  Forall (fun z => z_Name z = n -> zone_cpu z <= b) zs -> cpu_in n zs <= b.
Proof.
  intros Hd Hb. induction zs as [|z zs IH]; [done|]. cbn [List.map] in Hd.
  intros [Hz Hf]%Forall_cons. apply NoDup_cons in Hd as [Hnin Hd]. rewrite cpu_in_cons.
  destruct (String.eqb_spec n (z_Name z)) as [->|Hn]; [|by apply IH].
  assert (cpu_in (z_Name z) zs = 0) as ->; [|specialize (Hz eq_refl); lia].
  clear -Hnin. induction zs as [|y zs IH]; [done|]. rewrite cpu_in_cons. cbn [List.map] in Hnin.
  destruct (String.eqb_spec (z_Name z) (z_Name y)) as [E|_].
  - destruct Hnin. rewrite E. by left.
  - apply IH. intros ?. apply Hnin. by right.
Qed.

Section Laws.
Context `{!QuantityLaws} `{!ResourceLaws}.

(** Crediting a zone with what pods hold adds exactly the CPU they hold under its name. *)
Lemma credit_cpu n zs (r : Resource) :
  Forall (fun z => 0 <= zone_cpu z) zs ->
  0 <= MilliCPU r -> MilliCPU r + cpu_in n zs <= int64_max ->
  MilliCPU (foldl Resource_Add r (capacities n zs)) = MilliCPU r + cpu_in n zs.
Proof.
  intros Hf. revert r. induction Hf as [|z zs Hz Hf IH]; intros r Hr Hm.
  { unfold cpu_in. simpl. lia. }
  pose proof (cpu_in_nonneg n zs Hf) as Hrest. rewrite cpu_in_cons in *.
  unfold capacities. cbn [omap list_omap]. fold (capacities n zs).
  destruct (String.eqb n (z_Name z)); [|rewrite IH by lia; lia].
  unfold zone_cpu in *. destruct (z_Resources z) as [ri|]; cbn [option_map]; [|rewrite IH by lia; lia].
  cbn [foldl]. rewrite IH; rewrite ?Add_cpu by (unfold int64_min, int64_max in *; lia); lia.
Qed.

(** A zone of a result holds the CPU of its resource, if that is positive. *)
Lemma zone_cpu_of n (r : Resource) :
  default ∅ (ScalarResources r) !! ResourceCPU = None ->
  zone_cpu (numa_zone n (ResourceListIgnoreZeroResources (Some r))) = Z.max 0 (MilliCPU r).
Proof.
  intros Hs. unfold zone_cpu, numa_zone, rl_get. cbn [z_Resources ri_Capacity].
  assert (ResourceListIgnoreZeroResources (Some r) !! ResourceCPU =
    if 0 <? MilliCPU r then Some (NewMilliQuantity (MilliCPU r) DecimalSI) else None) as ->.
  { cbn [ResourceListIgnoreZeroResources]. cbv zeta.
    rewrite lookup_union, map_lookup_imap, Hs. cbn [mbind option_bind].
    assert (forall x : option Quantity, None ∪ x = x) as -> by (by intros []).
    repeat case_match; rewrite ?lookup_insert_ne by done;
      rewrite ?lookup_insert_eq, ?lookup_empty; done. }
  destruct (Z.ltb_spec 0 (MilliCPU r)); simpl;
    rewrite ?MilliValue_New, ?MilliValue_zero; lia.
Qed.

Lemma compute_loop_scalars pod indices names acc r :
  default ∅ (ScalarResources acc) !! ResourceCPU = None ->
  compute_loop pod indices names acc = Ret r ->
  default ∅ (ScalarResources r) !! ResourceCPU = None.
Proof.
  revert acc. induction indices as [|i l IH]; intros acc Hacc; cbn [compute_loop]; [by intros [= <-]|].
  destruct (_ !! i); [|done]. apply IH. by apply Add_scalars.
Qed.

(** A zone whose pods hold no more CPU than it has. *)
Definition room (nn : numaNode) : Prop :=
  0 <= MilliCPU (requested nn) <= MilliCPU (allocatable nn) /\
  MilliCPU (allocatable nn) <= int64_max.

Definition spare (nn : numaNode) : Z := MilliCPU (allocatable nn) - MilliCPU (requested nn).

Lemma room_spare nn : room nn -> 0 <= spare nn.
Proof. unfold room, spare. lia. Qed.

Lemma floor_spare nn :
  room nn -> spare (floor_cpu nn) <= spare nn /\
  sub64 (MilliCPU (allocatable (floor_cpu nn))) (MilliCPU (requested nn)) = spare (floor_cpu nn).
Proof.
  intros [Hr Ha]. unfold spare. cbn [floor_cpu allocatable requested MilliCPU].
  rewrite Z.quot_div_nonneg by lia.
  pose proof (Z.mul_div_le (MilliCPU (allocatable nn)) 1000 ltac:(lia)).
  pose proof (Z.div_pos (MilliCPU (allocatable nn)) 1000 ltac:(lia) ltac:(lia)).
  rewrite wrap64_id by (unfold int64_min, int64_max in *; lia).
  split; [lia|]. apply sub64_id. unfold int64_min, int64_max in *. lia.
Qed.

(** Whatever is asked, a zone is given no more than it has to spare. *)
Lemma assign_within r nn r' res fin :
  room nn -> assignRequestForNUMANode r (floor_cpu nn) = Ret (r', res, fin) ->
  0 <= zone_cpu (numa_zone (name nn) (ResourceListIgnoreZeroResources res)) <= spare nn.
Proof.
  intros Hroom Ha. destruct (floor_spare nn Hroom) as [Hle Hsub]. pose proof (room_spare nn Hroom).
  unfold assignRequestForNUMANode in Ha. destruct (no_request r).
  { simplify_eq. unfold zone_cpu, numa_zone, rl_get. simpl. rewrite lookup_empty. simpl.
    rewrite MilliValue_zero. lia. }
  destruct (assign1 (MilliCPU r) _ _) as [cpu left] eqn:Hcpu.
  destruct (assign1 (Memory r) _ _) as [? ?], (assign1 (EphemeralStorage r) _ _) as [? ?].
  destruct (map_to_list _); [|done]. simplify_eq. rewrite zone_cpu_of by done.
  cbn [MilliCPU]. unfold assign1 in Hcpu. simplify_eq. rewrite min_spec.
  cbn [requested floor_cpu] in *. rewrite Hsub. lia.
Qed.

Lemma assign_loop_within r nodes nodes' zones :
  Forall room nodes -> assign_loop r nodes = Ret (nodes', zones) ->
  exists src, src `sublist_of` nodes /\
    Forall2 (fun z nn => z_Name z = name nn /\ z_Type z = ZoneTypeNode /\
      0 <= zone_cpu z <= spare nn) zones src.
Proof.
  intros Hr. revert r nodes' zones. induction Hr as [|nn nodes Hnn Hr IH]; intros r nodes' zones.
  { intros [= <- <-]. by exists []. }
  cbn [assign_loop].
  destruct (assignRequestForNUMANode r (floor_cpu nn)) as [[[r' res] fin]|] eqn:Ha; [|done].
  cbn [go_bind]. pose proof (assign_within r nn r' res fin Hnn Ha) as Hz.
  match goal with |- context [if (?n =? 0)%nat then [] else ?l] =>
    set (zs := if (n =? 0)%nat then [] else l) end.
  assert (exists src, src `sublist_of` [nn] /\
    Forall2 (fun z nn => z_Name z = name nn /\ z_Type z = ZoneTypeNode /\
      0 <= zone_cpu z <= spare nn) zs src) as (src1 & Hs1 & Hf1).
  { unfold zs. case_match; [exists []; split; [apply sublist_nil_l|constructor]|].
    exists [nn]. split; [done|]. repeat constructor; apply Hz. }
  clearbody zs. destruct fin.
  - intros [= <- <-]. exists src1. split; [|done]. change (nn :: nodes) with ([nn] ++ nodes)%list.
    by apply sublist_inserts_r.
  - destruct (assign_loop r' nodes) as [[ns' zs']|] eqn:Hl; [|done]. cbn [go_bind].
    intros [= <- <-]. destruct (IH _ _ _ Hl) as (src2 & Hs2 & Hf2).
    exists (src1 ++ src2)%list. split; [|by apply Forall2_app].
    change (nn :: nodes) with ([nn] ++ nodes)%list. by apply sublist_app.
Qed.

(** The zones of a result: they are NUMA nodes, hold no negative CPU, and no zone is given more
    than it has to spare. *)
Definition fits_in (zs : list Zone) (nodes : list numaNode) : Prop :=
  Forall (fun z => z_Type z = ZoneTypeNode /\ 0 <= zone_cpu z) zs /\
  Forall (fun nn => cpu_in (name nn) zs <= spare nn) nodes.

Lemma fits_in_sources zones src nodes :
  Forall room nodes -> NoDup (List.map name nodes) -> src `sublist_of` nodes ->
  Forall2 (fun z nn => z_Name z = name nn /\ z_Type z = ZoneTypeNode /\
      0 <= zone_cpu z <= spare nn) zones src ->
  fits_in zones nodes.
Proof.
  intros Hroom Hd Hsub Hf. split.
  { apply Forall_forall. intros z Hz. apply list_elem_of_lookup in Hz as [i Hz].
    destruct (Forall2_lookup_l _ _ _ _ _ Hf Hz) as (nn & _ & ? & ? & ?). naive_solver lia. }
  assert (List.map z_Name zones = List.map name src) as Hnames.
  { clear -Hf. induction Hf as [|z nn zs src (Hn & _) _ IH]; simpl; [done|]. by rewrite Hn, IH. }
  apply Forall_forall. intros nn Hnn. rewrite Forall_forall in Hroom.
  apply cpu_in_NoDup; [|by apply room_spare, Hroom|].
  - rewrite Hnames. eapply sublist_NoDup; [exact Hd|]. by apply (fmap_sublist name).
  - apply Forall_forall. intros z Hz Hzn. apply list_elem_of_lookup in Hz as [i Hz].
    destruct (Forall2_lookup_l _ _ _ _ _ Hf Hz) as (n & Hn & Hname & _ & Hle).
    assert (n = nn) as ->; [|lia].
    apply list_elem_of_lookup_2 in Hn. assert (n ∈ nodes) as Hin by (by eapply elem_of_submseteq,
        sublist_submseteq).
    clear -Hd Hin Hnn Hname Hzn. assert (name n = name nn) as He by congruence. clear -Hd Hin Hnn He.
    apply list_elem_of_lookup in Hin as [i Hi], Hnn as [j Hj].
    assert (i = j) as ->; [|congruence].
    eapply (NoDup_lookup _ _ _ (name nn) Hd); rewrite list_lookup_fmap.
    + by rewrite Hi, <- He.
    + by rewrite Hj.
Qed.

(** *** What [Filter] grants *)

Context `{PK : !PodKeys} `{SL : ScoreLib}.

(** The zones of a node, charged with what its pods hold. *)
Definition accounts (tm : TopologyMatch) (pods : list Pod) (nrt : NodeResourceTopology)
    : list numaNode :=
  List.map (fun z => credit (held_zones tm pods) (newNumaNode z)) (nrt_Zones nrt).

Definition grants (tm : TopologyMatch) (ni : NodeInfo) (nw : nodeWrapper) : Prop :=
  exists node nrt, ni_Node ni = Some node /\ nw_node nw = node_Name node /\
    lister tm (node_Name node) = Ok nrt /\
    fits_in (nw_result nw) (accounts tm (ni_Pods ni) nrt).

Lemma freer_spare n n' : room n -> room n' -> freer n n' = (spare n' <? spare n).
Proof.
  unfold room, freer, spare. intros Hn Hn'.
  rewrite !sub64_id by (unfold int64_min, int64_max in *; lia). done.
Qed.

Lemma fits_in_perm zs l l' : l ≡ₚ l' -> fits_in zs l' -> fits_in zs l.
Proof. unfold fits_in. intros Hp [Hz Hl]. split; [done|]. by rewrite Hp. Qed.

Lemma aware_fits (nodes : list numaNode) (n0 : numaNode) (request : Resource) :
  default ∅ (ScalarResources request) !! ResourceCPU = None ->
  Forall room nodes -> NoDup (List.map name nodes) -> n0 ∈ nodes ->
  fitsRequestForNUMANode request n0 = [] ->
  fits_in [numa_zone (name n0) (ResourceListIgnoreZeroResources (Some request))] nodes.
Proof.
  intros Hs Hroom Hd Hin Hfit. eapply (fits_in_sources _ [n0]); [done|done| |].
  - apply list_elem_of_split in Hin as (l1 & l2 & ->).
    apply sublist_inserts_l, sublist_skip, sublist_nil_l.
  - repeat constructor; rewrite ?zone_cpu_of by done; [lia|].
    rewrite Forall_forall in Hroom. pose proof (Hroom n0 Hin) as Hn0.
    pose proof (room_spare n0 Hn0). unfold spare in *. destruct Hn0 as [Hr Ha].
    apply fits_nil in Hfit as [Hno|[Hc _]].
    + unfold no_request in Hno. breflect. lia.
    + rewrite sub64_id in Hc by (unfold int64_min, int64_max in *; lia). lia.
Qed.

Lemma sorted_room (nodes : list numaNode) :
  Forall room nodes -> NoDup (List.map name nodes) ->
  Forall room (sort_Slice freer nodes) /\ NoDup (List.map name (sort_Slice freer nodes)).
Proof.
  intros Hr Hd. pose proof (sort_Slice_perm _ freer nodes) as Hp. split; [by rewrite Hp|].
  by rewrite (Permutation_map name Hp).
Qed.

Lemma unaware_fits (nw nw' : nodeWrapper) (request : Resource) :
  nw_aware nw = false -> nw_result nw = [] ->
  Forall room (nw_numaNodes nw) -> NoDup (List.map name (nw_numaNodes nw)) ->
  assignTopologyResult nw request = Ret nw' ->
  nw_node nw' = nw_node nw /\ fits_in (nw_result nw') (nw_numaNodes nw).
Proof.
  intros Ha Hres Hroom Hd. destruct (sorted_room _ Hroom Hd) as [Hroom' Hd'].
  unfold assignTopologyResult. cbv zeta. cbn [nw_aware with_nodes nw_numaNodes nw_result].
  rewrite Ha, Hres. cbn [app].
  destruct (assign_loop request (sort_Slice freer (nw_numaNodes nw))) as [[nodes zones]|] eqn:Hl;
    [|done].
  cbn [go_bind]. intros [= <-]. split; [done|]. cbn [nw_result with_result].
  destruct (assign_loop_within _ _ _ _ Hroom' Hl) as (src & Hsub & Hf).
  destruct (fits_in_sources zones src _ Hroom' Hd' Hsub Hf) as [Hz Hn].
  pose proof (sort_Slice_perm _ zone_less zones) as Hp. split; [by rewrite Hp|].
  rewrite <- (sort_Slice_perm _ freer (nw_numaNodes nw)).
  eapply Forall_impl; [exact Hn|]. intros nn. by rewrite Hp.
Qed.

(** Everything [Filter] can do to the cycle state: leave it, or record for the node zones that fit
    in what the node's pods leave. *)
Lemma Filter_grants tm s pod ni slot :
  default ∅ (ScalarResources (targetContainerResource s)) !! ResourceCPU = None ->
  (forall node nrt, ni_Node ni = Some node -> lister tm (node_Name node) = Ok nrt ->
     Forall room (accounts tm (ni_Pods ni) nrt) /\ NoDup (List.map z_Name (nrt_Zones nrt))) ->
  forall status, Filter tm (SlotData s) pod ni = Ret (status, slot) ->
  slot = SlotData s \/ exists nw, slot = SlotData (with_wrapper s nw) /\ grants tm ni nw.
Proof.
  intros Hs Hok status HF. unfold Filter in HF. cbn [getStateData] in HF.
  destruct (ni_Node ni) as [node|] eqn:Hn; [|left; by simplify_eq].
  destruct (IsDaemonsetPod pod || _); [left; by simplify_eq|].
  destruct (lister tm (node_Name node)) as [nrt|e] eqn:Hl; [|left; by simplify_eq].
  destruct (negb _); [left; by simplify_eq|].
  destruct (Hok node nrt eq_refl Hl) as [Hroom Hnames].
  assert (List.map name (accounts tm (ni_Pods ni) nrt) = List.map z_Name (nrt_Zones nrt)) as Hmap
    by (unfold accounts; by rewrite map_map).
  rewrite initializeNodeWrapper_spec in HF. cbv zeta in HF. cbn [nw_aware] in HF.
  fold (accounts tm (ni_Pods ni) nrt) in HF. rewrite <- Hmap in Hnames.
  destruct (awareness s nrt).
  - unfold filterNUMANodeResource in HF. cbn [nw_numaNodes] in HF.
    pose proof (fitting_nodes s (accounts tm (ni_Pods ni) nrt)) as Hfit.
    set (res := List.filter _ _) in *.
    destruct (length res =? 0)%nat eqn:Hlen; [left; cbn in HF; by simplify_eq|].
    match type of HF with context [assignTopologyResult ?w _] =>
      destruct (assign_aware w (targetContainerResource s)) as (nw' & n0 & Ha & Hin & _ & Hnd & Hr) end;
      [done|cbn [nw_numaNodes with_nodes]; intros He; by rewrite He in Hlen|].
    rewrite Ha in HF. cbn [go_bind] in HF. simplify_eq. right. exists nw'. split; [done|].
    cbn [nw_numaNodes with_nodes nw_node] in Hin, Hnd. apply Hfit in Hin as [Hin Hf0].
    exists node, nrt. split_and!; try done. rewrite Hr. by apply aware_fits.
  - match type of HF with context [assignTopologyResult ?w _] =>
      destruct (assignTopologyResult w (targetContainerResource s)) as [nw'|] eqn:Ha; [|done];
      destruct (unaware_fits w nw' (targetContainerResource s)) as [Hnd Hfits] end; try done.
    cbn [go_bind] in HF. simplify_eq. right. exists nw'. split; [done|]. exists node, nrt. done.
Qed.

End Laws.
End Accounting.

(** ** The invariant *)

Section Invariant.
Context `{QL : QuantityLib} `{RL : !ResourceLib} `{TN : TopologyNames} `{TC : !TopologyCodec}.
Context `{SS : SortSlice} `{PK : !PodKeys} `{SL : ScoreLib} `{PS : !PatchServer}.
Context `{!QuantityLaws} `{!ResourceLaws}.

Definition with_map (s : stateData) (m : gmap string nodeWrapper) : stateData :=
  {| sd_aware := sd_aware s; targetContainerIndices := targetContainerIndices s;
     targetContainerResource := targetContainerResource s; podTopologyByNode := m;
     topologyResult := topologyResult s |}.

(** A filter loop only adds wrappers, each with zones that fit in its node. *)
Lemma filter_nodes_grants tm s pod infos statuses slot :
  default ∅ (ScalarResources (targetContainerResource s)) !! ResourceCPU = None ->
  Forall (fun ni => forall node nrt, ni_Node ni = Some node ->
     lister tm (node_Name node) = Ok nrt ->
     Forall room (accounts tm (ni_Pods ni) nrt) /\ NoDup (List.map z_Name (nrt_Zones nrt))) infos ->
  filter_nodes tm (SlotData s) pod infos = Ret (statuses, slot) ->
  exists m, slot = SlotData (with_map s m) /\
    forall n nw, m !! n = Some nw ->
      podTopologyByNode s !! n = Some nw \/
      nw_node nw = n /\ exists ni, ni ∈ infos /\ grants tm ni nw.
Proof.
  intros Hs Hok. revert s Hs statuses slot. induction Hok as [|ni infos Hni _ IH];
    intros s Hs statuses slot; cbn [filter_nodes].
  { intros [= <- <-]. exists (podTopologyByNode s). split; [by destruct s|]. by left. }
  destruct (Filter tm (SlotData s) pod ni) as [[st slot1]|] eqn:HF; [|done]. cbn [go_bind].
  destruct (filter_nodes tm slot1 pod infos) as [[sts slot2]|] eqn:Hrest; [|done]. cbn [go_bind].
  intros [= <- <-]. destruct (Filter_grants tm s pod ni slot1 Hs Hni st HF) as [->|(nw1 & -> & Hg)].
  - destruct (IH s Hs _ _ Hrest) as (m & -> & Hm). exists m. split; [done|].
    intros n nw Hn. destruct (Hm n nw Hn) as [?|(? & ni' & ? & ?)]; [by left|].
    right. split; [done|]. exists ni'. split; [by right|done].
  - destruct (IH (with_wrapper s nw1) Hs _ _ Hrest) as (m & -> & Hm). exists m. split; [done|].
    intros n nw Hn. destruct (Hm n nw Hn) as [Hw|(? & ni' & ? & ?)].
    + cbn [podTopologyByNode with_wrapper] in Hw. destruct (decide (nw_node nw1 = n)) as [<-|Hne].
      * rewrite lookup_insert_eq in Hw. simplify_eq. right. split; [done|].
        exists ni. split; [by left|done].
      * rewrite lookup_insert_ne in Hw by done. by left.
    + right. split; [done|]. exists ni'. split; [by right|done].
Qed.

Abbreviation assumed c := (GetPodTopology (tm_cache (cl_tm c))).
Abbreviation cached c key := (podTopology (tm_cache (cl_tm c)) !! key).

(** The zones of the granted pods are well formed. *)
Definition numa_zones (zs : list Zone) : Prop :=
  Forall (fun z => z_Type z = ZoneTypeNode /\ 0 <= zone_cpu z) zs.

(** What is known of a pod while it is bound, and once it is. *)
Definition binding_ok (c : cluster) (key : string) (pl : placement) (slot : cycle_slot) : Prop :=
  exists s, slot = SlotData s /\ topologyResult s = pl_zones pl /\
    GetPodNUMANodeResult (pl_pod pl) = [] /\
    (pl_zones pl = [] /\ cached c key = None \/
     pl_zones pl <> [] /\ cached c key = Some (pl_zones pl) /\
       is_Some (podTopologyByNode s !! pl_node pl)).

Definition bound_ok (c : cluster) (key : string) (pl : placement) : Prop :=
  Forall2 same_zone (pl_zones pl) (GetPodNUMANodeResult (pl_pod pl)) /\
  (pl_zones pl = [] -> cached c key = None).

Record inv (c : cluster) : Prop := {
  inv_cache : cache_inv (tm_cache (cl_tm c));
  inv_keys : forall key, is_Some (cached c key) -> is_Some (cl_pods c !! key) \/ key ∈ cl_gone c;
  inv_slots : forall key slot, cl_binding c !! key = Some slot ->
    exists pl, cl_pods c !! key = Some pl /\ binding_ok c key pl slot;
  inv_pods : forall key pl, cl_pods c !! key = Some pl ->
    GetPodKey (pl_pod pl) = Ok key /\ numa_zones (pl_zones pl) /\
    (cl_binding c !! key = None -> bound_ok c key pl);
  inv_room : forall n nrt z, lister (cl_tm c) n = Ok nrt -> z ∈ nrt_Zones nrt ->
    granted c n (z_Name z) <= zone_allocatable z }.

(** The topology objects: every zone has its own name, and an amount of CPU that fits a word. *)
Definition sane_topology (l : string -> result NodeResourceTopology) : Prop :=
  forall n nrt, l n = Ok nrt ->
    NoDup (List.map z_Name (nrt_Zones nrt)) /\
    Forall (fun z => 0 <= zone_allocatable z <= int64_max) (nrt_Zones nrt).

Lemma same_zone_refl zs : Forall2 same_zone zs zs.
Proof. induction zs; constructor; done. Qed.

(** The plugin charges every pod with what it was granted. *)
Lemma inv_view c key pl :
  inv c -> cl_pods c !! key = Some pl ->
  Forall2 same_zone (pl_zones pl) (pod_zones (assumed c) (pl_pod pl)).
Proof.
  intros Hi Hpl. destruct (inv_pods c Hi key pl Hpl) as (Hkey & _ & Hb).
  assert (assumed c (pl_pod pl) = match cached c key with
    | Some zs => Ok zs
    | None => Err (Errorf "pod topology %v does not exist in cache" [key]) end) as Ha
    by (unfold GetPodTopology; by rewrite Hkey).
  unfold pod_zones. rewrite Ha. destruct (cl_binding c !! key) as [slot|] eqn:Hs.
  - destruct (inv_slots c Hi key slot Hs) as (pl' & Hpl' & s & _ & _ & Hnil & Hc).
    simplify_eq. rewrite Hnil. destruct Hc as [[-> ->]|(_ & -> & _)]; [constructor|apply same_zone_refl].
  - destruct (Hb eq_refl) as [Hf Hnone].
    destruct (GetPodNUMANodeResult (pl_pod pl)) as [|z zs] eqn:He; [|done].
    apply Forall2_nil_inv_r in Hf. rewrite Hf, Hnone by done. constructor.
Qed.

Lemma held_granted c n zone :
  inv c -> cpu_in zone (held_zones (cl_tm c) (pods_on c n)) = granted c n zone.
Proof.
  intros Hi. unfold held_zones, granted, pods_on. rewrite cpu_in_concat.
  assert (Forall (fun kp => Forall2 same_zone (pl_zones (snd kp))
    (pod_zones (assumed c) (pl_pod (snd kp)))) (map_to_list (cl_pods c))) as Hf.
  { apply Forall_forall. intros [key pl] Hin%elem_of_map_to_list. by apply (inv_view c key). }
  induction Hf as [|kp l Hkp _ IH]; [done|]. cbn [zsum foldr]. fold (zsum (granted_by n zone) l).
  rewrite <- IH. unfold granted_by at 1. cbn [omap list_omap].
  destruct (String.eqb (pl_node (snd kp)) n); [|lia]. cbn [List.map zsum foldr].
  by rewrite (cpu_in_same _ _ _ Hkp).
Qed.

Lemma held_numa c n :
  inv c -> Forall (fun z => 0 <= zone_cpu z) (held_zones (cl_tm c) (pods_on c n)).
Proof.
  intros Hi. unfold held_zones, pods_on. apply Forall_concat, Forall_map, Forall_forall.
  intros pod ((key & pl) & Hin & Hp)%list_elem_of_omap. apply elem_of_map_to_list in Hin.
  simpl in Hp. destruct (String.eqb _ n); simplify_eq.
  destruct (inv_pods c Hi key pl Hin) as (_ & Hz & _). pose proof (inv_view c key pl Hi Hin) as Hf.
  clear -Hz Hf. unfold numa_zones in Hz. induction Hf as [|z z' zs zs' (_ & _ & Hc) _ IH]; [done|].
  apply Forall_cons in Hz as [[_ Hz] Hzs]. constructor; [lia|by apply IH].
Qed.

(** Every account the filter opens has room. *)
Lemma accounts_room c n nrt :
  inv c -> sane_topology (lister (cl_tm c)) -> lister (cl_tm c) n = Ok nrt ->
  Forall room (accounts (cl_tm c) (pods_on c n) nrt) /\ NoDup (List.map z_Name (nrt_Zones nrt)).
Proof.
  intros Hi Hsane Hl. destruct (Hsane n nrt Hl) as [Hnd Ha]. split; [|done].
  unfold accounts. apply Forall_map, Forall_forall. intros z Hz. rewrite Forall_forall in Ha.
  specialize (Ha z Hz). pose proof (inv_room c Hi n nrt z Hl Hz) as Hroom.
  pose proof (held_numa c n Hi) as Hnn. rewrite <- (held_granted c n _ Hi) in Hroom.
  pose proof (cpu_in_nonneg (z_Name z) _ Hnn) as Hpos. unfold zone_allocatable in *.
  unfold room. cbn [credit requested allocatable newNumaNode name] in *.
  rewrite credit_cpu by (cbn [MilliCPU resource0]; done || lia). cbn [MilliCPU resource0]. lia.
Qed.

Lemma spare_account c n z :
  inv c -> 0 <= zone_allocatable z <= int64_max ->
  granted c n (z_Name z) <= zone_allocatable z ->
  spare (credit (held_zones (cl_tm c) (pods_on c n)) (newNumaNode z))
  = zone_allocatable z - granted c n (z_Name z).
Proof.
  intros Hi Ha Hg. pose proof (held_numa c n Hi) as Hnn. rewrite <- (held_granted c n _ Hi) in *.
  unfold spare, zone_allocatable in *. cbn [credit requested allocatable newNumaNode name] in *.
  rewrite credit_cpu by (cbn [MilliCPU resource0]; done || lia). cbn [MilliCPU resource0]. lia.
Qed.

(** *** Sums over the placements *)

Lemma granted_insert n zone (m : gmap string placement) key pl :
  m !! key = None ->
  zsum (granted_by n zone) (map_to_list (<[key := pl]> m))
  = granted_by n zone (key, pl) + zsum (granted_by n zone) (map_to_list m).
Proof. intros Hn. by rewrite (map_to_list_insert _ _ _ Hn). Qed.

Lemma granted_delete n zone (m : gmap string placement) key pl :
  m !! key = Some pl ->
  zsum (granted_by n zone) (map_to_list m)
  = granted_by n zone (key, pl) + zsum (granted_by n zone) (map_to_list (delete key m)).
Proof. intros Hs. by rewrite <- (map_to_list_delete _ _ _ Hs). Qed.

Lemma granted_by_nonneg n zone kp : numa_zones (pl_zones (snd kp)) -> 0 <= granted_by n zone kp.
Proof.
  intros Hz. unfold granted_by. destruct (String.eqb _ n); [|lia]. apply cpu_in_nonneg.
  eapply Forall_impl; [exact Hz|]. naive_solver.
Qed.

Lemma granted_drop c n zone key :
  inv c -> zsum (granted_by n zone) (map_to_list (delete key (cl_pods c))) <= granted c n zone.
Proof.
  intros Hi. unfold granted. destruct (cl_pods c !! key) as [pl|] eqn:Hk.
  - rewrite (granted_delete _ _ _ _ _ Hk). destruct (inv_pods c Hi key pl Hk) as (_ & Hz & _).
    pose proof (granted_by_nonneg n zone (key, pl) Hz). lia.
  - by rewrite delete_id.
Qed.

(** *** One step *)

Lemma binding_ok_ext c c' key pl slot :
  cached c key = cached c' key -> binding_ok c key pl slot -> binding_ok c' key pl slot.
Proof. unfold binding_ok. intros He. by rewrite He. Qed.

Lemma bound_ok_ext c c' key pl :
  cached c key = cached c' key \/ cached c' key = None -> bound_ok c key pl -> bound_ok c' key pl.
Proof. unfold bound_ok. intros [He|He]; rewrite He; naive_solver. Qed.

(** A change that concerns one key only. *)
Lemma inv_change c c' key :
  inv c -> lister (cl_tm c') = lister (cl_tm c) -> cache_inv (tm_cache (cl_tm c')) ->
  (forall k, k <> key -> cached c' k = cached c k /\ cl_pods c' !! k = cl_pods c !! k /\
     cl_binding c' !! k = cl_binding c !! k) ->
  cl_gone c ⊆ cl_gone c' ->
  (is_Some (cached c' key) -> is_Some (cl_pods c' !! key) \/ key ∈ cl_gone c') ->
  (forall slot, cl_binding c' !! key = Some slot ->
     exists pl, cl_pods c' !! key = Some pl /\ binding_ok c' key pl slot) ->
  (forall pl, cl_pods c' !! key = Some pl ->
     GetPodKey (pl_pod pl) = Ok key /\ numa_zones (pl_zones pl) /\
     (cl_binding c' !! key = None -> bound_ok c' key pl)) ->
  (forall n nrt z, lister (cl_tm c) n = Ok nrt -> z ∈ nrt_Zones nrt ->
     granted c' n (z_Name z) <= zone_allocatable z) ->
  inv c'.
Proof.
  intros Hi Hl Hc Hsame Hgone Hk Hs Hp Hroom. split; [done|..].
  - intros k Hk'. destruct (decide (k = key)) as [->|Hne]; [by apply Hk|].
    destruct (Hsame k Hne) as (Hck & Hpk & _). rewrite Hpk. rewrite Hck in Hk'.
    destruct (inv_keys c Hi k Hk'); [by left|right]. by apply Hgone.
  - intros k slot Hb. destruct (decide (k = key)) as [->|Hne]; [by apply Hs|].
    destruct (Hsame k Hne) as (Hck & Hpk & Hbk). rewrite Hbk in Hb. rewrite Hpk.
    destruct (inv_slots c Hi k slot Hb) as (pl & ? & ?). exists pl. split; [done|].
    by apply (binding_ok_ext c).
  - intros k pl Hb. destruct (decide (k = key)) as [->|Hne]; [by apply Hp|].
    destruct (Hsame k Hne) as (Hck & Hpk & Hbk). rewrite Hpk in Hb. rewrite Hbk.
    destruct (inv_pods c Hi k pl Hb) as (? & ? & Hbo). split_and!; [done|done|].
    intros Hn. apply (bound_ok_ext c); [by left|by apply Hbo].
  - intros n nrt z. rewrite Hl. apply Hroom.
Qed.

Lemma Unreserve_lookup tm slot pod n key :
  cache_inv (tm_cache tm) -> GetPodKey pod = Ok key ->
  let tm' := Unreserve tm slot pod n in
  lister tm' = lister tm /\ cache_inv (tm_cache tm') /\
  (forall k, k <> key -> podTopology (tm_cache tm') !! k = podTopology (tm_cache tm) !! k) /\
  (podTopology (tm_cache tm) !! key = None \/
   (exists s, slot = SlotData s /\ is_Some (podTopologyByNode s !! n)) ->
   podTopology (tm_cache tm') !! key = None).
Proof.
  intros Hc Hk. cbv zeta. unfold Unreserve.
  destruct slot as [e| |s]; cbn [getStateData].
  1-2: split_and!; try done; intros [?|(s & [=] & _)]; done.
  destruct (podTopologyByNode s !! n) eqn:Hw.
  2:{ split_and!; try done. intros [?|(s' & [= <-] & Hs)]; [done|]. rewrite Hw in Hs.
      by destruct Hs. }
  pose proof (ForgetPod_abstract (tm_cache tm) pod Hc) as [Hc' _].
  unfold ForgetPod in *. rewrite Hk in *. cbn [fst tm_cache with_cache lister] in *.
  split_and!; [done|done| |].
  - intros k Hne. cbn. by rewrite lookup_delete_ne.
  - intros _. cbn. apply lookup_delete_eq.
Qed.

Lemma inv_drop c key pod slot n :
  inv c -> GetPodKey pod = Ok key ->
  podTopology (tm_cache (Unreserve (cl_tm c) slot pod n)) !! key = None ->
  inv {| cl_tm := Unreserve (cl_tm c) slot pod n; cl_now := cl_now c;
         cl_pods := delete key (cl_pods c); cl_binding := delete key (cl_binding c);
         cl_gone := cl_gone c |}.
Proof.
  intros Hi Hk Hnone.
  destruct (Unreserve_lookup (cl_tm c) slot pod n key (inv_cache c Hi) Hk) as (Hl & Hc & Hsame & _).
  apply (inv_change c _ key Hi); cbn [cl_tm cl_pods cl_binding cl_gone]; try done.
  - intros k Hne. rewrite !lookup_delete_ne by done. split_and!; [by apply Hsame|done|done].
  - rewrite Hnone. by intros [? ?].
  - intros s. by rewrite lookup_delete_eq.
  - intros pl. by rewrite lookup_delete_eq.
  - intros n' nrt z Hn Hz. etrans; [apply (granted_drop c n' _ key Hi)|]. by eapply inv_room.
Qed.

Lemma inv_initial tm t now :
  sane_topology (lister tm) -> inv (initial tm t now).
Proof.
  intros Hs. destruct (NewPodTopologyCache_inv t) as [Hc _].
  split; cbn [initial cl_tm cl_pods cl_binding tm_cache with_cache lister]; try done.
  - intros key. cbn. rewrite lookup_empty. by intros [? ?].
  - intros n nrt z Hl Hz. unfold granted, initial. cbn [cl_pods]. rewrite map_to_list_empty.
    destruct (Hs n nrt Hl) as [_ Ha]. rewrite Forall_forall in Ha. specialize (Ha z Hz). cbn. lia.
Qed.

Lemma PreFilter_data tm pod status slot :
  PreFilter tm pod = Ret (status, slot) ->
  exists s, slot = SlotData s /\ podTopologyByNode s = ∅ /\ topologyResult s = [] /\
    default ∅ (ScalarResources (targetContainerResource s)) !! ResourceCPU = None.
Proof.
  unfold PreFilter, computeContainerSpecifiedResourceRequest.
  destruct (compute_loop _ _ _ _) as [r|] eqn:Hr; [|done]. cbn [go_bind]. intros [= <- <-].
  eexists. split; [done|]. split_and!; [done|done|]. cbn [targetContainerResource].
  eapply compute_loop_scalars; [|exact Hr]. done.
Qed.

(** The cycle states the filters of a new pod lead to. *)
Lemma cycle_grants c pod nodes status slot statuses slot' :
  inv c -> sane_topology (lister (cl_tm c)) -> PreFilter (cl_tm c) pod = Ret (status, slot) ->
  filter_nodes (cl_tm c) slot pod (List.map (node_info c) nodes) = Ret (statuses, slot') ->
  exists s, slot' = SlotData s /\ topologyResult s = [] /\
    forall n nw, podTopologyByNode s !! n = Some nw ->
      exists nrt, lister (cl_tm c) n = Ok nrt /\ numa_zones (nw_result nw) /\
        forall z, z ∈ nrt_Zones nrt ->
          cpu_in (z_Name z) (nw_result nw) + granted c n (z_Name z) <= zone_allocatable z.
Proof.
  intros Hi Hsane (s & -> & Hempty & Hres & Hs)%PreFilter_data HF.
  destruct (filter_nodes_grants (cl_tm c) s pod (List.map (node_info c) nodes) statuses slot' Hs)
    as (m & -> & Hm); [|done|].
  { apply Forall_map, Forall_forall. intros node _ node' nrt [= <-] Hl.
    by apply accounts_room. }
  exists (with_map s m). split_and!; [done|done|]. intros n nw Hn.
  destruct (Hm n nw Hn) as [Hw|(Hnd & ni & Hin & node & nrt & Hni & Hnn & Hl & Hfit)].
  { by rewrite Hempty, lookup_empty in Hw. }
  apply list_elem_of_fmap in Hin as (node' & -> & _). cbn [ni_Node ni_Pods node_info] in *.
  simplify_eq. rewrite Hnn. exists nrt. destruct Hfit as [Hz Hf]. split_and!; [done|done|].
  intros z Hzin. unfold accounts in Hf. rewrite Forall_map, Forall_forall in Hf.
  specialize (Hf z Hzin). destruct (Hsane _ nrt Hl) as [_ Ha]. rewrite Forall_forall in Ha.
  rewrite spare_account in Hf; [|done|by apply Ha|by eapply inv_room]. cbn [name credit newNumaNode] in Hf.
  lia.
Qed.

Lemma inv_place c key pod n s tm' :
  inv c -> cl_pods c !! key = None -> GetPodKey pod = Ok key -> GetPodNUMANodeResult pod = [] ->
  lister tm' = lister (cl_tm c) -> cache_inv (tm_cache tm') ->
  (forall k, k <> key -> podTopology (tm_cache tm') !! k = cached c k) ->
  (topologyResult s = [] /\ podTopology (tm_cache tm') !! key = None \/
   topologyResult s <> [] /\ podTopology (tm_cache tm') !! key = Some (topologyResult s) /\
     is_Some (podTopologyByNode s !! n)) ->
  numa_zones (topologyResult s) ->
  (forall nrt z, lister (cl_tm c) n = Ok nrt -> z ∈ nrt_Zones nrt ->
     cpu_in (z_Name z) (topologyResult s) + granted c n (z_Name z) <= zone_allocatable z) ->
  inv {| cl_tm := tm'; cl_now := cl_now c;
         cl_pods := <[key := {| pl_node := n; pl_pod := pod; pl_zones := topologyResult s |}]>
                      (cl_pods c);
         cl_binding := <[key := SlotData s]> (cl_binding c); cl_gone := cl_gone c |}.
Proof.
  intros Hi Hpod Hkey Hnil Hl Hc Hsame Hs Hz Hroom.
  apply (inv_change c _ key Hi); cbn [cl_tm cl_pods cl_binding cl_gone]; try done.
  - intros k Hne. rewrite !lookup_insert_ne by done. split_and!; [by apply Hsame|done|done].
  - rewrite lookup_insert_eq. eauto.
  - intros sl. rewrite !lookup_insert_eq. intros [= <-]. eexists. split; [done|].
    exists s. by split_and!.
  - intros pl. rewrite !lookup_insert_eq. intros [= <-]. by split_and!.
  - intros n' nrt z Hl' Hz'. unfold granted. cbn [cl_pods]. rewrite granted_insert by done.
    pose proof (inv_room c Hi n' nrt z Hl' Hz') as Hr. unfold granted in Hr, Hroom.
    unfold granted_by at 1. cbn [snd pl_node pl_zones].
    destruct (String.eqb_spec n n') as [<-|]; [by apply (Hroom nrt)|lia].
Qed.

Lemma inv_schedule c pod nodes chosen c' :
  inv c -> sane_topology (lister (cl_tm c)) -> admissible c (Schedule pod nodes chosen) ->
  exec_schedule c pod nodes chosen = Some c' -> inv c' /\ lister (cl_tm c') = lister (cl_tm c).
Proof.
  intros Hi Hsane [Hfresh Hnil] He. unfold exec_schedule in He.
  destruct (GetPodKey pod) as [key|] eqn:Hkey; [|done].
  destruct (PreFilter (cl_tm c) pod) as [[st0 slot0]|] eqn:HP; [|done].
  destruct (filter_nodes _ _ _ _) as [[sts slot]|] eqn:HF; [|done].
  destruct (nodes !! chosen) as [node|]; [|done]. destruct (sts !! chosen) as [[|]|]; try done.
  destruct (Hfresh key eq_refl) as [Hpod Hgone].
  assert (cached c key = None) as Hcache.
  { apply eq_None_not_Some. intros Hs. destruct (inv_keys c Hi key Hs) as [[? ?]|?]; congruence. }
  destruct (cycle_grants c pod nodes _ _ _ _ Hi Hsane HP HF) as (s & -> & Hres & Hgr).
  unfold Reserve in He. cbn [getStateData] in He.
  destruct (podTopologyByNode s !! node_Name node) as [nw|] eqn:Hw.
  2:{ simplify_eq. split; [|done]. cbn [slot_result].
      apply inv_place; rewrite ?Hres; try done; [apply (inv_cache c Hi)|by left|by constructor|].
      intros nrt z Hl Hz. unfold cpu_in. simpl. by apply (inv_room c Hi _ nrt). }
  destruct (Hgr _ nw Hw) as (nrt0 & Hl0 & Hnz & Hfit).
  destruct (nw_result nw) as [|z0 zs0] eqn:Hnw.
  { cbn [length Nat.eqb NewStatus] in He. simplify_eq.
    assert (cl_binding c !! key = None) as Hb.
    { destruct (cl_binding c !! key) as [sl|] eqn:Hb; [|done].
      destruct (inv_slots c Hi key sl Hb) as (pl & ? & _). congruence. }
    rewrite <- (delete_id (cl_pods c) key Hpod), <- (delete_id (cl_binding c) key Hb).
    destruct (Unreserve_lookup (cl_tm c) (SlotData s) pod (node_Name node) key (inv_cache c Hi) Hkey)
      as (Hl & _ & _ & Hnone).
    split; [|done]. apply inv_drop; [done|done|]. apply Hnone. by left. }
  cbn [length Nat.eqb] in He. rewrite <- Hnw in *.
  pose proof (AssumePod_abstract (tm_cache (cl_tm c)) (cl_now c) pod (nw_result nw) (inv_cache c Hi))
    as [Hinv _]. unfold AssumePod in He, Hinv. rewrite Hkey, Hcache in He, Hinv.
  cbv zeta in He. simplify_eq. split; [|done]. cbn [slot_result].
  apply (inv_place c key pod (node_Name node) (set_topologyResult s (nw_result nw)));
    cbn [set_topologyResult topologyResult podTopologyByNode tm_cache with_cache with_maps podTopology];
    try done.
  - intros k Hne. by rewrite lookup_insert_ne.
  - right. rewrite lookup_insert_eq, Hw. split_and!; [congruence|done|done].
  - intros nrt z Hl Hz. rewrite Hl0 in Hl. simplify_eq. by apply Hfit.
Qed.

Lemma PreBind_annotates kc s pod requests :
  PreBind kc (SlotData s) pod = (requests, Ret None) -> GetPodNUMANodeResult pod = [] ->
  numa_zones (topologyResult s) ->
  let pod' := foldl (fun p rq => apply_merge_patch (rq_data rq) p) pod requests in
  GetPodKey pod' = GetPodKey pod /\
  Forall2 same_zone (topologyResult s) (GetPodNUMANodeResult pod').
Proof.
  intros Hp Hnil Hz. unfold PreBind in Hp. cbn [getStateData] in Hp.
  destruct (topologyResult s) as [|z zs] eqn:Hs.
  { cbn [length Nat.eqb] in Hp. unfold io_ret in Hp. simplify_eq. cbv zeta. cbn [foldl]. rewrite
      Hnil. by split. }
  cbn [length Nat.eqb] in Hp. rewrite <- Hs in *. destruct (MarshalZones _) as [raw|] eqn:Hm; [|done].
  destruct (MarshalPod pod) as [oldData|] eqn:Ho; [|done].
  destruct (MarshalPod (with_annotation _ _ _)) as [newData|] eqn:Hn; [|done].
  destruct (CreateMergePatch _ _) as [patch|] eqn:Hpt; [|done].
  unfold send in Hp. cbn [io_bind] in Hp.
  match type of Hp with context [kc ?rq] => destruct (kc rq) end; [done|].
  unfold io_ret in Hp. simplify_eq. cbn [foldl rq_data app].
  rewrite (merge_patch_annotates pod raw oldData newData patch) by done.
  rewrite key_annotation. split; [done|].
  destruct (zones_read_back _ _ Hm) as (zs' & Hu & Hf).
  unfold GetPodNUMANodeResult, GetPodTopologyResult,
      with_annotation. cbn [pod_meta om_Annotations annos default].
  simpl. rewrite lookup_insert_eq, Hu. rewrite list_filter_all; [done|].
  clear -Hz Hf. unfold numa_zones in Hz. induction Hf as [|a b l l' (_ & Ht & _) _ IH]; [done|].
  apply Forall_cons in Hz as [[Ha _] Hl]. constructor; [congruence|by apply IH].
Qed.

Lemma inv_bound c kc key c' :
  inv c -> exec c (Bound kc key) = Some c' -> inv c' /\ lister (cl_tm c') = lister (cl_tm c).
Proof.
  intros Hi He. cbn [exec] in He. destruct (cl_binding c !! key) as [slot|] eqn:Hb; [|done].
  destruct (cl_pods c !! key) as [pl|] eqn:Hp; [|done].
  destruct (PreBind kc slot (pl_pod pl)) as [rqs [[|]|]] eqn:HPB; try done. simplify_eq.
  split; [|done]. destruct (inv_slots c Hi key slot Hb) as (pl' & Hpl' & s & -> & Hr & Hnil & Hc).
  assert (pl' = pl) as -> by congruence. clear Hpl'. destruct (inv_pods c Hi key pl Hp) as (Hkey & Hz & _).
  destruct (PreBind_annotates kc s (pl_pod pl) rqs HPB Hnil) as [Hk' Hf]; [by rewrite Hr|].
  rewrite Hr in Hf. set (pod' := foldl _ _ rqs) in *.
  apply (inv_change c _ key Hi); cbn [cl_tm cl_pods cl_binding cl_gone]; try done.
  - apply (inv_cache c Hi).
  - intros k Hne. by rewrite lookup_insert_ne, lookup_delete_ne by done.
  - rewrite lookup_insert_eq. eauto.
  - intros sl. by rewrite lookup_delete_eq.
  - intros pl'. rewrite lookup_insert_eq. intros [= <-]. cbn [pl_pod pl_zones]. split_and!;
      [congruence|done|].
    intros _. split; [done|]. cbn [pl_zones cl_tm]. destruct Hc as [[_ ?]|[Hc _]]; done.
  - intros n nrt z Hl Hzz. etrans; [|by apply (inv_room c Hi n nrt z)]. unfold granted. cbn [cl_pods].
    rewrite (granted_delete _ _ _ key _ Hp), <- insert_delete_eq, granted_insert by apply lookup_delete_eq.
    done.
Qed.

Lemma inv_cleanup c :
  inv c -> admissible c Cleanup ->
  inv {| cl_tm := with_cache (cl_tm c) (cleanupAssumedPods (tm_cache (cl_tm c)) (cl_now c));
         cl_now := cl_now c; cl_pods := cl_pods c; cl_binding := cl_binding c;
         cl_gone := cl_gone c |}.
Proof.
  intros Hi Hadm. set (c' := {| cl_tm := _ |}).
  assert (forall key, cached c' key = cached c key \/ cached c' key = None /\ cl_binding c !! key = None)
    as Hlook.
  { intros key. unfold c'. cbn [cl_tm with_cache tm_cache].
    destruct (cleanup_lookup (tm_cache (cl_tm c)) (cl_now c) key) as [-> _].
    destruct (podTopologyTTL _ !! key) as [dl|] eqn:Hd; [|by left].
    destruct (Z.ltb_spec dl (cl_now c)); [|by left]. right. split; [done|].
    apply eq_None_not_Some. intros Hb. specialize (Hadm key dl Hb Hd). lia. }
  split.
  - apply (cleanup_abstract (tm_cache (cl_tm c)) (cl_now c)), (inv_cache c Hi).
  - intros key Hs. destruct (Hlook key) as [He|[He _]]; rewrite He in Hs; [|by destruct Hs].
    by apply (inv_keys c Hi).
  - intros key slot Hb. destruct (inv_slots c Hi key slot Hb) as (pl & ? & ?). exists pl.
    split; [done|]. destruct (Hlook key) as [He|[_ He]]; [|cbn [c' cl_binding] in Hb; congruence].
    by apply (binding_ok_ext c).
  - intros key pl Hp. destruct (inv_pods c Hi key pl Hp) as (? & ? & Hb). split_and!; [done|done|].
    intros Hn. apply (bound_ok_ext c); [|by apply Hb]. destruct (Hlook key) as [->|[-> _]]; auto.
  - apply (inv_room c Hi).
Qed.

Lemma inv_step c a c' :
  inv c -> sane_topology (lister (cl_tm c)) -> admissible c a -> exec c a = Some c' ->
  inv c' /\ lister (cl_tm c') = lister (cl_tm c).
Proof.
  intros Hi Hsane Hadm He. destruct a as [pod nodes chosen|key|kc key|key| |d].
  - by eapply inv_schedule.
  - cbn [exec] in He. destruct (cl_binding c !! key) as [slot|] eqn:Hb; [|done].
    destruct (cl_pods c !! key) as [pl|] eqn:Hp; [|done]. simplify_eq.
    destruct (inv_pods c Hi key pl Hp) as (Hkey & _).
    destruct (Unreserve_lookup (cl_tm c) slot (pl_pod pl) (pl_node pl) key (inv_cache c Hi) Hkey)
      as (Hl & _ & _ & Hnone).
    split; [|done]. apply inv_drop; [done|done|]. apply Hnone.
    destruct (inv_slots c Hi key slot Hb) as (pl' & Hpl' & s & -> & _ & _ & Hc).
    assert (pl' = pl) as -> by congruence.
    destruct Hc as [[_ ?]|(_ & _ & Hw)]; [by left|right; by exists s].
  - by eapply inv_bound.
  - cbn [exec] in He. destruct (cl_binding c !! key) as [slot|] eqn:Hb; [done|]. simplify_eq.
    split; [|done]. apply (inv_change c _ key Hi); cbn [cl_tm cl_pods cl_binding cl_gone]; try done.
    + apply (inv_cache c Hi).
    + intros k Hne. by rewrite lookup_delete_ne.
    + set_solver.
    + set_solver.
    + intros slot. by rewrite Hb.
    + intros pl. by rewrite lookup_delete_eq.
    + intros n nrt z Hl Hz. etrans; [apply (granted_drop c n _ key Hi)|]. by eapply inv_room.
  - cbn [exec] in He. simplify_eq. split; [by apply inv_cleanup|done].
  - cbn [exec] in He. simplify_eq. split; [|done]. destruct Hi. by split.
Qed.

Lemma reachable_inv tm t now c :
  sane_topology (lister tm) -> reachable (initial tm t now) c ->
  inv c /\ lister (cl_tm c) = lister tm.
Proof.
  intros Hs. induction 1 as [|c a c' _ [Hi Hl] Hadm He]; [split; [by apply inv_initial|done]|].
  destruct (inv_step c a c' Hi ltac:(by rewrite Hl) Hadm He) as [Hi' Hl']. split; [done|congruence].
Qed.

End Invariant.

(** ** The order of the filters *)

Section Order.
Context `{QL : QuantityLib} `{RL : !ResourceLib} `{TN : TopologyNames} `{TC : !TopologyCodec}.
Context `{SS : SortSlice} `{PK : !PodKeys} `{SL : ScoreLib}.

Definition ni_name (ni : NodeInfo) : option string := option_map node_Name (ni_Node ni).

Definition record_answer (s : stateData) (nw : option nodeWrapper) : stateData :=
  match nw with Some nw => with_wrapper s nw | None => s end.

Lemma assignTopologyResult_node nw request nw' :
  assignTopologyResult nw request = Ret nw' -> nw_node nw' = nw_node nw.
Proof.
  unfold assignTopologyResult. cbv zeta. cbn [nw_aware with_nodes nw_numaNodes].
  destruct (nw_aware nw).
  - destruct (sort_Slice freer _); [done|]. by intros [= <-].
  - destruct (assign_loop _ _) as [[ns zs]|]; [|done]. cbn [go_bind]. by intros [= <-].
Qed.

(** What a filter answers, and the wrapper it records, do not depend on what other filters have
    recorded. *)
Lemma Filter_factor tm s pod ni :
  exists ans : go (Status * option nodeWrapper),
    (forall m, Filter tm (SlotData (with_map s m)) pod ni =
       let! (st, nw) := ans in Ret (st, SlotData (record_answer (with_map s m) nw))) /\
    (forall st nw, ans = Ret (st, Some nw) -> ni_name ni = Some (nw_node nw)).
Proof.
  unfold Filter, ni_name. cbn [getStateData with_map targetContainerIndices].
  destruct (ni_Node ni) as [node|]; [|by eexists (Ret (_, None))].
  destruct (IsDaemonsetPod pod || _); [by eexists (Ret (_, None))|].
  destruct (lister tm (node_Name node)) as [nrt|]; [|by eexists (Ret (_, None))].
  destruct (negb _); [by eexists (Ret (_, None))|]. cbv zeta.
  set (nw := initializeNodeWrapper tm s node (ni_Pods ni) nrt).
  assert (forall m, initializeNodeWrapper tm (with_map s m) node (ni_Pods ni) nrt = nw) as Hnw by done.
  assert (nw_node nw = node_Name node) as Hnode
    by (unfold nw; by rewrite initializeNodeWrapper_spec).
  assert (forall m w, filterNUMANodeResource (with_map s m) w = filterNUMANodeResource s w) as Hf by done.
  set (p := if nw_aware nw then filterNUMANodeResource s nw else (None, nw)).
  assert (nw_node (snd p) = node_Name node) as Hp.
  { unfold p. destruct (nw_aware nw); [|done]. unfold filterNUMANodeResource.
    by destruct (length _ =? 0)%nat. }
  exists (match fst p with
          | Some st => Ret (Some st, None)
          | None => let! nw := assignTopologyResult (snd p) (targetContainerResource s) in
                    Ret (None, Some nw)
          end). split.
  - intros m. rewrite Hnw, Hf. fold p. destruct p as [[st|] w]; [done|]. cbn [fst snd].
    change (targetContainerResource (with_map s m)) with (targetContainerResource s).
    by destruct (assignTopologyResult w (targetContainerResource s)).
  - intros st w. destruct p as [[st0|] w0]; [done|]. cbn [fst snd] in *.
    destruct (assignTopologyResult w0 _) as [w1|] eqn:Ha; [|done]. cbn [go_bind]. intros [= <- <-].
    cbn. by rewrite (assignTopologyResult_node _ _ _ Ha), Hp.
Qed.

Lemma with_map_self s : s = with_map s (podTopologyByNode s).
Proof. by destruct s. Qed.

(** Two filters of different nodes commute. *)
Lemma Filter_commute tm slot pod a b :
  ni_name a <> ni_name b \/ ni_name a = None ->
  match (let! (sa, slot1) := Filter tm slot pod a in
         let! (sb, slot2) := Filter tm slot1 pod b in Ret (sa, sb, slot2)),
        (let! (sb, slot1) := Filter tm slot pod b in
         let! (sa, slot2) := Filter tm slot1 pod a in Ret (sa, sb, slot2)) with
  | Ret x, Ret y => x = y
  | Panic _, Panic _ => True
  | _, _ => False
  end.
Proof.
  intros Hne. destruct slot as [e| |s]; [done|done|].
  rewrite (with_map_self s). generalize (podTopologyByNode s) as m. intros m.
  destruct (Filter_factor tm s pod a) as (fa & Ha & Hna), (Filter_factor tm s pod b) as (fb & Hb & Hnb).
  assert (forall nw m, record_answer (with_map s m) nw =
    with_map s (match nw with Some w => <[nw_node w := w]> m | None => m end)) as Hrec
    by (intros [w|] m'; done).
  rewrite Ha, Hb. destruct fa as [[sa na]|]; destruct fb as [[sb nb]|]; cbn [go_bind];
    rewrite ?Hrec, ?Ha, ?Hb; cbn [go_bind]; try done.
  rewrite !Hrec. do 3 f_equal. destruct na as [wa|], nb as [wb|]; try done.
  specialize (Hna _ _ eq_refl). specialize (Hnb _ _ eq_refl).
  apply insert_insert_ne. intros He. destruct Hne as [Hne|Hne]; congruence.
Qed.

Definition same_answers (infos infos' : list NodeInfo) (r r' : go (list Status * cycle_slot)) : Prop :=
  match r, r' with
  | Ret (sts, slot), Ret (sts', slot') =>
      slot = slot' /\ zip infos sts ≡ₚ zip infos' sts'
  | Panic _, Panic _ => True
  | _, _ => False
  end.

Lemma filter_nodes_perm tm pod infos infos' :
  infos ≡ₚ infos' -> NoDup (omap ni_name infos) ->
  forall slot, same_answers infos infos' (filter_nodes tm slot pod infos)
    (filter_nodes tm slot pod infos').
Proof.
  induction 1 as [|a l l' _ IH|a b l|l1 l2 l3 H1 IH1 H2 IH2]; intros Hd slot.
  - done.
  - assert (NoDup (omap ni_name l)) as Hd'.
    { cbn [omap list_omap] in Hd. destruct (ni_name a); [by apply NoDup_cons in Hd as [_ Hd]|done]. }
    cbn [filter_nodes]. destruct (Filter tm slot pod a) as [[st slot1]|]; [|done]. cbn [go_bind].
    specialize (IH Hd' slot1).
    destruct (filter_nodes tm slot1 pod l) as [[? ?]|], (filter_nodes tm slot1 pod l') as [[? ?]|];
      try done. destruct IH as [-> Hp]. split; [done|]. by constructor.
  - assert (ni_name a <> ni_name b \/ ni_name a = None) as Hne.
    { cbn [omap list_omap] in Hd. destruct (ni_name a) as [na|] eqn:Ea, (ni_name b) as [nb|] eqn:Eb;
        [left|by left|by right..]. intros [= ->].
      apply NoDup_cons in Hd as [Hd _]. apply Hd. by left. }
    pose proof (Filter_commute tm slot pod a b Hne) as Hc. cbn [filter_nodes].
    destruct (Filter tm slot pod a) as [[sa sl1]|]; destruct (Filter tm slot pod b) as [[sb sl2]|];
      cbn [go_bind] in *.
    + destruct (Filter tm sl1 pod b) as [[sb' sl3]|], (Filter tm sl2 pod a) as [[sa' sl4]|];
        cbn [go_bind] in *; try done. simplify_eq.
      destruct (filter_nodes tm sl4 pod l) as [[sts sl5]|]; cbn [go_bind]; [|done].
      split; [done|]. cbn [zip zip_with]. constructor.
    + destruct (Filter tm sl1 pod b) as [[? ?]|]; cbn [go_bind] in *; done.
    + destruct (Filter tm sl2 pod a) as [[? ?]|]; cbn [go_bind] in *; done.
    + done.
  - assert (NoDup (omap ni_name l2)) as Hd2 by (by rewrite <- H1).
    specialize (IH1 Hd slot). specialize (IH2 Hd2 slot).
    destruct (filter_nodes tm slot pod l1) as [[? ?]|], (filter_nodes tm slot pod l2) as [[? ?]|],
      (filter_nodes tm slot pod l3) as [[? ?]|]; try done.
    destruct IH1 as [-> ?], IH2 as [-> ?]. split; [done|]. by etrans.
Qed.

End Order.

(** ** Properties *)

Section CycleProperties.
Context `{QL : QuantityLib} `{RL : !ResourceLib} `{TN : TopologyNames} `{TC : !TopologyCodec}.
Context `{SS : SortSlice} `{PK : !PodKeys} `{SL : ScoreLib} `{PS : !PatchServer}.
Context `{!QuantityLaws} `{!ResourceLaws}.

(** C2: no NUMA zone is overcommitted. However pods are scheduled, bound, given up and removed,
    and whenever the cache is cleaned up, the pods on a node are never granted together more CPU
    of a zone than it has: aware and unaware pods alike, reserved ones included. It holds from
    a start of the plugin, at any time and with any topologies whose zones have distinct names, on
    nodes that have no pods yet ([initial]), as long as pods that are scheduled are new and no
    assumption expires while its pod is still being bound. *)
Theorem no_overcommit (tm : TopologyMatch) (t : Duration) (now : Z) (c : cluster) (n : string)
    (nrt : NodeResourceTopology) (z : Zone) :
  sane_topology (lister tm) -> reachable (initial tm t now) c ->
  lister tm n = Ok nrt -> z ∈ nrt_Zones nrt ->
  granted c n (z_Name z) <= zone_allocatable z.
Proof.
  intros Hs Hr Hl Hz. destruct (reachable_inv tm t now c Hs Hr) as [Hi He].
  apply (inv_room c Hi n nrt); [by rewrite He|done].
Qed.

(** C21: the plugin's account is the true one. In every reachable state the account that the next
    [Filter] opens for a node from its pods' annotations and the cache charges each zone with
    exactly the CPU its pods were granted there, and leaves what is still free of it. *)
Theorem account_is_grants (tm : TopologyMatch) (t : Duration) (now : Z) (c : cluster)
    (s : stateData) (node : Node) (nrt : NodeResourceTopology) (i : nat) (z : Zone) :
  sane_topology (lister tm) -> reachable (initial tm t now) c ->
  lister tm (node_Name node) = Ok nrt -> nrt_Zones nrt !! i = Some z ->
  exists nn,
    nw_numaNodes (initializeNodeWrapper (cl_tm c) s node (ni_Pods (node_info c node)) nrt) !! i
      = Some nn /\
    name nn = z_Name z /\ MilliCPU (requested nn) = granted c (node_Name node) (z_Name z) /\
    MilliCPU (allocatable nn) = zone_allocatable z /\ 0 <= spare nn.
Proof.
  intros Hs Hr Hl Hz. destruct (reachable_inv tm t now c Hs Hr) as [Hi He].
  rewrite initializeNodeWrapper_spec. cbn [nw_numaNodes ni_Pods node_info].
  rewrite list_lookup_fmap, Hz. eexists. split; [done|]. split; [done|].
  assert (z ∈ nrt_Zones nrt) as Hin by (by eapply list_elem_of_lookup_2).
  destruct (Hs _ nrt Hl) as [_ Ha]. rewrite Forall_forall in Ha. specialize (Ha z Hin).
  rewrite <- He in Hl. pose proof (inv_room c Hi _ nrt z Hl Hin) as Hroom.
  pose proof (spare_account c (node_Name node) z Hi Ha Hroom) as Hsp.
  rewrite Hsp. unfold spare, zone_allocatable in *.
  cbn [allocatable credit newNumaNode] in *. split_and!; [lia|done|lia].
Qed.

(** C30: the cycle states are well typed. A pod that is being bound has the plugin's own data in
    its cycle state: reading it never fails, its result is what the pod was granted, every zone
    of it is a NUMA node with no negative CPU, and when there is one the cache holds it under the
    pod's key, so that [Unreserve] and [PreBind] undo and persist exactly this grant. *)
Theorem cycle_states_typed (tm : TopologyMatch) (t : Duration) (now : Z) (c : cluster)
    (key : string) (slot : cycle_slot) :
  sane_topology (lister tm) -> reachable (initial tm t now) c ->
  cl_binding c !! key = Some slot ->
  exists s pl, getStateData slot = Ok s /\ cl_pods c !! key = Some pl /\
    GetPodKey (pl_pod pl) = Ok key /\ topologyResult s = pl_zones pl /\
    Forall (fun z => z_Type z = ZoneTypeNode /\ 0 <= zone_cpu z) (topologyResult s) /\
    (topologyResult s <> [] ->
       GetPodTopology (tm_cache (cl_tm c)) (pl_pod pl) = Ok (topologyResult s) /\
       is_Some (podTopologyByNode s !! pl_node pl)).
Proof.
  intros Hs Hr Hb. destruct (reachable_inv tm t now c Hs Hr) as [Hi _].
  destruct (inv_slots c Hi key slot Hb) as (pl & Hpl & s & -> & Hres & _ & Hc).
  destruct (inv_pods c Hi key pl Hpl) as (Hkey & Hz & _).
  exists s, pl. rewrite Hres. split_and!; try done. intros Hne.
  destruct Hc as [[? _]|(_ & Hc & Hw)]; [done|]. split; [|done].
  unfold GetPodTopology. by rewrite Hkey, Hc.
Qed.

(** C31: the filters of a cycle may run in any order. The framework filters the nodes of a cycle
    concurrently over one shared state; for nodes of different names every order gives each node
    the same status and leaves the same cycle state, or panics when another one does. *)
Theorem filters_any_order (tm : TopologyMatch) (slot : cycle_slot) (pod : Pod)
    (infos infos' : list NodeInfo) :
  infos ≡ₚ infos' -> NoDup (omap ni_name infos) ->
  same_answers infos infos' (filter_nodes tm slot pod infos) (filter_nodes tm slot pod infos').
Proof. intros Hp Hd. by apply filter_nodes_perm. Qed.

End CycleProperties.

(** ** Witnesses *)

Section Witnesses.
#[local] Existing Instance MilliQuantities.
#[local] Existing Instance MilliQuantities_laws.
#[local] Existing Instance MilliResources.
#[local] Existing Instance ExampleTopologyNames.
#[local] Existing Instance InsertionSort.
#[local] Existing Instance cx_keys.
#[local] Existing Instance ZeroToHundred.

Lemma add_quantity_cpu k q r :
  MilliCPU (add_quantity k q r) = MilliCPU r + if String.eqb k ResourceCPU then q else 0.
Proof. unfold add_quantity. repeat case_match; cbn [MilliCPU]; lia. Qed.

Lemma add_quantities_cpu (r : Resource) (l : gmap string Z) :
  MilliCPU (map_fold add_quantity r l) = MilliCPU r + default 0 (l !! ResourceCPU).
Proof.
  apply (map_fold_weak_ind (fun x l => MilliCPU x = MilliCPU r + default 0 (l !! ResourceCPU))).
  - rewrite lookup_empty. simpl. lia.
  - intros k q m x Hk IH. rewrite add_quantity_cpu, IH.
    destruct (String.eqb_spec k ResourceCPU) as [->|Hne].
    + rewrite Hk, lookup_insert_eq. simpl. lia.
    + rewrite lookup_insert_ne by done. lia.
Qed.

Lemma add_quantities_scalars (r : Resource) (l : gmap string Z) :
  default ∅ (ScalarResources r) !! ResourceCPU = None ->
  default ∅ (ScalarResources (map_fold add_quantity r l)) !! ResourceCPU = None.
Proof.
  intros Hr. apply (map_fold_weak_ind (fun x _ => default ∅ (ScalarResources x) !! ResourceCPU = None));
    [done|].
  intros k q m x _ IH. unfold add_quantity.
  destruct (String.eqb_spec k ResourceCPU) as [|Hne]; [done|].
  repeat case_match; try done. cbn [ScalarResources default from_option id].
  by rewrite lookup_insert_ne.
Qed.

Definition MilliResources_laws : @ResourceLaws MilliQuantities MilliResources.
Proof.
  split; [intros r l _; apply add_quantities_cpu|intros r l; apply add_quantities_scalars].
Defined.
#[local] Existing Instance MilliResources_laws.

(** A codec that writes the names, types and CPU of zones as bits. *)
Fixpoint pos_bits (p : positive) : string :=
  match p with
  | xH => ""
  | xO p => String "0" (pos_bits p)
  | xI p => String "1" (pos_bits p)
  end.

Fixpoint bits_pos (s : string) : positive :=
  match s with
  | "" => xH
  | String c s => if Ascii.eqb c "0" then xO (bits_pos s) else xI (bits_pos s)
  end.

Lemma bits_roundtrip p : bits_pos (pos_bits p) = p.
Proof. induction p as [p IH|p IH|]; simpl; by rewrite ?IH. Qed.

Definition zone_code (z : Zone) : string * string * Z := (z_Name z, z_Type z, zone_cpu z).
Definition zone_of (x : string * string * Z) : Zone :=
  let '(n, t, c) := x in
  {| z_Name := n; z_Type := t;
     z_Resources := Some {| ri_Capacity := {["cpu" := c]}; ri_Allocatable := ∅ |} |}.

Definition yx_marshal (zs : list Zone) : string := pos_bits (encode (List.map zone_code zs)).

Definition yx_codec : TopologyCodec := {|
  MarshalZones := fun zs => Ok (yx_marshal zs);
  UnmarshalZones := fun raw =>
    match decode (A := list (string * string * Z)) (bits_pos raw) with
    | Some l => Ok (List.map zone_of l)
    | None => Err (Errorf "invalid character" [])
    end;
  MarshalPod := fun p =>
    Ok (default "" (annos (om_Annotations (pod_meta p)) !! "topology/result"));
  CreateMergePatch := fun _ newData => Ok newData |}.
#[local] Existing Instance yx_codec.

Definition yx_server : PatchServer.
Proof.
  refine {| apply_merge_patch := fun patch p => with_annotation p "topology/result" patch |}.
  - intros pod v o n patch _. cbn. rewrite lookup_insert_eq. by intros [= <-] [= <-].
  - intros zs raw [= <-]. cbn [UnmarshalZones yx_codec]. unfold yx_marshal.
    rewrite bits_roundtrip, decode_encode. eexists. split; [done|]. rewrite map_map.
    induction zs as [|z zs IH]; constructor; [|done]. unfold zone_code, zone_of, same_zone.
    split_and!; [done|done|]. unfold zone_cpu at 2, rl_get. cbn. by rewrite lookup_singleton_eq.
  - done.
Defined.
#[local] Existing Instance yx_server.

Definition yx_container (cpu : Z) : Container :=
  {| c_Requests := {["cpu" := cpu]}; c_Limits := {["cpu" := cpu]} |}.
Definition yx_pod (n : string) (cpu : Z) : Pod :=
  {| pod_meta := meta0 n; pod_NodeName := ""; pod_Containers := [yx_container cpu] |}.
Definition yx_node : Node := px_node.
Definition yx_nrt (zones : list Zone) : NodeResourceTopology :=
  px_nrt "SingleNUMANodePodLevel" zones.
Definition yx_zones : list Zone := [px_zone "a" 4000; px_zone "b" 4000].
Definition yx_tm : TopologyMatch := px_tm (yx_nrt yx_zones).
Definition yx_start : cluster := initial yx_tm (30 * Minute) 0.

Fixpoint exec_all (c : cluster) (l : list action) : option cluster :=
  match l with
  | [] => Some c
  | a :: l' => match exec c a with Some c' => exec_all c' l' | None => None end
  end.

(** [admissible] as a test, and a run whose actions all pass it. *)
Definition admissible_bool (c : cluster) (a : action) : bool :=
  match a with
  | Schedule pod _ _ =>
      match GetPodKey pod with
      | Ok key =>
          match cl_pods c !! key with None => negb (bool_decide (key ∈ cl_gone c)) | Some _ => false end
      | Err _ => true
      end && (length (GetPodNUMANodeResult pod) =? 0)%nat
  | Cleanup =>
      forallb (fun kd => match cl_binding c !! fst kd with Some _ => cl_now c <=? snd kd | None => true end)
        (map_to_list (podTopologyTTL (tm_cache (cl_tm c))))
  | _ => true
  end.

Lemma admissible_bool_spec c a : admissible_bool c a = true -> admissible c a.
Proof.
  destruct a as [pod nodes i| | | | |]; try done; cbn.
  - intros [H Hl]%andb_true_iff. split; [|by apply Nat.eqb_eq, nil_length_inv in Hl].
    intros key [= <-]. destruct (cl_pods c !! om_Name (pod_meta pod)); [done|]. split; [done|].
    by apply negb_true_iff, bool_decide_eq_false in H.
  - intros H key dl [slot Hs] Hd. rewrite forallb_forall in H.
    specialize (H (key, dl)). cbn in H. rewrite Hs in H. apply Z.leb_le, H.
    apply list_elem_of_In. by apply elem_of_map_to_list.
Qed.

Fixpoint run_ok (c : cluster) (l : list action) : bool :=
  match l with
  | [] => true
  | a :: l' => admissible_bool c a && match exec c a with Some c' => run_ok c' l' | None => false end
  end.

Lemma run_ok_reachable c0 c l :
  reachable c0 c -> run_ok c l = true -> exists c', exec_all c l = Some c' /\ reachable c0 c'.
Proof.
  revert c. induction l as [|a l IH]; intros c Hc; cbn; [by exists c|].
  intros [Ha Hl]%andb_true_iff. destruct (exec c a) as [c'|] eqn:He; [|done].
  apply IH; [|done]. eapply reach_step; [exact Hc|by apply admissible_bool_spec|exact He].
Qed.

Definition yx_after (l : list action) : cluster := default yx_start (exec_all yx_start l).

Definition yx_kc : client := fun _ => None.
Definition yx_acts : list action :=
  [Schedule (yx_pod "p" 3000) [yx_node] 0; Tick Second; Cleanup; Bound yx_kc "p";
   Schedule (yx_pod "q" 2000) [yx_node] 0].

Example yx_grants :
  List.map (granted (yx_after yx_acts) "n1") ["a"; "b"] = [3000; 2000].
Proof. vm_compute. reflexivity. Qed.

Lemma yx_sane : sane_topology (lister yx_tm).
Proof.
  intros n nrt [= <-]. split.
  - vm_compute. repeat constructor; set_solver.
  - repeat constructor; vm_compute; discriminate.
Defined.

(** Compute both sides in the virtual machine and compare them there. *)
Ltac by_vm := match goal with |- ?a = ?b => exact (@eq_refl _ b <: a = b) end.

Lemma yx_reachable : reachable yx_start (yx_after yx_acts).
Proof.
  destruct (run_ok_reachable yx_start yx_start yx_acts (reach_refl _)) as (c & Hc & Hr); [by_vm|].
  unfold yx_after. rewrite Hc. exact Hr.
Qed.

Lemma no_overcommit_witness :
  granted (yx_after yx_acts) "n1" (z_Name (px_zone "a" 4000)) <= zone_allocatable (px_zone "a" 4000).
Proof.
  apply (no_overcommit yx_tm (30 * Minute) 0 (yx_after yx_acts) "n1" (yx_nrt yx_zones)
           (px_zone "a" 4000)).
  - exact yx_sane.
  - exact yx_reachable.
  - reflexivity.
  - left.
Defined.

Lemma account_is_grants_witness :
  exists nn,
    nw_numaNodes (initializeNodeWrapper (cl_tm (yx_after yx_acts)) (px_state ∅ []) yx_node
        (ni_Pods (node_info (yx_after yx_acts) yx_node)) (yx_nrt yx_zones)) !! 1%nat = Some nn /\
    name nn = "b" /\ MilliCPU (requested nn) = granted (yx_after yx_acts) "n1" "b" /\
    MilliCPU (allocatable nn) = zone_allocatable (px_zone "b" 4000) /\ 0 <= spare nn.
Proof.
  apply (account_is_grants yx_tm (30 * Minute) 0 (yx_after yx_acts) (px_state ∅ []) yx_node
           (yx_nrt yx_zones) 1 (px_zone "b" 4000)).
  - exact yx_sane.
  - exact yx_reachable.
  - reflexivity.
  - reflexivity.
Defined.

Lemma cycle_states_typed_witness :
  exists slot s pl, cl_binding (yx_after yx_acts) !! "q" = Some slot /\
    getStateData slot = Ok s /\ cl_pods (yx_after yx_acts) !! "q" = Some pl /\
    GetPodKey (pl_pod pl) = Ok "q" /\ topologyResult s = pl_zones pl /\
    Forall (fun z => z_Type z = ZoneTypeNode /\ 0 <= zone_cpu z) (topologyResult s) /\
    (topologyResult s <> [] ->
       GetPodTopology (tm_cache (cl_tm (yx_after yx_acts))) (pl_pod pl) = Ok (topologyResult s) /\
       is_Some (podTopologyByNode s !! pl_node pl)).
Proof.
  assert (match cl_binding (yx_after yx_acts) !! "q" with Some _ => true | None => false end = true)
    as Hsome by by_vm.
  destruct (cl_binding (yx_after yx_acts) !! "q") as [slot|] eqn:Hslot; [|discriminate].
  exists slot. destruct (cycle_states_typed yx_tm (30 * Minute) 0 (yx_after yx_acts) "q" slot
      yx_sane yx_reachable Hslot) as (s & pl & H). exists s, pl. split; [reflexivity|exact H].
Defined.

Lemma filters_any_order_witness :
  same_answers
    [px_info; {| ni_Node := None; ni_Pods := [] |}] [{| ni_Node := None; ni_Pods := [] |}; px_info]
    (filter_nodes yx_tm (SlotData (px_state ∅ [])) px_pod
       [px_info; {| ni_Node := None; ni_Pods := [] |}])
    (filter_nodes yx_tm (SlotData (px_state ∅ [])) px_pod
       [{| ni_Node := None; ni_Pods := [] |}; px_info]).
Proof.
  apply (filters_any_order yx_tm (SlotData (px_state ∅ [])) px_pod).
  - apply perm_swap.
  - vm_compute. repeat constructor. set_solver.
Defined.

(** The conditions of [admissible] are needed. *)

Definition yx_retry : Pod :=
  with_annotation (yx_pod "p" 3000) "topology/result" (yx_marshal [px_zone "a" 3000]).

(** A pod whose bind failed after [PreBind] comes back with the result of its first attempt. *)
Definition yx_stale : list action :=
  [Schedule (yx_pod "q" 3000) [yx_node] 0; Schedule yx_retry [yx_node] 0;
   Schedule (yx_pod "r" 3000) [yx_node] 0].

Definition yx_late : list action :=
  [Schedule (yx_pod "p" 3000) [yx_node] 0; Tick (31 * Minute); Cleanup;
   Schedule (yx_pod "q" 3000) [yx_node] 0].

(** A run after which the pods on "n1" were granted more of a zone than [limit]. *)
Definition overcommits (l : list action) (zone : string) (limit : Z) : bool :=
  match exec_all yx_start l with Some c => limit <? granted c "n1" zone | None => false end.

Lemma overcommits_run l zone limit : overcommits l zone limit = true ->
  exists c, exec_all yx_start l = Some c /\ limit < granted c "n1" zone.
Proof.
  unfold overcommits. destruct (exec_all yx_start l) as [c|]; [|done].
  intros H. exists c. split; [done|]. by apply Z.ltb_lt.
Qed.

(** Both conditions of [no_overcommit] are needed. On a node with two zones of four CPUs, a pod that is scheduled
    again after a failed bind is charged to the zone its old annotation names instead of the one
    it was just granted, so that a third pod of three CPUs is put on top of it; and when an
    assumption expires while its pod is still being bound, the next pod is put into the same
    zone. Each run overcommits a zone, 6 CPUs of 4. *)
Example annotation_and_expiry_overcommit :
  (exists c, exec_all yx_start yx_stale = Some c /\
     zone_allocatable (px_zone "b" 4000) < granted c "n1" "b") /\
  (exists c, exec_all yx_start yx_late = Some c /\
     zone_allocatable (px_zone "a" 4000) < granted c "n1" "a").
Proof.
  split; apply overcommits_run; by_vm.
Qed.

End Witnesses.
