(* ===== verification/AnnotatorSystem.v ===== *)
(** * The annotator and the API server over time

    The workers of pkg/controller/annotator as a transition system: tickers enqueue keys, node
    workers measure and write, event, pod and reset workers write the other annotations of a
    node, and time passes, in any order and with any answers of Prometheus and of the API server.
    The state is what the server stores in the nodes' annotations, the keys waiting in the node
    queue, the clock, and a log of the turns of the node workers with everything each of them was
    given; what a step depends on (caches of the informers, the store of bindings, the answers)
    is chosen by the step. Each worker runs the functions of AnnotatorNode, AnnotatorEvent and
    AnnotatorApp; its requests take effect in the order they were sent, and the server reports
    success only of a patch that it could apply.

    Composed with the reading side (Utils, Dynamic) this gives the contract between the two
    programs: what the scheduler acts on was measured and is not stale, and rounds of the workers
    eventually refresh every annotation. *)

From S2P Require Import Prelude GoStrings GoFloat GoTime GoHeap K8s Policy Utils Binding HotValue.
From S2P Require Import Prometheus AnnotatorQueue AnnotatorNode AnnotatorEvent AnnotatorApp Dynamic.

Open Scope string_scope.
Open Scope Z_scope.

(** ** Strings *)

(** The last separator of a string splits it in one way. *)
Lemma last_separator c a b a' b' :
  no_char c b = true -> no_char c b' = true -> a ++ String c b = a' ++ String c b' ->
  a = a' /\ b = b'.
Proof.
  intros Hb Hb'. assert (forall x y, no_char c (x ++ String c y) = true -> False) as Hno.
  { intros x y H. rewrite no_char_app in H. apply andb_true_iff in H as [_ H]. simpl in H.
    by rewrite Ascii.eqb_refl in H. }
  revert a'. induction a as [|x a IH]; intros [|x' a'] He; simpl in He.
  - by simplify_eq.
  - simplify_eq. destruct (Hno a' b' Hb).
  - simplify_eq. destruct (Hno a b Hb').
  - simplify_eq. destruct (IH a') as [-> ->]; [done|]. done.
Qed.

Lemma plain_no_slash s : plain s = true -> no_char "/" s = true.
Proof. apply plain_no_char. right; right; by left. Qed.

Lemma plain_digits s : all_digits s = true -> plain s = true.
Proof.
  intros H. apply (plain_by _ (fun c => negb (is_digit c))); [done|].
  intros c Hc%negb_true_iff. by apply all_digits_no_char.
Qed.

Lemma plain_Itoa z : plain (Itoa z) = true.
Proof.
  unfold Itoa. destruct (z <? 0); [|by apply plain_digits, all_digits_dec].
  change (String "-" (dec (- z))) with ("-" ++ dec (- z)).
  rewrite plain_app, (plain_digits (dec (- z))) by apply all_digits_dec. done.
Qed.

Lemma handling_inj n m n' m' :
  no_char "/" m = true -> no_char "/" m' = true ->
  handlingMetaKeyWithMetricName n m = handlingMetaKeyWithMetricName n' m' -> n = n' /\ m = m'.
Proof. intros Hm Hm'. by apply last_separator. Qed.

(** ** Eventually *)

(** Every run of [step] from [a] reaches [P], and none is stuck before. *)
Inductive eventually {A} (step : A -> A -> Prop) (P : A -> Prop) (a : A) : Prop :=
| eventually_now : P a -> eventually step P a
| eventually_later : (exists b, step a b) -> (forall b, step a b -> eventually step P b) ->
    eventually step P a.

Lemma eventually_measure {A} (step : A -> A -> Prop) (P I : A -> Prop) (measure : A -> nat) a :
  (forall a, I a -> I a /\ P a \/
     (exists b, step a b) /\ forall b, step a b -> I b /\ (measure b < measure a)%nat) ->
  I a -> eventually step (fun a => I a /\ P a) a.
Proof.
  intros H. induction a as [a IH] using (induction_ltof1 _ measure). intros Ha.
  destruct (H a Ha) as [HP|[He Hs]]; [by apply eventually_now|]. apply eventually_later; [done|].
  intros b Hb. destruct (Hs b Hb). by apply IH.
Qed.

Lemma eventually_impl {A} (step : A -> A -> Prop) (P Q : A -> Prop) a :
  (forall a, P a -> Q a) -> eventually step P a -> eventually step Q a.
Proof.
  intros H. induction 1 as [a Ha|a He _ IH]; [by apply eventually_now, H|]. by apply eventually_later.
Qed.

(** ** Prometheus answers text that needs no escaping and holds no comma *)

Definition clean (s : string) : bool := plain s && no_char "," s.

Definition plain_answer (r : result string) : Prop :=
  forall s, r = Ok s -> clean s = true.

Class PromText (PC : PromClient) := {
  text_QueryByNodeIP : forall clock m a, plain_answer (QueryByNodeIP clock m a);
  text_QueryByNodeName : forall clock m a, plain_answer (QueryByNodeName clock m a);
  text_QueryRangeByNodeIP : forall clock m a, plain_answer (QueryRangeByNodeIP clock m a);
  text_QueryRangeByNodeName : forall clock m a, plain_answer (QueryRangeByNodeName clock m a);
  text_QueryByDeployment : forall clock m a, plain_answer (QueryByDeployment clock m a);
  text_QueryRangeByDeployment : forall clock m a, plain_answer (QueryRangeByDeployment clock m a) }.

Lemma clean_app a b : clean (a ++ b) = clean a && clean b.
Proof.
  unfold clean. rewrite plain_app, no_char_app.
  by destruct (plain a), (plain b), (no_char "," a), (no_char "," b).
Qed.

Lemma clean_FormatFloat5 x : clean (FormatFloat5 x) = true.
Proof. unfold clean. by rewrite plain_FormatFloat5, FormatFloat5_no_char. Qed.

Lemma clean_join l : Forall (fun s => clean s = true) l -> clean (join "|" l) = true.
Proof.
  induction 1 as [|s l Hs Hl IH]; [done|]. destruct l as [|s' l]; [done|].
  change (join "|" (s :: s' :: l)) with (s ++ "|" ++ join "|" (s' :: l)).
  by rewrite !clean_app, Hs, IH.
Qed.

Lemma query_plain p now q : plain_answer (query p now q).
Proof.
  intros s. unfold query. destruct (Query p q now) as [[ws v]|e]; [|done].
  destruct (0 <? length ws)%nat; [done|]. destruct v as [vs| |]; try done. intros [= <-].
  induction vs as [|v vs _] using rev_ind; [done|]. rewrite foldl_snoc. apply clean_FormatFloat5.
Qed.

Lemma queryRange_plain p Local now q : plain_answer (queryRange p Local now q).
Proof.
  intros s. unfold queryRange. cbv zeta. destruct (QueryRange _ _ _ _ _) as [[ws v]|e]; [|done].
  destruct (0 <? length ws)%nat; [done|]. destruct v as [|[|vs series]|]; try done.
  rewrite range_loop_join. destruct (_ =? 0)%nat; [done|]. intros [= <-].
  apply clean_join, Forall_map, Forall_true. intros x. apply clean_FormatFloat5.
Qed.

Lemma or_err_plain r : plain_answer r -> plain_answer (or_err r).
Proof.
  intros Hr s. unfold or_err, non_empty. destruct r as [t|e]; [|done].
  destruct (String.eqb t ""); intros [= <-]; [done|by apply Hr].
Qed.

Lemma by_ip_plain ask clock m ip suffix :
  (forall now q, plain_answer (ask now q)) -> plain_answer (by_ip ask clock m ip suffix).
Proof.
  intros Ha s. unfold by_ip. destruct (non_empty _) as [t|] eqn:Hn; [|by apply or_err_plain].
  intros [= <-]. unfold non_empty in Hn. destruct (ask _ _) as [t'|] eqn:Hask; [|done].
  destruct (String.eqb t' ""); [done|]. simplify_eq. by eapply Ha.
Qed.

#[export] Instance promClient_text (p : prom_api) (Local : Location) : PromText (promClient p Local).
Proof.
  split; intros; cbn.
  - apply by_ip_plain, query_plain.
  - apply or_err_plain, query_plain.
  - apply by_ip_plain, queryRange_plain.
  - apply or_err_plain, queryRange_plain.
  - apply or_err_plain, query_plain.
  - apply or_err_plain, queryRange_plain.
Qed.

(** ** The system *)

#[export] Instance queue_op_eq_dec : EqDecision queue_op.
Proof. solve_decision. Defined.

Section System.
Context `{QL : QuantityLib} `{JS : JSONPatchServer}.
Context (env : Env) (loc : Location) (policy : DynamicSchedulerPolicy).

(** What a turn of a node worker was given: the Prometheus client with its answers, the clientset
    with the server's, the informer's nodes, the clocks, the store of bindings, and the key. *)
Record node_record := {
  nr_prom : PromClient;
  nr_client : client;
  nr_lister : string -> result Node;
  nr_clock : nat -> Z;
  nr_recs : nat -> BindingRecords;
  nr_hclock : nat -> Z;
  nr_now : Z;
  nr_key : string }.

(** [sy_annos] holds the annotations of each node that has any; [sy_log] the turns, the last one
    first. *)
Record sys := {
  sy_now : Z;
  sy_annos : gmap string smap;
  sy_queue : gset string;
  sy_log : list node_record }.

(** The state after other steps than the node workers'. *)
Definition served (s : sys) (now : Z) (m : gmap string smap) : sys :=
  {| sy_now := now; sy_annos := m; sy_queue := sy_queue s; sy_log := sy_log s |}.

Definition stored (m : gmap string smap) (n : string) : smap := default ∅ (m !! n).

(** A request with the answer the client gets. There is no outcome when the answer is a success
    that the server could not give: of a patch that does not apply, or of a node that has no
    annotations to patch. *)
Definition serve1 (kc : client) (m : gmap string smap) (rq : request) : option (gmap string smap) :=
  if String.eqb (rq_resource rq) "nodes" then
    match kc rq with
    | None => a ← m !! rq_name rq; a' ← apply_json_patch (rq_data rq) a; Some (<[rq_name rq := a']> m)
    | Some _ => Some m
    end
  else Some m.

Fixpoint serve (kc : client) (m : gmap string smap) (rqs : list request)
    : option (gmap string smap) :=
  match rqs with
  | [] => Some m
  | rq :: rqs' => m' ← serve1 kc m rq; serve kc m' rqs'
  end.

(** A key added to the queue waits once; one that is added rate limited waits too, for a time
    that the order of the steps leaves open. *)
Definition queue_after (q : gset string) (ops : list queue_op) : gset string :=
  foldl (fun q o =>
    match o with QAdd k | QAddRateLimited k => {[k]} ∪ q | QForget _ | QDone _ => q end) q ops.

(** Times whose year has four digits, outside the hours at which the zone's offset changes. *)
Definition fine (t : Z) : Prop :=
  0 <= year_of t loc < 10000 /\ zone_steady loc (t / Second) = true.

Definition named (lister : string -> result Node) : Prop :=
  forall n node, lister n = Ok node -> node_Name node = n.

Definition plain_usages (d : Deployment) (l : list SyncPolicy) : Prop :=
  Forall (fun p => forall v, dep_annos d !! sync_Name p = Some v -> plain v = true) l.

(** The annotator wrote the usages it reads on the deployments. *)
Definition plain_deployments (l : string -> string -> result Deployment) : Prop :=
  forall ns n d, l ns n = Ok d -> plain_usages d (SyncAppPeriod (Spec policy)).

Definition plain_deltas (l : string -> result Node) : Prop :=
  forall n node k v, l n = Ok node -> node_annos node !! k = Some v ->
    has_prefix k DeltaPrefixName = true -> plain k = true /\ plain v = true.

(** Steps that touch no delta and no metric: time passes; an event worker handles a key. *)
Inductive aside_step : sys -> sys -> Prop :=
| step_time s t : sy_now s <= t -> fine t -> aside_step s (served s t (sy_annos s))
| step_event s kc split eventLister lister br observe hclock now key rqs r m :
    sy_now s <= now -> fine now ->
    reconcile split env kc eventLister lister policy br observe hclock now key = (rqs, Ret r) ->
    serve kc (sy_annos s) rqs = Some m -> aside_step s (served s now m).

(** Steps that leave the node queue alone: those, and a reset or pod worker that handles a key of
    its own queue. *)
Inductive quiet_step : sys -> sys -> Prop :=
| step_aside s s' : aside_step s s' -> quiet_step s s'
| step_reset s kc lister order key rqs r m :
    plain_deltas lister -> (forall a k, k ∈ order a -> is_Some (a !! k)) ->
    ndr_syncNode kc lister order key = (rqs, Ret r) ->
    serve kc (sy_annos s) rqs = Some m -> quiet_step s (served s (sy_now s) m)
| step_pod s kc split podLister rsLister deployLister lister clock now key rqs r m :
    plain_deployments deployLister -> sy_now s <= now -> fine now ->
    (forall i, sy_now s <= clock i <= now /\ fine (clock i)) ->
    pod_reconcile split env kc podLister rsLister deployLister lister policy clock key
      = (rqs, Ret r) ->
    serve kc (sy_annos s) rqs = Some m -> quiet_step s (served s now m).

(** A turn of the node controller: [processNextWorkItem] with what the record holds. *)
Definition run_turn (r : node_record) : io (bool * list queue_op) :=
  processNextWorkItem (Some (nr_key r))
    (@syncNode QL (nr_prom r) env (nr_client r) (nr_lister r) policy (nr_clock r) (nr_recs r)
       (nr_hclock r) (nr_now r)).

(** A node worker takes a key of the queue. *)
Inductive node_turn (s : sys) (r : node_record) : sys -> Prop :=
| turn rqs ops m :
    PromText (nr_prom r) -> named (nr_lister r) -> nr_key r ∈ sy_queue s ->
    sy_now s <= nr_clock r 3%nat <= nr_now r -> fine (nr_clock r 3%nat) -> fine (nr_now r) ->
    run_turn r = (rqs, Ret (true, ops)) -> serve (nr_client r) (sy_annos s) rqs = Some m ->
    node_turn s r
      {| sy_now := nr_now r; sy_annos := m;
         sy_queue := queue_after (sy_queue s ∖ {[nr_key r]}) ops; sy_log := r :: sy_log s |}.

Inductive sys_step : sys -> sys -> Prop :=
| step_quiet s s' : quiet_step s s' -> sys_step s s'
| step_tick s p names : p ∈ SyncPeriod (Spec policy) ->
    sys_step s {| sy_now := sy_now s; sy_annos := sy_annos s;
                  sy_queue := queue_after (sy_queue s) (enqueue_all names p);
                  sy_log := sy_log s |}
| step_node s r s' : node_turn s r s' -> sys_step s s'.

(** The answer that counts for a metric: the query by the node's address if it succeeds, else the
    one by its name. *)
Definition asked (PC : PromClient) (clock : nat -> Z) (node : Node) (key : string) : result string :=
  let by_name := fun i => clock (2 + i)%nat in
  if has_prefix key PrefixRange then
    match QueryRangeByNodeIP clock (trim_prefix key PrefixRange) (getNodeInternalIP node) with
    | Ok value => Ok value
    | Err _ => QueryRangeByNodeName by_name (trim_prefix key PrefixRange) (getNodeName node)
    end
  else
    match QueryByNodeIP clock key (getNodeInternalIP node) with
    | Ok value => Ok value
    | Err _ => QueryByNodeName by_name key (getNodeName node)
    end.

(** At the turn [r] Prometheus was asked for the metric [k] of the node [n], and gave [value]. *)
Definition answered (r : node_record) (n k value : string) : Prop :=
  nr_key r = handlingMetaKeyWithMetricName n k /\
  exists node, nr_lister r n = Ok node /\ node_Name node = n /\
    asked (nr_prom r) (nr_clock r) node k = Ok value.

Definition stamped (value : string) (t : Z) : string := value ++ String "," (Format t loc).

(** What is stored for a metric: the answer to a turn of the log, stamped with its time. *)
Definition measurement (log : list node_record) (now : Z) (n k v : string) : Prop :=
  exists r value, r ∈ log /\ PromText (nr_prom r) /\ answered r n k value /\
    nr_clock r 3%nat <= now /\ fine (nr_clock r 3%nat) /\ v = stamped value (nr_clock r 3%nat).

(** Why a turn fails: for a listed node, Prometheus answered neither query, or the API server
    refused a request of the turn. *)
Definition turn_failed (r : node_record) : bool :=
  match splitMetaKeyWithMetricName (nr_key r) with
  | Err _ => false
  | Ok (n, k) =>
      match nr_lister r n with
      | Err _ => false
      | Ok node =>
          match asked (nr_prom r) (nr_clock r) node k with
          | Err _ => true
          | Ok _ => existsb (fun rq => match nr_client r rq with Some _ => true | None => false end)
                      (fst (run_turn r))
          end
      end
  end.

(** The metrics' names need no escaping, and are not those of the annotator's other keys. *)
Definition sane_policy : Prop :=
  Forall (fun p => plain (sync_Name p) = true /\ sync_Name p <> HotValueKey /\
            has_prefix (sync_Name p) DeltaPrefixName = false) (SyncPeriod (Spec policy)) /\
  Forall (fun p => plain (sync_Name p) = true) (SyncAppPeriod (Spec policy)).

(** Every node of [nodes] is listed. *)
Definition lists (nodes : gset string) (lister : string -> result Node) : Prop :=
  forall n, n ∈ nodes -> exists node, lister n = Ok node.

(** A turn of a node worker, after any activity of the other workers. *)
Definition next_turn (s : sys) (r : node_record) (s' : sys) : Prop :=
  exists s1, rtc quiet_step s s1 /\ node_turn s1 r s'.

(** Such a turn, while [nodes] are listed; the first component bounds the turns that may still
    fail. *)
Definition worker_turn (nodes : gset string) (st st' : nat * sys) : Prop :=
  exists r, lists nodes (nr_lister r) /\ next_turn st.2 r st'.2 /\
    st.1 = if turn_failed r then S st'.1 else st'.1.

Definition is_metric (k : string) : Prop := exists p, p ∈ SyncPeriod (Spec policy) /\ sync_Name p = k.

End System.

(** ** What the workers write *)

(** A Prometheus that answers every question. *)
Definition idle_prom : PromClient :=
  {| QueryByNodeIP _ _ _ := Ok "0"; QueryByNodeName _ _ _ := Ok "0";
     QueryRangeByNodeIP _ _ _ := Ok "0"; QueryRangeByNodeName _ _ _ := Ok "0";
     QueryByNodeIPWithOffset _ _ _ _ := Ok "0"; QueryByDeployment _ _ _ := Ok "0";
     QueryRangeByDeployment _ _ _ := Ok "0" |}.

#[export] Instance idle_prom_text : PromText idle_prom.
Proof. split; intros; intros s [= <-]; reflexivity. Qed.

Section Writes.
Context `{QL : QuantityLib} `{JS : JSONPatchServer}.
Context (env : Env) (loc : Location) (policy : DynamicSchedulerPolicy).
Hypothesis Hloc : GetLocation env = Some loc.

(** The effect of a request: the key of the node is set, or deleted, where the patch applies,
    which depends on that key alone. *)
Definition writes (rq : request) (n k : string) (v : option string) : Prop :=
  rq_resource rq = "nodes" /\ rq_name rq = n /\
  exists can : option string -> bool, forall a, apply_json_patch (rq_data rq) a =
    if can (a !! k) then Some (partial_alter (fun _ => v) k a) else None.

(** Requests all of whose effects satisfy [P]. *)
Definition all_write (P : string -> string -> option string -> Prop) (rqs : list request) : Prop :=
  Forall (fun rq => exists n k v, writes rq n k v /\ P n k v) rqs.

Lemma serve_cons_inv kc m rq rqs m' :
  serve kc m (rq :: rqs) = Some m' ->
  exists m1, serve1 kc m rq = Some m1 /\ serve kc m1 rqs = Some m'.
Proof. apply bind_Some. Qed.

Lemma stored_insert m n a n' : stored (<[n := a]> m) n' = if decide (n = n') then a else stored m n'.
Proof.
  unfold stored. destruct (decide (n = n')) as [->|]; [by rewrite lookup_insert_eq|].
  by rewrite lookup_insert_ne.
Qed.

Lemma lookup_alter_if {A} (v : option A) (k k' : string) (a : gmap string A) :
  partial_alter (fun _ => v) k a !! k' = if decide (k = k') then v else a !! k'.
Proof.
  destruct (decide (k = k')) as [->|]; [apply lookup_partial_alter_eq|by apply lookup_partial_alter_ne].
Qed.

(** An accepted request was applied to the annotations that the node had. *)
Lemma serve1_accepted kc m rq n k v m' :
  writes rq n k v -> kc rq = None -> serve1 kc m rq = Some m' ->
  exists a, m !! n = Some a /\ m' = <[n := partial_alter (fun _ => v) k a]> m.
Proof.
  intros (Hr & Hn & can & Ha) Hk. unfold serve1. rewrite Hr, Hk, Hn. cbn [String.eqb Ascii.eqb Bool.eqb].
  destruct (m !! n) as [a|] eqn:Hm; [|done]. cbn [mbind option_bind]. rewrite Ha.
  destruct (can (a !! k)); [|done]. intros [= <-]. by exists a.
Qed.

Lemma serve1_refused kc m rq e m' : kc rq = Some e -> serve1 kc m rq = Some m' -> m' = m.
Proof. intros Hk. unfold serve1. rewrite Hk. by destruct (String.eqb _ _); intros [= <-]. Qed.

Lemma serve1_cell kc m rq n k v m' n' k' :
  writes rq n k v -> serve1 kc m rq = Some m' ->
  stored m' n' !! k' =
  if decide ((n = n' /\ k = k') /\ kc rq = None) then v else stored m n' !! k'.
Proof.
  intros Hw Hs. destruct (kc rq) as [e|] eqn:Hk.
  { rewrite decide_False by (by intros [_ ?]). by rewrite (serve1_refused _ _ _ _ _ Hk Hs). }
  destruct (serve1_accepted _ _ _ _ _ _ _ Hw Hk Hs) as (a & Ha & ->). rewrite stored_insert.
  destruct (decide (n = n')) as [->|Hne]; [|rewrite decide_False by naive_solver; done].
  rewrite lookup_alter_if. unfold stored. rewrite Ha. cbn [default from_option id].
  destruct (decide (k = k')) as [->|]; [by rewrite decide_True|rewrite decide_False by naive_solver; done].
Qed.

(** Patches create and delete no node. *)
Lemma serve1_dom kc m rq m' : serve1 kc m rq = Some m' -> dom m' = dom m.
Proof.
  unfold serve1. destruct (String.eqb _ _); [|by intros [= <-]]. destruct (kc rq); [by intros [= <-]|].
  destruct (m !! rq_name rq) as [a|] eqn:Ha; [|done]. cbn [mbind option_bind].
  destruct (apply_json_patch _ _) as [a'|]; [|done]. intros [= <-].
  apply dom_insert_lookup_L. by eexists.
Qed.

Lemma serve_dom kc m rqs m' : serve kc m rqs = Some m' -> dom m' = dom m.
Proof.
  revert m. induction rqs as [|rq rqs IH]; intros m; [by intros [= <-]|].
  intros (m1 & H1 & H2)%serve_cons_inv. by rewrite (IH m1), (serve1_dom kc m rq m1).
Qed.

(** What is stored after the requests was stored before, or is the effect of one. *)
Lemma serve_from P kc m rqs m' n k v :
  all_write P rqs -> serve kc m rqs = Some m' -> stored m' n !! k = Some v ->
  stored m n !! k = Some v \/ P n k (Some v).
Proof.
  intros H. revert m. induction H as [|rq rqs (n' & k' & v' & Hw & HP) _ IH]; intros m.
  { intros [= <-]. by left. }
  intros (m1 & H1 & H2)%serve_cons_inv Hs. destruct (IH m1 H2 Hs) as [Hv|]; [|by right].
  rewrite (serve1_cell kc m rq n' k' v' m1 n k Hw H1) in Hv.
  case_decide as Hd; [|by left]. destruct Hd as [[-> ->] _]. subst. by right.
Qed.

(** A key no request is about is left alone. *)
Lemma serve_other P kc m rqs m' n k :
  all_write P rqs -> (forall v, ~ P n k v) -> serve kc m rqs = Some m' ->
  stored m' n !! k = stored m n !! k.
Proof.
  intros H HP. revert m. induction H as [|rq rqs (n' & k' & v' & Hw & Hp) _ IH]; intros m.
  { by intros [= <-]. }
  intros (m1 & H1 & H2)%serve_cons_inv. rewrite (IH m1 H2), (serve1_cell kc m rq n' k' v' m1 n k Hw H1).
  apply decide_False. intros [[-> ->] _]. by eapply HP.
Qed.

Lemma stamped_plain value t : fine loc t -> plain value = true -> plain (stamped loc value t) = true.
Proof.
  intros [Hy _] Hv. unfold stamped. change (String "," (Format t loc)) with ("," ++ Format t loc).
  by rewrite !plain_app, Hv, plain_Format.
Qed.

Lemma patch_writes node k v :
  plain k = true -> plain v = true ->
  writes (node_patch node (patch_annotation (patch_operator (node_annos node) k) k v))
    (node_Name node) k (Some v).
Proof.
  intros Hk Hv. split; [done|]. split; [done|].
  exists (fun o => match node_annos node !! k, o with Some _, None => false | _, _ => true end).
  intros a. cbn [rq_data node_patch]. rewrite apply_operator by done.
  by destruct (node_annos node !! k), (a !! k).
Qed.

Lemma remove_writes node k : plain k = true -> writes (remove_request node k) (node_Name node) k None.
Proof.
  intros Hk. split; [done|]. split; [done|]. exists (fun o => match o with Some _ => true | None => false end).
  intros a. cbn [remove_request rq_data node_patch]. rewrite apply_remove by done. by destruct (a !! k).
Qed.

Lemma Patch_writes kc now node key value rqs e :
  fine loc now -> plain key = true -> plain value = true ->
  PatchNodeAnnotation env kc now node key value = (rqs, Ret e) ->
  exists rq, rqs = [rq] /\ writes rq (node_Name node) key (Some (stamped loc value now)) /\
    (e = None <-> kc rq = None).
Proof.
  intros Hf Hk Hv. rewrite (PatchNodeAnnotation_eq _ _ _ _ _ _ _ Hloc), send_node_patch_eq.
  intros [= <- <-]. eexists. split; [done|]. split; [|by destruct (kc _)].
  apply patch_writes; [done|]. by apply (stamped_plain value now).
Qed.

Lemma asked_clean (PC : PromClient) `{!PromText PC} clock node key value :
  asked PC clock node key = Ok value -> clean value = true.
Proof.
  unfold asked. cbv zeta. destruct (has_prefix key PrefixRange); case_match eqn:Hq; intros He; simplify_eq.
  - by eapply text_QueryRangeByNodeIP.
  - by eapply text_QueryRangeByNodeName.
  - by eapply text_QueryByNodeIP.
  - by eapply text_QueryByNodeName.
Qed.

(** A turn that asks writes the answer, or fails. *)
Lemma annotateNodeLoad_asked (PC : PromClient) kc clock node key :
  annotateNodeLoad env kc clock node key =
  match asked PC clock node key with
  | Ok value => PatchNodeAnnotation env kc (clock 3%nat) node key value
  | Err _ => io_ret (Some (Errorf "failed to get data %s{nodeName=%s}: %v" [key; node_Name node; "<nil>"]))
  end.
Proof. unfold annotateNodeLoad, asked. cbv zeta. by repeat case_match. Qed.

(** The load write: what was measured, at the worker's own time, or nothing at all. *)
Lemma annotateNodeLoad_writes (PC : PromClient) `{!PromText PC} kc clock node key rqs e :
  fine loc (clock 3%nat) -> plain key = true ->
  annotateNodeLoad env kc clock node key = (rqs, Ret e) ->
  match asked PC clock node key with
  | Err _ => rqs = [] /\ e <> None
  | Ok value => exists rq, rqs = [rq] /\
      writes rq (node_Name node) key (Some (stamped loc value (clock 3%nat))) /\
      (e = None <-> kc rq = None)
  end.
Proof.
  intros Hf Hk. rewrite annotateNodeLoad_asked.
  destruct (asked PC clock node key) as [value|] eqn:Ha; [|by intros [= <- <-]].
  intros Hp. destruct (andb_prop _ _ (asked_clean PC clock node key value Ha)) as [Hpv _].
  by apply (Patch_writes kc (clock 3%nat) node key value rqs e).
Qed.

Lemma annotateNodeHotValue_writes kc recs hclock now node rqs e :
  fine loc now -> annotateNodeHotValue env kc policy recs hclock now node = (rqs, Ret e) ->
  exists rq v, rqs = [rq] /\ writes rq (node_Name node) HotValueKey (Some v) /\
    (e = None <-> kc rq = None).
Proof.
  intros Hf. unfold annotateNodeHotValue. destruct (hot_loop _ _ _ _ _ _) as [h|s]; [|done].
  cbn [io_go io_bind]. destruct (PatchNodeAnnotation _ _ _ _ _ _) as [w [r|]] eqn:Hp; [|done].
  intros [= <- <-].
  destruct (Patch_writes kc now node HotValueKey (Itoa h) w r Hf eq_refl (plain_Itoa h) Hp)
    as (rq & ? & ? & ?). eauto 10.
Qed.

(** What a turn of a node worker for the node [n] and the metric [m] sends, and whether its key is
    forgotten. *)
Inductive turn_shape (r : node_record) (n m : string) : list request -> bool -> Prop :=
| shape_skipped :
    no_char "/" n = false \/ (exists e, nr_lister r n = Err e) -> turn_shape r n m [] true
| shape_unanswered node e :
    no_char "/" n = true -> nr_lister r n = Ok node ->
    asked (nr_prom r) (nr_clock r) node m = Err e -> turn_shape r n m [] false
| shape_refused rq value e :
    no_char "/" n = true -> answered r n m value ->
    writes rq n m (Some (stamped loc value (nr_clock r 3%nat))) ->
    nr_client r rq = Some e -> turn_shape r n m [rq] false
| shape_written rq rq' value hot :
    no_char "/" n = true -> answered r n m value ->
    writes rq n m (Some (stamped loc value (nr_clock r 3%nat))) -> nr_client r rq = None ->
    writes rq' n HotValueKey (Some hot) ->
    turn_shape r n m [rq; rq'] (match nr_client r rq' with None => true | Some _ => false end).

Lemma sync_shape (r : node_record) n m rqs forget e :
  PromText (nr_prom r) -> named (nr_lister r) -> plain m = true ->
  fine loc (nr_clock r 3%nat) -> fine loc (nr_now r) -> nr_key r = handlingMetaKeyWithMetricName n m ->
  @syncNode QL (nr_prom r) env (nr_client r) (nr_lister r) policy (nr_clock r) (nr_recs r)
    (nr_hclock r) (nr_now r) (nr_key r) = (rqs, Ret (forget, e)) ->
  turn_shape r n m rqs forget.
Proof.
  intros HPC Hnm Hpm Hf Hfn Hkey. rewrite Hkey. unfold syncNode, io_ret.
  pose proof (plain_no_slash m Hpm) as Hm. destruct (no_char "/" n) eqn:Hn.
  2:{ destruct (splitMetaKeyWithMetricName _) as [[a b]|] eqn:Hsp; [|intros [= <- <- _]; by constructor; left].
    apply splitMetaKey_Ok in Hsp as (Hk & Ha & Hb). apply handling_inj in Hk as [<- _]; [congruence|done..]. }
  rewrite (proj2 (splitMetaKey_Ok _ n m)) by done.
  destruct (nr_lister r n) as [node|] eqn:Hl; [|intros [= <- <- _]; constructor; right; eauto].
  pose proof (Hnm _ _ Hl) as Hname.
  destruct (annotateNodeLoad _ _ _ _ _) as [w1 [e1|]] eqn:Hload; [|done]. cbn [io_bind].
  apply annotateNodeLoad_writes in Hload; [|done..].
  destruct (asked (nr_prom r) (nr_clock r) node m) as [value|e'] eqn:Hask.
  2:{ destruct Hload as [-> He]. destruct e1; [|done]. intros [= <- <- _]. by econstructor. }
  assert (answered r n m value) as Ha by (split; [done|by exists node]).
  destruct Hload as (rq & -> & Hw & He). rewrite Hname in Hw. destruct e1 as [e1|].
  { intros [= <- <- _]. destruct (nr_client r rq) as [e2|] eqn:Hc; [by econstructor|].
    discriminate (proj2 He eq_refl). }
  destruct (annotateNodeHotValue _ _ _ _ _ _ _) as [w2 [e2|]] eqn:Hhot; [|done]. cbn [io_bind].
  apply annotateNodeHotValue_writes in Hhot as (rq' & hot & -> & Hw' & He'); [|done]. rewrite Hname in Hw'.
  pose proof (shape_written r n m rq rq' value hot Hn Ha Hw (proj1 He eq_refl) Hw') as Hshape.
  destruct e2 as [e2|]; intros [= <- <- _]; cbn [app].
  - destruct (nr_client r rq'); [exact Hshape|discriminate (proj2 He' eq_refl)].
  - by rewrite (proj1 He' eq_refl) in Hshape.
Qed.

Lemma run_turn_shape (r : node_record) n m rqs go_on ops :
  PromText (nr_prom r) -> named (nr_lister r) -> plain m = true ->
  fine loc (nr_clock r 3%nat) -> fine loc (nr_now r) -> nr_key r = handlingMetaKeyWithMetricName n m ->
  run_turn env policy r = (rqs, Ret (go_on, ops)) ->
  exists forget : bool, turn_shape r n m rqs forget /\ turn_failed env policy r = negb forget /\
    ops = [if forget then QForget (nr_key r) else QAddRateLimited (nr_key r); QDone (nr_key r)].
Proof.
  intros HPC Hnm Hpm Hf Hfn Hkey Hr. pose proof (f_equal fst Hr) as Hrqs. cbn [fst] in Hrqs.
  unfold run_turn, processNextWorkItem in Hr.
  destruct (syncNode _ _ _ _ _ _ _ _ _) as [w [[forget e]|]] eqn:Hs; [|done]. cbn [io_bind] in Hr.
  assert (rqs = w /\ ops = [if forget : bool then QForget (nr_key r) else QAddRateLimited (nr_key r);
    QDone (nr_key r)]) as [-> ->]
    by (clear Hrqs; destruct forget; unfold io_ret in Hr; rewrite app_nil_r in Hr; by simplify_eq).
  pose proof (sync_shape r n m w forget e HPC Hnm Hpm Hf Hfn Hkey Hs) as Hshape.
  exists forget. split; [done|]. split; [|done]. unfold turn_failed. rewrite Hkey, Hrqs.
  pose proof (plain_no_slash m Hpm) as Hm.
  assert (no_char "/" n = true -> splitMetaKeyWithMetricName (handlingMetaKeyWithMetricName n m) = Ok (n, m))
    as Hsp by (intros Hn; by apply splitMetaKey_Ok).
  destruct Hshape as [Hskip|node e' Hn Hl Ha|rq value e' Hn (_ & node & Hl & _ & Ha) _ Hc
    |rq rq' value hot Hn (_ & node & Hl & _ & Ha) _ Hc _].
  - destruct (splitMetaKeyWithMetricName _) as [[a b]|] eqn:Hk; [|done].
    apply splitMetaKey_Ok in Hk as (Hk & Ha & Hb). apply handling_inj in Hk as [<- <-]; [|done..].
    destruct Hskip as [Hn|[e' ->]]; [congruence|done].
  - by rewrite (Hsp Hn), Hl, Ha.
  - rewrite (Hsp Hn), Hl, Ha. cbn [existsb]. by rewrite Hc.
  - rewrite (Hsp Hn), Hl, Ha. cbn [existsb]. rewrite Hc. by destruct (nr_client r rq').
Qed.

(** A write of such a turn. *)
Definition node_write (r : node_record) (n m n' k : string) (v : option string) : Prop :=
  n' = n /\ (k = HotValueKey \/ k = m /\ exists value, answered r n m value /\
    v = Some (stamped loc value (nr_clock r 3%nat))).

Lemma turn_writes r n m rqs forget : turn_shape r n m rqs forget -> all_write (node_write r n m) rqs.
Proof.
  destruct 1 as [| |rq value e Hn Ha Hw|rq rq' value hot Hn Ha Hw _ Hw']; repeat constructor.
  - exists n, m, (Some (stamped loc value (nr_clock r 3%nat))). split; [done|]. split; [done|]. right. eauto.
  - exists n, m, (Some (stamped loc value (nr_clock r 3%nat))). split; [done|]. split; [done|]. right. eauto.
  - exists n, HotValueKey, (Some hot). split; [done|]. split; [done|by left].
Qed.

Lemma reconcile_writes kc split eventLister lister br observe hclock now key rqs r :
  fine loc now ->
  reconcile split env kc eventLister lister policy br observe hclock now key = (rqs, Ret r) ->
  all_write (fun _ k _ => k = HotValueKey) rqs.
Proof.
  intros Hf Hr. unfold reconcile in Hr.
  destruct (split key) as [[ns name]|]; [|unfold io_ret in Hr; simplify_eq; constructor].
  destruct (eventLister ns name) as [ev|]; [|unfold io_ret in Hr; simplify_eq; constructor].
  destruct (translateEventToBinding split ev) as [b|]; [|unfold io_ret in Hr; simplify_eq; constructor].
  destruct (AddBinding br b) as [br'|]; [|done]. cbn [io_go io_bind] in Hr.
  destruct (lister (b_Node b)) as [node|]; [|unfold io_ret in Hr; simplify_eq; constructor].
  destruct (annotateNodeHotValue _ _ _ _ _ _ _) as [w2 [e2|]] eqn:Hhot; [|done].
  destruct (annotateNodeHotValue_writes kc _ hclock now node w2 e2 Hf Hhot) as (rq & v & -> & Hw & _).
  assert (rqs = [rq]) as -> by (cbn [io_bind] in Hr; destruct e2; unfold io_ret in Hr; simplify_eq; done).
  constructor; [|constructor]. exists (node_Name node), HotValueKey, (Some v). done.
Qed.

Lemma delta_reset_writes kc lister order key rqs r :
  plain_deltas lister -> (forall a k, k ∈ order a -> is_Some (a !! k)) ->
  ndr_syncNode kc lister order key = (rqs, Ret r) ->
  all_write (fun _ k _ => has_prefix k DeltaPrefixName = true) rqs.
Proof.
  intros Hp Ho Hr. unfold ndr_syncNode in Hr.
  destruct (lister key) as [node|] eqn:Hl; [|unfold io_ret in Hr; simplify_eq; constructor].
  assert (forall ks, incl ks (delta_keys (order (node_annos node))) ->
    all_write (fun _ k _ => has_prefix k DeltaPrefixName = true) (List.map
        (remove_request node) ks)) as Hks.
  { intros ks Hi. apply Forall_map, Forall_forall. intros k Hk%list_elem_of_In.
    apply Hi, filter_In in Hk as [Hk Hpre]. apply list_elem_of_In, Ho in Hk as [v Hv].
    destruct (Hp _ _ _ _ Hl Hv Hpre) as [Hpk _].
    exists (node_Name node), k, None. split; [|done]. by apply remove_writes. }
  destruct (delete_loop_spec kc node (order (node_annos node))) as [[_ He]|(l1 & k & l2 & e & Hd & _
      & _ & He)];
    rewrite He in Hr; simplify_eq; apply Hks; [apply incl_refl|].
  rewrite Hd. intros x. rewrite !in_app_iff. simpl. naive_solver.
Qed.

(** *** The pod worker *)

Lemma GetDeploymentByPod_listed rsLister deployLister pod d :
  GetDeploymentByPod rsLister deployLister pod = Ok d -> exists ns n, deployLister ns n = Ok d.
Proof.
  unfold GetDeploymentByPod. generalize (om_Namespace (pod_meta pod)) as ns.
  assert (forall ns refs, deployment_of_rs deployLister ns refs = Some (Ok d) ->
    exists n, deployLister ns n = Ok d) as Hrs.
  { intros ns refs. induction refs as [|r refs IH]; [done|]. cbn [deployment_of_rs].
    destruct (String.eqb _ _); [|done]. destruct (deployLister ns (or_Name r)) eqn:Hd; [|done].
    intros [= <-]. eauto. }
  intros ns. generalize (om_OwnerReferences (pod_meta pod)) as refs.
  induction refs as [|r refs IH]; [done|]. cbn [deployment_of_refs].
  destruct (String.eqb _ _); [|done]. destruct (rsLister ns (or_Name r)) as [rs|]; [|done].
  destruct (deployment_of_rs _ _ _) as [res|] eqn:Hd; [|done].
  intros ->. exists ns. eauto.
Qed.

Lemma MergeUsageRange_plain ds ws ty s :
  plain ws = true -> MergeUsageRange ds ws ty = Ret (Ok s) -> plain s = true.
Proof.
  intros Hw. unfold MergeUsageRange. destruct (_ && _); [by intros [= <-]|].
  destruct (ParseRangeMetricsByString ws) as [xs|]; [|done].
  assert (forall op ys, (exists r, MergeUsageRange ds ws ty = Ret r) -> forall s,
    (let! r := merge_loop op ys xs in Ret (Ok r)) = Ret (@Ok string s) -> plain s = true) as Hm.
  { intros op ys _. clear Hw. revert xs. induction ys as [|y ys IH]; intros xs t; cbn [merge_loop].
    - by intros [= <-].
    - destruct xs as [|x xs]; [done|]. specialize (IH xs).
      destruct (merge_loop op ys xs) as [r|]; [|done]. cbn [go_bind] in *.
      intros [= <-]. specialize (IH r eq_refl).
      destruct ys; [by rewrite plain_app, plain_FormatFloat5, IH|].
      change (String "|" r) with ("|" ++ r). by rewrite !plain_app, plain_FormatFloat5, IH. }
  pose proof (MergeUsageRange_returns ds ws ty) as Hret.
  destruct (if String.eqb ds "" then _ else _) as [[ys fl]|]; [|done]. cbv zeta.
  destruct (String.eqb ty MergeTypeAdd); [by eapply Hm|].
  destruct (String.eqb ty MergeTypeSub); [by eapply Hm|]. by intros [= <-].
Qed.

Lemma usage_range_plain now anno key d s :
  (forall v, anno !! key = Some v -> plain v = true) ->
  GetResourceUsageRange env now anno key d = Ret (Ok s) -> plain s = true.
Proof.
  intros Ha. unfold GetResourceUsageRange. destruct (anno !! key) as [u|] eqn:Hu; [|by intros [= <-]].
  specialize (Ha _ eq_refl). destruct (split "," u) as [|v [|ts [|]]] eqn:Hs; try done.
  apply split_two in Hs as (-> & _ & _). change (String "," ts) with ("," ++ ts) in Ha.
  rewrite plain_app in Ha. apply andb_true_iff in Ha as [Ha _].
  destruct (InActivePeriod _ _ _ _) as [[]|]; cbn [go_bind negb]; [|done|done]. by intros [= <-].
Qed.

Lemma new_delta_plain now pod d node p s :
  (forall v, dep_annos d !! sync_Name p = Some v -> plain v = true) ->
  new_delta env now pod d node p = Ret (Some s) -> plain s = true.
Proof.
  intros Hd. unfold new_delta. destruct (sync_Period p =? 0); [done|]. cbv zeta.
  destruct (GetResourceUsageRange _ _ _ _ _) as [[u|]|] eqn:Hu; cbn [go_bind]; try done.
  destruct (GetDeltaUsageRange _ _) as [v|]; [|done].
  destruct (MergeUsageRange v u (merge_type pod)) as [[w|]|] eqn:Hm; cbn [go_bind]; try done.
  intros [= <-]. eapply MergeUsageRange_plain; [|done]. by eapply usage_range_plain.
Qed.

Definition is_delta_write (_ k : string) (_ : option string) : Prop :=
  has_prefix k DeltaPrefixName = true.

Lemma delta_loop_writes kc clock i pod d node l rqs r :
  plain_usages d l ->
  (forall i, fine loc (clock i)) -> Forall (fun p => plain (sync_Name p) = true) l ->
  delta_loop env kc clock i pod d node l = (rqs, Ret r) -> all_write is_delta_write rqs.
Proof.
  intros Hd Hf Hl. revert i rqs r. induction Hl as [|p l Hp Hl IH]; intros i rqs r; cbn [delta_loop].
  { intros [= <- _]. constructor. }
  apply Forall_cons in Hd as [Hd1 Hd]. specialize (IH Hd).
  destruct (new_delta env _ pod d node p) as [[s|]|] eqn:Hn; cbn [io_go io_bind]; [| |done].
  2:{ destruct (delta_loop env kc clock (S i) pod d node l) as [w [r'|]] eqn:Hrec; [|done].
      intros [= <- <-]. by apply (IH _ _ _ Hrec). }
  destruct (PatchNodeAnnotation _ _ _ _ _ _) as [w [e|]] eqn:Hpatch; [|done]. cbn [io_bind].
  assert (all_write is_delta_write w) as Hw.
  { destruct (Patch_writes kc (clock (2 * i + 1)%nat) node (DeltaPrefixName ++ sync_Name p) s w e)
      as (rq & -> & Hw & _); [done| |by eapply new_delta_plain|done|].
    - by rewrite plain_app, Hp.
    - constructor; [|constructor]. do 3 eexists. split; [exact Hw|]. apply has_prefix_spec. by eexists. }
  destruct e as [e|].
  - intros [= <- _]. by rewrite app_nil_r.
  - destruct (delta_loop env kc clock (S i) pod d node l) as [w2 r2] eqn:Hrec.
    intros [= <- ->]. apply Forall_app. split; [done|]. by apply (IH _ _ _ Hrec).
Qed.

Lemma pod_reconcile_writes kc split podLister rsLister deployLister lister clock key rqs r :
  plain_deployments policy deployLister -> (forall i, fine loc (clock i)) ->
  Forall (fun p => plain (sync_Name p) = true) (SyncAppPeriod (Spec policy)) ->
  pod_reconcile split env kc podLister rsLister deployLister lister policy clock key = (rqs, Ret r) ->
  all_write is_delta_write rqs.
Proof.
  intros Hd Hf Hl Hr. unfold pod_reconcile in Hr. unfold io_ret in Hr.
  destruct (split key) as [[ns name]|]; [|simplify_eq; constructor].
  destruct (podLister ns name) as [pod|]; [|simplify_eq; constructor].
  destruct (GetDeploymentByPod rsLister deployLister pod) as [d|] eqn:Hg; [|simplify_eq; constructor].
  destruct (lister (pod_NodeName pod)) as [node|]; [|simplify_eq; constructor].
  eapply (delta_loop_writes kc clock 0 pod d node); [|done|done|done].
  destruct (GetDeploymentByPod_listed _ _ _ _ Hg) as (ns' & n' & Hdl). by apply (Hd ns' n').
Qed.

(** A turn that forgets the key of a listed node has written the metric. *)
Lemma turn_success (r : node_record) n m rqs node a a' :
  turn_shape r n m rqs true -> no_char "/" n = true -> m <> HotValueKey -> nr_lister r n = Ok node ->
  serve (nr_client r) a rqs = Some a' ->
  exists value, answered r n m value /\
    stored a' n !! m = Some (stamped loc value (nr_clock r 3%nat)).
Proof.
  intros Hs Hn Hhot Hl. remember true as forget eqn:Ht.
  destruct Hs as [[?|[e ?]]| | |rq rq' value hot _ Ha Hw Hc Hw']; try congruence.
  intros (m1 & H1 & (m2 & H2 & [= <-])%serve_cons_inv)%serve_cons_inv. exists value. split; [done|].
  rewrite (serve1_cell _ _ _ _ _ _ _ n m Hw' H2), decide_False by naive_solver.
  by rewrite (serve1_cell _ _ _ _ _ _ _ n m Hw H1), decide_True.
Qed.

(** ** Every reachable state *)

Hypothesis Hsane : sane_policy policy.

(** Each stored metric was measured, and each queued key names a node and a metric. *)
Definition keyed (q : gset string) : Prop :=
  forall key, key ∈ q -> exists n m, key = handlingMetaKeyWithMetricName n m /\ is_metric policy m.

Definition sys_inv (s : sys) : Prop :=
  (forall n k v, is_metric policy k -> stored (sy_annos s) n !! k = Some v ->
     measurement loc (sy_log s) (sy_now s) n k v) /\ keyed (sy_queue s).

Lemma metric_sane m : is_metric policy m ->
  plain m = true /\ m <> HotValueKey /\ has_prefix m DeltaPrefixName = false.
Proof. intros (p & Hp & <-). destruct Hsane as [Hs _]. rewrite Forall_forall in Hs. auto. Qed.

Lemma measurement_later log log' now now' n k v : log ⊆ log' -> now <= now' ->
  measurement loc log now n k v -> measurement loc log' now' n k v.
Proof.
  intros Hlog Hle (r & value & ? & ? & ? & ? & ? & ?).
  exists r, value. split_and!; try done; [by apply Hlog|lia].
Qed.

(** What the steps of the other workers keep. *)
Definition keeps (K : string -> Prop) (s s' : sys) : Prop :=
  sy_now s <= sy_now s' /\ (fine loc (sy_now s) -> fine loc (sy_now s')) /\
  sy_queue s' = sy_queue s /\ sy_log s' = sy_log s /\ dom (sy_annos s') = dom (sy_annos s) /\
  forall n k, K k -> stored (sy_annos s') n !! k = stored (sy_annos s) n !! k.

Lemma served_keeps (K : string -> Prop) P kc s now rqs m :
  sy_now s <= now -> (fine loc (sy_now s) -> fine loc now) -> all_write P rqs ->
  (forall n k v, K k -> ~ P n k v) -> serve kc (sy_annos s) rqs = Some m ->
  keeps K s (served s now m).
Proof.
  intros Hle Hf Hw HP Hs. split_and!; try done; [by eapply serve_dom|].
  intros n k Hk. eapply serve_other; [exact Hw| |exact Hs]. intros v. by apply HP.
Qed.

(** A step aside writes the hot values only. *)
Lemma aside_keeps s s' : aside_step env loc policy s s' -> keeps (fun k => k <> HotValueKey) s s'.
Proof.
  destruct 1 as [s t Hle Ht|s kc split el lister br obs hclock now key rqs r m Hle Ht Hr Hs].
  - by split_and!.
  - eapply served_keeps; [done|done|by eapply reconcile_writes| |exact Hs]. cbn. congruence.
Qed.

(** A quiet step writes none of the metrics. *)
Lemma quiet_keeps s s' : quiet_step env loc policy s s' -> keeps (is_metric policy) s s'.
Proof.
  destruct 1 as [s s' Ha|s kc lister order key rqs r m Hp Ho Hr Hs
    |s kc split pl rl dl lister clock now key rqs r m Hp Hle Ht Hc Hr Hs].
  - destruct (aside_keeps s s' Ha) as (? & ? & ? & ? & ? & Hk). split_and!; [done..|].
    intros n k (_ & ? & _)%metric_sane. by apply Hk.
  - eapply served_keeps; [lia|done|by eapply delta_reset_writes| |exact Hs].
    cbn. intros n k _ (_ & _ & Hk)%metric_sane. congruence.
  - eapply served_keeps; [lia|done|eapply pod_reconcile_writes; [done|apply Hc|apply Hsane|done]| |exact Hs].
    unfold is_delta_write. intros n k _ (_ & _ & Hk)%metric_sane. congruence.
Qed.

(** What a turn of a node worker for the node [n] and the metric [m] does. *)
Record turn_effect (s : sys) (r : node_record) (s' : sys) (n m : string) : Prop := {
  te_text : PromText (nr_prom r);
  te_metric : is_metric policy m;
  te_times : sy_now s <= nr_clock r 3%nat <= sy_now s';
  te_fine : fine loc (nr_clock r 3%nat) /\ fine loc (sy_now s');
  te_key : handlingMetaKeyWithMetricName n m ∈ sy_queue s;
  te_queue : sy_queue s' = (if turn_failed env policy r then {[handlingMetaKeyWithMetricName n m]} else ∅)
    ∪ (sy_queue s ∖ {[handlingMetaKeyWithMetricName n m]});
  te_log : sy_log s' = r :: sy_log s;
  te_dom : dom (sy_annos s') = dom (sy_annos s);
  te_from : forall n' k v, stored (sy_annos s') n' !! k = Some v ->
    stored (sy_annos s) n' !! k = Some v \/ node_write r n m n' k (Some v);
  te_other : forall n' k, k <> HotValueKey -> n' <> n \/ k <> m ->
    stored (sy_annos s') n' !! k = stored (sy_annos s) n' !! k;
  te_done : turn_failed env policy r = false -> no_char "/" n = true ->
    forall node, nr_lister r n = Ok node ->
    exists value, answered r n m value /\
      stored (sy_annos s') n !! m = Some (stamped loc value (nr_clock r 3%nat)) }.

Lemma node_turn_effect s r s' :
  keyed (sy_queue s) -> node_turn env loc policy s r s' -> exists n m, turn_effect s r s' n m.
Proof.
  intros Hq [rqs ops a HPC Hnm Hkey Ht Hf Hfn Hp Hs].
  destruct (Hq _ Hkey) as (n & m & He & Hm). destruct (metric_sane m Hm) as (Hpm & Hhot & _).
  exists n, m. destruct (run_turn_shape r n m rqs true ops HPC Hnm Hpm Hf Hfn He Hp)
    as (forget & Hshape & Hfail & ->). pose proof (turn_writes _ _ _ _ _ Hshape) as Hw.
  split; cbn [sy_now sy_annos sy_queue sy_log]; try done.
  - by rewrite <- He.
  - rewrite Hfail, <- He. destruct forget; cbn [queue_after foldl negb]; set_solver.
  - by eapply serve_dom.
  - intros n' k v. by eapply serve_from.
  - intros n' k Hk Hne. eapply serve_other; [exact Hw| |exact Hs].
    intros v (-> & [->|(-> & _)]); naive_solver.
  - intros Hok Hns node Hl. rewrite Hfail in Hok. destruct forget; [|done].
    by eapply turn_success.
Qed.

Lemma queue_after_ticks q names p key :
  key ∈ queue_after q (enqueue_all names p) ->
  key ∈ q \/ exists n, key = handlingMetaKeyWithMetricName n (sync_Name p).
Proof.
  unfold enqueue_all. destruct names as [l|e]; [|by left].
  unfold queue_after. revert q. induction l as [|n l IH]; intros q; [by left|].
  cbn [List.map foldl]. intros [H|H]%IH; [|by right].
  apply elem_of_union in H as [->%elem_of_singleton|H]; [right; eauto|by left].
Qed.

Lemma sys_inv_turn s r s' : sys_inv s -> node_turn env loc policy s r s' -> sys_inv s'.
Proof.
  intros [Hm Hq] Ht. destruct (node_turn_effect _ _ _ Hq Ht) as (n & m & []). split.
  - intros n' k v Hi [Hv|(-> & [->|(-> & value & Ha & Hv)])]%te_from0.
    + eapply measurement_later, Hm; [rewrite te_log0; set_solver|lia|done|done].
    + by destruct (metric_sane _ Hi) as (_ & ? & _).
    + exists r, value. simplify_eq. rewrite te_log0. split_and!; try done; [left|lia|apply te_fine0].
  - rewrite te_queue0. intros key [Hin|Hin]%elem_of_union;
      [|apply elem_of_difference in Hin as [Hin _]; by apply Hq].
    destruct (turn_failed _ _ _); [|by apply elem_of_empty in Hin].
    apply elem_of_singleton in Hin as ->. by apply Hq.
Qed.

Lemma sys_inv_step s s' : sys_inv s -> sys_step env loc policy s s' -> sys_inv s'.
Proof.
  intros [Hm Hq] Hs. destruct Hs as [s s' Hs|s p names Hp|s r s' Ht]; [| |by eapply sys_inv_turn].
  - destruct (quiet_keeps s s' Hs) as (Hle & _ & Hqe & Hle' & _ & Hk). split; [|by rewrite Hqe].
    intros n k v Hi Hv. rewrite Hk in Hv by done. rewrite Hle'. by eapply measurement_later, Hm.
  - split; [done|]. cbn [sy_queue]. intros key [Hin|[n ->]]%queue_after_ticks; [by apply Hq|].
    exists n, (sync_Name p). split; [done|]. by exists p.
Qed.

Lemma reached_inv s0 s : sys_inv s0 -> rtc (sys_step env loc policy) s0 s -> sys_inv s.
Proof. intros H0 Hr. induction Hr; [done|]. by apply IHHr; eapply sys_inv_step. Qed.

Lemma step_dom s s' : sys_inv s -> sys_step env loc policy s s' -> dom (sy_annos s') = dom (sy_annos s).
Proof.
  intros [_ Hq] Hstep. destruct Hstep as [s s' Hs| |s r s' Ht]; [by apply quiet_keeps in Hs as (_ & _ & _ & _ & ? & _)|done|].
  by destruct (node_turn_effect _ _ _ Hq Ht) as (? & ? & []).
Qed.

Lemma reached_dom s0 s :
  sys_inv s0 -> rtc (sys_step env loc policy) s0 s -> dom (sy_annos s) = dom (sy_annos s0).
Proof.
  intros H0 Hr. revert H0. induction Hr as [|s s1 s2 Hs _ IH]; intros H0; [done|].
  rewrite (IH (sys_inv_step _ _ H0 Hs)). by apply step_dom.
Qed.

(** ** The workers empty the queue *)

Lemma rtc_quiet s s' : rtc (quiet_step env loc policy) s s' -> keeps (is_metric policy) s s'.
Proof.
  induction 1 as [s|s s1 s2 Hq _ (H1 & H2 & H3 & H4 & H5 & H6)]; [by split_and!|].
  destruct (quiet_keeps _ _ Hq) as (G1 & G2 & G3 & G4 & G5 & G6).
  split_and!; [lia|auto|congruence..|]. intros n k Hk. by rewrite H6, G6.
Qed.

Lemma sys_inv_quiet s s' : sys_inv s -> rtc (quiet_step env loc policy) s s' -> sys_inv s'.
Proof.
  intros Hi Hr. eapply reached_inv; [exact Hi|]. clear Hi. induction Hr; [done|].
  eapply rtc_l; [|done]. by apply step_quiet.
Qed.

(** A turn takes its key off the queue, and puts it back when it fails. *)
Lemma next_turn_spec s r s' : sys_inv s -> next_turn env loc policy s r s' ->
  sys_inv s' /\ sy_log s' = r :: sy_log s /\ dom (sy_annos s') = dom (sy_annos s) /\
  (size (sy_queue s') + 1 = size (sy_queue s) + if turn_failed env policy r then 1 else 0)%nat.
Proof.
  intros Hi (s1 & Hr & Ht). destruct (rtc_quiet _ _ Hr) as (_ & _ & H3 & H4 & H5 & _).
  pose proof (sys_inv_quiet _ _ Hi Hr) as Hi1.
  destruct (node_turn_effect _ _ _ (proj2 Hi1) Ht) as (n & m & []). split; [by eapply sys_inv_turn|].
  rewrite H3, H4, H5 in *. split; [done|]. split; [done|]. set (key := handlingMetaKeyWithMetricName n m) in *.
  assert (size (sy_queue s) = S (size (sy_queue s ∖ {[key]}))) as Hsz.
  { rewrite (union_difference_singleton_L key (sy_queue s)) at 1 by done.
    rewrite size_union by set_solver. by rewrite size_singleton. }
  rewrite te_queue0, Hsz. destruct (turn_failed _ _ _).
  - rewrite size_union, size_singleton by set_solver. lia.
  - rewrite union_empty_l_L. lia.
Qed.

Variable nodes : gset string.
Hypothesis Hnodes : forall n, n ∈ nodes -> no_char "/" n = true.

(** The metric [m] of the node [n] holds the answer to a turn of [s] that came after [s0], stamped
    with its time. *)
Definition refreshed (s0 s : sys) (n m : string) : Prop :=
  exists log r value, sy_log s = (log ++ sy_log s0)%list /\ r ∈ log /\ PromText (nr_prom r) /\
    answered r n m value /\ sy_now s0 <= nr_clock r 3%nat /\ fine loc (nr_clock r 3%nat) /\
    stored (sy_annos s) n !! m = Some (stamped loc value (nr_clock r 3%nat)).

Lemma refreshed_same log s0 s s' n m :
  sy_log s' = (log ++ sy_log s)%list ->
  stored (sy_annos s') n !! m = stored (sy_annos s) n !! m ->
  refreshed s0 s n m -> refreshed s0 s' n m.
Proof.
  intros Hl He (log' & r & value & Hl' & ? & ? & ? & ? & ? & ?).
  exists (log ++ log')%list, r, value. rewrite He, Hl, Hl', app_assoc. split_and!; try done. set_solver.
Qed.

(** A refreshed metric is active for the readers until its active duration has passed. *)
Lemma refreshed_active (PC : PromClient) `{!PromText PC} anno m value t t0 now d clock node :
  asked PC clock node m = Ok value -> anno !! m = Some (stamped loc value t) -> fine loc t ->
  t0 <= t -> now < t0 / Second * Second + d ->
  GetResourceUsageRange env now anno m d = Ret (Ok value).
Proof.
  intros Hm Hs [Hy Hz] Ht Hd. destruct (andb_prop _ _ (asked_clean PC clock node m value Hm)) as [_ Hc].
  rewrite (GetResourceUsageRange_written env loc _ m value t now d) by done.
  destruct (Z.ltb_spec now (t / Second * Second + d)) as [_|Hge]; [done|].
  pose proof (Z.div_le_mono t0 t Second ltac:(done) Ht). unfold Second in *. lia.
Qed.

Definition pending (s0 : sys) (st : nat * sys) : Prop :=
  sys_inv st.2 /\ fine loc (sy_now st.2) /\ sy_now s0 <= sy_now st.2 /\ nodes ⊆ dom (sy_annos st.2) /\
  (exists log, sy_log st.2 = (log ++ sy_log s0)%list) /\
  forall n m, n ∈ nodes -> is_metric policy m ->
    handlingMetaKeyWithMetricName n m ∈ sy_queue st.2 \/ refreshed s0 st.2 n m.

Lemma worker_turn_spec st st' : sys_inv st.2 -> worker_turn env loc policy nodes st st' ->
  (size (sy_queue st'.2) + st'.1 + 1 = size (sy_queue st.2) + st.1)%nat /\
  (forall s0, pending s0 st -> pending s0 st').
Proof.
  destruct st as [f s], st' as [f' s']. intros Hi (r & Hl & Hnext & Hf). cbn [fst snd] in *.
  destruct (next_turn_spec s r s' Hi Hnext) as (Hi' & Hlog & Hdom & Hsz).
  split; [rewrite Hf; destruct (turn_failed _ _ _); lia|].
  destruct Hnext as (s1 & Hr & Ht). destruct (rtc_quiet _ _ Hr) as (H1 & H2 & H3 & H4 & H5 & H6).
  pose proof (sys_inv_quiet _ _ Hi Hr) as Hi1.
  destruct (node_turn_effect _ _ _ (proj2 Hi1) Ht) as (n & m & []).
  rewrite H3 in *. set (key := handlingMetaKeyWithMetricName n m) in *.
  intros s0 (_ & Hfine & Ht0 & Hsub & (log & Hlog0) & Hp). split; [done|]. cbn [snd] in *.
  split; [apply te_fine0|]. split; [lia|]. split; [by rewrite Hdom|].
  split; [exists (r :: log); by rewrite Hlog, Hlog0|]. intros n' m' Hn Hm. rewrite te_queue0.
  destruct (decide (n' = n /\ m' = m)) as [[-> ->]|Hne].
  - destruct (turn_failed _ _ _) eqn:Hfail; [left; set_solver|]. right.
    destruct (Hl n Hn) as [node Hnode].
    destruct (te_done0 eq_refl (Hnodes n Hn) node Hnode) as (value & Ha & Hst).
    exists (r :: log), r, value. rewrite Hlog, Hlog0.
    split_and!; try done; [left|lia|apply te_fine0..].
  - destruct (metric_sane m' Hm) as (Hpm & Hhot & _). destruct (metric_sane m te_metric0) as (Hpm0 & _ & _).
    assert (handlingMetaKeyWithMetricName n' m' <> key) as Hk.
    { intros Hk. apply Hne. apply handling_inj; [by apply plain_no_slash..|done]. }
    destruct (Hp n' m' Hn Hm) as [Hin|Href]; [left; destruct (turn_failed _ _ _); set_solver|right].
    eapply (refreshed_same [r] _ s); [by rewrite Hlog| |done]. rewrite <- H6 by done.
    apply te_other0; [done|]. destruct (decide (n' = n)); [right; naive_solver|by left].
Qed.

(** *** A turn is always possible

    The informer shows the nodes as the server stores them, Prometheus answers every question, and
    the server accepts every request. *)

Definition idle_node (n : string) (a : smap) : Node :=
  {| node_meta := {| om_Name := n; om_Namespace := ""; om_Annotations := Some a;
                     om_OwnerReferences := []; om_DeletionTimestamp := None;
                     om_ResourceVersion := "" |};
     node_Addresses := []; node_Capacity := ∅ |}.

Definition idle_lister (m : gmap string smap) (n : string) : result Node :=
  match m !! n with
  | Some a => Ok (idle_node n a)
  | None => Err (Errorf "node %q not found" [n])
  end.

Lemma idle_named m : named (idle_lister m).
Proof. intros n node. unfold idle_lister. by destruct (m !! n); intros [= <-]. Qed.

Definition idle_turn (s : sys) (key : string) : node_record :=
  {| nr_prom := idle_prom; nr_client := fun _ => None; nr_lister := idle_lister (sy_annos s);
     nr_clock := fun _ => sy_now s; nr_recs := fun _ => NewBindingRecords 0 0;
     nr_hclock := fun _ => 0; nr_now := sy_now s; nr_key := key |}.

(** A patch made from what is stored applies. *)
Lemma current_patch m node a k v :
  m !! node_Name node = Some a -> (is_Some (node_annos node !! k) -> is_Some (a !! k)) ->
  plain k = true -> plain v = true ->
  serve1 (fun _ => None) m (node_patch node (patch_annotation (patch_operator (node_annos node) k) k v))
  = Some (<[node_Name node := <[k := v]> a]> m).
Proof.
  intros Hm Ha Hk Hv. unfold serve1. cbn [node_patch rq_resource rq_name rq_data String.eqb Ascii.eqb Bool.eqb].
  rewrite Hm. cbn [mbind option_bind]. rewrite apply_operator by done.
  destruct (node_annos node !! k); [|by destruct (a !! k)]. by destruct (Ha ltac:(done)) as [? ->].
Qed.

Lemma idle_sync s n m :
  fine loc (sy_now s) -> plain m = true -> m <> HotValueKey ->
  Forall (fun hv => hv_Count hv <> 0) (HotValue (Spec policy)) ->
  let r := idle_turn s (handlingMetaKeyWithMetricName n m) in
  exists rqs a, serve (nr_client r) (sy_annos s) rqs = Some a /\
    run_turn env policy r = (rqs, Ret (true, [QForget (nr_key r); QDone (nr_key r)])).
Proof.
  intros Hf Hpm Hhot Hc r.
  assert (forall e, @syncNode QL (nr_prom r) env (nr_client r) (nr_lister r) policy (nr_clock r)
      (nr_recs r) (nr_hclock r) (nr_now r) (nr_key r) = ([], Ret (true, e)) ->
    exists rqs a, serve (nr_client r) (sy_annos s) rqs = Some a /\
      run_turn env policy r = (rqs, Ret (true, [QForget (nr_key r); QDone (nr_key r)]))) as Hskip.
  { intros e He. exists [], (sy_annos s). split; [done|]. unfold run_turn, processNextWorkItem.
    by rewrite He. }
  destruct (splitMetaKeyWithMetricName (nr_key r)) as [[n' m']|e] eqn:Hsp;
    [|eapply Hskip; unfold syncNode; by rewrite Hsp].
  pose proof Hsp as (Hk & Hn & Hm')%splitMetaKey_Ok.
  apply handling_inj in Hk as [<- <-]; [|by apply plain_no_slash|done].
  destruct (sy_annos s !! n) as [a|] eqn:Ha.
  2:{ eapply Hskip. unfold syncNode. rewrite Hsp. cbn [idle_turn nr_lister r]. unfold idle_lister.
    by rewrite Ha. }
  destruct (hot_loop_returns (nr_recs r) (nr_hclock r) 0 n _ 0 Hc) as [h Hh].
  set (node := idle_node n a).
  assert (idle_lister (sy_annos s) n = Ok node) as Hl by (unfold idle_lister; by rewrite Ha).
  set (load := node_patch node (patch_annotation (patch_operator a m) m (stamped loc "0" (sy_now s)))).
  set (hot := node_patch node (patch_annotation (patch_operator a HotValueKey) HotValueKey
    (stamped loc (Itoa h) (sy_now s)))).
  exists [load; hot]. pose proof (stamped_plain "0" _ Hf eq_refl) as Hp0.
  pose proof (stamped_plain (Itoa h) _ Hf (plain_Itoa h)) as Hph. eexists. split.
  - change (nr_client r) with (fun _ : request => @None error). cbn [serve]. unfold load, hot.
    rewrite (current_patch (sy_annos s) node a m) by done. cbn [mbind option_bind].
    rewrite (current_patch _ node (<[m := stamped loc "0" (sy_now s)]> a) HotValueKey);
      [done|apply lookup_insert_eq| |done|done].
    intros Hi. by rewrite lookup_insert_ne.
  - unfold run_turn, processNextWorkItem, syncNode. rewrite Hsp. cbn [idle_turn nr_lister r]. rewrite Hl.
    cbn [nr_prom nr_client nr_clock nr_recs nr_hclock nr_now nr_key].
    rewrite annotateNodeLoad_asked.
    assert (asked (nr_prom r) (nr_clock r) node m = Ok "0") as ->
      by (unfold asked; by destruct (has_prefix m PrefixRange)).
    rewrite (PatchNodeAnnotation_eq _ _ _ _ _ _ _ Hloc), send_node_patch_eq. cbn [io_bind].
    change (nr_client r) with (fun _ : request => @None error). cbn [io_bind].
    unfold annotateNodeHotValue. change (node_Name node) with n. rewrite Hh. cbn [io_go io_bind].
    rewrite (PatchNodeAnnotation_eq _ _ _ _ _ _ _ Hloc), send_node_patch_eq. done.
Qed.

(** A turn with everything answered: the key is forgotten. *)
Lemma turn_possible s :
  sys_inv s -> fine loc (sy_now s) -> sy_queue s <> ∅ -> nodes ⊆ dom (sy_annos s) ->
  Forall (fun hv => hv_Count hv <> 0) (HotValue (Spec policy)) ->
  exists r s', lists nodes (nr_lister r) /\ node_turn env loc policy s r s' /\
    turn_failed env policy r = false.
Proof.
  intros [_ Hq] Hf Hne Hsub Hc. apply set_choose_L in Hne as [key Hkey].
  destruct (Hq key Hkey) as (n & m & -> & Hm). destruct (metric_sane m Hm) as (Hpm & Hhot & _).
  set (r := idle_turn s (handlingMetaKeyWithMetricName n m)).
  destruct (idle_sync s n m Hf Hpm Hhot Hc) as (rqs & a & Hs & Hr). exists r. eexists. split_and!.
  - intros n' Hn'. apply Hsub, elem_of_dom in Hn' as [a' Ha]. unfold r. cbn [nr_lister idle_turn].
    unfold idle_lister. rewrite Ha. by eexists.
  - eapply (turn env loc policy s r rqs _ a); [apply idle_prom_text|apply idle_named|done| |done|done|exact Hr|exact Hs].
    split; apply Z.le_refl.
  - destruct (run_turn_shape r n m rqs _ _ idle_prom_text (idle_named _) Hpm Hf Hf eq_refl Hr)
      as (forget & _ & -> & Hops). by destruct forget.
Qed.

Lemma pending_eventually s0 st :
  Forall (fun hv => hv_Count hv <> 0) (HotValue (Spec policy)) -> pending s0 st ->
  eventually (worker_turn env loc policy nodes)
    (fun st => pending s0 st /\ sy_queue st.2 = ∅) st.
Proof.
  intros Hc. apply (eventually_measure _ _ (pending s0) (fun st => size (sy_queue st.2) + st.1)%nat).
  intros [f s] Hp. destruct (decide (sy_queue s = ∅)) as [He|Hne]; [by left|]. right. split.
  - destruct Hp as (Hi & Hf & _ & Hsub & _).
    destruct (turn_possible s Hi Hf Hne Hsub Hc) as (r & s' & Hl & Ht & Hok).
    exists (f, s'), r. split; [done|]. split; [by exists s|]. cbn [fst]. by rewrite Hok.
  - intros st' Hs. destruct (worker_turn_spec _ _ (proj1 Hp) Hs) as (Hlt & Hp'). cbn [fst snd] in *.
    split; [by apply Hp'|lia].
Qed.

End Writes.

(** ** What the scheduler acts on *)

(** Nothing is annotated yet, nothing waits, and nothing has happened. *)
Definition fresh_start `{QL : QuantityLib} (policy : DynamicSchedulerPolicy) (s : sys) : Prop :=
  (forall n k, is_metric policy k -> stored (sy_annos s) n !! k = None) /\ sy_queue s = ∅ /\
  sy_log s = [].

Lemma fresh_start_inv `{QL : QuantityLib} loc policy s : fresh_start policy s -> sys_inv loc policy s.
Proof.
  intros (Ha & Hq & _). split; [intros n k v Hk; by rewrite Ha|]. rewrite Hq.
  by intros key ?%elem_of_empty.
Qed.

(** A usage read from what is stored was measured for the node, and is not stale. *)
Lemma usage_measured `{QL : QuantityLib} env loc policy s n k now d v :
  GetLocation env = Some loc -> sys_inv loc policy s -> is_metric policy k ->
  GetResourceUsage env now (stored (sy_annos s) n) k d = Ret (Ok v) ->
  exists r value, r ∈ sy_log s /\ answered r n k value /\ ParseFloat value = Ok v /\
    nr_clock r 3%nat <= sy_now s /\ now < nr_clock r 3%nat / Second * Second + d.
Proof.
  intros Hloc [Hi _] Hk (u & ts & Ha & Hu & Hts & Hact & Hp & _)%GetResourceUsage_Ok.
  destruct (Hi n k _ Hk Ha) as (r & value & Hin & HPC & Hans & Hle & [Hy Hz] & He).
  pose proof Hans as (_ & node & _ & _ & Hm).
  destruct (andb_prop _ _ (asked_clean (nr_prom r) _ node k value Hm)) as [_ Hc].
  apply last_separator in He as [-> ->]; [|done|by apply Format_no_char].
  rewrite (InActivePeriod_Format env loc) in Hact by done. simplify_eq.
  exists r, value. split_and!; try done. by apply Z.ltb_lt.
Qed.

Lemma Filter_rejection `{QL : QuantityLib} env policy clock pod ni node e :
  GetLocation env <> None -> ni_Node ni = Some node ->
  Filter env policy clock pod ni = Ret (NewStatus Unschedulable e) ->
  exists i p, Predicate (Spec policy) !! i = Some p /\
    exceeds env (clock i) (node_annos node) (SyncPeriod (Spec policy)) p.
Proof.
  intros Hl Hn. unfold Filter. destruct (IsDaemonsetPod pod); [done|]. rewrite Hn, filter_loop_scan.
  destruct (scan_spec (check_policy env clock (node_annos node) (SyncPeriod (Spec policy))) _
    (fun p => NewStatus Unschedulable
       (Errorf "Load[%s] of node[%s] is too high" [pred_Name p; node_Name node]))
    (NewStatus Success (Errorf "" [])) 0 (Predicate (Spec policy))
    (check_policy_decides env Hl clock (node_annos node) (SyncPeriod (Spec policy))))
    as [(l1 & p & l2 & Hp & Hx & _)|[_ ->]]; [|done].
  intros _. exists (length l1), p. split; [|done]. rewrite Hp. by apply list_lookup_middle.
Qed.

(** ** Properties *)

(** C1: the contract between the two programs. However the annotator's workers, its tickers and the
    clock interleave from a cluster without metric annotations, and whatever Prometheus and the
    API server answer, when [Filter] rejects a node that carries what the server stores for it,
    then for one of the predicate policies a turn of the run, recorded in its log, asked
    Prometheus for that metric of that very node, the answer of that turn's client is a usage
    that exceeds the policy's threshold, and the turn is younger than the metric's active
    duration when [Filter] reads its clock. *)
Theorem rejection_was_measured `{QL : QuantityLib} `{JS : JSONPatchServer} (env : Env)
    (loc : Location) (policy : DynamicSchedulerPolicy) (s0 s : sys) (readings : nat -> Z)
    (pod : Pod) (ni : NodeInfo) (node : Node) (e : error) :
  GetLocation env = Some loc -> sane_policy policy -> fresh_start policy s0 ->
  rtc (sys_step env loc policy) s0 s -> ni_Node ni = Some node ->
  node_annos node = stored (sy_annos s) (node_Name node) ->
  Filter env policy readings pod ni = Ret (NewStatus Unschedulable e) ->
  exists i p d usage r answer,
    Predicate (Spec policy) !! i = Some p /\
    GetActiveDuration (SyncPeriod (Spec policy)) (pred_Name p) = Ok d /\
    r ∈ sy_log s /\ answered r (node_Name node) (pred_Name p) answer /\
    ParseFloat answer = Ok usage /\ fltb (MaxLimitPecent p) usage = true /\
    nr_clock r 3%nat <= sy_now s /\ readings i < nr_clock r 3%nat / Second * Second + d.
Proof.
  intros Hloc Hsane Hs0 Hr Hni Ha Hf.
  apply (Filter_rejection env policy readings pod ni node) in Hf as (i & p & Hp & Hx); [|congruence|done].
  destruct Hx as (_ & _ & d & t & ts & v & Hd & _ & Hann & Ht & Hts & Hact & Hpf & Hv & Hlt).
  assert (is_metric policy (pred_Name p)) as Hm.
  { apply GetActiveDuration_Ok in Hd as (l1 & q & l2 & Hl & Hq & _). exists q. split; [|done].
    rewrite Hl. set_solver. }
  assert (GetResourceUsage env (readings i) (stored (sy_annos s) (node_Name node)) (pred_Name p) d
    = Ret (Ok v)) as Hu by (apply GetResourceUsage_Ok; rewrite <- Ha; eauto 10).
  destruct (usage_measured env loc policy s _ _ _ _ _ Hloc
    (reached_inv env loc policy Hloc Hsane _ _ (fresh_start_inv loc policy s0 Hs0) Hr) Hm Hu)
    as (r & answer & ? & ? & ? & ? & ?).
  by exists i, p, d, v, r, answer.
Qed.

(** C10: every annotation is eventually refreshed. Once the tickers have put every metric of every
    node in the queue, at most [faults] more turns fail (Prometheus does not answer, or the API
    server refuses a request) and the other workers do anything in between, the workers empty the
    queue, no turn being stuck before; and then every metric of every listed node is annotated
    with the answer that Prometheus gave for it to a turn made since the ticks, stamped with that
    turn's time, and the readers of the annotations find that value until its active duration
    has passed since the ticks. The nodes have annotations to patch. *)
Theorem annotations_refreshed `{QL : QuantityLib} `{JS : JSONPatchServer} (env : Env)
    (loc : Location) (policy : DynamicSchedulerPolicy) (nodes : gset string) (s0 s : sys)
    (faults : nat) :
  GetLocation env = Some loc -> sane_policy policy ->
  Forall (fun hv => hv_Count hv <> 0) (HotValue (Spec policy)) ->
  (forall n, n ∈ nodes -> no_char "/" n = true) -> nodes ⊆ dom (sy_annos s0) ->
  fresh_start policy s0 -> rtc (sys_step env loc policy) s0 s -> fine loc (sy_now s) ->
  (forall n p, n ∈ nodes -> p ∈ SyncPeriod (Spec policy) ->
     handlingMetaKeyWithMetricName n (sync_Name p) ∈ sy_queue s) ->
  eventually (worker_turn env loc policy nodes)
    (fun st => sy_queue st.2 = ∅ /\
       forall n p, n ∈ nodes -> p ∈ SyncPeriod (Spec policy) ->
         exists turns r value,
           sy_log st.2 = (turns ++ sy_log s)%list /\ r ∈ turns /\
           answered r n (sync_Name p) value /\ sy_now s <= nr_clock r 3%nat /\
           stored (sy_annos st.2) n !! sync_Name p = Some (stamped loc value (nr_clock r 3%nat)) /\
           forall now d, now < sy_now s / Second * Second + d ->
             GetResourceUsageRange env now (stored (sy_annos st.2) n) (sync_Name p) d
             = Ret (Ok value)) (faults, s).
Proof.
  intros Hloc Hsane Hc Hn Hsub Hs0 Hr Hf Hq. pose proof (fresh_start_inv loc policy s0 Hs0) as Hi0.
  pose proof (reached_inv env loc policy Hloc Hsane _ _ Hi0 Hr) as Hi.
  pose proof (reached_dom env loc policy Hloc Hsane _ _ Hi0 Hr) as Hdom.
  eapply eventually_impl; [|apply (pending_eventually env loc policy Hloc Hsane nodes Hn s); [done|]].
  - intros [f s'] [(_ & _ & _ & _ & _ & Hp) He]. cbn [snd] in *. split; [done|].
    intros n p Hin Hp'. destruct (Hp n (sync_Name p) Hin) as [Hk|Href]; [by exists p| |].
    + rewrite He in Hk. by apply elem_of_empty in Hk.
    + destruct Href as (turns & r & value & Hlog & Hr' & HPC & Ha & Ht & Hfr & Hst).
      exists turns, r, value. split_and!; try done. intros now d Hd.
      pose proof Ha as (_ & node & _ & _ & Hask). by eapply refreshed_active.
  - unfold pending. cbn [snd]. rewrite Hdom. split_and!; [done|done|apply Z.le_refl|done|by exists []|].
    intros n m Hin (p & Hp & <-). left. by apply Hq.
Qed.

(** C29: the node workers do not go on for ever, and lose no key. However the other workers
    interleave, [k] turns of node workers between two ticks take [k] keys off the queue and put
    back one for each turn that failed: for a listed node, Prometheus answered neither query or
    the API server refused a request ([turn_failed] of the turn's record). So no run of turns is
    longer than the keys waiting plus the failures, and it empties the queue when it is as long. *)
Theorem turns_counted `{QL : QuantityLib} `{JS : JSONPatchServer} (env : Env)
    (loc : Location) (policy : DynamicSchedulerPolicy) (s0 s s' : sys) (k : nat) :
  GetLocation env = Some loc -> sane_policy policy -> fresh_start policy s0 ->
  rtc (sys_step env loc policy) s0 s ->
  nsteps (fun s s' => exists r, next_turn env loc policy s r s') k s s' ->
  exists turns, sy_log s' = (turns ++ sy_log s)%list /\ length turns = k /\
    (size (sy_queue s') + k
     = size (sy_queue s) + length (List.filter (turn_failed env policy) turns))%nat.
Proof.
  intros Hloc Hsane Hs0 Hr Hk.
  pose proof (reached_inv env loc policy Hloc Hsane _ _ (fresh_start_inv loc policy s0 Hs0) Hr) as Hi.
  clear Hr Hs0. revert Hi. induction Hk as [s|k s s1 s' [r Hs] _ IH]; intros Hi.
  { exists []. cbn. split_and!; [done|done|lia]. }
  destruct (next_turn_spec env loc policy Hloc Hsane s r s1 Hi Hs) as (Hi1 & Hlog & _ & Hsz).
  destruct (IH Hi1) as (turns & Hlog' & Hlen & Hsz'). exists (turns ++ [r])%list.
  rewrite Hlog', Hlog, <- app_assoc, length_app, List.filter_app, length_app. cbn [List.filter length app].
  split_and!; [done|lia|]. destruct (turn_failed env policy r); cbn [length]; lia.
Qed.

(** ** Witnesses *)

Section Witnesses.
#[local] Existing Instance MilliQuantities.

#[local] Existing Instance split_server.

Definition sx_policy : DynamicSchedulerPolicy :=
  {| policy_APIVersion := "";
     Spec := {| SyncPeriod := [{| sync_Name := "cpu"; sync_Period := 3 * Minute |}];
                SyncAppPeriod := [];
                Predicate := [{| pred_Name := "cpu"; MaxLimitPecent := dx_half |}];
                Priority := []; HotValue := [{| hv_TimeRange := Minute; hv_Count := 1 |}] |} |}.
Definition sx_loc : Location := FixedZone 0.
Definition sx_annos : gmap string smap := {["n1" := ∅]}.
Definition sx_start : sys := {| sy_now := 0; sy_annos := sx_annos; sy_queue := ∅; sy_log := [] |}.
Definition sx_ticked : sys :=
  {| sy_now := 0; sy_annos := sx_annos;
     sy_queue := queue_after ∅ (enqueue_all (Ok ["n1"]) {| sync_Name := "cpu"; sync_Period
         := 3 * Minute |}); sy_log := [] |}.

Lemma sx_sane : sane_policy sx_policy.
Proof. split; [|constructor]. constructor; [|constructor]. by split_and!. Qed.

Lemma stored_empty n n' k : stored {[n := ∅]} n' !! k = None.
Proof.
  unfold stored. destruct (decide (n = n')) as [->|Hne];
    [by rewrite lookup_singleton_eq|by rewrite lookup_singleton_ne].
Qed.

Lemma sx_fresh : fresh_start sx_policy sx_start.
Proof. split; [|by split]. intros n k _. apply stored_empty. Qed.

Lemma sx_tick : rtc (sys_step (fixed_env 0) sx_loc sx_policy) sx_start sx_ticked.
Proof. apply rtc_once, (step_tick _ _ _ sx_start). left. Qed.

Lemma sx_fine : fine sx_loc 0.
Proof. split; [split|]; [by apply Z.leb_le|by apply Z.ltb_lt|]; reflexivity. Qed.

(** The node's usage is always "0.90000". *)
Definition sx_prom : PromClient :=
  {| QueryByNodeIP _ _ _ := Ok "0.90000"; QueryByNodeName _ _ _ := Ok "0.90000";
     QueryRangeByNodeIP _ _ _ := Ok "0.90000"; QueryRangeByNodeName _ _ _ := Ok "0.90000";
     QueryByNodeIPWithOffset _ _ _ _ := Ok "0.90000"; QueryByDeployment _ _ _ := Ok "0.90000";
     QueryRangeByDeployment _ _ _ := Ok "0.90000" |}.
#[local] Instance sx_prom_text : PromText sx_prom.
Proof. split; intros; intros s [= <-]; reflexivity. Qed.

Definition sx_record : node_record :=
  {| nr_prom := sx_prom; nr_client := fun _ => None; nr_lister := idle_lister sx_annos;
     nr_clock := fun _ => 0; nr_recs := fun _ => NewBindingRecords 0 0; nr_hclock := fun _ => 0;
     nr_now := 0; nr_key := "n1/cpu" |}.
Definition sx_turn : list request * go (bool * list queue_op) :=
  run_turn (fixed_env 0) sx_policy sx_record.
Definition sx_measured : sys :=
  {| sy_now := 0; sy_annos := default ∅ (serve (fun _ => None) sx_annos sx_turn.1);
     sy_queue := queue_after (sy_queue sx_ticked ∖ {["n1/cpu"]}) [QForget "n1/cpu"; QDone "n1/cpu"];
     sy_log := [sx_record] |}.

Lemma served_all {A} (d : A) (o : option A) :
  (match o with Some _ => true | None => false end) = true -> o = Some (default d o).
Proof. by destruct o. Qed.

Lemma sx_node_turn : node_turn (fixed_env 0) sx_loc sx_policy sx_ticked sx_record sx_measured.
Proof.
  apply (turn (fixed_env 0) sx_loc sx_policy sx_ticked sx_record sx_turn.1).
  - apply sx_prom_text.
  - apply idle_named.
  - set_solver.
  - split; apply Z.le_refl.
  - apply sx_fine.
  - apply sx_fine.
  - vm_compute. reflexivity.
  - apply served_all. vm_compute. reflexivity.
Qed.

Lemma sx_reached : rtc (sys_step (fixed_env 0) sx_loc sx_policy) sx_start sx_measured.
Proof. eapply rtc_r; [apply sx_tick|]. eapply step_node, sx_node_turn. Qed.

Definition sx_node : Node := idle_node "n1" (stored (sy_annos sx_measured) "n1").

Lemma rejection_was_measured_witness :
  exists i p d usage r answer,
    Predicate (Spec sx_policy) !! i = Some p /\
    GetActiveDuration (SyncPeriod (Spec sx_policy)) (pred_Name p) = Ok d /\
    r ∈ sy_log sx_measured /\ answered r (node_Name sx_node) (pred_Name p) answer /\
    ParseFloat answer = Ok usage /\ fltb (MaxLimitPecent p) usage = true /\
    nr_clock r 3%nat <= sy_now sx_measured /\ Minute < nr_clock r 3%nat / Second * Second + d.
Proof.
  apply (rejection_was_measured (fixed_env 0) sx_loc sx_policy sx_start sx_measured (fun _ => Minute)
           dx_pod {| ni_Node := Some sx_node; ni_Pods := [] |} sx_node
           (Errorf "Load[%s] of node[%s] is too high" ["cpu"; "n1"])).
  - reflexivity.
  - apply sx_sane.
  - apply sx_fresh.
  - apply sx_reached.
  - reflexivity.
  - reflexivity.
  - vm_compute. reflexivity.
Defined.

Lemma annotations_refreshed_witness :
  eventually (worker_turn (fixed_env 0) sx_loc sx_policy {["n1"]})
    (fun st => sy_queue st.2 = ∅ /\
       forall n p, n ∈ ({["n1"]} : gset string) -> p ∈ SyncPeriod (Spec sx_policy) ->
         exists turns r value,
           sy_log st.2 = (turns ++ sy_log sx_ticked)%list /\ r ∈ turns /\
           answered r n (sync_Name p) value /\ sy_now sx_ticked <= nr_clock r 3%nat /\
           stored (sy_annos st.2) n !! sync_Name p = Some (stamped sx_loc value (nr_clock r 3%nat)) /\
           forall now d, now < sy_now sx_ticked / Second * Second + d ->
             GetResourceUsageRange (fixed_env 0) now (stored (sy_annos st.2) n) (sync_Name p) d
             = Ret (Ok value)) (3%nat, sx_ticked).
Proof.
  apply (annotations_refreshed (fixed_env 0) sx_loc sx_policy {["n1"]} sx_start sx_ticked 3).
  - reflexivity.
  - apply sx_sane.
  - constructor; [discriminate|constructor].
  - by intros n ->%elem_of_singleton.
  - cbn [sx_start sy_annos]. unfold sx_annos. rewrite dom_singleton_L. done.
  - apply sx_fresh.
  - apply sx_tick.
  - apply sx_fine.
  - intros n p ->%elem_of_singleton ->%list_elem_of_singleton. set_solver.
Defined.

Lemma turns_counted_witness :
  exists turns, sy_log sx_measured = (turns ++ sy_log sx_ticked)%list /\ length turns = 1%nat /\
    (size (sy_queue sx_measured) + 1
     = size (sy_queue sx_ticked)
       + length (List.filter (turn_failed (fixed_env 0) sx_policy) turns))%nat.
Proof.
  apply (turns_counted (fixed_env 0) sx_loc sx_policy sx_start sx_ticked sx_measured 1).
  - reflexivity.
  - apply sx_sane.
  - apply sx_fresh.
  - apply sx_tick.
  - apply nsteps_once. exists sx_record, sx_ticked. split; [apply rtc_refl|apply sx_node_turn].
Defined.

End Witnesses.
