(* ===== verification/AnnotatorDeltas.v ===== *)
(** * The deltas of the nodes over time

    pkg/controller/annotator/pod.go adds the usage range of a deployment to the delta annotation
    of the node its pod was bound to, and subtracts it when the pod is being deleted; node.go
    removes the deltas every night. Here the annotations of AnnotatorSystem's server are read as a
    ledger: per node and application policy, the range the scheduler would see. The pod and reset
    workers refine a specification in which a pod event is booked at once ([book]) and a reset
    clears the node, provided their informers have caught up with the deltas; without
    that two pod workers with the same cached node lose an event. *)

From S2P Require Import Prelude GoStrings GoFloat GoFloatOrder GoTime K8s Policy Utils Binding.
From S2P Require Import AppAware Prometheus AnnotatorQueue AnnotatorNode AnnotatorApp AnnotatorSystem.

Open Scope string_scope.
Open Scope Z_scope.

(** ** The specification *)

(** What an annotation says: nothing, something that is not a range, or a range. *)
Inductive entry := Missing | Broken | Values (xs : list f64).

Definition entry_of_text (s : string) : entry :=
  if String.eqb s "" then Missing
  else match ParseRangeMetricsByString s with Ok xs => Values xs | Err _ => Broken end.

(** The delta of an application policy in the annotations of a node. *)
Definition delta_of (anno : smap) (name : string) : entry :=
  match anno !! (DeltaPrefixName ++ name) with
  | None => Missing
  | Some v => match split "," v with [s; _] => entry_of_text s | _ => Broken end
  end.

(** The delta after a deployment's usage is added (or subtracted, [sub]), if it changes. The first
    usage is taken over as it is; a delta of fewer values than the usage is dropped for zeros; one
    of more values stays, and so does one that cannot be read. *)
Definition account (sub : bool) (old usage : entry) : option entry :=
  match old, usage with
  | Broken, _ => None
  | Missing, _ =>
      if negb sub then Some usage
      else match usage with
           | Values us => Some (Values (List.map round5 (zip_with fsub (effective_deltas [] us) us)))
           | _ => None
           end
  | Values ds, Values us =>
      if (length us <? length ds)%nat then None
      else Some (Values (List.map round5
                   (zip_with (if sub then fsub else fadd) (effective_deltas ds us) us)))
  | Values _, _ => None
  end.

(** Per node and policy name. *)
Definition ledger := string -> string -> entry.

Definition same_ledger (L L' : ledger) : Prop := forall n k, L n k = L' n k.

Definition set_entry (L : ledger) (n k : string) (e : entry) : ledger :=
  fun n' k' => if decide (n' = n /\ k' = k) then e else L n' k'.

(** The usages an event reads, one per application policy; [None] where the policy is passed
    over. *)
Definition usages := list (string * option entry).

(** A pod event on the node [n]; each usage is added to the delta the event found ([L0]). *)
Definition book1 (sub : bool) (n : string) (L0 L : ledger) (r : string * option entry) : ledger :=
  match r with
  | (k, None) => L
  | (k, Some u) => match account sub (L0 n k) u with Some e => set_entry L n k e | None => L end
  end.

Definition book (sub : bool) (n : string) (rs : usages) (L : ledger) : ledger :=
  foldl (book1 sub n L) L rs.

(** What happens to the ledger. An event that fails books the usages before the failed write. *)
Inductive delta_event :=
| EOther
| EPod (n : string) (sub : bool) (rs : usages) (ok : bool)
| EReset (n : string) (ok : bool).

Inductive ledger_step : ledger -> delta_event -> ledger -> Prop :=
| ledger_other L L' : same_ledger L' L -> ledger_step L EOther L'
| ledger_pod L L' n sub rs rest (ok : bool) :
    (if ok then rest = [] else rest <> []) -> same_ledger L' (book sub n rs L) ->
    ledger_step L (EPod n sub (rs ++ rest)%list ok) L'
| ledger_reset L L' n (ok : bool) :
    (forall n' k, L' n' k = L n' k \/ n' = n /\ L' n' k = Missing) ->
    (ok = true -> forall k, L' n k = Missing) ->
    ledger_step L (EReset n ok) L'.

Inductive ledger_run : ledger -> list delta_event -> ledger -> Prop :=
| ledger_nil L : ledger_run L [] L
| ledger_snoc L es L1 e L2 : ledger_run L es L1 -> ledger_step L1 e L2 ->
    ledger_run L (es ++ [e])%list L2.

(** ** The workers *)

Section Deltas.
Context `{QL : QuantityLib} `{JS : JSONPatchServer}.
Context (env : Env) (loc : Location) (policy : DynamicSchedulerPolicy).

(** What the server stores, as a ledger. *)
Definition ledger_of (m : gmap string smap) : ledger := fun n k => delta_of (stored m n) k.

(** The usage a pod worker reads for a policy from the deployment. *)
Definition read_usage (now : Z) (deploy : Deployment) (p : SyncPolicy) : option entry :=
  if sync_Period p =? 0 then None
  else
    match GetResourceUsageRange env now (annos (om_Annotations (dep_meta deploy))) (sync_Name p)
            (wrap64 (sync_Period p + ExtraActivePeriod)) with
    | Ret (Ok s) => Some (entry_of_text s)
    | _ => None
    end.

Fixpoint reads (clock : nat -> Z) (i : nat) (deploy : Deployment) (l : list SyncPolicy) : usages :=
  match l with
  | [] => []
  | p :: l' => (sync_Name p, read_usage (clock (2 * i)%nat) deploy p) :: reads clock (S i) deploy l'
  end.

Definition deleting (pod : Pod) : bool :=
  match om_DeletionTimestamp (pod_meta pod) with None => false | Some _ => true end.

(** The event a turn of a pod worker is: none when the pod, its deployment or its node is not
    found. *)
Definition pod_event (split : string -> result (string * string))
    (podLister : string -> string -> result Pod) (rsLister : string -> string -> result ReplicaSet)
    (deployLister : string -> string -> result Deployment) (nodeLister : string -> result Node)
    (clock : nat -> Z) (key : string) (r : option error) : delta_event :=
  match split key with
  | Err _ => EOther
  | Ok (ns, name) =>
      match podLister ns name with
      | Err _ => EOther
      | Ok pod =>
          match GetDeploymentByPod rsLister deployLister pod, nodeLister (pod_NodeName pod) with
          | Ok deploy, Ok node =>
              EPod (node_Name node) (deleting pod)
                (reads clock 0 deploy (SyncAppPeriod (Spec policy)))
                (match r with None => true | Some _ => false end)
          | _, _ => EOther
          end
      end
  end.

(** The cached nodes carry the deltas the server stores. *)
Definition caught_up (lister : string -> result Node) (s : sys) : Prop :=
  forall n node k, lister n = Ok node -> has_prefix k DeltaPrefixName = true ->
    node_annos node !! k = stored (sy_annos s) n !! k.

(** A pod worker takes a key, with the cached deployments [deployLister]. *)
Inductive pod_turn (deployLister : string -> string -> result Deployment)
    : sys -> delta_event -> sys -> Prop :=
| delta_pod s kc split podLister rsLister lister clock now key rqs r m :
    named lister -> caught_up lister s -> sy_now s <= now -> fine loc now ->
    (forall i, sy_now s <= clock i <= now /\ fine loc (clock i)) ->
    pod_reconcile split env kc podLister rsLister deployLister lister policy clock key
      = (rqs, Ret r) ->
    serve kc (sy_annos s) rqs = Some m ->
    pod_turn deployLister s (pod_event split podLister rsLister deployLister lister clock key r)
      (served s now m).

(** The steps of AnnotatorSystem, with the event each is; pod and reset workers read caches that
    have caught up. First those that read no deployment. *)
Inductive still_step : sys -> delta_event -> sys -> Prop :=
| delta_aside s s' : aside_step env loc policy s s' -> still_step s EOther s'
| delta_tick s p names : p ∈ SyncPeriod (Spec policy) ->
    still_step s EOther {| sy_now := sy_now s; sy_annos := sy_annos s;
                           sy_queue := queue_after (sy_queue s) (enqueue_all names p);
                           sy_log := sy_log s |}
| delta_node s r s' : node_turn env loc policy s r s' -> still_step s EOther s'
| delta_reset s kc lister order n node rqs ok e m :
    plain_deltas lister -> named lister -> caught_up lister s ->
    (forall a k, k ∈ order a <-> is_Some (a !! k)) -> lister n = Ok node ->
    ndr_syncNode kc lister order n = (rqs, Ret (ok, e)) ->
    serve kc (sy_annos s) rqs = Some m -> still_step s (EReset n ok) (served s (sy_now s) m).

Inductive delta_step : sys -> delta_event -> sys -> Prop :=
| delta_still s e s' : still_step s e s' -> delta_step s e s'
| delta_turn deployLister s e s' :
    plain_deployments policy deployLister -> pod_turn deployLister s e s' -> delta_step s e s'.

Inductive delta_run : sys -> list delta_event -> sys -> Prop :=
| delta_nil s : delta_run s [] s
| delta_snoc s es s1 e s2 : delta_run s es s1 -> delta_step s1 e s2 ->
    delta_run s (es ++ [e])%list s2.

End Deltas.

(** ** Lemmas *)

Lemma parse_range_empty : exists e, ParseRangeMetricsByString "" = Err e.
Proof. eexists. vm_compute. reflexivity. Qed.

Lemma entry_of_parsed s xs : ParseRangeMetricsByString s = Ok xs -> entry_of_text s = Values xs.
Proof.
  intros Hp. unfold entry_of_text. destruct (String.eqb_spec s "") as [->|_]; [|by rewrite Hp].
  destruct parse_range_empty as [e He]. congruence.
Qed.

Lemma entry_of_unparsed s e :
  ParseRangeMetricsByString s = Err e -> entry_of_text s = Missing \/ entry_of_text s = Broken.
Proof.
  intros Hp. unfold entry_of_text. destruct (String.eqb s ""); [by left|]. rewrite Hp. by right.
Qed.

Lemma entry_of_range_text xs :
  xs <> [] -> forallb is_f64 xs = true -> entry_of_text (range_text xs) = Values (List.map round5 xs).
Proof. intros Hne Hx. by apply entry_of_parsed, parse_range_join. Qed.

Lemma zip_deltas_nonempty (op : f64 -> f64 -> f64) ds us :
  us <> [] -> zip_with op (effective_deltas ds us) us <> [].
Proof.
  intros Hne H. apply (f_equal length) in H. rewrite length_zip_with, effective_deltas_length in H.
  destruct us; [done|]. simpl in H. lia.
Qed.

(** The text of a merge reads as the merged values. *)
Lemma merged_text (sub : bool) ds dep us :
  ParseRangeMetricsByString dep = Ok us -> forallb is_f64 ds = true ->
  let out := zip_with (if sub then fsub else fadd) (effective_deltas ds us) us in
  entry_of_text (range_text out) = Values (List.map round5 out) /\ no_char "," (range_text out) = true.
Proof.
  intros Hus Hds out. split; [|apply range_text_no_comma]. apply entry_of_range_text.
  - by eapply zip_deltas_nonempty, parse_range_nonempty.
  - apply zip_closed; [destruct sub; auto|by apply effective_deltas_closed|by eapply parse_range_closed].
Qed.

(** Merging texts is accounting. *)
Definition merge_accounts (sub : bool) (delta dep : string) (r : result string) : Prop :=
  MergeUsageRange delta dep (if sub then MergeTypeSub else MergeTypeAdd) = Ret r /\
  match r with
  | Ok s => account sub (entry_of_text delta) (entry_of_text dep) = Some (entry_of_text s) /\
            no_char "," s = true
  | Err _ => account sub (entry_of_text delta) (entry_of_text dep) = None
  end.

Lemma merge_account_first (sub : bool) dep :
  no_char "," dep = true -> exists r, merge_accounts sub "" dep r.
Proof.
  intros Hc. destruct sub; [|by exists (Ok dep)].
  unfold merge_accounts, MergeUsageRange. change (entry_of_text "") with Missing.
  cbn [String.eqb andb account negb]. destruct (ParseRangeMetricsByString dep) as [us|e] eqn:Hus.
  - cbn [String.eqb Ascii.eqb Bool.eqb MergeTypeSub MergeTypeAdd].
    rewrite merge_loop_spec by by rewrite length_replicate. eexists. split; [reflexivity|].
    assert (effective_deltas [] us = replicate (length us) f64_zero) as <- by (by destruct us).
    destruct (merged_text true [] dep us Hus eq_refl) as [He Hn].
    split; [|done]. rewrite (entry_of_parsed _ _ Hus). by rewrite <- He.
  - eexists. split; [reflexivity|]. by destruct (entry_of_unparsed _ _ Hus) as [->| ->].
Qed.

Lemma merge_account (sub : bool) delta dep :
  no_char "," dep = true -> exists r, merge_accounts sub delta dep r.
Proof.
  intros Hc. destruct (String.eqb_spec delta "") as [->|Hd]; [by apply merge_account_first|].
  unfold merge_accounts. apply String.eqb_neq in Hd as Hd'.
  destruct (ParseRangeMetricsByString dep) as [us|e] eqn:Hus.
  2:{ unfold MergeUsageRange. rewrite Hd', Hus. cbn [andb]. eexists. split; [reflexivity|].
    assert (entry_of_text delta <> Missing) as Hm by (unfold entry_of_text; rewrite Hd'; by case_match).
    by destruct (entry_of_text delta), (entry_of_unparsed _ _ Hus) as [->| ->]. }
  rewrite (entry_of_parsed _ _ Hus). destruct (ParseRangeMetricsByString delta) as [ds|e] eqn:Hds.
  2:{ unfold MergeUsageRange. rewrite Hd', Hus, Hds. cbn [andb].
    eexists. split; [reflexivity|]. unfold entry_of_text. by rewrite Hd', Hds. }
  rewrite (entry_of_parsed _ _ Hds). unfold account. destruct (Nat.ltb_spec (length us) (length ds)).
  - unfold MergeUsageRange. rewrite Hd', Hus, Hds. cbn [andb].
    destruct (Nat.ltb_spec (length us) (length ds)); [|lia]. by eexists.
  - rewrite (MergeUsageRange_merge (if sub then fsub else fadd) _ delta dep ds us)
      by (done || destruct sub; auto).
    destruct (merged_text sub ds dep us Hus) as [He Hn]; [by eapply parse_range_closed|].
    eexists. split; [reflexivity|]. split; [by rewrite <- He|done].
Qed.

(** *** Ledgers *)

Lemma set_entry_same L L' n k e : same_ledger L L' -> same_ledger (set_entry L n k e) (set_entry L' n k e).
Proof. intros H n' k'. unfold set_entry. by case_decide. Qed.

Lemma book1_same sub n L0 L0' L L' r :
  same_ledger L0 L0' -> same_ledger L L' -> same_ledger (book1 sub n L0 L r) (book1 sub n L0' L' r).
Proof.
  intros H0 HL. destruct r as [k [u|]]; [|done]. cbn [book1]. rewrite H0.
  destruct (account _ _ _); [by apply set_entry_same|done].
Qed.

Lemma book_same sub n L0 L0' L L' rs :
  same_ledger L0 L0' -> same_ledger L L' ->
  same_ledger (foldl (book1 sub n L0) L rs) (foldl (book1 sub n L0') L' rs).
Proof.
  intros H0. revert L L'. induction rs as [|r rs IH]; intros L L' HL; [done|].
  cbn [foldl]. apply IH. by apply book1_same.
Qed.

Section DeltaLemmas.
Context `{QL : QuantityLib} `{JS : JSONPatchServer}.
Context (env : Env) (loc : Location) (policy : DynamicSchedulerPolicy).
Hypothesis Hloc : GetLocation env = Some loc.

Lemma delta_key_inj k k' : DeltaPrefixName ++ k = DeltaPrefixName ++ k' -> k = k'.
Proof. unfold DeltaPrefixName. by intros [= ->]. Qed.

(** Writes of other keys than deltas leave the ledger alone. *)
Lemma ledger_other_keys m m' :
  (forall n k, has_prefix k DeltaPrefixName = true -> stored m' n !! k = stored m n !! k) ->
  same_ledger (ledger_of m') (ledger_of m).
Proof.
  intros H n k. unfold ledger_of, delta_of. rewrite H; [done|]. apply has_prefix_spec. by eexists.
Qed.

(** A delta written at a fine time. *)
Lemma ledger_write kc m m' rq n k s now :
  writes rq n (DeltaPrefixName ++ k) (Some (stamped loc s now)) -> fine loc now ->
  no_char "," s = true -> kc rq = None -> serve1 kc m rq = Some m' ->
  same_ledger (ledger_of m') (set_entry (ledger_of m) n k (entry_of_text s)).
Proof.
  intros Hw [Hy _] Hs Hk Hm n' k'. unfold ledger_of, set_entry, delta_of.
  rewrite (serve1_cell kc m rq n _ _ m' n' (DeltaPrefixName ++ k') Hw Hm).
  destruct (decide (n' = n /\ k' = k)) as [[-> ->]|Hne].
  - rewrite decide_True by done. unfold stamped.
    by rewrite (proj2 (split_two "," _ s (Format now loc)))
      by (split_and!; [done|done|by apply Format_no_char]).
  - rewrite decide_False; [done|]. intros [[-> ->%delta_key_inj] _]. by destruct Hne.
Qed.

Lemma GetDelta_entry anno k s :
  GetDeltaUsageRange anno (DeltaPrefixName ++ k) = Ok s -> entry_of_text s = delta_of anno k.
Proof.
  unfold GetDeltaUsageRange, delta_of. destruct (anno !! _) as [v|]; [|by intros [= <-]].
  destruct (split "," v) as [|a [|b [|]]]; try done. by intros [= <-].
Qed.

Lemma GetDelta_broken anno k e :
  GetDeltaUsageRange anno (DeltaPrefixName ++ k) = Err e -> delta_of anno k = Broken.
Proof.
  unfold GetDeltaUsageRange, delta_of. destruct (anno !! _) as [v|]; [|done].
  by destruct (split "," v) as [|a [|b [|]]].
Qed.

Lemma usage_range_no_comma now anno key d s :
  GetResourceUsageRange env now anno key d = Ret (Ok s) -> no_char "," s = true.
Proof.
  unfold GetResourceUsageRange. destruct (anno !! key) as [u|]; [|by intros [= <-]].
  destruct (split "," u) as [|v [|ts [|]]] eqn:Hs; try done. apply split_two in Hs as (_ & Hv & _).
  destruct (InActivePeriod _ _ _ _) as [[]|]; cbn [go_bind negb]; [|done|done]. by intros [= <-].
Qed.

(** The new delta is the old one with the usage accounted. *)
Lemma new_delta_account now pod d node p r :
  new_delta env now pod d node p = Ret r ->
  match read_usage env now d p with
  | None => r = None
  | Some u => account (deleting pod) (delta_of (node_annos node) (sync_Name p)) u
              = option_map entry_of_text r
  end /\ forall s, r = Some s -> no_char "," s = true.
Proof.
  unfold new_delta, read_usage. destruct (sync_Period p =? 0); [by intros [= <-]|]. cbv zeta.
  destruct (GetResourceUsageRange _ _ _ _ _) as [[u|]|] eqn:Hu; cbn [go_bind]; [|by intros [= <-]|done].
  destruct (GetDeltaUsageRange _ _) as [v|] eqn:Hv.
  2:{ intros [= <-]. by rewrite (GetDelta_broken _ _ _ Hv). }
  rewrite <- (GetDelta_entry _ _ _ Hv).
  assert (merge_type pod = if deleting pod then MergeTypeSub else MergeTypeAdd) as ->
    by (unfold merge_type, deleting; by case_match).
  destruct (merge_account (deleting pod) v u (usage_range_no_comma _ _ _ _ _ Hu)) as (o & -> & Ho).
  cbn [go_bind]. intros [= <-]. destruct o as [s|e]; [|done]. destruct Ho as [-> Hs].
  split; [done|]. by intros ? [= <-].
Qed.

(** The loop over the policies books the usages up to the write that fails. *)
Lemma delta_loop_books kc clock i pod d node l m m' L0 L rqs r :
  plain_usages d l -> (forall i, fine loc (clock i)) ->
  Forall (fun p => plain (sync_Name p) = true) l ->
  (forall k, L0 (node_Name node) k = delta_of (node_annos node) k) ->
  same_ledger (ledger_of m) L ->
  delta_loop env kc clock i pod d node l = (rqs, Ret r) -> serve kc m rqs = Some m' ->
  exists rs rest, reads env clock i d l = (rs ++ rest)%list /\
    match r with Some _ => rest <> [] | None => rest = [] end /\
    same_ledger (ledger_of m') (foldl (book1 (deleting pod) (node_Name node) L0) L rs).
Proof.
  intros Hd Hf Hl H0. revert i m L rqs r.
  induction Hl as [|p l Hp Hl IH]; intros i m L rqs r HL; cbn [delta_loop reads].
  { intros [= <- <-] [= <-]. by exists [], []. }
  apply Forall_cons in Hd as [Hd1 Hd]. specialize (IH Hd).
  destruct (new_delta env _ pod d node p) as [o|] eqn:Hn; cbn [io_go io_bind]; [|done].
  destruct (new_delta_account _ _ _ _ _ _ Hn) as [Hacc Hcomma].
  destruct o as [s|].
  2:{ destruct (delta_loop env kc clock (S i) pod d node l) as [w [r'|]] eqn:Hrec; [|done].
      intros [= <- <-] Hm. destruct (IH (S i) m L _ _ HL Hrec Hm) as (rs & rest & -> & Hr & Hs).
      eexists (_ :: rs), rest. split; [reflexivity|]. split; [done|]. cbn [foldl book1].
      destruct (read_usage _ _ _ _) as [u|]; [|done]. by rewrite H0, Hacc. }
  destruct (PatchNodeAnnotation _ _ _ _ _ _) as [w [e|]] eqn:Hpatch; [|done]. cbn [io_bind].
  destruct (Patch_writes env loc Hloc kc (clock (2 * i + 1)%nat) node (DeltaPrefixName ++ sync_Name p) s w e)
    as (rq & -> & Hw & He); [done|by rewrite plain_app, Hp|by eapply new_delta_plain|done|].
  destruct e as [e|].
  { intros [= <- <-] (m1 & Hm & [= <-])%serve_cons_inv. eexists [], _. split; [reflexivity|]. split; [done|].
    destruct (kc rq) as [e'|] eqn:Hk; [|discriminate (proj2 He eq_refl)].
    by rewrite (serve1_refused _ _ _ _ _ Hk Hm). }
  destruct (delta_loop env kc clock (S i) pod d node l) as [w2 r2] eqn:Hrec.
  intros [= <- ->] (m1 & Hm & Hm')%serve_cons_inv. destruct (read_usage _ _ _ _) as [u|] eqn:Hu; [|done].
  destruct (IH (S i) m1 (set_entry L (node_Name node) (sync_Name p) (entry_of_text s)) w2 r)
    as (rs & rest & -> & Hr & Hs); [|done|done|].
  { intros n k. rewrite (ledger_write kc m m1 rq (node_Name node) (sync_Name p) s (clock (2 * i + 1)%nat));
      [by apply set_entry_same|done|done|by apply Hcomma|by apply He|done]. }
  eexists (_ :: rs), rest. split; [reflexivity|]. split; [done|]. cbn [foldl book1]. by rewrite H0, Hacc.
Qed.

(** Each request of the loop writes the delta with the usage that was read accounted. *)
Lemma delta_loop_requests kc clock i pod d node l rqs r rq :
  plain_usages d l -> (forall i, fine loc (clock i)) ->
  Forall (fun p => plain (sync_Name p) = true) l ->
  delta_loop env kc clock i pod d node l = (rqs, Ret r) -> rq ∈ rqs ->
  exists j p u s, l !! j = Some p /\ read_usage env (clock (2 * (i + j))%nat) d p = Some u /\
    account (deleting pod) (delta_of (node_annos node) (sync_Name p)) u = Some (entry_of_text s) /\
    writes rq (node_Name node) (DeltaPrefixName ++ sync_Name p)
      (Some (stamped loc s (clock (2 * (i + j) + 1)%nat))).
Proof.
  intros Hd Hf Hl. revert i rqs r. induction Hl as [|p l Hp Hl IH]; intros i rqs r; cbn [delta_loop].
  { by intros [= <- <-] ?%elem_of_nil. }
  apply Forall_cons in Hd as [Hd1 Hd]. specialize (IH Hd).
  assert (forall w, delta_loop env kc clock (S i) pod d node l = (w, Ret r) -> rq ∈ w ->
    exists j p' u s, (p :: l) !! j = Some p' /\ read_usage env (clock (2 * (i + j))%nat) d p' = Some u /\
      account (deleting pod) (delta_of (node_annos node) (sync_Name p')) u = Some (entry_of_text s) /\
      writes rq (node_Name node) (DeltaPrefixName ++ sync_Name p')
        (Some (stamped loc s (clock (2 * (i + j) + 1)%nat)))) as Hrest.
  { intros w Hw Hin. destruct (IH (S i) w r Hw Hin) as (j & q & u & s & Hj & H). exists (S j), q, u, s.
    replace (i + S j)%nat with (S i + j)%nat by lia. done. }
  destruct (new_delta env _ pod d node p) as [o|] eqn:Hn; cbn [io_go io_bind]; [|done].
  destruct (new_delta_account _ _ _ _ _ _ Hn) as [Hacc _].
  destruct o as [s|].
  2:{ destruct (delta_loop env kc clock (S i) pod d node l) as [w [r'|]] eqn:Hrec; [|done].
      intros [= <- <-]. by apply Hrest. }
  destruct (PatchNodeAnnotation _ _ _ _ _ _) as [w [e|]] eqn:Hpatch; [|done]. cbn [io_bind].
  destruct (Patch_writes env loc Hloc kc (clock (2 * i + 1)%nat) node (DeltaPrefixName ++ sync_Name p) s w e)
    as (rq' & -> & Hw & _); [done|by rewrite plain_app, Hp|by eapply new_delta_plain|done|].
  destruct (read_usage _ _ _ _) as [u|] eqn:Hu; [|done].
  assert (rq = rq' -> exists j p' u s, (p :: l) !! j = Some p' /\
    read_usage env (clock (2 * (i + j))%nat) d p' = Some u /\
    account (deleting pod) (delta_of (node_annos node) (sync_Name p')) u = Some (entry_of_text s) /\
    writes rq (node_Name node) (DeltaPrefixName ++ sync_Name p')
      (Some (stamped loc s (clock (2 * (i + j) + 1)%nat)))) as Hfirst.
  { intros ->. exists 0%nat, p, u, s. rewrite !Nat.add_0_r. done. }
  destruct e as [e|].
  { intros [= <- <-]. by intros Hin%list_elem_of_singleton; apply Hfirst. }
  destruct (delta_loop env kc clock (S i) pod d node l) as [w2 r2] eqn:Hrec.
  intros [= <- ->] [->|Hin]%elem_of_cons; [by apply Hfirst|by apply (Hrest w2)].
Qed.

(** Removals only remove, and an accepted one leaves nothing of its key. *)
Lemma serve_removes kc m m' node ks :
  Forall (fun k => plain k = true) ks ->
  serve kc m (List.map (remove_request node) ks) = Some m' ->
  (forall n k, stored m' n !! k = stored m n !! k \/ n = node_Name node /\ stored m' n !! k = None) /\
  (Forall (fun k => kc (remove_request node k) = None) ks ->
   forall k, k ∈ ks -> stored m' (node_Name node) !! k = None).
Proof.
  intros Hp. revert m. induction Hp as [|k ks Hk Hp IH]; intros m.
  { intros [= <-]. split; [by left|]. intros _ k Hk. by apply elem_of_nil in Hk. }
  cbn [List.map]. intros (m1 & Hm1 & Hm')%serve_cons_inv. destruct (IH m1 Hm') as [IH1 IH2].
  pose proof (fun n k' => serve1_cell kc m _ _ k None m1 n k' (remove_writes node k Hk) Hm1) as H1. split.
  - intros n k'. destruct (IH1 n k') as [->|?]; [|by right]. rewrite (H1 n).
    case_decide as Hd; [|by left]. destruct Hd as [[<- <-] _]. by right.
  - intros [Ha Hall]%Forall_cons k' [->|Hin]%elem_of_cons; [|by apply IH2].
    destruct (IH1 (node_Name node) k) as [->|[_ ?]]; [|done]. by rewrite H1, decide_True.
Qed.

Lemma reset_event s kc lister order n node rqs ok e m :
  plain_deltas lister -> named lister -> caught_up lister s ->
  (forall a k, k ∈ order a <-> is_Some (a !! k)) -> lister n = Ok node ->
  ndr_syncNode kc lister order n = (rqs, Ret (ok, e)) -> serve kc (sy_annos s) rqs = Some m ->
  ledger_step (ledger_of (sy_annos s)) (EReset n ok) (ledger_of m).
Proof.
  intros Hp Hn Hc Ho Hl Hr Hm. unfold ndr_syncNode in Hr. rewrite Hl in Hr.
  pose proof (Hn _ _ Hl) as <-. set (ks := delta_keys (order (node_annos node))) in *.
  assert (forall k, k ∈ ks -> plain k = true) as Hks.
  { intros k [Hk Hpre]%list_elem_of_In%filter_In. apply list_elem_of_In, Ho in Hk as [v Hv].
    by destruct (Hp _ _ _ _ Hl Hv Hpre). }
  assert (forall k, has_prefix k DeltaPrefixName = true -> k ∉ ks ->
    stored (sy_annos s) (node_Name node) !! k = None) as Habs.
  { intros k Hpre Hk. rewrite <- (Hc _ _ _ Hl Hpre). destruct (node_annos node !! k) eqn:Hv; [|done].
    destruct Hk. apply list_elem_of_In, filter_In. split; [|done]. apply list_elem_of_In, Ho. by eexists. }
  assert (forall k, has_prefix (DeltaPrefixName ++ k) DeltaPrefixName = true) as Hpre
    by (intros k; apply has_prefix_spec; by eexists).
  assert (forall ks', (forall k, k ∈ ks' -> k ∈ ks) ->
    serve kc (sy_annos s) (List.map (remove_request node) ks') = Some m -> forall n' k,
    ledger_of m n' k = ledger_of (sy_annos s) n' k
    \/ n' = node_Name node /\ ledger_of m n' k = Missing) as Hmono.
  { intros ks' Hin Hm' n' k. destruct (serve_removes kc (sy_annos s) m node ks') as [H1 _];
      [apply Forall_forall; auto|done|].
    unfold ledger_of, delta_of. destruct (H1 n' (DeltaPrefixName ++ k)) as [->|[-> ->]]; [by left|by right]. }
  destruct (delete_loop_spec kc node (order (node_annos node)))
    as [[Hall He]|(l1 & k & l2 & err & Hd & _ & _ & He)];
    rewrite He in Hr; fold ks in Hr; simplify_eq; fold ks in Hm.
  - constructor; [by apply (Hmono ks)|]. intros _ k.
    destruct (serve_removes kc (sy_annos s) m node ks) as [H1 H2]; [by apply Forall_forall|done|].
    unfold ledger_of, delta_of.
    destruct (decide (DeltaPrefixName ++ k ∈ ks)) as [Hin|Hnin]; [by rewrite (H2 Hall _ Hin)|].
    destruct (H1 (node_Name node) (DeltaPrefixName ++ k)) as [->|[_ ->]]; [|done].
    by rewrite Habs.
  - constructor; [|done]. apply (Hmono (l1 ++ [k])%list); [|done]. intros k' Hk'. unfold ks. rewrite Hd.
    rewrite elem_of_app, elem_of_cons. rewrite elem_of_app, list_elem_of_singleton in Hk'. naive_solver.
Qed.

Hypothesis Hsane : sane_policy policy.

(** A turn of a pod worker books its event on top of what is stored, reading the old deltas from
    its cache ([L0]). *)
Lemma pod_turn_books kc split podLister rsLister deployLister lister clock key rqs r m m' L0 :
  plain_deployments policy deployLister -> (forall i, fine loc (clock i)) ->
  (forall n node k, lister n = Ok node -> L0 (node_Name node) k = delta_of (node_annos node) k) ->
  pod_reconcile split env kc podLister rsLister deployLister lister policy clock key = (rqs, Ret r) ->
  serve kc m rqs = Some m' ->
  match pod_event env policy split podLister rsLister deployLister lister clock key r with
  | EPod n sub all ok =>
      exists rs rest, all = (rs ++ rest)%list /\ (if ok then rest = [] else rest <> []) /\
        same_ledger (ledger_of m') (foldl (book1 sub n L0) (ledger_of m) rs)
  | _ => m' = m
  end.
Proof.
  intros Hd Ht H0 Hr Hm. unfold pod_reconcile, io_ret in Hr. unfold pod_event.
  assert (rqs = [] -> m' = m) as Hnone by (intros ->; by injection Hm).
  destruct (split key) as [[ns name]|]; [|by simplify_eq; auto].
  destruct (podLister ns name) as [pod|]; [|by simplify_eq; auto].
  destruct (GetDeploymentByPod rsLister deployLister pod) as [d|] eqn:Hg; [|by simplify_eq; auto].
  destruct (lister (pod_NodeName pod)) as [node|] eqn:Hl; [|by simplify_eq; auto].
  destruct (delta_loop_books kc clock 0 pod d node (SyncAppPeriod (Spec policy)) m m' L0 (ledger_of m) rqs r)
    as (rs & rest & -> & Hrest & Hs); [|done|apply Hsane| |done|done|done|].
  - destruct (GetDeploymentByPod_listed _ _ _ _ Hg) as (ns' & n' & Hdl). by apply (Hd ns' n').
  - intros k. by eapply H0.
  - exists rs, rest. split_and!; [done|by destruct r|done].
Qed.

Lemma caught_up_base lister s n node k :
  named lister -> caught_up lister s -> lister n = Ok node ->
  ledger_of (sy_annos s) (node_Name node) k = delta_of (node_annos node) k.
Proof.
  intros Hn Hc Hl. unfold ledger_of, delta_of. rewrite (Hn _ _ Hl), (Hc _ _ _ Hl); [done|].
  apply has_prefix_spec. by eexists.
Qed.

Lemma pod_turn_event s kc split podLister rsLister deployLister lister clock key rqs r m :
  plain_deployments policy deployLister -> named lister -> caught_up lister s ->
  (forall i, fine loc (clock i)) ->
  pod_reconcile split env kc podLister rsLister deployLister lister policy clock key = (rqs, Ret r) ->
  serve kc (sy_annos s) rqs = Some m ->
  ledger_step (ledger_of (sy_annos s))
    (pod_event env policy split podLister rsLister deployLister lister clock key r) (ledger_of m).
Proof.
  intros Hd Hn Hc Ht Hr Hm.
  pose proof (pod_turn_books kc split podLister rsLister deployLister lister clock key rqs r (sy_annos s) m
    (ledger_of (sy_annos s)) Hd Ht (fun n node k => caught_up_base lister s n node k Hn Hc) Hr Hm) as Hb.
  destruct (pod_event _ _ _ _ _ _ _ _ _ r) as [|n sub all ok|n ok] eqn:He.
  - rewrite Hb. by constructor.
  - destruct Hb as (rs & rest & -> & Hrest & Hs). by apply ledger_pod.
  - unfold pod_event in He. by repeat case_match.
Qed.

Lemma delta_step_event s e s' :
  sys_inv loc policy s -> delta_step env loc policy s e s' ->
  sys_inv loc policy s' /\ ledger_step (ledger_of (sy_annos s)) e (ledger_of (sy_annos s')).
Proof.
  intros Hi Hs. destruct Hs as [s0 e0 s1 Hs|dl s0 e0 s1 Hd Hs];
    [destruct Hs as [s s' Ha|s p names Hp|s r s' Ht|s kc lister order n node rqs ok e m Hp Hn Hc Ho Hl Hr Hm]
    |destruct Hs as [s kc split pl rl lister clock now key rqs r m Hn Hc Hle Hf Ht Hr Hm]].
  - split; [eapply (sys_inv_step env loc policy Hloc Hsane), step_quiet, step_aside; done|].
    destruct (aside_keeps env loc policy Hloc s s' Ha) as (_ & _ & _ & _ & _ & Hk). constructor.
    apply ledger_other_keys. intros n k Hk'. apply Hk. by intros ->.
  - split; [eapply (sys_inv_step env loc policy Hloc Hsane), step_tick; done|by constructor].
  - split; [eapply (sys_inv_step env loc policy Hloc Hsane), step_node; done|].
    destruct (node_turn_effect env loc policy Hloc Hsane _ _ _ (proj2 Hi) Ht) as (n & m & []).
    constructor. apply ledger_other_keys. intros n' k Hk. apply te_other; [by intros ->|].
    right. intros ->. destruct (metric_sane policy Hsane m) as (_ & _ & ?); [done|congruence].
  - split; [|by eapply reset_event].
    eapply (sys_inv_step env loc policy Hloc Hsane), step_quiet, step_reset; [done|done| |done|done].
    intros a k. apply Ho.
  - split; [|eapply pod_turn_event; try done; apply Ht].
    eapply (sys_inv_step env loc policy Hloc Hsane), step_quiet, step_pod; done.
Qed.

Lemma delta_run_ledger s0 es s :
  sys_inv loc policy s0 -> delta_run env loc policy s0 es s ->
  sys_inv loc policy s /\ ledger_run (ledger_of (sy_annos s0)) es (ledger_of (sy_annos s)).
Proof.
  intros H0. induction 1 as [s|s0 es s1 e s2 _ IH Hs]; [by split; [|constructor]|].
  destruct (IH H0) as [Hi Hr]. destruct (delta_step_event _ _ _ Hi Hs). by split; [|econstructor].
Qed.

End DeltaLemmas.

(** The ledger after an event that succeeds. *)
Definition happen (L : ledger) (e : delta_event) : ledger :=
  match e with
  | EOther => L
  | EPod n sub rs _ => book sub n rs L
  | EReset n _ => fun n' k => if decide (n' = n) then Missing else L n' k
  end.

Definition succeeded (e : delta_event) : bool :=
  match e with EOther => true | EPod _ _ _ ok | EReset _ ok => ok end.

Lemma happen_same L L' e : same_ledger L L' -> same_ledger (happen L e) (happen L' e).
Proof.
  intros H. destruct e as [|n sub rs ok|n ok]; [done|by apply book_same|].
  intros n' k. cbn [happen]. by case_decide.
Qed.

Lemma step_happens L e L' : ledger_step L e L' -> succeeded e = true -> same_ledger L' (happen L e).
Proof.
  destruct 1 as [L L' H|L L' n sub rs rest ok Hd H|L L' n ok H Hd]; cbn [succeeded]; [done| |].
  - intros ->. subst rest. by rewrite app_nil_r.
  - intros ->. intros n' k. cbn [happen]. destruct (decide (n' = n)) as [->|Hne]; [by apply Hd|].
    destruct (H n' k) as [|[? _]]; done.
Qed.

Lemma run_happens L es L' :
  ledger_run L es L' -> forallb succeeded es = true -> same_ledger L' (foldl happen L es).
Proof.
  induction 1 as [L|L es L1 e L2 _ IH Hs]; [done|]. rewrite forallb_app, foldl_snoc.
  intros [Hes He]%andb_prop. cbn [forallb] in He. rewrite andb_true_r in He.
  intros n k. rewrite (step_happens _ _ _ Hs He). by apply happen_same, IH.
Qed.

(** *** What the scheduler reads *)

(** The values a delta counts for, against a node's range of [n] values. *)
Definition entry_values (n : nat) (e : entry) : option (list f64) :=
  match e with Missing => Some (replicate n f64_zero) | Broken => None | Values ds => Some ds end.

(** A policy predicts an overload of the node, with the deltas of a ledger. *)
Definition forecast `{QL : QuantityLib} (env : Env) (now now' : Z) (spec : PolicySpec) (node : Node)
    (deploy : Deployment) (deltas : string -> entry) (p : PredicatePolicy) : Prop :=
  has_prefix (pred_Name p) RangePrefix = true /\
  feqb (MaxLimitPecent p) f64_zero = false /\
  exists pre resource dm nm d1 d2 nstr wstr ns ws ds,
    split ":" (pred_Name p) = [pre; resource; dm; nm] /\
    GetActiveDuration (SyncPeriod spec) nm = Ok d1 /\ d1 <> 0 /\
    GetActiveDuration (SyncAppPeriod spec) dm = Ok d2 /\ d2 <> 0 /\
    GetResourceUsageRange env now (node_annos node) nm d1 = Ret (Ok nstr) /\
    GetResourceUsageRange env now' (annos (om_Annotations (dep_meta deploy))) dm d2 = Ret (Ok wstr) /\
    ParseRangeMetricsByString nstr = Ok ns /\ ParseRangeMetricsByString wstr = Ok ws /\
    entry_values (length ns) (deltas dm) = Some ds /\
    too_high (MaxLimitPecent p)
      (predicted ns ws ds (f64_of_Z (node_capacity node resource))) = true.

Lemma delta_values anno dm n ds :
  (exists dstr, GetDeltaUsageRange anno (DeltaPrefixName ++ dm) = Ok dstr /\
     (if String.eqb dstr "" then Ok (replicate n f64_zero) else ParseRangeMetricsByString dstr) = Ok ds) <->
  entry_values n (delta_of anno dm) = Some ds.
Proof.
  destruct (GetDeltaUsageRange anno (DeltaPrefixName ++ dm)) as [dstr|e] eqn:Hd.
  - rewrite <- (GetDelta_entry _ _ _ Hd). unfold entry_of_text.
    destruct (String.eqb dstr "") eqn:He; [|destruct (ParseRangeMetricsByString dstr) eqn:Hp];
      cbn [entry_values]; (split; [intros (? & [= <-] & Hx); rewrite He in Hx; rewrite ?Hp in Hx; by simplify_eq|]);
      [| |done]; intros [= <-]; exists dstr; by rewrite He.
  - rewrite (GetDelta_broken _ _ _ Hd). cbn [entry_values]. split; [by intros (? & ? & _)|done].
Qed.

Lemma predicts_forecast `{QL : QuantityLib} env now now' spec node deploy p :
  predicts env now now' spec node deploy p <->
  forecast env now now' spec node deploy (delta_of (node_annos node)) p.
Proof.
  unfold predicts, forecast. split.
  - intros (Hp & Hz & pre & r & dm & nm & d1 & d2 & nstr & wstr & dstr & ns & ws & ds & H1 & H2 & H3
      & H4 & H5 & H6 & H7 & H8 & H9 & H10 & H11 & H12).
    split; [done|]. split; [done|]. exists pre, r, dm, nm, d1, d2, nstr, wstr, ns, ws, ds.
    split_and!; try done. apply delta_values. by exists dstr.
  - intros (Hp & Hz & pre & r & dm & nm & d1 & d2 & nstr & wstr & ns & ws & ds & H1 & H2 & H3
      & H4 & H5 & H6 & H7 & H8 & H9 & (dstr & H10 & H11)%delta_values & H12).
    split; [done|]. split; [done|]. exists pre, r, dm, nm, d1, d2, nstr, wstr, dstr, ns, ws, ds.
    by split_and!.
Qed.

Lemma forecast_deltas `{QL : QuantityLib} env now now' spec node deploy L L' p :
  (forall k, L k = L' k) -> forecast env now now' spec node deploy L p ->
  forecast env now now' spec node deploy L' p.
Proof. intros H. unfold forecast. by setoid_rewrite H. Qed.

(** ** Properties *)

(** C4: the delta annotations are a ledger of pod events. Whatever the steps of the annotator's
    workers, its tickers and the clock, in any order, with any answers of Prometheus and of the
    API server, if the pod and reset workers' informers have caught up with the deltas when they
    turn, every step does to the ledger what the specification of its event says: a bound pod
    adds its deployment's usage to the deltas of its node, a pod being deleted subtracts it, a
    reset clears the node, and every other step changes no delta; an event that fails books the
    usages before the failed write. So when no event fails the ledger is exactly the events'. *)
Theorem deltas_refine `{QL : QuantityLib} `{JS : JSONPatchServer} (env : Env) (loc : Location)
    (policy : DynamicSchedulerPolicy) (s0 s : sys) (es : list delta_event) :
  GetLocation env = Some loc -> sane_policy policy -> fresh_start policy s0 ->
  delta_run env loc policy s0 es s ->
  ledger_run (ledger_of (sy_annos s0)) es (ledger_of (sy_annos s)) /\
  (forallb succeeded es = true ->
   same_ledger (ledger_of (sy_annos s)) (foldl happen (ledger_of (sy_annos s0)) es)).
Proof.
  intros Hl Hs Hf Hr. destruct (delta_run_ledger env loc policy Hl Hs s0 es s) as [_ Hrun];
    [by apply fresh_start_inv|done|]. split; [done|]. by apply run_happens.
Qed.

(** C6: the contract of the application-aware plugin with the annotator. In the runs of
    [deltas_refine] in which no event fails, for a pod of a deployment and a node that carries
    what the server stores, [Filter] of the plugin never panics, and rejects the node exactly
    when one of the range policies predicts an overload from the node's usage, the usage of the
    pod's deployment, and the delta that the booked events add up to. *)
Theorem app_filter_charges_events `{QL : QuantityLib} `{JS : JSONPatchServer} (env : Env)
    (loc : Location) (policy : DynamicSchedulerPolicy) (s0 s : sys) (es : list delta_event)
    (rsLister : string -> string -> result ReplicaSet)
    (deployLister : string -> string -> result Deployment) (clock : nat -> Z) (pod : Pod)
    (nodeInfo : NodeInfo) (deploy : Deployment) (node : Node) :
  GetLocation env = Some loc -> sane_policy policy -> fresh_start policy s0 ->
  delta_run env loc policy s0 es s -> forallb succeeded es = true ->
  GetDeploymentByPod rsLister deployLister pod = Ok deploy -> ni_Node nodeInfo = Some node ->
  om_Annotations (node_meta node) = Some (stored (sy_annos s) (node_Name node)) ->
  exists st, AppAware.Filter env rsLister deployLister policy clock pod nodeInfo = Ret st /\
    (st <> None <->
     exists i p, Predicate (Spec policy) !! i = Some p /\
       forecast env (clock (2 * i)%nat) (clock (2 * i + 1)%nat) (Spec policy) node deploy
         (foldl happen (ledger_of (sy_annos s0)) es (node_Name node)) p).
Proof.
  intros Hl Hs Hf Hr Hes Hd Hn Ha.
  destruct (delta_run_ledger env loc policy Hl Hs s0 es s) as [_ Hrun]; [by apply fresh_start_inv|done|].
  pose proof (run_happens _ _ _ Hrun Hes (node_Name node)) as Hled.
  assert (node_annos node = stored (sy_annos s) (node_Name node)) as Hna by (unfold node_annos; by rewrite Ha).
  assert (forall now now' p, predicts env now now' (Spec policy) node deploy p <->
    forecast env now now' (Spec policy) node deploy
      (foldl happen (ledger_of (sy_annos s0)) es (node_Name node)) p) as Hiff.
  { intros now now' p. rewrite predicts_forecast, Hna.
    split; apply forecast_deltas; intros k; [apply Hled|symmetry; apply Hled]. }
  assert (GetLocation env <> None) as Hloc by congruence.
  destruct (Filter_scan env rsLister deployLister policy clock pod nodeInfo deploy node _ Hloc Hd Hn Ha)
    as [(l1 & p & l2 & Hp & Hx & _ & ->)|[Hnone ->]]; (eexists; split; [reflexivity|]).
  - split; [|done]. intros _. exists (length l1), p. split; [|by apply Hiff].
    rewrite Hp. by apply list_lookup_middle.
  - split; [done|]. intros (i & p & Hp & Hx). exfalso. by eapply Hnone, Hiff.
Qed.

(** A usage older than the policy's period and five minutes is not booked: the usages are written
    once a day ([deployment_CreateMetricSyncTicker]), so with a shorter period the pods of the rest
    of the day change no delta. *)
Theorem expired_usage_unbooked `{QL : QuantityLib} (env : Env) (loc : Location) (deploy : Deployment)
    (p : SyncPolicy) (value : string) (t now : Z) :
  GetLocation env = Some loc -> fine loc t -> no_char "," value = true ->
  0 < sync_Period p <= int64_max - ExtraActivePeriod ->
  annos (om_Annotations (dep_meta deploy)) !! sync_Name p = Some (stamped loc value t) ->
  t / Second * Second + (sync_Period p + ExtraActivePeriod) <= now ->
  read_usage env now deploy p = None.
Proof.
  intros Hl [Hy Hz] Hc Hp Ha Hn. unfold read_usage. destruct (Z.eqb_spec (sync_Period p) 0); [done|].
  rewrite wrap64_id by (unfold ExtraActivePeriod, Minute, int64_min, int64_max in *; lia).
  rewrite (GetResourceUsageRange_written env loc _ _ value t) by done.
  by destruct (Z.ltb_spec now (t / Second * Second + (sync_Period p + ExtraActivePeriod))); [lia|].
Qed.

(** C32: two pod workers that hold the same cached node lose an event. After both have turned and
    all their writes were accepted, the delta is what the second event alone makes of the delta
    before both: the first event, whatever it was, is gone. *)
Theorem stale_node_loses_event `{QL : QuantityLib} `{JS : JSONPatchServer} (env : Env) (loc : Location)
    (policy : DynamicSchedulerPolicy) (kc : client) (split : string -> result (string * string))
    (podLister : string -> string -> result Pod) (rsLister : string -> string -> result ReplicaSet)
    (deployLister : string -> string -> result Deployment) (lister : string -> result Node)
    (clock clock' : nat -> Z) (key key' : string) (rqs rqs' : list request) (s : sys)
    (m m' : gmap string smap) (n k : string) (sub sub' : bool) (u u' e : entry) :
  GetLocation env = Some loc -> sane_policy policy ->
  plain_deployments policy deployLister -> named lister -> caught_up lister s ->
  (forall i, fine loc (clock i)) -> (forall i, fine loc (clock' i)) ->
  pod_event env policy split podLister rsLister deployLister lister clock key None
    = EPod n sub [(k, Some u)] true ->
  pod_event env policy split podLister rsLister deployLister lister clock' key' None
    = EPod n sub' [(k, Some u')] true ->
  pod_reconcile split env kc podLister rsLister deployLister lister policy clock key = (rqs, Ret None) ->
  pod_reconcile split env kc podLister rsLister deployLister lister policy clock' key' = (rqs', Ret None) ->
  serve kc (sy_annos s) rqs = Some m -> serve kc m rqs' = Some m' ->
  account sub' (ledger_of (sy_annos s) n k) u' = Some e ->
  ledger_of m' n k = e.
Proof.
  intros Hl Hsane Hd Hn Hc Hf Hf' He He' Hr Hr' Hm Hm' Ha.
  pose proof (pod_turn_books env loc policy Hl Hsane kc split podLister rsLister deployLister lister
    clock' key' rqs' None m m' (ledger_of (sy_annos s)) Hd Hf'
    (fun n node k => caught_up_base lister s n node k Hn Hc) Hr' Hm') as Hb.
  rewrite He' in Hb. destruct Hb as (rs & rest & Hrs & -> & Hs). rewrite app_nil_r in Hrs. subst rs.
  rewrite Hs. cbn [foldl book1]. rewrite Ha. unfold set_entry. by rewrite decide_True.
Qed.

(** ** Witnesses *)

Section Witnesses.
#[local] Existing Instance MilliQuantities.
#[local] Existing Instance split_server.
#[local] Existing Instance sx_prom_text.

Definition lx_metric : SyncPolicy := {| sync_Name := "range_node"; sync_Period := Hour |}.
Definition lx_policy : DynamicSchedulerPolicy :=
  {| policy_APIVersion := "";
     Spec := {| SyncPeriod := [lx_metric];
                SyncAppPeriod := [dx_sync];
                Predicate := [{| pred_Name := "range:cpu:range_cpu:range_node";
                                 MaxLimitPecent := f64_of_Z 1 |}];
                Priority := []; HotValue := [] |} |}.

(** An informer that holds what the server stores. *)
Definition lx_node (m : gmap string smap) (n : string) : Node :=
  {| node_meta := {| om_Name := n; om_Namespace := ""; om_Annotations := Some (stored m n);
                     om_OwnerReferences := []; om_DeletionTimestamp := None;
                     om_ResourceVersion := "" |};
     node_Addresses := []; node_Capacity := {["cpu" := 10000]} |}.
Definition lx_lister (m : gmap string smap) (n : string) : result Node := Ok (lx_node m n).
Definition lx_client : client := fun _ => None.
Definition lx_rs (_ _ : string) : result ReplicaSet := Ok dx_rs.
Definition lx_deploys (_ _ : string) : result Deployment := Ok dx_deploy.
Definition lx_keys (a : smap) : list string := List.map fst (map_to_list a).

(** The node is measured, two pods of a deployment with a usage of 1 are bound to it, and the
    deltas are reset. *)
Definition lx_annos : gmap string smap := {["n" := ∅]}.
Definition lx_record : node_record :=
  {| nr_prom := sx_prom; nr_client := lx_client; nr_lister := lx_lister lx_annos;
     nr_clock := fun _ => 0; nr_recs := fun _ => NewBindingRecords 0 0; nr_hclock := fun _ => 0;
     nr_now := 0; nr_key := "n/range_node" |}.
Definition lx_measure : list request * go (bool * list queue_op) :=
  run_turn (fixed_env 0) lx_policy lx_record.
Definition lx_pod (m : gmap string smap) : list request * go (option error) :=
  pod_reconcile (fun _ => Ok ("ns", "x")) (fixed_env 0) lx_client (fun _ _ => Ok dx_pod)
    lx_rs lx_deploys (lx_lister m) lx_policy (fun _ => 0) "ns/x".
Definition lx_event (m : gmap string smap) : delta_event :=
  pod_event (fixed_env 0) lx_policy (fun _ => Ok ("ns", "x")) (fun _ _ => Ok dx_pod)
    lx_rs lx_deploys (lx_lister m) (fun _ => 0) "ns/x" None.
Definition lx_reset (m : gmap string smap) : list request * go (bool * option error) :=
  ndr_syncNode lx_client (lx_lister m) lx_keys "n".

Definition lx_serve (m : gmap string smap) (rqs : list request) : gmap string smap :=
  default ∅ (serve lx_client m rqs).
Definition lx_m0 : gmap string smap := lx_serve lx_annos lx_measure.1.
Definition lx_m1 : gmap string smap := lx_serve lx_m0 (lx_pod lx_m0).1.
Definition lx_m2 : gmap string smap := lx_serve lx_m1 (lx_pod lx_m1).1.
Definition lx_m3 : gmap string smap := lx_serve lx_m2 (lx_reset lx_m2).1.

Definition lx_start : sys := {| sy_now := 0; sy_annos := lx_annos; sy_queue := ∅; sy_log := [] |}.
Definition lx_names : result (list string) := Ok ["n"].
Definition lx_ticked : gset string :=
  queue_after ∅ (enqueue_all lx_names lx_metric).
Definition lx_waiting : sys :=
  {| sy_now := 0; sy_annos := lx_annos; sy_queue := lx_ticked; sy_log := [] |}.
Definition lx_sys (m : gmap string smap) : sys :=
  {| sy_now := 0; sy_annos := m;
     sy_queue := queue_after (lx_ticked ∖ {["n/range_node"]}) [QForget "n/range_node"; QDone "n/range_node"];
     sy_log := [lx_record] |}.

Lemma lx_named m : named (lx_lister m).
Proof. by intros n node [= <-]. Qed.

Lemma lx_caught_up m : caught_up (lx_lister m) (lx_sys m).
Proof. by intros n node k [= <-] _. Qed.

Lemma lx_deployments : plain_deployments lx_policy lx_deploys.
Proof. intros ns n d [= <-]. constructor; [|constructor]. intros v. vm_compute. by intros [= <-]. Qed.

Lemma lx_sane : sane_policy lx_policy.
Proof. split; [|by repeat constructor]. constructor; [|constructor]. by split_and!. Qed.

Lemma lx_fresh : fresh_start lx_policy lx_start.
Proof. split; [|by split]. intros n k _. apply stored_empty. Qed.

Lemma lx_tick_step : still_step (fixed_env 0) sx_loc lx_policy lx_start EOther lx_waiting.
Proof. apply (delta_tick (fixed_env 0) sx_loc lx_policy lx_start lx_metric lx_names). left. Qed.

Lemma lx_node_step : still_step (fixed_env 0) sx_loc lx_policy lx_waiting EOther (lx_sys lx_m0).
Proof.
  apply (delta_node _ _ _ _ lx_record).
  apply (turn (fixed_env 0) sx_loc lx_policy lx_waiting lx_record lx_measure.1).
  - apply sx_prom_text.
  - apply lx_named.
  - vm_compute. reflexivity.
  - split; apply Z.le_refl.
  - apply sx_fine.
  - apply sx_fine.
  - vm_compute. reflexivity.
  - apply served_all. vm_compute. reflexivity.
Qed.

Lemma lx_pod_step m :
  (lx_pod m).2 = Ret None -> serve lx_client m (lx_pod m).1 = Some (lx_serve m (lx_pod m).1) ->
  delta_step (fixed_env 0) sx_loc lx_policy (lx_sys m) (lx_event m) (lx_sys (lx_serve m (lx_pod m).1)).
Proof.
  intros Hr Hs. apply (delta_turn (fixed_env 0) sx_loc lx_policy lx_deploys); [apply lx_deployments|].
  apply (delta_pod (fixed_env 0) sx_loc lx_policy lx_deploys (lx_sys m) lx_client
    (fun _ => Ok ("ns", "x")) (fun _ _ => Ok dx_pod) lx_rs (lx_lister m) (fun _ => 0) 0 "ns/x" (lx_pod m).1).
  - apply lx_named.
  - apply lx_caught_up.
  - apply Z.le_refl.
  - apply sx_fine.
  - intros i. split; [split; apply Z.le_refl|apply sx_fine].
  - fold (lx_pod m). by rewrite <- Hr, <- surjective_pairing.
  - exact Hs.
Qed.

Lemma lx_keys_spec a k : k ∈ lx_keys a <-> is_Some (a !! k).
Proof.
  unfold lx_keys. rewrite list_elem_of_fmap. split.
  - intros ([k' v] & -> & Hv%elem_of_map_to_list). by exists v.
  - intros [v Hv]. exists (k, v). split; [done|]. by apply elem_of_map_to_list.
Qed.

Definition all_plain (m : gmap string smap) : bool :=
  forallb (fun a => forallb (fun kv => plain kv.1 && plain kv.2) (map_to_list a.2)) (map_to_list m).

Lemma lx_plain_deltas m : all_plain m = true -> plain_deltas (lx_lister m).
Proof.
  intros Hall n node k v [= <-]. unfold node_annos, annos.
  cbn [lx_node node_meta om_Annotations default from_option id]. intros Hv _.
  unfold stored in Hv. destruct (m !! n) as [a|] eqn:Ha; cbn [default from_option id] in Hv;
    [|by rewrite lookup_empty in Hv].
  unfold all_plain in Hall. rewrite forallb_forall in Hall.
  assert (In (n, a) (map_to_list m)) as Hin%Hall by by apply list_elem_of_In, elem_of_map_to_list.
  rewrite forallb_forall in Hin.
  assert (In (k, v) (map_to_list a)) as Hkv%Hin by by apply list_elem_of_In, elem_of_map_to_list.
  by apply andb_true_iff in Hkv.
Qed.

Lemma lx_reset_step m :
  plain_deltas (lx_lister m) -> (lx_reset m).2 = Ret (true, None) ->
  serve lx_client m (lx_reset m).1 = Some (lx_serve m (lx_reset m).1) ->
  delta_step (fixed_env 0) sx_loc lx_policy (lx_sys m) (EReset "n" true)
    (lx_sys (lx_serve m (lx_reset m).1)).
Proof.
  intros Hp Hr Hs. apply delta_still. eapply (delta_reset (fixed_env 0) sx_loc lx_policy (lx_sys m) lx_client (lx_lister m)
    lx_keys "n" _ (lx_reset m).1 true None).
  - exact Hp.
  - apply lx_named.
  - apply lx_caught_up.
  - apply lx_keys_spec.
  - reflexivity.
  - fold (lx_reset m). by rewrite <- Hr, <- surjective_pairing.
  - exact Hs.
Qed.

Definition lx_bound : list delta_event := [EOther; EOther; lx_event lx_m0; lx_event lx_m1].

Lemma lx_run_bound : delta_run (fixed_env 0) sx_loc lx_policy lx_start lx_bound (lx_sys lx_m2).
Proof.
  change lx_bound with (((([] ++ [EOther]) ++ [EOther]) ++ [lx_event lx_m0]) ++ [lx_event lx_m1])%list.
  do 4 (econstructor; [|first [apply delta_still, lx_node_step|apply delta_still, lx_tick_step
    |apply lx_pod_step; [|apply served_all]; vm_compute; reflexivity]]).
  constructor.
Qed.

(** The delta is 2 until the reset. *)
Lemma deltas_refine_witness :
  (ledger_run (ledger_of lx_annos) (lx_bound ++ [EReset "n" true]) (ledger_of lx_m3) /\
   (forallb succeeded (lx_bound ++ [EReset "n" true]) = true ->
    same_ledger (ledger_of lx_m3) (foldl happen (ledger_of lx_annos) (lx_bound ++ [EReset "n" true])))) /\
  forallb succeeded (lx_bound ++ [EReset "n" true]) = true /\
  ledger_of lx_m2 "n" "range_cpu" = Values [f64_of_Z 2] /\
  ledger_of lx_m3 "n" "range_cpu" = Missing.
Proof.
  split; [|split_and!; vm_compute; reflexivity].
  apply (deltas_refine (fixed_env 0) sx_loc lx_policy lx_start (lx_sys lx_m3)).
  - reflexivity.
  - apply lx_sane.
  - apply lx_fresh.
  - econstructor; [apply lx_run_bound|]. apply lx_reset_step; [apply lx_plain_deltas| |apply served_all]; vm_compute; reflexivity.
Defined.

Definition lx_filter (m : gmap string smap) : go Status :=
  AppAware.Filter (fixed_env 0) lx_rs lx_deploys lx_policy (fun _ => 0) dx_pod
    {| ni_Node := Some (lx_node m "n"); ni_Pods := [] |}.

(** A node of ten CPUs, used to nine tenths: another pod of the deployment fits while the deltas
    are reset, and does not after two. *)
Lemma app_filter_charges_events_witness :
  (exists st, lx_filter lx_m2 = Ret st /\
    (st <> None <->
     exists i p, Predicate (Spec lx_policy) !! i = Some p /\
       forecast (fixed_env 0) 0 0 (Spec lx_policy) (lx_node lx_m2 "n") dx_deploy
         (foldl happen (ledger_of lx_annos) lx_bound "n") p)) /\
  lx_filter lx_m3 = Ret None /\
  lx_filter lx_m2 = Ret (NewStatus Unschedulable
    (Errorf "Plugin[%s] node[%s] policy[%s] for pod[%s] is too high"
       [Name; "n"; "range:cpu:range_cpu:range_node"; "x"])).
Proof.
  split; [|split; vm_compute; reflexivity].
  apply (app_filter_charges_events (fixed_env 0) sx_loc lx_policy lx_start (lx_sys lx_m2) lx_bound
    lx_rs lx_deploys (fun _ => 0) dx_pod {| ni_Node := Some (lx_node lx_m2 "n"); ni_Pods := [] |}
    dx_deploy (lx_node lx_m2 "n")).
  - reflexivity.
  - apply lx_sane.
  - apply lx_fresh.
  - apply lx_run_bound.
  - vm_compute. reflexivity.
  - reflexivity.
  - reflexivity.
  - reflexivity.
Defined.

(** The same two pods with the node cached before both: the delta is 1. *)
Lemma stale_node_loses_event_witness :
  ledger_of (lx_serve lx_m1 (lx_pod lx_m0).1) "n" "range_cpu"
  = Values [f64_of_Z 1] /\
  book false "n" [("range_cpu", Some (Values [f64_of_Z 1]))]
    (book false "n" [("range_cpu", Some (Values [f64_of_Z 1]))] (ledger_of lx_m0)) "n" "range_cpu"
  = Values [f64_of_Z 2].
Proof.
  split; [|vm_compute; reflexivity].
  apply (stale_node_loses_event (fixed_env 0) sx_loc lx_policy lx_client (fun _ => Ok ("ns", "x"))
    (fun _ _ => Ok dx_pod) lx_rs lx_deploys (lx_lister lx_m0)
    (fun _ => 0) (fun _ => 0) "ns/x" "ns/x" (lx_pod lx_m0).1 (lx_pod lx_m0).1 (lx_sys lx_m0) lx_m1
    (lx_serve lx_m1 (lx_pod lx_m0).1) "n" "range_cpu" false false (Values [f64_of_Z 1]) (Values [f64_of_Z 1])).
  - reflexivity.
  - apply lx_sane.
  - apply lx_deployments.
  - apply lx_named.
  - apply lx_caught_up.
  - intros i. apply sx_fine.
  - intros i. apply sx_fine.
  - vm_compute. reflexivity.
  - vm_compute. reflexivity.
  - vm_compute. reflexivity.
  - vm_compute. reflexivity.
  - apply served_all. vm_compute. reflexivity.
  - apply served_all. vm_compute. reflexivity.
  - vm_compute. reflexivity.
Defined.

End Witnesses.
