(* ===== verification/DeltaUnits.v ===== *)
(** * The deltas are exact

    pkg/controller/annotator/pod.go keeps the delta of a node as a text and updates it with floating
    point additions and subtractions, an arithmetic in which errors usually build up. Here the
    ledger of AnnotatorDeltas is read in units of 10^-5 ([units]), and the float operations are
    refined by integer ones: as long as no value exceeds a thousand million, the delta is the exact
    sum of what the events charged, whatever their number and order; a pod that comes and goes
    leaves nothing behind. *)

From S2P Require Import Prelude GoStrings GoFloat GoFloatOrder GoDecimal GoTime K8s Policy Utils.
From S2P Require Import AnnotatorApp AnnotatorSystem AnnotatorDeltas.

Open Scope string_scope.
Open Scope Z_scope.

(** ** The ledger in units *)

(** The units of an entry of [len] values; an annotation that is missing counts for zeros. *)
Definition entry_units (len : nat) (e : entry) : option (list Z) :=
  match e with
  | Missing => Some (replicate len 0)
  | Broken => None
  | Values xs =>
      if forallb tidy xs && (length xs =? len)%nat then Some (List.map units xs) else None
  end.

Definition moderate_units (zs : list Z) : bool := forallb (fun z => Z.abs z <=? units_max) zs.

Definition add_units (zs us : list Z) : list Z := zip_with Z.add zs us.

(** What an event adds to the delta of the node [n] for the policy [k]: [None] when it resets it,
    or when its usage is not such an entry, or when the policy is listed more than once. *)
Definition charge (len : nat) (n k : string) (e : delta_event) : option (list Z) :=
  let zeros := replicate len 0 in
  match e with
  | EOther => Some zeros
  | EReset n' _ => if decide (n' = n) then None else Some zeros
  | EPod n' sub rs _ =>
      if decide (n' = n) then
        match List.filter (fun r => String.eqb r.1 k) rs with
        | [] => Some zeros
        | [(_, None)] => Some zeros
        | [(_, Some u)] =>
            option_map (fun us => if sub : bool then List.map Z.opp us else us) (entry_units len u)
        | _ => None
        end
      else Some zeros
  end.

(** The delta after the events, computed on integers. *)
Fixpoint total (len : nat) (n k : string) (zs : list Z) (es : list delta_event) : option (list Z) :=
  match es with
  | [] => Some zs
  | e :: es' =>
      match charge len n k e with
      | Some us =>
          if moderate_units (add_units zs us) then total len n k (add_units zs us) es' else None
      | None => None
      end
  end.

(** ** Lemmas *)

Lemma entry_units_length len e zs : entry_units len e = Some zs -> length zs = len.
Proof.
  destruct e as [| |xs]; cbn [entry_units]; [intros [= <-]; apply length_replicate|done|].
  destruct (forallb tidy xs); [|done]. cbn [andb]. destruct (Nat.eqb_spec (length xs) len); [|done].
  intros [= <-]. by rewrite length_map.
Qed.

Lemma add_zeros zs : add_units zs (replicate (length zs) 0) = zs.
Proof.
  induction zs as [|z zs IH]; [done|]. unfold add_units in *. cbn [length replicate zip_with].
  by rewrite IH, Z.add_0_r.
Qed.

Lemma zeros_add zs : add_units (replicate (length zs) 0) zs = zs.
Proof.
  induction zs as [|z zs IH]; [done|]. unfold add_units in *. cbn [length replicate zip_with].
  by rewrite IH.
Qed.

(** Position by position, the float operation is the integer one. *)
Lemma tidy_zip (sub : bool) ds us :
  forallb tidy ds = true -> forallb tidy us = true -> length ds = length us ->
  let us' := if sub then List.map Z.opp (List.map units us) else List.map units us in
  moderate_units (add_units (List.map units ds) us') = true ->
  let out := List.map round5 (zip_with (if sub then fsub else fadd) ds us) in
  forallb tidy out = true /\ List.map units out = add_units (List.map units ds) us' /\
  length out = length us.
Proof.
  revert us. induction ds as [|d ds IH]; intros [|u us]; try done.
  intros [Hd Hds]%andb_prop [Hu Hus]%andb_prop [= Hl] us' Hm out.
  assert (moderate_units (add_units (List.map units ds)
    (if sub then List.map Z.opp (List.map units us) else List.map units us)) = true /\
    Z.abs (if sub then units d - units u else units d + units u) <= units_max) as [Hm' Ha].
  { unfold us', add_units in Hm. destruct sub; cbn [List.map zip_with] in Hm; apply andb_prop in Hm as [Hz%Z.leb_le Hm]; split; lia || done. }
  destruct (IH us Hds Hus Hl Hm') as (H1 & H2 & H3). destruct (tidy_op sub d u Hd Hu Ha) as [Ht Hn].
  unfold out. cbn [List.map forallb length zip_with]. rewrite Ht, H1, H2, H3, Hn.
  split_and!; [done| |done]. unfold us'. by destruct sub.
Qed.

Lemma tidy_zeros n : forallb tidy (replicate n f64_zero) = true /\ List.map units (replicate n f64_zero) = replicate n 0.
Proof. induction n as [|n [H1 H2]]; [done|]. cbn [replicate forallb List.map]. by rewrite H1, H2. Qed.

(** Accounting a usage adds its units, or takes them off. *)
Lemma account_units len (sub : bool) old u zs us :
  entry_units len old = Some zs -> entry_units len u = Some us ->
  let us' := if sub then List.map Z.opp us else us in
  moderate_units (add_units zs us') = true ->
  entry_units len (match account sub old u with Some e => e | None => old end) = Some (add_units zs us').
Proof.
  intros Ho Hu us' Hm. pose proof (entry_units_length _ _ _ Ho) as Hlz.
  assert (List.map Z.opp (replicate len 0) = replicate len 0) as Hzo
    by (clear; induction len as [|len IH]; [done|]; cbn; by rewrite IH).
  destruct u as [| |xs]; [| |cbn [entry_units] in Hu].
  - cbn [entry_units] in Hu. simplify_eq.
    assert (us' = replicate (length zs) 0) as -> by (unfold us'; by destruct sub).
    rewrite add_zeros. destruct old as [| |ds]; [destruct sub|..]; done.
  - done.
  - destruct (forallb tidy xs) eqn:Hx; [|done]. cbn [andb] in Hu.
    destruct (Nat.eqb_spec (length xs) len) as [<-|]; [|done]. injection Hu as <-.
    assert (forall ds, forallb tidy ds = true -> List.map units ds = zs -> length ds = length xs ->
      entry_units (length xs) (Values (List.map round5 (zip_with (if sub then fsub else fadd) ds xs)))
      = Some (add_units zs us')) as Hzip.
    { intros ds Hd Hz Hl. destruct (tidy_zip sub ds xs Hd Hx Hl) as (H1 & H2 & H3); [by rewrite Hz|].
      cbn [entry_units]. rewrite H1, H2, H3, Nat.eqb_refl, Hz. done. }
    destruct old as [| |ds]; cbn [account].
    + cbn [entry_units] in Ho. injection Ho as <-. destruct sub; cbn [negb].
      * destruct (tidy_zeros (length xs)) as [H1 H2].
        assert (effective_deltas [] xs = replicate (length xs) f64_zero) as -> by (by destruct xs).
        apply Hzip; [done|done|apply length_replicate].
      * cbn [entry_units]. rewrite Hx, Nat.eqb_refl. cbn [andb]. unfold us'.
        by rewrite <- (length_map units xs), zeros_add.
    + done.
    + cbn [entry_units] in Ho. destruct (forallb tidy ds) eqn:Hd; [|done]. cbn [andb] in Ho.
      destruct (Nat.eqb_spec (length ds) (length xs)) as [Hl|]; [|done]. injection Ho as <-.
      destruct (Nat.ltb_spec (length xs) (length ds)); [lia|]. unfold effective_deltas.
      rewrite Hl, Nat.eqb_refl. by apply Hzip.
Qed.

(** Only the usages of a policy touch its delta. *)
Lemma book_at sub n k L0 L rs :
  foldl (book1 sub n L0) L rs n k
  = foldl (fun e r => match r.2 with
                      | Some u => match account sub (L0 n k) u with Some e' => e' | None => e end
                      | None => e
                      end) (L n k) (List.filter (fun r => String.eqb r.1 k) rs).
Proof.
  revert L. induction rs as [|[k' o] rs IH]; intros L; [done|]. cbn [foldl List.filter fst]. rewrite IH.
  destruct (String.eqb_spec k' k) as [->|Hne]; cbn [foldl snd book1]; f_equal.
  - destruct o as [u|]; [|done]. destruct (account _ _ _); [|done]. unfold set_entry. by rewrite decide_True.
  - destruct o as [u|]; [|done]. destruct (account _ _ _); [|done]. unfold set_entry.
    rewrite decide_False; [done|]. by intros [_ ->].
Qed.

Lemma happen_units len n k L e zs us :
  entry_units len (L n k) = Some zs -> charge len n k e = Some us ->
  moderate_units (add_units zs us) = true ->
  entry_units len (happen L e n k) = Some (add_units zs us).
Proof.
  intros Hz Hc Hm. pose proof (entry_units_length _ _ _ Hz) as Hl. subst len.
  destruct e as [|n' sub rs done|n' done]; cbn [charge happen] in *.
  - simplify_eq. by rewrite add_zeros.
  - destruct (decide (n' = n)) as [->|Hne].
    + unfold book. rewrite book_at.
      destruct (List.filter _ rs) as [|[k' [u|]] [|]]; simplify_eq; cbn [foldl snd];
        [by rewrite add_zeros| |by rewrite add_zeros].
      destruct (entry_units (length zs) u) as [xs|] eqn:Hu; [|done]. cbn [option_map] in Hc. simplify_eq.
      by apply account_units.
    + simplify_eq. rewrite add_zeros, <- Hz. f_equal. unfold book.
      generalize L at 1 as L0. intros L0. revert L Hz. induction rs as [|[k' o] rs IH]; intros L Hz; [done|].
      cbn [foldl]. rewrite IH.
      * cbn [book1]. destruct o; [|done]. destruct (account _ _ _); [|done]. unfold set_entry.
        rewrite decide_False; [done|]. by intros [-> _].
      * cbn [book1]. destruct o; [|done]. destruct (account _ _ _); [|done]. unfold set_entry.
        rewrite decide_False; [done|]. by intros [-> _].
  - destruct (decide (n' = n)) as [|Hne]; [done|]. simplify_eq. by rewrite decide_False, add_zeros.
Qed.

Lemma happen_total len n k L es zs out :
  entry_units len (L n k) = Some zs -> total len n k zs es = Some out ->
  entry_units len (foldl happen L es n k) = Some out.
Proof.
  revert L zs. induction es as [|e es IH]; intros L zs Hz; cbn [total foldl]; [by intros [= <-]|].
  destruct (charge len n k e) as [us|] eqn:Hc; [|done].
  destruct (moderate_units (add_units zs us)) eqn:Hm; [|done]. apply IH. by apply happen_units.
Qed.

(** The total is the sum of the charges. *)
Lemma total_sum len n k zs es out :
  total len n k zs es = Some out ->
  exists uss, List.map (charge len n k) es = List.map Some uss /\ out = foldl add_units zs uss.
Proof.
  revert zs. induction es as [|e es IH]; intros zs; cbn [total]; [by intros [= <-]; exists []|].
  destruct (charge len n k e) as [us|] eqn:Hc; [|done].
  destruct (moderate_units _); [|done]. intros (uss & Hm & ->)%IH. exists (us :: uss).
  cbn [List.map foldl]. by rewrite Hc, Hm.
Qed.

(** A range that was written from moderate numbers is such an entry. *)
Lemma written_units xs :
  xs <> [] -> Forall (fun x => finite x /\ Z.abs (units x) <= units_max) xs ->
  entry_units (length xs) (entry_of_text (range_text xs)) = Some (List.map units xs).
Proof.
  intros Hne Hxs. rewrite entry_of_range_text; [|done|].
  - cbn [entry_units]. rewrite length_map, Nat.eqb_refl, andb_true_r.
    assert (forallb tidy (List.map round5 xs) = true /\
      List.map units (List.map round5 xs) = List.map units xs) as [-> ->]; [|done].
    induction Hxs as [|x xs [Hf Hu] _ IH]; [done|]. cbn [List.map forallb].
    destruct (round5_moderate x Hf Hu) as [-> ->]. destruct xs; [done|].
    by destruct (IH ltac:(done)) as [-> ->].
  - apply forallb_forall. intros x Hx. rewrite List.Forall_forall in Hxs. by destruct (Hxs x Hx) as [[[? _] _] _].
Qed.

(** ** Properties *)

(** C19: the deltas do not drift. In the runs of [deltas_refine] in which no event fails, as long as
    the values stay below a thousand million, the delta of a node for a policy is, in units of
    10^-5 and without any rounding error, the delta at the start plus the sum of what the events
    charged: each bound pod its deployment's usage, each deleted one the opposite. So it does
    not depend on the order of the events, and a pod that comes and goes leaves nothing. *)
Theorem deltas_exact `{QL : QuantityLib} `{JS : JSONPatchServer} (env : Env) (loc : Location)
    (policy : DynamicSchedulerPolicy) (s0 s : sys) (es : list delta_event) (len : nat)
    (n k : string) (z0 zs : list Z) :
  GetLocation env = Some loc -> sane_policy policy -> fresh_start policy s0 ->
  delta_run env loc policy s0 es s -> forallb succeeded es = true ->
  entry_units len (ledger_of (sy_annos s0) n k) = Some z0 -> total len n k z0 es = Some zs ->
  entry_units len (ledger_of (sy_annos s) n k) = Some zs /\
  exists uss, List.map (charge len n k) es = List.map Some uss /\ zs = foldl add_units z0 uss.
Proof.
  intros Hl Hs Hf Hr Hes Hz Ht.
  destruct (delta_run_ledger env loc policy Hl Hs s0 es s) as [_ Hrun]; [by apply fresh_start_inv|done|].
  rewrite (run_happens _ _ _ Hrun Hes). split; [by eapply happen_total|by eapply total_sum].
Qed.

(** ** Witnesses *)

Section Witnesses.
#[local] Existing Instance MilliQuantities.
#[local] Existing Instance split_server.

(** Two pods with a usage of 1 are 200000 units. *)
Lemma deltas_exact_witness :
  entry_units 1 (ledger_of lx_m2 "n" "range_cpu") = Some [200000] /\
  exists uss, List.map (charge 1 "n" "range_cpu") lx_bound = List.map Some uss /\
    [200000] = foldl add_units [0] uss.
Proof.
  apply (deltas_exact (fixed_env 0) sx_loc lx_policy lx_start (lx_sys lx_m2) lx_bound 1 "n" "range_cpu"
    [0] [200000]).
  - reflexivity.
  - apply lx_sane.
  - apply lx_fresh.
  - apply lx_run_bound.
  - vm_compute. reflexivity.
  - vm_compute. reflexivity.
  - vm_compute. reflexivity.
Defined.

(** A pod with a usage of a tenth comes and goes: nothing is left of three tenths but them. *)
Example comes_and_goes :
  let u := Some (Values [dec_to_f64 false 10000 (-5)]) in
  let three := Values [dec_to_f64 false 30000 (-5)] in
  let L := book true "n" [("k", u)] (book false "n" [("k", u)] (set_entry (fun _ _ => Missing) "n" "k" three)) in
  L "n" "k" = three.
Proof. vm_compute. reflexivity. Qed.

End Witnesses.
