(* ===== verification/AnnotatorDeployments.v ===== *)
(** * The usages of the deployments over time

    deployment.go writes what Prometheus says of a deployment to its annotations; pod.go charges
    it to the deltas of nodes, and the application-aware plugin adds it to the node's usage. Here
    the annotations of the deployments join the state of AnnotatorSystem, and what each deployment
    was annotated from its log: the server keeps them, the deployment workers take the keys of their
    queue and write them, one deployment a step, so that their turns overlap ([whole_turn] is a
    turn by itself), others may change or delete deployments, and an informer may show any version of a deployment that the server has
    held. So the hypothesis of AnnotatorDeltas, that cached usages are plain text, holds in every
    reachable state, and every number the application-aware plugin acts on has an origin. *)

From S2P Require Import Prelude GoStrings GoFloat GoTime K8s Policy Utils AppAware Prometheus.
From S2P Require Import AnnotatorQueue AnnotatorNode AnnotatorApp AnnotatorSystem AnnotatorDeltas.

Open Scope string_scope.
Open Scope Z_scope.

(** ** The system *)

(** The annotations of the deployments, by namespace and name. *)
Local Notation "'dmap'" := (gmap (string * string) smap).

Section Cluster.
Context `{QL : QuantityLib} `{JS : JSONPatchServer}.
Context (env : Env) (loc : Location) (policy : DynamicSchedulerPolicy).

Definition dstored (m : dmap) (ns n : string) : smap := default ∅ (m !! (ns, n)).

(** A deployment worker within the loop of [syncDeployment]: the key it took, its metric, and the
    deployments of its list that are left. *)
Record deployment_turn := { dt_key : string; dt_metric : string; dt_rest : list Deployment }.

(** What a deployment worker was given for one deployment: the Prometheus client with its answers,
    the clientset with the server's, the clock, the deployment and the metric. *)
Record app_record := {
  ar_prom : PromClient;
  ar_client : client;
  ar_clock : nat -> Z;
  ar_deployment : Deployment;
  ar_metric : string }.

(** [cl_history] are the versions of all deployments the server has held, and [cl_log] the calls
    of [annotateDeploymentLoad], both the newest first. *)
Record cluster := {
  cl_sys : sys;
  cl_history : list dmap;
  cl_queue : gset string;
  cl_turns : list deployment_turn;
  cl_log : list app_record }.

Definition current (h : list dmap) : dmap := hd ∅ h.

(** Every accepted request makes a version; as for the nodes, the server accepts none that it
    cannot apply. *)
Definition dserve1 (kc : client) (h : list dmap) (rq : request) : option (list dmap) :=
  if String.eqb (rq_resource rq) "deployments" then
    match kc rq with
    | None =>
        a ← current h !! (rq_namespace rq, rq_name rq); a' ← apply_json_patch (rq_data rq) a;
        Some (<[(rq_namespace rq, rq_name rq) := a']> (current h) :: h)
    | Some _ => Some h
    end
  else Some h.

Fixpoint dserve (kc : client) (h : list dmap) (rqs : list request) : option (list dmap) :=
  match rqs with
  | [] => Some h
  | rq :: rqs' => h' ← dserve1 kc h rq; dserve kc h' rqs'
  end.

(** An informer shows each deployment in some version. *)
Definition cached (h : list dmap) (l : string -> string -> result Deployment) : Prop :=
  forall ns n d, l ns n = Ok d ->
    dep_Namespace d = ns /\ dep_Name d = n /\
    exists m, m ∈ h /\ dep_annos d = dstored m ns n.

Definition is_app_metric (k : string) : Prop :=
  exists p, p ∈ SyncAppPeriod (Spec policy) /\ sync_Name p = k.

(** Deployments are created, changed and deleted, and nobody but the annotator sets a usage. *)
Definition foreign_version (m m' : dmap) : Prop :=
  forall ns n k, is_app_metric k ->
    dstored m' ns n !! k = dstored m ns n !! k \/ dstored m' ns n !! k = None.

Definition at_time (s : sys) (t : Z) : sys :=
  served s t (sy_annos s).

(** The call of [annotateDeploymentLoad] that a record tells of. *)
Definition run_deployment (r : app_record) : io (option error) :=
  @annotateDeploymentLoad (ar_prom r) env (ar_client r) (ar_clock r) (ar_deployment r) (ar_metric r).

Definition with_sys (c : cluster) (s : sys) : cluster :=
  {| cl_sys := s; cl_history := cl_history c; cl_queue := cl_queue c; cl_turns := cl_turns c;
     cl_log := cl_log c |}.

(** [deployment_processNextWorkItem] when [syncDeployment] is over, with the operations on the
    queue that end the turn. *)
Definition turn_ends (key : string) (r : bool * option error) (ops : list queue_op) : Prop :=
  deployment_processNextWorkItem (Some key) (fun _ => io_ret r) = ([], Ret (true, ops)).

(** A step of the other workers; a daily job; a change by others; and the steps of the deployment
    workers, whose turns overlap: taking a key, with the deployments that its informer lists, or
    a whole turn that lists none and sends nothing; one deployment of the loop; the end of the
    loop, after its last deployment or at one that failed. *)
Inductive cluster_step : cluster -> delta_event -> cluster -> Prop :=
| cluster_still c e s' : still_step env loc policy (cl_sys c) e s' -> cluster_step c e (with_sys c s')
| cluster_pod c e s' deployLister :
    cached (cl_history c) deployLister -> pod_turn env loc policy deployLister (cl_sys c) e s' ->
    cluster_step c e (with_sys c s')
| cluster_job c now job namespaces :
    sy_now (cl_sys c) <= now -> fine loc now ->
    job ∈ deployment_CreateMetricSyncTicker (SyncAppPeriod (Spec policy)) ->
    cluster_step c EOther
      {| cl_sys := at_time (cl_sys c) now; cl_history := cl_history c;
         cl_queue := queue_after (cl_queue c) (cj_run job namespaces); cl_turns := cl_turns c;
         cl_log := cl_log c |}
| cluster_take c now lister key ns m ds :
    sy_now (cl_sys c) <= now -> fine loc now ->
    key ∈ cl_queue c -> splitMetaKeyWithMetricName key = Ok (ns, m) -> lister ns = Ok ds ->
    cluster_step c EOther
      {| cl_sys := at_time (cl_sys c) now; cl_history := cl_history c;
         cl_queue := cl_queue c ∖ {[key]};
         cl_turns := {| dt_key := key; dt_metric := m; dt_rest := ds |} :: cl_turns c;
         cl_log := cl_log c |}
| cluster_silent c now (PC : PromClient) kc lister clock key ops :
    sy_now (cl_sys c) <= now -> fine loc now ->
    key ∈ cl_queue c ->
    deployment_processNextWorkItem (Some key) (syncDeployment env kc lister clock)
      = ([], Ret (true, ops)) ->
    cluster_step c EOther
      {| cl_sys := at_time (cl_sys c) now; cl_history := cl_history c;
         cl_queue := queue_after (cl_queue c ∖ {[key]}) ops; cl_turns := cl_turns c;
         cl_log := cl_log c |}
| cluster_deployment c r now key ds others rqs h :
    PromText (ar_prom r) ->
    cl_turns c ≡ₚ {| dt_key := key; dt_metric := ar_metric r; dt_rest := ar_deployment r :: ds |} :: others ->
    sy_now (cl_sys c) <= ar_clock r 3%nat <= now -> fine loc (ar_clock r 3%nat) -> fine loc now ->
    run_deployment r = (rqs, Ret None) -> dserve (ar_client r) (cl_history c) rqs = Some h ->
    cluster_step c EOther
      {| cl_sys := at_time (cl_sys c) now; cl_history := h; cl_queue := cl_queue c;
         cl_turns := {| dt_key := key; dt_metric := ar_metric r; dt_rest := ds |} :: others;
         cl_log := r :: cl_log c |}
| cluster_stop c r now key ds others rqs h err msg ops :
    PromText (ar_prom r) ->
    cl_turns c ≡ₚ {| dt_key := key; dt_metric := ar_metric r; dt_rest := ar_deployment r :: ds |} :: others ->
    sy_now (cl_sys c) <= ar_clock r 3%nat <= now -> fine loc (ar_clock r 3%nat) -> fine loc now ->
    run_deployment r = (rqs, Ret (Some err)) -> dserve (ar_client r) (cl_history c) rqs = Some h ->
    turn_ends key (false, Some msg) ops ->
    cluster_step c EOther
      {| cl_sys := at_time (cl_sys c) now; cl_history := h;
         cl_queue := queue_after (cl_queue c) ops; cl_turns := others; cl_log := r :: cl_log c |}
| cluster_end c now key m others ops :
    sy_now (cl_sys c) <= now -> fine loc now ->
    cl_turns c ≡ₚ {| dt_key := key; dt_metric := m; dt_rest := [] |} :: others ->
    turn_ends key (true, None) ops ->
    cluster_step c EOther
      {| cl_sys := at_time (cl_sys c) now; cl_history := cl_history c;
         cl_queue := queue_after (cl_queue c) ops; cl_turns := others; cl_log := cl_log c |}
| cluster_foreign c now m : sy_now (cl_sys c) <= now -> fine loc now ->
    foreign_version (current (cl_history c)) m ->
    cluster_step c EOther
      {| cl_sys := at_time (cl_sys c) now; cl_history := m :: cl_history c;
         cl_queue := cl_queue c; cl_turns := cl_turns c; cl_log := cl_log c |}.

Inductive cluster_run : cluster -> list delta_event -> cluster -> Prop :=
| cluster_nil c : cluster_run c [] c
| cluster_snoc c es c1 e c2 : cluster_run c es c1 -> cluster_step c1 e c2 ->
    cluster_run c (es ++ [e])%list c2.

(** Nothing is annotated yet, nothing waits, and nothing has happened. *)
Definition clean_start (c : cluster) : Prop :=
  fresh_start policy (cl_sys c) /\ cl_queue c = ∅ /\ cl_turns c = [] /\ cl_log c = [] /\
  Forall (fun m => forall ns n k, is_app_metric k -> dstored m ns n !! k = None) (cl_history c).

(** The query for a metric of a deployment. *)
Definition app_asked (PC : PromClient) (clock : nat -> Z) (n key : string) : result string :=
  if has_prefix key PrefixRange
  then QueryRangeByDeployment clock (trim_prefix key PrefixRange) n
  else QueryByDeployment clock key n.

(** At the call [r] Prometheus was asked for the metric [k] of the deployment [n] of the namespace
    [ns], and gave [value]. *)
Definition app_answered (r : app_record) (ns n k value : string) : Prop :=
  dep_Namespace (ar_deployment r) = ns /\ dep_Name (ar_deployment r) = n /\ ar_metric r = k /\
  app_asked (ar_prom r) (ar_clock r) n k = Ok value.

(** What is visible for a metric in some version: the answer to a call of the log, stamped with
    its time. *)
Definition app_measurement (log : list app_record) (now : Z) (ns n k v : string) : Prop :=
  exists r value, r ∈ log /\ PromText (ar_prom r) /\ app_answered r ns n k value /\
    ar_clock r 3%nat <= now /\ fine loc (ar_clock r 3%nat) /\ v = stamped loc value (ar_clock r 3%nat).

(** A usage read at the time [t]: the answer to a call of the log, and still active. *)
Definition read_measured (log : list app_record) (t now : Z) (ns n k value : string) (d : Duration)
    : Prop :=
  exists r, r ∈ log /\ app_answered r ns n k value /\ ar_clock r 3%nat <= now /\
    t < ar_clock r 3%nat / Second * Second + d.

Definition node_read_measured (log : list node_record) (t now : Z) (n k value : string) (d : Duration)
    : Prop :=
  exists r, r ∈ log /\ answered r n k value /\ nr_clock r 3%nat <= now /\
    t < nr_clock r 3%nat / Second * Second + d.

End Cluster.

(** ** What the deployment workers write *)

Section DeploymentWrites.
Context `{QL : QuantityLib} `{JS : JSONPatchServer}.
Context (env : Env) (loc : Location) (policy : DynamicSchedulerPolicy).
Hypothesis Hloc : GetLocation env = Some loc.

(** The effect of a request: a key of the deployment is set, where the patch applies. *)
Definition dwrites (rq : request) (ns n k v : string) : Prop :=
  rq_resource rq = "deployments" /\ rq_namespace rq = ns /\ rq_name rq = n /\
  forall a a', apply_json_patch (rq_data rq) a = Some a' -> a' = <[k := v]> a.

Lemma app_asked_clean (PC : PromClient) `{!PromText PC} clock n key value :
  app_asked PC clock n key = Ok value -> clean value = true.
Proof.
  unfold app_asked. destruct (has_prefix key PrefixRange); intros H.
  - by eapply text_QueryRangeByDeployment.
  - by eapply text_QueryByDeployment.
Qed.

(** A call writes the answer for its deployment, or nothing. *)
Lemma run_deployment_writes r rqs e :
  PromText (ar_prom r) -> fine loc (ar_clock r 3%nat) -> plain (ar_metric r) = true ->
  run_deployment env r = (rqs, Ret e) ->
  Forall (fun rq => exists ns n value, app_answered r ns n (ar_metric r) value /\
    dwrites rq ns n (ar_metric r) (stamped loc value (ar_clock r 3%nat))) rqs.
Proof.
  intros HPC Hf Hk. unfold run_deployment, annotateDeploymentLoad. cbv zeta.
  set (d := ar_deployment r). set (key := ar_metric r) in *.
  destruct (if has_prefix key PrefixRange then _ else _) as [value|err] eqn:Hq.
  2:{ destruct (dep_Replicas d) as [x|]; [|done]. unfold io_ret. intros.
      repeat case_match; simplify_eq; constructor. }
  assert (app_asked (ar_prom r) (ar_clock r) (dep_Name d) key = Ok value) as Hm by done.
  destruct (andb_prop _ _ (app_asked_clean _ _ _ _ _ Hm)) as [Hv _].
  unfold patchDeploymentAnnotation, GetLocalTime. rewrite Hloc. cbn [io_go io_bind]. unfold send.
  intros [= <- _]. constructor; [|constructor]. exists (dep_Namespace d), (dep_Name d), value.
  split; [done|]. split; [done|]. split; [done|]. split; [done|]. intros a a'. cbn [rq_data deployment_patch].
  rewrite apply_operator by (done || by apply (stamped_plain loc value)).
  by destruct (dep_annos d !! key), (a !! key); intros [= <-].
Qed.

Hypothesis Hsane : sane_policy policy.

Lemma app_metric_plain k : is_app_metric policy k -> plain k = true.
Proof. intros (p & Hp & <-). destruct Hsane as [_ Hs]. rewrite Forall_forall in Hs. by apply Hs. Qed.

(** A turn puts nothing but its key back. *)
Lemma turn_requeues key sync rqs ops q :
  deployment_processNextWorkItem (Some key) sync = (rqs, Ret (true, ops)) ->
  queue_after q ops ⊆ q ∪ {[key]}.
Proof.
  unfold deployment_processNextWorkItem. destruct (sync key) as [w [[forget err]|]]; [|done].
  destruct err, forget; unfold io_ret; cbn [io_bind]; intros [= _ <-]; cbn [app queue_after foldl]; set_solver.
Qed.

(** ** Versions *)

(** A property of what each version holds for the metrics. *)
Definition holds (M : string -> string -> string -> string -> Prop) (m : dmap) : Prop :=
  forall ns n k v, is_app_metric policy k -> dstored m ns n !! k = Some v -> M ns n k v.

Lemma current_holds M h : Forall (holds M) h -> holds M (current h).
Proof.
  destruct 1 as [|m h Hm _]; [|done]. intros ns n k v _. unfold dstored. cbn [current hd].
  by rewrite lookup_empty.
Qed.

Lemma dserve1_holds M kc h h' rq ns n k v :
  dwrites rq ns n k v -> M ns n k v -> dserve1 kc h rq = Some h' ->
  Forall (holds M) h -> Forall (holds M) h'.
Proof.
  intros (Hr & Hns & Hn & Ha) HM. unfold dserve1. rewrite Hr. cbn [String.eqb Ascii.eqb Bool.eqb].
  destruct (kc rq); [by intros [= <-]|]. rewrite Hns, Hn.
  destruct (current h !! (ns, n)) as [a|] eqn:Hcur; [|done]. cbn [mbind option_bind].
  destruct (apply_json_patch (rq_data rq) a) as [a'|] eqn:Hap; [|done]. cbn [mbind option_bind].
  intros [= <-] Hh. constructor; [|done]. intros ns' n' k' v' Hk.
  unfold dstored at 1. destruct (decide ((ns, n) = (ns', n'))) as [[= <- <-]|Hne].
  - rewrite lookup_insert_eq. cbn [default from_option id]. rewrite (Ha _ _ Hap).
    intros [[<- <-]|[_ Hv]]%lookup_insert_Some; [done|]. eapply current_holds; [done..|].
    unfold dstored. by rewrite Hcur.
  - rewrite lookup_insert_ne by done. by eapply current_holds.
Qed.

Lemma dserve_holds M kc h h' rqs :
  Forall (fun rq => exists ns n k v, dwrites rq ns n k v /\ M ns n k v) rqs ->
  dserve kc h rqs = Some h' -> Forall (holds M) h -> Forall (holds M) h'.
Proof.
  intros Hw. revert h. induction Hw as [|rq rqs (ns & n & k & v & Hrq & Hm) _ IH]; intros h.
  { by intros [= <-]. }
  intros (h1 & H1 & H2)%bind_Some Hh. eapply IH; [done|]. by eapply dserve1_holds.
Qed.

Lemma foreign_holds M h m :
  foreign_version policy (current h) m -> Forall (holds M) h -> Forall (holds M) (m :: h).
Proof.
  intros Hf Hh. constructor; [|done]. intros ns n k v Hk Hv.
  destruct (Hf ns n k Hk) as [He|He]; rewrite He in Hv; [|done]. by eapply current_holds.
Qed.

(** ** Every reachable state *)

(** A key that names a metric. *)
Definition names_metric (key m : string) : Prop :=
  is_app_metric policy m /\ exists ns, key = handlingMetaKeyWithMetricName ns m.

(** Each usage in each version was measured, and the keys that are queued or taken name a metric. *)
Definition cluster_inv (c : cluster) : Prop :=
  Forall (holds (app_measurement loc (cl_log c) (sy_now (cl_sys c)))) (cl_history c) /\
  (forall key, key ∈ cl_queue c -> exists m, names_metric key m) /\
  Forall (fun t => names_metric (dt_key t) (dt_metric t)) (cl_turns c).

Lemma clean_start_inv c : clean_start policy c -> cluster_inv c.
Proof.
  intros (_ & Hq & Ht & _ & Hh). unfold cluster_inv. rewrite Hq, Ht.
  split; [|split; [by intros key ?%elem_of_empty|constructor]].
  eapply Forall_impl; [exact Hh|]. intros m Hm ns n k v Hk. by rewrite Hm.
Qed.

Lemma app_measurement_later log log' now now' ns n k v : log ⊆ log' -> now <= now' ->
  app_measurement loc log now ns n k v -> app_measurement loc log' now' ns n k v.
Proof.
  intros Hlog Hle (r & value & ? & ? & ? & ? & ? & ?). exists r, value.
  split_and!; try done; [by apply Hlog|lia].
Qed.

Lemma inv_later log log' now now' h : log ⊆ log' -> now <= now' ->
  Forall (holds (app_measurement loc log now)) h -> Forall (holds (app_measurement loc log' now')) h.
Proof.
  intros Hlog Hle Hh. eapply Forall_impl; [exact Hh|]. intros m Hm ns n k v Hk Hv.
  eapply app_measurement_later, Hm; done.
Qed.

(** What an informer shows was measured. *)
Lemma cached_measured c l ns n d k v :
  cluster_inv c -> cached (cl_history c) l -> l ns n = Ok d -> is_app_metric policy k ->
  dep_annos d !! k = Some v ->
  app_measurement loc (cl_log c) (sy_now (cl_sys c)) (dep_Namespace d) (dep_Name d) k v.
Proof.
  intros (Hh & _) Hc Hl Hk Hv. destruct (Hc _ _ _ Hl) as (-> & -> & m & Hm & He). rewrite He in Hv.
  rewrite Forall_forall in Hh. by eapply Hh.
Qed.

Lemma cached_plain c l : cluster_inv c -> cached (cl_history c) l -> plain_deployments policy l.
Proof.
  intros Hi Hc ns n d Hl. apply Forall_forall. intros p Hp v Hv.
  destruct (cached_measured c l ns n d (sync_Name p) v Hi Hc Hl) as (r & value & _ & HPC & (_ & _ & _ & Hm) & _
    & Hf & ->); [by exists p|done|].
  apply stamped_plain; [done|]. by destruct (andb_prop _ _ (app_asked_clean _ _ _ _ _ Hm)).
Qed.

Lemma still_later s e s' : keyed policy (sy_queue s) -> still_step env loc policy s e s' ->
  sy_now s <= sy_now s'.
Proof.
  intros Hq. destruct 1 as [s s' Ha|s p names Hp|s r s' Ht|]; [|done| |done].
  - by apply (aside_keeps env loc policy Hloc s s' Ha).
  - destruct (node_turn_effect env loc policy Hloc Hsane _ _ _ Hq Ht) as (? & ? & []). lia.
Qed.

Lemma time_passes s now : sy_now s <= now -> fine loc now ->
  delta_step env loc policy s EOther (at_time s now).
Proof. intros. by apply delta_still, delta_aside, step_time. Qed.

(** The cluster's steps are steps of AnnotatorDeltas. *)
Lemma cluster_step_delta c e c' :
  cluster_inv c -> cluster_step env loc policy c e c' ->
  delta_step env loc policy (cl_sys c) e (cl_sys c').
Proof.
  intros Hi Hs. destruct Hs; cbn [cl_sys with_sys]; try (apply time_passes; [lia|done]).
  - by apply delta_still.
  - eapply delta_turn; [by eapply cached_plain|done].
Qed.

Lemma job_keys job namespaces q key :
  job ∈ deployment_CreateMetricSyncTicker (SyncAppPeriod (Spec policy)) ->
  key ∈ queue_after q (cj_run job namespaces) ->
  key ∈ q \/ exists m, names_metric key m.
Proof.
  unfold deployment_CreateMetricSyncTicker. intros (p & -> & Hp)%list_elem_of_fmap. cbn [cj_run].
  intros [Hin|[ns ->]]%(queue_after_ticks q namespaces p); [by left|]. right.
  exists (sync_Name p). split; [by exists p|]. by exists ns.
Qed.

(** One deployment of a turn: the version it makes holds measurements. *)
Lemma deployment_holds r log t now key rqs e h h' :
  PromText (ar_prom r) -> names_metric key (ar_metric r) ->
  t <= ar_clock r 3%nat <= now -> fine loc (ar_clock r 3%nat) ->
  run_deployment env r = (rqs, Ret e) -> dserve (ar_client r) h rqs = Some h' ->
  Forall (holds (app_measurement loc log t)) h ->
  Forall (holds (app_measurement loc (r :: log) now)) h'.
Proof.
  intros HPC [Hm _] Ht Hf Ha Hs Hh. eapply dserve_holds; [|exact Hs|].
  - eapply Forall_impl; [by apply (run_deployment_writes r rqs e HPC Hf (app_metric_plain _ Hm) Ha)|].
    intros rq (ns & n & value & Hans & Hw). exists ns, n, (ar_metric r). eexists. split; [exact Hw|].
    exists r, value. split_and!; try done; [left|lia].
  - eapply inv_later, Hh; [set_solver|lia].
Qed.

Lemma cluster_inv_step c e c' :
  sys_inv loc policy (cl_sys c) -> cluster_inv c -> cluster_step env loc policy c e c' ->
  cluster_inv c'.
Proof.
  intros Hsys (Hh & Hq & Ht) Hs.
  destruct Hs as [c e s' Hs|c e s' dl Hc Hs|c now job names Hle Hf Hj|c now lister key ns m ds Hle Hf Hk Hsp Hl
    |c now PC kc lister clock key ops Hle Hf Hk Hp|c r now key ds others rqs h HPC Hp Hle Hf Hfn Ha Hd
    |c r now key ds others rqs h err msg ops HPC Hp Hle Hf Hfn Ha Hd He
    |c now key m others ops Hle Hf Hp He
    |c now m Hle Hf Hm];
    unfold cluster_inv; cbn [cl_sys cl_history cl_queue cl_turns cl_log with_sys at_time served sy_now].
  - split_and!; [|done..]. eapply inv_later; [done| |done]. by eapply still_later; [apply Hsys|].
  - split_and!; [|done..]. eapply inv_later; [done| |done]. by destruct Hs.
  - split_and!; [by eapply inv_later| |done]. intros key [Hin|]%(job_keys job); [by apply Hq|done|done].
  - split_and!; [by eapply inv_later|set_solver|]. constructor; [|done]. cbn [dt_key dt_metric].
    destruct (Hq key Hk) as (m' & Hm' & ns' & ->). apply splitMetaKey_Ok in Hsp as (He & _ & Hb).
    apply handling_inj in He as [<- <-]; [|by apply plain_no_slash, app_metric_plain|done].
    split; [done|]. by eexists.
  - split_and!; [by eapply inv_later| |done]. intros key' Hin%(turn_requeues _ _ _ _ _ Hp). set_solver.
  - rewrite Hp in Ht. apply Forall_cons in Ht as [Hn Ht].
    split_and!; [by eapply deployment_holds|done|by constructor].
  - rewrite Hp in Ht. apply Forall_cons in Ht as [Hn Ht].
    split_and!; [by eapply deployment_holds| |done]. cbn [dt_key dt_metric] in Hn.
    intros key' Hin%(turn_requeues _ _ _ _ _ He). set_solver.
  - rewrite Hp in Ht. apply Forall_cons in Ht as [Hn Ht]. split_and!; [by eapply inv_later| |done].
    cbn [dt_key dt_metric] in Hn. intros key' Hin%(turn_requeues _ _ _ _ _ He). set_solver.
  - split_and!; [|done..]. apply foreign_holds; [done|]. by eapply inv_later.
Qed.

Lemma cluster_run_delta c0 es c :
  clean_start policy c0 -> cluster_run env loc policy c0 es c ->
  cluster_inv c /\ sys_inv loc policy (cl_sys c) /\
  delta_run env loc policy (cl_sys c0) es (cl_sys c).
Proof.
  intros H0. induction 1 as [c|c0 es c1 e c2 _ IH Hs].
  { split_and!; [by apply clean_start_inv|by apply fresh_start_inv, H0|constructor]. }
  destruct (IH H0) as (Hi & Hsys & Hr). pose proof (cluster_step_delta _ _ _ Hi Hs) as Hd.
  split_and!; [by eapply cluster_inv_step|by eapply delta_step_event|by econstructor].
Qed.

(** *** A turn without interruption

    The steps of a turn that nothing comes between are [deployment_processNextWorkItem]. *)

Definition quietly : cluster -> cluster -> Prop := fun c c' => cluster_step env loc policy c EOther c'.

Lemma dserve_app kc h a b : dserve kc h (a ++ b) = dserve kc h a ≫= fun h' => dserve kc h' b.
Proof.
  revert h. induction a as [|rq a IH]; intros h; [done|]. cbn [app dserve].
  destruct (dserve1 kc h rq); [apply IH|done].
Qed.

Lemma turn_loop (PC : PromClient) `{!PromText PC} kc clock key m others now ops ds i c rqs r h :
  (forall j, clock j 3%nat <= clock (S j) 3%nat /\ clock j 3%nat <= now /\ fine loc (clock j 3%nat)) ->
  fine loc now -> sy_now (cl_sys c) <= clock i 3%nat ->
  cl_turns c = {| dt_key := key; dt_metric := m; dt_rest := ds |} :: others ->
  annotate_deployments env kc clock i m ds = (rqs, Ret r) -> dserve kc (cl_history c) rqs = Some h ->
  turn_ends key r ops ->
  exists log, rtc quietly c {| cl_sys := at_time (cl_sys c) now; cl_history := h;
    cl_queue := queue_after (cl_queue c) ops; cl_turns := others; cl_log := log |}.
Proof.
  intros Hc Hfn. revert i c rqs. induction ds as [|d ds IH]; intros i c rqs Hi Ht; cbn [annotate_deployments].
  { intros [= <- <-] [= <-] He. pose proof (Hc i). eexists. apply rtc_once.
    eapply cluster_end; [lia|done| |exact He]. by rewrite Ht. }
  set (rec := {| ar_prom := PC; ar_client := kc; ar_clock := clock i; ar_deployment := d; ar_metric := m |}).
  destruct (annotateDeploymentLoad _ _ _ _ _) as [w [e|]] eqn:Hd; [|done]. cbn [io_bind].
  destruct (Hc i) as (Hs & Hle & Hf).
  destruct e as [e|].
  - intros [= <- <-] Hh He. rewrite app_nil_r in Hh. eexists. apply rtc_once.
    eapply (cluster_stop _ _ _ c rec); [done|by rewrite Ht|cbn; lia|done|done|exact Hd|exact Hh|exact He].
  - destruct (annotate_deployments env kc clock (S i) m ds) as [w' r'] eqn:Hr. intros [= <- ->].
    rewrite dserve_app. intros (h1 & Hh1 & Hh)%bind_Some He.
    pose proof (cluster_deployment env loc policy c rec (clock i 3%nat) key ds others w h1) as Hstep.
    match type of Hstep with context [cluster_step _ _ _ _ _ ?c1] =>
      destruct (IH (S i) c1 w') as [log Hlog]; [cbn; lia|reflexivity|exact Hr|exact Hh|exact He|] end.
    exists log. eapply rtc_l; [apply Hstep|exact Hlog];
      [done|by rewrite Ht|cbn; lia|done|done|exact Hd|exact Hh1].
Qed.

Lemma whole_turn (PC : PromClient) `{!PromText PC} kc lister clock key now c rqs ops h :
  (forall j, clock j 3%nat <= clock (S j) 3%nat /\ clock j 3%nat <= now /\ fine loc (clock j 3%nat)) ->
  fine loc now -> sy_now (cl_sys c) <= clock 0%nat 3%nat -> key ∈ cl_queue c ->
  deployment_processNextWorkItem (Some key) (syncDeployment env kc lister clock) = (rqs, Ret (true, ops)) ->
  dserve kc (cl_history c) rqs = Some h ->
  exists log, rtc quietly c {| cl_sys := at_time (cl_sys c) now; cl_history := h;
    cl_queue := queue_after (cl_queue c ∖ {[key]}) ops; cl_turns := cl_turns c; cl_log := log |}.
Proof.
  intros Hc Hfn Hi Hk Hp Hh. destruct (Hc 0%nat) as (_ & Hle & Hf).
  assert (rqs = [] -> exists log, rtc quietly c
    {| cl_sys := at_time (cl_sys c) now; cl_history := h; cl_queue := queue_after (cl_queue c ∖ {[key]}) ops;
       cl_turns := cl_turns c; cl_log := log |}) as Hsilent.
  { intros ->. injection Hh as <-. eexists. apply rtc_once. eapply cluster_silent; [lia|done|done|exact Hp]. }
  unfold deployment_processNextWorkItem in Hp.
  destruct (syncDeployment env kc lister clock key) as [w [r|]] eqn:Hs; [|done]. cbn [io_bind] in Hp.
  assert (rqs = w /\ turn_ends key r ops) as [-> He].
  { unfold turn_ends, deployment_processNextWorkItem. destruct r as [forget [err|]]; unfold io_ret in *;
      cbn [io_bind] in *; simplify_eq; by rewrite app_nil_r. }
  unfold syncDeployment in Hs. destruct (splitMetaKeyWithMetricName key) as [[ns m]|] eqn:Hsp;
    [|unfold io_ret in Hs; simplify_eq; by apply Hsilent].
  destruct (lister ns) as [ds|] eqn:Hl; [|unfold io_ret in Hs; simplify_eq; by apply Hsilent].
  pose proof (cluster_take env loc policy c (clock 0%nat 3%nat) lister key ns m ds) as Htake.
  match type of Htake with context [cluster_step _ _ _ _ _ ?c1] =>
    destruct (turn_loop PC kc clock key m (cl_turns c) now ops ds 0%nat c1 w r h) as [log Hlog];
      [done|done|apply Z.le_refl|reflexivity|exact Hs|exact Hh|exact He|] end.
  exists log. eapply rtc_l; [apply Htake; [lia|done..]|exact Hlog].
Qed.

(** ** What is read *)

(** A usage that was read and is not empty was measured, and was still active. *)
Lemma usage_read_measured log ns n anno k t now d s :
  (forall v, anno !! k = Some v -> app_measurement loc log now ns n k v) ->
  GetResourceUsageRange env t anno k d = Ret (Ok s) -> anno !! k <> None ->
  read_measured log t now ns n k s d.
Proof.
  intros Hm Hr Hne. destruct (anno !! k) as [v|] eqn:Ha; [|done].
  destruct (Hm v eq_refl) as (r & value & Hin & HPC & Hans & Hle & [Hy Hz] & ->).
  pose proof Hans as (_ & _ & _ & Hq).
  destruct (andb_prop _ _ (app_asked_clean _ _ _ _ _ Hq)) as [_ Hc].
  rewrite (GetResourceUsageRange_written env loc anno k value (ar_clock r 3%nat)) in Hr by done.
  destruct (Z.ltb_spec t (ar_clock r 3%nat / Second * Second + d)); [|done]. simplify_eq.
  by exists r.
Qed.

Lemma read_present t anno k d s :
  GetResourceUsageRange env t anno k d = Ret (Ok s) -> s <> "" -> anno !! k <> None.
Proof. intros Hr Hne Ha. unfold GetResourceUsageRange in Hr. rewrite Ha in Hr. by simplify_eq. Qed.

Lemma node_usage_measured s n k t d v :
  sys_inv loc policy s -> is_metric policy k ->
  GetResourceUsageRange env t (stored (sy_annos s) n) k d = Ret (Ok v) -> v <> "" ->
  node_read_measured (sy_log s) t (sy_now s) n k v d.
Proof.
  intros [Hi _] Hk Hr Hne. destruct (stored (sy_annos s) n !! k) as [w|] eqn:Ha;
    [|by destruct (read_present _ _ _ _ _ Hr Hne)].
  destruct (Hi n k w Hk Ha) as (r & value & Hin & HPC & Hans & Hle & [Hy Hz] & ->).
  pose proof Hans as (_ & node & _ & _ & Hm).
  destruct (andb_prop _ _ (asked_clean _ _ node k value Hm)) as [_ Hc].
  rewrite (GetResourceUsageRange_written env loc _ k value (nr_clock r 3%nat)) in Hr by done.
  destruct (Z.ltb_spec t (nr_clock r 3%nat / Second * Second + d)); [|done]. simplify_eq.
  by exists r.
Qed.

(** A range whose values a policy reads is not empty. *)
Lemma parsed_nonempty s xs : ParseRangeMetricsByString s = Ok xs -> s <> "".
Proof. intros H ->. destruct parse_range_empty as [e He]. congruence. Qed.

Lemma active_metric l name d : GetActiveDuration l name = Ok d -> exists p, p ∈ l /\ sync_Name p = name.
Proof.
  intros (l1 & p & l2 & -> & Hn & _)%GetActiveDuration_Ok. exists p. split; [|done]. set_solver.
Qed.

End DeploymentWrites.

(** ** Properties *)

(** C3: every number the application-aware plugin acts on has an origin. However the workers of the
    annotator, its tickers and daily jobs, the changes of others and the clock interleave from a
    cluster without usages, whatever Prometheus and the API server answer and whichever versions
    of the deployments the informers show, if no pod event or reset failed and [Filter] of the
    plugin rejects a node that carries what the server stores, then one of the range policies is
    exceeded by the sum of: the usage that Prometheus gave for that metric of that very node to a
    turn of a node worker; the usage that Prometheus gave for that metric of the very deployment
    of the pod to a deployment worker; and the delta that the booked events add up to. Turn and
    call are recorded in the logs of the run, with their clients, and are younger than the active
    durations when [Filter] reads its clock. *)
Theorem app_rejection_was_measured `{QL : QuantityLib} `{JS : JSONPatchServer} (env : Env)
    (loc : Location) (policy : DynamicSchedulerPolicy) (c0 c : cluster) (es : list delta_event)
    (rsLister : string -> string -> result ReplicaSet)
    (deployLister : string -> string -> result Deployment) (readings : nat -> Z) (pod : Pod)
    (nodeInfo : NodeInfo) (deploy : Deployment) (node : Node) (st : Status) :
  GetLocation env = Some loc -> sane_policy policy -> clean_start policy c0 ->
  cluster_run env loc policy c0 es c -> forallb succeeded es = true ->
  cached (cl_history c) deployLister -> GetDeploymentByPod rsLister deployLister pod = Ok deploy ->
  ni_Node nodeInfo = Some node ->
  om_Annotations (node_meta node) = Some (stored (sy_annos (cl_sys c)) (node_Name node)) ->
  AppAware.Filter env rsLister deployLister policy readings pod nodeInfo = Ret st -> st <> None ->
  exists i p pre resource dm nm d1 d2 nstr wstr ns ws ds,
    Predicate (Spec policy) !! i = Some p /\ split ":" (pred_Name p) = [pre; resource; dm; nm] /\
    GetActiveDuration (SyncPeriod (Spec policy)) nm = Ok d1 /\
    GetActiveDuration (SyncAppPeriod (Spec policy)) dm = Ok d2 /\
    node_read_measured (sy_log (cl_sys c)) (readings (2 * i)%nat) (sy_now (cl_sys c))
      (node_Name node) nm nstr d1 /\
    read_measured (cl_log c) (readings (2 * i + 1)%nat) (sy_now (cl_sys c))
      (dep_Namespace deploy) (dep_Name deploy) dm wstr d2 /\
    ParseRangeMetricsByString nstr = Ok ns /\ ParseRangeMetricsByString wstr = Ok ws /\
    entry_values (length ns)
      (foldl happen (ledger_of (sy_annos (cl_sys c0))) es (node_Name node) dm) = Some ds /\
    too_high (MaxLimitPecent p)
      (predicted ns ws ds (f64_of_Z (node_capacity node resource))) = true.
Proof.
  intros Hl Hs H0 Hr Hes Hc Hd Hn Ha Hf Hst.
  destruct (cluster_run_delta env loc policy Hl Hs c0 es c H0 Hr) as (Hi & Hsys & Hdr).
  destruct (delta_run_ledger env loc policy Hl Hs _ es _ (fresh_start_inv loc policy _ (proj1 H0)) Hdr)
    as [_ Hrun]. pose proof (run_happens _ _ _ Hrun Hes (node_Name node)) as Hled.
  assert (node_annos node = stored (sy_annos (cl_sys c)) (node_Name node)) as Hna
    by (unfold node_annos; by rewrite Ha).
  destruct (Filter_scan env rsLister deployLister policy readings pod nodeInfo deploy node _
    ltac:(congruence) Hd Hn Ha) as [(l1 & p & l2 & Hp & Hx & _)|[_ He]]; [|congruence].
  apply predicts_forecast in Hx as (_ & _ & pre & r & dm & nm & d1 & d2 & nstr & wstr & ns & ws & ds
    & Hsp & Hd1 & _ & Hd2 & _ & Hu1 & Hu2 & Hns & Hws & Hds & Hhigh).
  exists (length l1), p, pre, r, dm, nm, d1, d2, nstr, wstr, ns, ws, ds. rewrite Hna in Hu1, Hds.
  split_and!; try done.
  - rewrite Hp. by apply list_lookup_middle.
  - eapply node_usage_measured; [done..| |done|by eapply parsed_nonempty]. by eapply active_metric.
  - eapply usage_read_measured; [done..| |done|by eapply read_present, parsed_nonempty]. intros v Hv.
    destruct (GetDeploymentByPod_listed _ _ _ _ Hd) as (ns' & n' & Hdl).
    eapply cached_measured; try done. by eapply active_metric.
  - by rewrite <- Hled.
Qed.

(** C7: what is charged to nodes was measured. In every run, each request that a turn of a pod
    worker sends writes, on the node of the pod, the delta of an application policy: the delta the
    worker has cached with a usage added, or subtracted when the pod is being deleted. That usage
    is the one that Prometheus gave for the policy's metric of the very deployment of the pod, to
    a call of a deployment worker that the log of the run records, not longer ago than the policy's
    active duration when the pod worker reads it; or nothing, when the informer shows the
    deployment without that annotation. *)
Theorem booked_usages_measured `{QL : QuantityLib} `{JS : JSONPatchServer} (env : Env)
    (loc : Location) (policy : DynamicSchedulerPolicy) (c0 c : cluster) (es : list delta_event)
    (kc : client) (split : string -> result (string * string))
    (podLister : string -> string -> result Pod) (rsLister : string -> string -> result ReplicaSet)
    (deployLister : string -> string -> result Deployment) (lister : string -> result Node)
    (clock : nat -> Z) (key : string) (rqs : list request) (r : option error) (rq : request) :
  GetLocation env = Some loc -> sane_policy policy -> clean_start policy c0 ->
  cluster_run env loc policy c0 es c -> cached (cl_history c) deployLister ->
  (forall i, fine loc (clock i)) ->
  pod_reconcile split env kc podLister rsLister deployLister lister policy clock key = (rqs, Ret r) ->
  rq ∈ rqs ->
  exists ns name pod deploy node i p u s,
    split key = Ok (ns, name) /\ podLister ns name = Ok pod /\
    GetDeploymentByPod rsLister deployLister pod = Ok deploy /\
    lister (pod_NodeName pod) = Ok node /\ SyncAppPeriod (Spec policy) !! i = Some p /\
    writes rq (node_Name node) (DeltaPrefixName ++ sync_Name p)
      (Some (stamped loc s (clock (2 * i + 1)%nat))) /\
    account (deleting pod) (delta_of (node_annos node) (sync_Name p)) u = Some (entry_of_text s) /\
    (dep_annos deploy !! sync_Name p = None /\ u = Missing \/
     exists value, u = entry_of_text value /\
       read_measured (cl_log c) (clock (2 * i)%nat) (sy_now (cl_sys c)) (dep_Namespace deploy)
         (dep_Name deploy) (sync_Name p) value (wrap64 (sync_Period p + ExtraActivePeriod))).
Proof.
  intros Hl Hs H0 Hrun Hc Hf Hr Hin.
  destruct (cluster_run_delta env loc policy Hl Hs c0 es c H0 Hrun) as (Hi & _ & _).
  unfold pod_reconcile, io_ret in Hr.
  assert (rqs <> []) as Hne by (intros ->; by apply elem_of_nil in Hin).
  destruct (split key) as [[ns name]|]; [|by simplify_eq].
  destruct (podLister ns name) as [pod|] eqn:Hpod; [|by simplify_eq].
  destruct (GetDeploymentByPod rsLister deployLister pod) as [d|] eqn:Hg; [|by simplify_eq].
  destruct (lister (pod_NodeName pod)) as [node|] eqn:Hn; [|by simplify_eq].
  destruct (GetDeploymentByPod_listed _ _ _ _ Hg) as (ns' & n' & Hdl).
  destruct (delta_loop_requests env loc Hl kc clock 0 pod d node (SyncAppPeriod (Spec policy)) rqs r rq)
    as (i & p & u & s & Hp & Hu & Ha & Hw); [|done|apply Hs|done|done|].
  { eapply cached_plain; done. }
  exists ns, name, pod, d, node, i, p, u, s. split_and!; try done.
  unfold read_usage in Hu. destruct (sync_Period p =? 0); [done|].
  destruct (GetResourceUsageRange _ _ _ _ _) as [[value|]|] eqn:Hread; simplify_eq.
  destruct (dep_annos d !! sync_Name p) as [v|] eqn:Hv.
  - right. exists value. split; [done|]. eapply usage_read_measured; [done..| |exact Hread|].
    + intros v' Hv'. eapply cached_measured; try done. exists p. split; [|done].
      by eapply list_elem_of_lookup_2.
    + fold (dep_annos d). by rewrite Hv.
  - left. split; [done|]. unfold GetResourceUsageRange in Hread. fold (dep_annos d) in Hread.
    rewrite Hv in Hread. by simplify_eq.
Qed.

(** ** Witnesses *)

Section Witnesses.
#[local] Existing Instance MilliQuantities.
#[local] Existing Instance split_server.

Definition cx_prom : PromClient := dx_prom (Ok "1.00000").
#[local] Instance cx_prom_text : PromText cx_prom.
Proof. split; intros; intros s [= <-]; reflexivity. Qed.

(** Informers that hold what the server stores. *)
Definition cx_of (m : gmap (string * string) smap) (ns n : string) : Deployment :=
  {| dep_meta := {| om_Name := n; om_Namespace := ns; om_Annotations := Some (dstored m ns n);
                    om_OwnerReferences := []; om_DeletionTimestamp := None;
                    om_ResourceVersion := "" |};
     dep_Replicas := Some 1 |}.
Definition cx_deploys (m : gmap (string * string) smap) (ns n : string) : result Deployment :=
  Ok (cx_of m ns n).

(** The node is measured as in AnnotatorDeltas; the daily job of the application policy adds the
    namespace, the deployment "d" of it is measured, and one of its pods is bound to the node. *)
Definition cx_d0 : gmap (string * string) smap := {[("ns", "d") := ∅]}.
Definition cx_record : app_record :=
  {| ar_prom := cx_prom; ar_client := lx_client; ar_clock := fun _ => 0;
     ar_deployment := cx_of cx_d0 "ns" "d"; ar_metric := "range_cpu" |}.
Definition cx_call : list request * go (option error) := run_deployment (fixed_env 0) cx_record.
Definition cx_history : list (gmap (string * string) smap) :=
  default [] (dserve lx_client [cx_d0] cx_call.1).
Definition cx_pod : list request * go (option error) :=
  pod_reconcile (fun _ => Ok ("ns", "x")) (fixed_env 0) lx_client (fun _ _ => Ok dx_pod)
    lx_rs (cx_deploys (current cx_history)) (lx_lister lx_m0) lx_policy (fun _ => 0) "ns/x".
Definition cx_event : delta_event :=
  pod_event (fixed_env 0) lx_policy (fun _ => Ok ("ns", "x")) (fun _ _ => Ok dx_pod)
    lx_rs (cx_deploys (current cx_history)) (lx_lister lx_m0) (fun _ => 0) "ns/x" None.
Definition cx_m1 : gmap string smap := lx_serve lx_m0 cx_pod.1.

Definition cx_with (s : sys) (q : gset string) : cluster :=
  {| cl_sys := s; cl_history := [cx_d0]; cl_queue := q; cl_turns := []; cl_log := [] |}.
Definition cx_start : cluster := cx_with lx_start ∅.
Definition cx_jobs : gset string :=
  queue_after ∅ (deploymentJob_Run (Ok ["ns"]) "range_cpu").
Definition cx_done : gset string :=
  queue_after (cx_jobs ∖ {["ns/range_cpu"]}) [QForget "ns/range_cpu"; QDone "ns/range_cpu"].
Definition cx_measured : cluster :=
  {| cl_sys := lx_sys lx_m0; cl_history := cx_history; cl_queue := cx_done; cl_turns := [];
     cl_log := [cx_record] |}.
Definition cx_end : cluster := with_sys cx_measured (lx_sys cx_m1).
Definition cx_events : list delta_event := [EOther; EOther; EOther; EOther; EOther; EOther].

Lemma cx_clean : clean_start lx_policy cx_start.
Proof.
  split; [apply lx_fresh|]. split_and!; [reflexivity..|]. constructor; [|constructor].
  intros ns n k _. unfold dstored, cx_d0. destruct (decide (("ns", "d") = (ns, n))) as [<-|Hne].
  - by rewrite lookup_singleton_eq.
  - by rewrite lookup_singleton_ne.
Qed.

Lemma cx_cached m h : m ∈ h -> cached h (cx_deploys m).
Proof. intros Hm ns n d [= <-]. split; [done|]. split; [done|]. by exists m. Qed.

Lemma cx_current : current cx_history ∈ cx_history.
Proof.
  assert (length cx_history = 2%nat) as Hl by (vm_compute; reflexivity).
  destruct cx_history; [done|]. left.
Qed.

Lemma cx_still s e s' q :
  still_step (fixed_env 0) sx_loc lx_policy s e s' ->
  cluster_step (fixed_env 0) sx_loc lx_policy (cx_with s q) e (cx_with s' q).
Proof. apply (cluster_still _ _ _ (cx_with s q)). Qed.

Lemma cx_job_step :
  cluster_step (fixed_env 0) sx_loc lx_policy (cx_with (lx_sys lx_m0) ∅) EOther
    (cx_with (lx_sys lx_m0) cx_jobs).
Proof.
  apply (cluster_job (fixed_env 0) sx_loc lx_policy (cx_with (lx_sys lx_m0) ∅) 0
    {| cj_spec := "10 0 * * *"; cj_run := fun names => deploymentJob_Run names "range_cpu" |} (Ok ["ns"])).
  - apply Z.le_refl.
  - apply sx_fine.
  - left.
Qed.

(** The three steps of the deployment worker's turn. *)
Definition cx_taken (rest : list Deployment) (h : list (gmap (string * string) smap))
    (log : list app_record) : cluster :=
  {| cl_sys := lx_sys lx_m0; cl_history := h; cl_queue := cx_jobs ∖ {["ns/range_cpu"]};
     cl_turns := [{| dt_key := "ns/range_cpu"; dt_metric := "range_cpu"; dt_rest := rest |}];
     cl_log := log |}.

Lemma cx_take_step :
  cluster_step (fixed_env 0) sx_loc lx_policy (cx_with (lx_sys lx_m0) cx_jobs) EOther
    (cx_taken [cx_of cx_d0 "ns" "d"] [cx_d0] []).
Proof.
  apply (cluster_take (fixed_env 0) sx_loc lx_policy (cx_with (lx_sys lx_m0) cx_jobs) 0
    (fun ns => Ok [cx_of cx_d0 ns "d"]) "ns/range_cpu" "ns").
  - apply Z.le_refl.
  - apply sx_fine.
  - vm_compute. reflexivity.
  - vm_compute. reflexivity.
  - reflexivity.
Qed.

Lemma cx_deployment_step :
  cluster_step (fixed_env 0) sx_loc lx_policy (cx_taken [cx_of cx_d0 "ns" "d"] [cx_d0] []) EOther
    (cx_taken [] cx_history [cx_record]).
Proof.
  apply (cluster_deployment (fixed_env 0) sx_loc lx_policy (cx_taken [cx_of cx_d0 "ns" "d"] [cx_d0] [])
    cx_record 0 "ns/range_cpu" [] [] cx_call.1).
  - apply cx_prom_text.
  - reflexivity.
  - split; apply Z.le_refl.
  - apply sx_fine.
  - apply sx_fine.
  - vm_compute. reflexivity.
  - apply served_all. vm_compute. reflexivity.
Qed.

Lemma cx_end_step :
  cluster_step (fixed_env 0) sx_loc lx_policy (cx_taken [] cx_history [cx_record]) EOther cx_measured.
Proof.
  apply (cluster_end (fixed_env 0) sx_loc lx_policy (cx_taken [] cx_history [cx_record]) 0 "ns/range_cpu"
    "range_cpu" [] [QForget "ns/range_cpu"; QDone "ns/range_cpu"]).
  - apply Z.le_refl.
  - apply sx_fine.
  - reflexivity.
  - reflexivity.
Qed.

Lemma cx_pod_step : cluster_step (fixed_env 0) sx_loc lx_policy cx_measured cx_event cx_end.
Proof.
  apply (cluster_pod (fixed_env 0) sx_loc lx_policy cx_measured cx_event (lx_sys cx_m1)
    (cx_deploys (current cx_history))); [apply cx_cached, cx_current|].
  apply (delta_pod (fixed_env 0) sx_loc lx_policy (cx_deploys (current cx_history)) (lx_sys lx_m0)
    lx_client (fun _ => Ok ("ns", "x")) (fun _ _ => Ok dx_pod) lx_rs (lx_lister lx_m0) (fun _ => 0) 0
    "ns/x" cx_pod.1).
  - apply lx_named.
  - apply lx_caught_up.
  - apply Z.le_refl.
  - apply sx_fine.
  - intros i. split; [split; apply Z.le_refl|apply sx_fine].
  - change (cx_pod = (cx_pod.1, Ret None)). vm_compute. reflexivity.
  - apply served_all. vm_compute. reflexivity.
Qed.

Lemma cx_run : cluster_run (fixed_env 0) sx_loc lx_policy cx_start cx_events cx_measured.
Proof.
  change cx_events with
    (((((([] ++ [EOther]) ++ [EOther]) ++ [EOther]) ++ [EOther]) ++ [EOther]) ++ [EOther])%list.
  econstructor; [|apply cx_end_step].
  econstructor; [|apply cx_deployment_step]. econstructor; [|apply cx_take_step].
  econstructor; [|apply cx_job_step]. econstructor; [|apply cx_still, lx_node_step].
  econstructor; [|apply cx_still, lx_tick_step]. constructor.
Qed.

(** A node of ten CPUs, used to nine tenths, with one pod of "d" charged: a second one does not
    fit. *)
Definition cx_node : Node := lx_node cx_m1 "n".
Definition cx_status : Status :=
  NewStatus Unschedulable
    (Errorf "Plugin[%s] node[%s] policy[%s] for pod[%s] is too high"
       [Name; "n"; "range:cpu:range_cpu:range_node"; "x"]).

Lemma app_rejection_was_measured_witness :
  exists i p pre resource dm nm d1 d2 nstr wstr ns ws ds,
    Predicate (Spec lx_policy) !! i = Some p /\ split ":" (pred_Name p) = [pre; resource; dm; nm] /\
    GetActiveDuration (SyncPeriod (Spec lx_policy)) nm = Ok d1 /\
    GetActiveDuration (SyncAppPeriod (Spec lx_policy)) dm = Ok d2 /\
    node_read_measured (sy_log (cl_sys cx_end)) 0 (sy_now (cl_sys cx_end)) (node_Name cx_node) nm nstr d1 /\
    read_measured (cl_log cx_end) 0 (sy_now (cl_sys cx_end)) "ns" "d" dm wstr d2 /\
    ParseRangeMetricsByString nstr = Ok ns /\ ParseRangeMetricsByString wstr = Ok ws /\
    entry_values (length ns)
      (foldl happen (ledger_of (sy_annos (cl_sys cx_start))) (cx_events ++ [cx_event])%list
         (node_Name cx_node) dm) = Some ds /\
    too_high (MaxLimitPecent p)
      (predicted ns ws ds (f64_of_Z (node_capacity cx_node resource))) = true.
Proof.
  apply (app_rejection_was_measured (fixed_env 0) sx_loc lx_policy cx_start cx_end
    (cx_events ++ [cx_event]) lx_rs (cx_deploys (current cx_history)) (fun _ => 0) dx_pod
    {| ni_Node := Some cx_node; ni_Pods := [] |} (cx_of (current cx_history) "ns" "d") cx_node cx_status).
  - reflexivity.
  - apply lx_sane.
  - apply cx_clean.
  - econstructor; [apply cx_run|apply cx_pod_step].
  - vm_compute. reflexivity.
  - apply cx_cached, cx_current.
  - reflexivity.
  - reflexivity.
  - reflexivity.
  - vm_compute. reflexivity.
  - discriminate.
Defined.

Definition cx_request : request :=
  node_patch (lx_node lx_m0 "n") (patch_annotation "add" "delta_range_cpu" ("1.00000," ++ Format 0 sx_loc)).

Lemma booked_usages_measured_witness :
  exists ns name pod deploy node i p u s,
    Ok ("ns", "x") = Ok (ns, name) /\ Ok dx_pod = Ok pod /\
    GetDeploymentByPod lx_rs (cx_deploys (current cx_history)) pod = Ok deploy /\
    lx_lister lx_m0 (pod_NodeName pod) = Ok node /\ SyncAppPeriod (Spec lx_policy) !! i = Some p /\
    writes cx_request (node_Name node) (DeltaPrefixName ++ sync_Name p) (Some (stamped sx_loc s 0)) /\
    account (deleting pod) (delta_of (node_annos node) (sync_Name p)) u = Some (entry_of_text s) /\
    (dep_annos deploy !! sync_Name p = None /\ u = Missing \/
     exists value, u = entry_of_text value /\
       read_measured (cl_log cx_measured) 0 (sy_now (cl_sys cx_measured)) (dep_Namespace deploy)
         (dep_Name deploy) (sync_Name p) value (wrap64 (sync_Period p + ExtraActivePeriod))).
Proof.
  apply (booked_usages_measured (fixed_env 0) sx_loc lx_policy cx_start cx_measured cx_events lx_client
    (fun _ => Ok ("ns", "x")) (fun _ _ => Ok dx_pod) lx_rs (cx_deploys (current cx_history))
    (lx_lister lx_m0) (fun _ => 0) "ns/x" [cx_request] None).
  - reflexivity.
  - apply lx_sane.
  - apply cx_clean.
  - apply cx_run.
  - apply cx_cached, cx_current.
  - intros i. apply sx_fine.
  - vm_compute. reflexivity.
  - left.
Defined.

End Witnesses.
