(* ===== verification/AnnotatorWorkers.v ===== *)
(** * The workers of pkg/controller/annotator

    Every controller has a client-go work queue and several goroutines that [Run] its loop: take
    a key, process it, until the queue is shut down. Here the queue is the interface [WorkQueue]
    (what client-go's documentation promises), a pool of workers is a transition system whose
    steps send one request at a time, and each controller is an instance of it. The turns of a
    pool's workers overlap; for the node controller every overlapping is equivalent to an order
    of whole turns, which is what AnnotatorSystem takes as a step. *)

From S2P Require Import Prelude GoStrings GoFloat GoTime K8s Policy Utils Binding HotValue.
From S2P Require Import Prometheus AnnotatorQueue AnnotatorNode AnnotatorEvent AnnotatorApp AnnotatorSystem.

Open Scope string_scope.
Open Scope Z_scope.

(** ** The work queue *)

(** workqueue.RateLimitingInterface. [wq_Get] is [None] while it blocks, and gives no key when
    the queue is shut down and drained; [wq_due] is the passing of a delayed key to the queue.
    [wq_waiting] are the keys added and not yet taken (delayed ones included), [wq_processing] the
    keys taken and not yet done. The laws are the documented ones: a key is not processed by two
    workers at once, Done ends its processing, and nothing but ShutDown shuts the queue down. *)
Class WorkQueue (Q : Type) := {
  wq_new : Q;
  wq_Get : Q -> option (option string * Q);
  wq_op : queue_op -> Q -> Q;
  wq_ShutDown : Q -> Q;
  wq_due : Q -> Q -> Prop;
  wq_waiting : Q -> gset string;
  wq_processing : Q -> gset string;
  wq_down : Q -> bool;
  wq_new_spec : wq_waiting wq_new = ∅ /\ wq_processing wq_new = ∅ /\ wq_down wq_new = false;
  wq_Get_key : forall q k q', wq_Get q = Some (Some k, q') ->
    k ∈ wq_waiting q /\ (k ∉ wq_processing q) /\ wq_waiting q' ⊆ wq_waiting q /\
    wq_processing q' = {[k]} ∪ wq_processing q /\ wq_down q' = wq_down q;
  wq_Get_quit : forall q q', wq_Get q = Some (None, q') -> wq_down q = true /\ q' = q;
  wq_op_waiting : forall o q, wq_waiting (wq_op o q) ⊆
    wq_waiting q ∪ (match o with QAdd k | QAddRateLimited k => {[k]} | _ => ∅ end);
  wq_op_processing : forall o q, wq_processing (wq_op o q) =
    match o with QDone k => wq_processing q ∖ {[k]} | _ => wq_processing q end;
  wq_op_down : forall o q, wq_down (wq_op o q) = wq_down q;
  wq_ShutDown_spec : forall q, wq_waiting (wq_ShutDown q) ⊆ wq_waiting q /\
    wq_processing (wq_ShutDown q) = wq_processing q /\ wq_down (wq_ShutDown q) = true;
  wq_due_spec : forall q q', wq_due q q' -> wq_waiting q' ⊆ wq_waiting q /\
    wq_processing q' = wq_processing q /\ wq_down q' = wq_down q }.

Definition wq_ops `{WorkQueue Q} (ops : list queue_op) (q : Q) : Q :=
  foldl (fun q o => wq_op o q) q ops.

(** ** A pool of workers *)

(** A request, with the answers of the client that sends it. *)
Definition delivery : Type := client * request.

(** What one call of a controller's [processNextWorkItem] may do: with what [Get] gave, the
    requests it sends, whether the loop of [Run] goes on, and the queue operations at its end. *)
Definition processing : Type := option string -> list delivery -> bool * list queue_op -> Prop.

(** A goroutine: in [Get]; processing a key, with the requests sent and those to come; or
    returned from [Run]. *)
Inductive worker_state :=
| Waiting
| Handling (key : string) (sent rest : list delivery) (go_on : bool) (ops : list queue_op)
| Returned.

Section Pool.
Context `{WQ : WorkQueue Q} `{JS : JSONPatchServer}.
Context (process : processing) (addable : string -> Prop) (foreign : delivery -> Prop).

(** The queue, the goroutines, the server's annotations, and the turns in the order of their last
    request. *)
Record pool := {
  po_queue : Q;
  po_workers : list worker_state;
  po_annos : gmap string smap;
  po_turns : list (list delivery) }.

(** As in AnnotatorSystem, there is no outcome when the client is told of a success that the server
    could not give. *)
Definition deliver (m : gmap string smap) (d : delivery) : option (gmap string smap) :=
  serve1 d.1 m d.2.

Fixpoint replay (m : gmap string smap) (l : list delivery) : option (gmap string smap) :=
  match l with
  | [] => Some m
  | d :: l' => m' ← deliver m d; replay m' l'
  end.

Definition ended {A} (rest : list A) (x : list A) : list (list A) :=
  match rest with [] => [x] | _ => [] end.

(** [Run]: [for processNextWorkItem() {}], and the deferred [ShutDown]. The other steps are what
    happens to the queue and to the server besides. *)
Inductive pool_step : pool -> pool -> Prop :=
| pool_get q q' l1 l2 m ts key rqs go_on ops :
    wq_Get q = Some (Some key, q') -> process (Some key) rqs (go_on, ops) ->
    pool_step {| po_queue := q; po_workers := l1 ++ Waiting :: l2; po_annos := m; po_turns := ts |}
      {| po_queue := q'; po_workers := l1 ++ Handling key [] rqs go_on ops :: l2;
         po_annos := m; po_turns := ts |}
| pool_send q l1 l2 m m' ts key sent d rest go_on ops :
    deliver m d = Some m' ->
    pool_step
      {| po_queue := q; po_workers := l1 ++ Handling key sent (d :: rest) go_on ops :: l2;
         po_annos := m; po_turns := ts |}
      {| po_queue := q; po_workers := l1 ++ Handling key (sent ++ [d]) rest go_on ops :: l2;
         po_annos := m'; po_turns := ts ++ ended rest (sent ++ [d]) |}
| pool_next q l1 l2 m ts key sent ops :
    pool_step {| po_queue := q; po_workers := l1 ++ Handling key sent [] true ops :: l2;
                 po_annos := m; po_turns := ts |}
      {| po_queue := wq_ops ops q; po_workers := l1 ++ Waiting :: l2; po_annos := m; po_turns := ts |}
| pool_last q l1 l2 m ts key sent ops :
    pool_step {| po_queue := q; po_workers := l1 ++ Handling key sent [] false ops :: l2;
                 po_annos := m; po_turns := ts |}
      {| po_queue := wq_ShutDown (wq_ops ops q); po_workers := l1 ++ Returned :: l2;
         po_annos := m; po_turns := ts |}
| pool_quit q q' l1 l2 m ts ops :
    wq_Get q = Some (None, q') -> process None [] (false, ops) ->
    pool_step {| po_queue := q; po_workers := l1 ++ Waiting :: l2; po_annos := m; po_turns := ts |}
      {| po_queue := wq_ShutDown (wq_ops ops q'); po_workers := l1 ++ Returned :: l2;
         po_annos := m; po_turns := ts |}
| pool_add q ws m ts key :
    addable key ->
    pool_step {| po_queue := q; po_workers := ws; po_annos := m; po_turns := ts |}
      {| po_queue := wq_op (QAdd key) q; po_workers := ws; po_annos := m; po_turns := ts |}
| pool_due q q' ws m ts :
    wq_due q q' ->
    pool_step {| po_queue := q; po_workers := ws; po_annos := m; po_turns := ts |}
      {| po_queue := q'; po_workers := ws; po_annos := m; po_turns := ts |}
| pool_foreign q ws m m' ts d :
    foreign d -> deliver m d = Some m' ->
    pool_step {| po_queue := q; po_workers := ws; po_annos := m; po_turns := ts |}
      {| po_queue := q; po_workers := ws; po_annos := m'; po_turns := ts ++ [[d]] |}.

(** [count] goroutines on a new queue. *)
Definition pool_start (count : nat) (m : gmap string smap) : pool :=
  {| po_queue := wq_new; po_workers := replicate count Waiting; po_annos := m; po_turns := [] |}.

(** The keys the workers hold. *)
Definition held (ws : list worker_state) : list string :=
  omap (fun w => match w with Handling key _ _ _ _ => Some key | _ => None end) ws.

Definition alive (w : worker_state) : bool := match w with Returned => false | _ => true end.

End Pool.

(** *** The five controllers *)

(** A controller's [processNextWorkItem], with any sync function and any answers. *)
Definition process_of (c : worker) : processing := fun get rqs r =>
  exists (kc : client) (w : list request), rqs = List.map (pair kc) w /\
  match c with
  | NodeWorker => exists sync, processNextWorkItem get sync = (w, Ret r)
  | DeltaWorker => exists sync, ndr_processNextWorkItem get sync = (w, Ret r)
  | DeploymentWorker => exists sync, deployment_processNextWorkItem get sync = (w, Ret r)
  | EventWorker => exists (St : Type) (s s' : St) reconcile,
      event_processNextWorkItem get s reconcile = (w, Ret (r.1, s', r.2))
  | PodWorker => exists reconcile, pod_processNextWorkItem get reconcile = (w, Ret r)
  | GCWorker => False
  end.

(** *** The node controller's turns *)

Section NodePool.
Context `{QL : QuantityLib} `{JS : JSONPatchServer}.
Context (env : Env) (loc : Location) (policy : DynamicSchedulerPolicy).

(** A turn of the node controller, with any answers and any store of bindings. *)
Definition node_process : processing := fun get rqs r =>
  exists (PC : PromClient) kc lister clock recs hclock now w,
    PromText PC /\ named lister /\ fine loc (clock 3%nat) /\ fine loc now /\
    rqs = List.map (pair kc) w /\
    processNextWorkItem get (syncNode env kc lister policy clock recs hclock now) = (w, Ret r).

(** What the tickers add. *)
Definition metric_key (key : string) : Prop :=
  exists names p, p ∈ SyncPeriod (Spec policy) /\ QAdd key ∈ enqueue_all names p.

(** A delivery that sets or removes one key of a node's annotations. *)
Definition at_cell (d : delivery) (n k : string) : Prop := exists v, writes d.2 n k v.

(** The other controllers write no metric. *)
Definition foreign_write (d : delivery) : Prop := exists n k, at_cell d n k /\ ~ is_metric policy k.

End NodePool.

(** The worker is not between two requests of a turn. *)
Definition between_turns (w : worker_state) : bool :=
  match w with Handling _ (_ :: _) (_ :: _) _ _ => false | _ => true end.

(** The operations at the end of a call: a requeue or a forgetting of the key, then Done. *)
Definition ends_with_done (key : string) (ops : list queue_op) : Prop :=
  exists ops', ops = (ops' ++ [QDone key])%list /\
    Forall (fun o => o = QForget key \/ o = QAddRateLimited key) ops'.

(** ** Lemmas *)

Lemma held_app l1 l2 : held (l1 ++ l2) = (held l1 ++ held l2)%list.
Proof. apply omap_app. Qed.

Section PoolLemmas.
Context `{WQ : WorkQueue Q} `{JS : JSONPatchServer}.
Context (process : processing) (addable : string -> Prop) (foreign : delivery -> Prop).
Hypothesis Hprocess : forall key rqs go_on ops, process (Some key) rqs (go_on, ops) ->
  go_on = true /\ ends_with_done key ops.

Lemma ops_end key ops (q : Q) :
  ends_with_done key ops ->
  wq_waiting (wq_ops ops q) ⊆ wq_waiting q ∪ {[key]} /\
  wq_processing (wq_ops ops q) = wq_processing q ∖ {[key]} /\
  wq_down (wq_ops ops q) = wq_down q.
Proof.
  intros (ops' & -> & Ho). unfold wq_ops. rewrite foldl_app. cbn [foldl].
  rewrite wq_op_processing, wq_op_down. pose proof (wq_op_waiting (QDone key)) as Hd.
  assert (wq_waiting (foldl (fun q o => wq_op o q) q ops') ⊆ wq_waiting q ∪ {[key]} /\
    wq_processing (foldl (fun q o => wq_op o q) q ops') = wq_processing q /\
    wq_down (foldl (fun q o => wq_op o q) q ops') = wq_down q) as (Hw & -> & ->).
  { revert q. induction Ho as [|o ops' Ho _ IH]; intros q; [set_solver|]. cbn [foldl].
    destruct (IH (wq_op o q)) as (H1 & -> & ->). rewrite wq_op_down, wq_op_processing.
    pose proof (wq_op_waiting o q). destruct Ho as [->| ->]; set_solver. }
  specialize (Hd (foldl (fun q o => wq_op o q) q ops')). set_solver.
Qed.

(** What a worker that handles a key carries. *)
Definition worker_ok (w : worker_state) : Prop :=
  match w with
  | Waiting => True
  | Handling key sent rest go_on ops => addable key /\ process (Some key) (sent ++ rest)%list (go_on, ops)
  | Returned => False
  end.

Record pool_inv (p : @pool Q) : Prop := {
  pi_distinct : NoDup (held (po_workers p));
  pi_held : forall k, k ∈ held (po_workers p) <-> k ∈ wq_processing (po_queue p);
  pi_workers : Forall worker_ok (po_workers p);
  pi_waiting : forall k, k ∈ wq_waiting (po_queue p) -> addable k;
  pi_up : wq_down (po_queue p) = false }.

Lemma pool_start_inv count m : pool_inv (pool_start count m).
Proof.
  clear Hprocess. assert (held (replicate count Waiting) = []) as Hh by (by induction count).
  destruct wq_new_spec as (Hw & Hp & Hd). split; cbn [pool_start po_workers po_queue]; try done.
  - rewrite Hh. constructor.
  - intros k. rewrite Hh, Hp. set_solver.
  - by apply Forall_replicate.
  - intros k. rewrite Hw. set_solver.
Qed.

Lemma pool_inv_step p p' : pool_inv p -> pool_step process addable foreign p p' -> pool_inv p'.
Proof.
  intros [Hn Hh Hw Ha Hu] Hs.
  destruct Hs as [q q' l1 l2 m ts key rqs go_on ops Hg Hp|q l1 l2 m m' ts key sent d rest go_on ops Hdel
    |q l1 l2 m ts key sent ops|q l1 l2 m ts key sent ops|q q' l1 l2 m ts ops Hg Hp
    |q ws m ts key Hk|q q' ws m ts Hd|q ws m m' ts d Hf Hdel];
    cbn [po_workers po_queue] in *; rewrite ?held_app in *; cbn [held omap list_omap] in *.
  - destruct (wq_Get_key _ _ _ Hg) as (Hin & Hnot & Hsub & Hpr & Hdn).
    assert (key ∉ (held l1 ++ held l2)%list) as Hfresh by (rewrite Hh; done).
    split; cbn [po_workers po_queue]; rewrite ?held_app; cbn [held omap list_omap].
    + rewrite <- Permutation_middle. by constructor.
    + intros k. rewrite <- Permutation_middle, elem_of_cons, Hh, Hpr. set_solver.
    + apply Forall_app in Hw as [H1 H2%Forall_cons]. apply Forall_app. split; [done|].
      constructor; [|apply H2]. split; [by apply Ha|done].
    + intros k Hk. apply Ha. set_solver.
    + congruence.
  - split; cbn [po_workers po_queue]; rewrite ?held_app; cbn [held omap list_omap]; try done.
    apply Forall_app in Hw as [H1 [H2 H3]%Forall_cons]. apply Forall_app. split; [done|].
    constructor; [|done]. cbn [worker_ok] in *. by rewrite <- app_assoc.
  - apply Forall_app in Hw as [H1 [[Hadd Hpr] H3]%Forall_cons]. destruct (Hprocess _ _ _ _ Hpr) as [_ He].
    destruct (ops_end key ops q He) as (Hwait & Hproc & Hdown).
    rewrite <- Permutation_middle in Hn. apply NoDup_cons in Hn as [Hk Hn].
    split; cbn [po_workers po_queue]; rewrite ?held_app; cbn [held omap list_omap]; [done| | | |congruence].
    + intros k. rewrite Hproc, elem_of_difference, <- Hh, <- Permutation_middle, elem_of_cons. set_solver.
    + apply Forall_app. split; [done|]. by constructor.
    + intros k Hk'. apply Hwait, elem_of_union in Hk' as [?|?%elem_of_singleton]; [by apply Ha|by subst].
  - apply Forall_app in Hw as [H1 [[Hadd Hpr] H3]%Forall_cons]. by destruct (Hprocess _ _ _ _ Hpr).
  - destruct (wq_Get_quit _ _ Hg) as [? _]. congruence.
  - split; cbn [po_workers po_queue]; try done.
    + intros k. by rewrite wq_op_processing.
    + intros k Hk'. apply (wq_op_waiting (QAdd key)), elem_of_union in Hk' as [?|?%elem_of_singleton];
        [by apply Ha|by subst].
    + by rewrite wq_op_down.
  - destruct (wq_due_spec _ _ Hd) as (Hsub & Hpr & Hdn). split; cbn [po_workers po_queue]; try done.
    + intros k. by rewrite Hpr.
    + intros k Hk. apply Ha. set_solver.
    + congruence.
  - by split.
Qed.

Lemma pool_reached_inv count m p : rtc (pool_step process addable foreign) (pool_start count m) p -> pool_inv p.
Proof.
  intros Hr. pose proof (pool_start_inv count m) as H0. induction Hr; [done|].
  by apply IHHr; eapply pool_inv_step.
Qed.

End PoolLemmas.

(** *** The five controllers *)

Lemma process_of_ends c key rqs go_on ops :
  process_of c (Some key) rqs (go_on, ops) -> go_on = true /\ ends_with_done key ops.
Proof.
  assert (forall o, o = QForget key \/ o = QAddRateLimited key -> ends_with_done key [o; QDone key]) as H2
    by (intros o Ho; exists [o]; split; [done|by constructor]).
  assert (ends_with_done key [QDone key]) as H1 by (exists []; split; [done|constructor]).
  intros (kc & w & _ & H). destruct c; try done.
  - destruct H as [sync H]. unfold processNextWorkItem, io_ret in H.
    destruct (sync key) as [w' [[[] e]|]]; cbn [io_bind] in H; simplify_eq; auto.
  - destruct H as (St & s & s' & rec & H). unfold event_processNextWorkItem, io_ret in H.
    destruct (rec key) as [w' [[s1 e]|]]; cbn [io_bind fst snd] in H; simplify_eq; auto.
  - destruct H as [rec H]. unfold pod_processNextWorkItem, io_ret in H.
    destruct (rec key) as [w' [e|]]; cbn [io_bind] in H; simplify_eq; auto.
  - destruct H as [sync H]. unfold ndr_processNextWorkItem, io_ret in H.
    destruct (sync key) as [w' [[[] e]|]]; cbn [io_bind] in H; simplify_eq; auto.
  - destruct H as [sync H]. unfold deployment_processNextWorkItem, io_ret in H.
    destruct (sync key) as [w' [[f [e|]]|]]; cbn [io_bind] in H; simplify_eq; [by auto|].
    destruct f; cbn [app]; auto.
Qed.

(** *** Annotations as cells *)

Section Cells.
Context `{JS : JSONPatchServer}.

(** A delivery either changes nothing, or is applied to the annotations of its node. *)
Lemma deliver_eq d n k v :
  writes d.2 n k v -> exists can : option string -> bool, forall m, deliver m d =
    match d.1 d.2 with
    | Some _ => Some m
    | None => a ← m !! n; if can (a !! k) then Some (<[n := partial_alter (fun _ => v) k a]> m) else None
    end.
Proof.
  intros (Hr & Hn & can & Ha). exists can. intros m. unfold deliver, serve1. rewrite Hr, Hn.
  cbn [String.eqb Ascii.eqb Bool.eqb]. destruct (d.1 d.2); [done|]. destruct (m !! n) as [a|]; [|done].
  cbn [mbind option_bind]. rewrite Ha. by destruct (can (a !! k)).
Qed.

Lemma deliver_swap d d' n k n' k' m :
  at_cell d n k -> at_cell d' n' k' -> ~ (n = n' /\ k = k') ->
  (m1 ← deliver m d; deliver m1 d') = (m1 ← deliver m d'; deliver m1 d).
Proof.
  intros [v Hv] [v' Hv'] Hne. destruct (deliver_eq d n k v Hv) as [can Hd], (deliver_eq d' n' k' v' Hv')
    as [can' Hd']. rewrite (Hd m), (Hd' m). destruct (d.1 d.2) eqn:He, (d'.1 d'.2) eqn:He';
    cbn [mbind option_bind]; rewrite ?Hd, ?Hd'; [done|by destruct (m !! n') as [a|];
    cbn; [destruct (can' (a !! k')); cbn; rewrite ?Hd|]|by destruct (m !! n) as [a|];
    cbn; [destruct (can (a !! k)); cbn; rewrite ?Hd'|]|].
  destruct (decide (n = n')) as [<-|Hn].
  - assert (k <> k') as Hk by (by intros ->; destruct Hne). destruct (m !! n) as [a|]; [|done].
    cbn [mbind option_bind].
    destruct (can (a !! k)) eqn:Hc, (can' (a !! k')) eqn:Hc'; cbn [mbind option_bind]; rewrite ?Hd, ?Hd';
      rewrite ?lookup_insert_eq; cbn [mbind option_bind]; rewrite ?lookup_partial_alter_ne, ?Hc, ?Hc' by done;
      [|done..]. by rewrite !insert_insert_eq, partial_alter_partial_alter_ne.
  - destruct (m !! n) as [a|] eqn:Ha, (m !! n') as [a'|] eqn:Ha'; cbn [mbind option_bind].
    + destruct (can (a !! k)) eqn:Hc, (can' (a' !! k')) eqn:Hc'; cbn [mbind option_bind]; rewrite ?Hd, ?Hd';
        rewrite ?lookup_insert_ne, ?Ha, ?Ha' by done; cbn [mbind option_bind]; rewrite ?Hc, ?Hc'; [|done..].
      by rewrite insert_insert_ne.
    + destruct (can (a !! k)); cbn [mbind option_bind]; rewrite ?Hd'; [|done].
      by rewrite lookup_insert_ne, Ha'.
    + destruct (can' (a' !! k')); cbn [mbind option_bind]; rewrite ?Hd; [|done].
      by rewrite lookup_insert_ne, Ha.
    + done.
Qed.

(** Deliveries at cells in [P]. *)
Definition at_cells (P : string -> string -> Prop) (l : list delivery) : Prop :=
  Forall (fun d => exists n k, at_cell d n k /\ P n k) l.

Lemma replay_app m a b : replay m (a ++ b) = replay m a ≫= fun m' => replay m' b.
Proof.
  revert m. induction a as [|d a IH]; intros m; [done|]. cbn [app replay].
  destruct (deliver m d); [apply IH|done].
Qed.

Lemma replay_past P P' d l m n k :
  (forall n k, P n k -> ~ P' n k) -> at_cell d n k -> P n k -> at_cells P' l ->
  replay m (d :: l) = replay m (l ++ [d]).
Proof.
  intros Hdis Hd HP Hl. revert m. induction Hl as [|d' l (n' & k' & Hd' & HP') Hl IH]; intros m; [done|].
  pose proof (deliver_swap d d' n k n' k' m Hd Hd') as Hsw. cbn [app replay] in *.
  assert (~ (n = n' /\ k = k')) as Hne by (intros [<- <-]; by eapply Hdis). specialize (Hsw Hne).
  destruct (deliver m d') as [m'|]; cbn [mbind option_bind] in *.
  - rewrite <- IH, <- Hsw. by destruct (deliver m d).
  - destruct (deliver m d) as [m1|]; cbn [mbind option_bind] in *; [by rewrite Hsw|done].
Qed.

(** Deliveries at different cells commute, within a longer list. *)
Lemma replay_swap P P' a x y b m :
  (forall n k, P n k -> ~ P' n k) -> at_cells P x -> at_cells P' y ->
  replay m (a ++ x ++ y ++ b) = replay m (a ++ y ++ x ++ b).
Proof.
  intros Hdis Hx Hy. rewrite !(replay_app m a). destruct (replay m a) as [m1|]; [|done].
  cbn [mbind option_bind]. clear m a. revert m1.
  induction Hx as [|d x (n & k & Hd & HP) Hx IH]; intros m; [done|].
  assert (replay m (d :: x ++ y ++ b) = replay m (d :: y ++ x ++ b)) as Hs.
  { cbn [replay]. destruct (deliver m d); [apply IH|done]. }
  change ((d :: x) ++ y ++ b)%list with (d :: x ++ y ++ b)%list. rewrite Hs.
  change (d :: y ++ x ++ b)%list with ((d :: y) ++ x ++ b)%list.
  rewrite (replay_app m (d :: y)), (replay_past P P' d y m n k Hdis Hd HP Hy), <- replay_app.
  by rewrite <- app_assoc.
Qed.

(** The last request of a turn, moved with the others of the turn before the turns under way. *)
Lemma replay_commit P P' r p1 p2 sent d m :
  (forall n k, P n k -> ~ P' n k) -> at_cells P (p1 ++ p2) -> at_cells P' (sent ++ [d]) ->
  replay m (r ++ p1 ++ sent ++ p2 ++ [d]) = replay m (r ++ (sent ++ [d]) ++ p1 ++ p2).
Proof.
  intros Hdis [H1 H2]%Forall_app [Hs Hd]%Forall_app.
  rewrite (replay_swap P P' r p1 sent (p2 ++ [d]) m Hdis H1 Hs). rewrite <- !app_assoc.
  pose proof (replay_swap P P' (r ++ sent) (p1 ++ p2) [d] [] m Hdis) as Hsw.
  rewrite !app_nil_r, <- !app_assoc in Hsw. apply Hsw; [by apply Forall_app|done].
Qed.

(** An earlier request, moved to the other requests of its turn. *)
Lemma replay_early P P' p1 p2 d m :
  (forall n k, P n k -> ~ P' n k) -> at_cells P p2 -> at_cells P' [d] ->
  replay m (p1 ++ p2 ++ [d]) = replay m (p1 ++ d :: p2).
Proof.
  intros Hdis H2 Hd. pose proof (replay_swap P P' p1 p2 [d] [] m Hdis) as Hsw.
  rewrite !app_nil_r in Hsw. by apply Hsw.
Qed.

End Cells.

(** *** Overlapping turns of the node controller *)

Section NodeLemmas.
Context `{QL : QuantityLib} `{JS : JSONPatchServer} `{WQ : WorkQueue Q}.
Context (env : Env) (loc : Location) (policy : DynamicSchedulerPolicy).
Hypothesis Hloc : GetLocation env = Some loc.
Hypothesis Hsane : sane_policy policy.

Lemma metric_key_parts key :
  metric_key policy key -> exists n m, key = handlingMetaKeyWithMetricName n m /\ is_metric policy m.
Proof.
  intros ([l|e] & p & Hp & Hk); [|by apply elem_of_nil in Hk]. cbn [enqueue_all] in Hk.
  apply list_elem_of_In, in_map_iff in Hk as (n & [= <-] & _). exists n, (sync_Name p).
  split; [done|]. by exists p.
Qed.

Lemma node_process_of rqs get r : node_process env loc policy get rqs r -> process_of NodeWorker get rqs r.
Proof.
  intros (PC & kc & lister & clock & recs & hclock & now & w & _ & _ & _ & _ & -> & Hp).
  exists kc, w. split; [done|]. eauto.
Qed.

(** A turn writes its metric, then the hot value. *)
Definition delivers (n m : string) (rqs : list delivery) : Prop :=
  rqs = [] \/ (exists a, rqs = [a] /\ at_cell a n m) \/
  (exists a b, rqs = [a; b] /\ at_cell a n m /\ at_cell b n HotValueKey).

Lemma node_turn_delivers n m rqs r :
  is_metric policy m -> node_process env loc policy (Some (handlingMetaKeyWithMetricName n m)) rqs r ->
  delivers n m rqs.
Proof.
  intros Hm (PC & kc & lister & clock & recs & hclock & now & w & HPC & Hnm & Hf & Hfn & -> & Hp).
  destruct (metric_sane policy Hsane m Hm) as (Hpm & _ & _).
  set (rec := {| nr_prom := PC; nr_client := kc; nr_lister := lister; nr_clock := clock; nr_recs := recs;
    nr_hclock := hclock; nr_now := now; nr_key := handlingMetaKeyWithMetricName n m |}).
  destruct r as [go_on ops]. destruct (run_turn_shape env loc policy Hloc rec n m w go_on ops)
    as (forget & Hs & _); try done. unfold delivers.
  destruct Hs as [| |rq value e _ _ Hw|rq rq' value hot _ _ Hw _ Hw']; [by left|by left|right; left|right; right].
  - eexists. split; [done|]. by eexists.
  - do 2 eexists. split; [done|]. split; by eexists.
Qed.

(** The requests of the turns that are under way. *)
Definition partial (w : worker_state) : list delivery :=
  match w with Handling _ sent (_ :: _) _ _ => sent | _ => [] end.

Definition partials (ws : list worker_state) : list delivery := concat (List.map partial ws).

Lemma partials_app l1 l2 : partials (l1 ++ l2) = (partials l1 ++ partials l2)%list.
Proof. unfold partials. by rewrite List.map_app, concat_app. Qed.

Lemma between_partials ws : forallb between_turns ws = true -> partials ws = [].
Proof.
  induction ws as [|w ws IH]; [done|]. simpl. intros [Hw Hws]%andb_prop. unfold partials in *. simpl.
  rewrite IH by done. by destruct w as [|key [|] [|] go_on ops|].
Qed.

(** They are at the metrics of the keys the workers hold. *)
Definition held_cell (ws : list worker_state) (n k : string) : Prop :=
  is_metric policy k /\ handlingMetaKeyWithMetricName n k ∈ held ws.

Lemma partials_cells ws :
  Forall (worker_ok (node_process env loc policy) (metric_key policy)) ws ->
  at_cells (held_cell ws) (partials ws).
Proof.
  intros Hws. assert (forall w, w ∈ ws -> at_cells (held_cell ws) (partial w)) as Hall.
  { intros w Hw. rewrite Forall_forall in Hws. pose proof (Hws w Hw) as Hok.
    destruct w as [|key sent [|d rest] go_on ops|]; try by constructor.
    destruct Hok as [(n & m & -> & Hm)%metric_key_parts Hp].
    assert (handlingMetaKeyWithMetricName n m ∈ held ws) as Hin.
    { unfold held. apply list_elem_of_omap. by eexists. }
    destruct (node_turn_delivers n m _ _ Hm Hp) as [Hs|[(a & Hs & Ha)|(a & b & Hs & Ha & _)]];
      destruct sent as [|x [|y sent]]; simplify_eq/=; try by constructor.
    - apply list.Forall_singleton. exists n, m. split; [done|by split].
    - by destruct sent. }
  unfold partials. apply Forall_concat, Forall_map, Forall_forall. exact Hall.
Qed.

(** A recorded turn is a whole turn of a node worker, or another controller's request. *)
Definition whole_turn (t : list delivery) : Prop :=
  (exists key r, metric_key policy key /\ node_process env loc policy (Some key) t r) \/
  (exists d, t = [d] /\ foreign_write policy d).

(** The server holds what the recorded turns make of [m0], one after the other, and then the
    requests of the turns under way. *)
Definition serial (m0 : gmap string smap) (p : @pool Q) : Prop :=
  replay m0 (concat (po_turns p) ++ partials (po_workers p)) = Some (po_annos p) /\
  Forall whole_turn (po_turns p).

Lemma deliver_last m0 l m m' d :
  replay m0 l = Some m -> deliver m d = Some m' -> replay m0 (l ++ [d]) = Some m'.
Proof. intros H Hd. rewrite replay_app, H. cbn. by rewrite Hd. Qed.

(** A worker's own cells are apart from those of the turns under way. *)
Definition own_cell (n m n' k : string) : Prop := n' = n /\ (k = m \/ k = HotValueKey).

Lemma held_own ws n m n' k :
  is_metric policy m -> handlingMetaKeyWithMetricName n m ∉ held ws ->
  held_cell ws n' k -> ~ own_cell n m n' k.
Proof.
  intros Hm Hn [Hk Hh] [-> [->| ->]]; [done|].
  by destruct (metric_sane policy Hsane _ Hk) as (_ & ? & _).
Qed.

Lemma serial_send m0 (q : Q) l1 l2 m m1 ts key sent d rest go_on ops :
  let p := {| po_queue := q; po_workers := l1 ++ Handling key sent (d :: rest) go_on ops :: l2;
              po_annos := m; po_turns := ts |} in
  pool_inv (node_process env loc policy) (metric_key policy) p -> serial m0 p ->
  deliver m d = Some m1 ->
  serial m0 {| po_queue := q; po_workers := l1 ++ Handling key (sent ++ [d]) rest go_on ops :: l2;
               po_annos := m1; po_turns := ts ++ ended rest (sent ++ [d]) |}.
Proof.
  intros p [Hn _ Hw _ _] [Hs Ht] Hdel. unfold p in *. cbn [po_workers po_annos po_turns] in *.
  apply Forall_app in Hw as [H1 [[Hadd Hp] H2]%Forall_cons]. destruct (metric_key_parts key Hadd) as (n & m' & -> & Hm).
  rewrite held_app in Hn. cbn [held omap list_omap] in Hn. rewrite <- Permutation_middle in Hn.
  apply NoDup_cons in Hn as [Hkey _]. fold (held l2) in Hkey. rewrite <- held_app in Hkey.
  assert (at_cells (held_cell (l1 ++ l2)) (partials l1 ++ partials l2)) as Hcells.
  { rewrite <- partials_app. apply partials_cells, Forall_app. by split. }
  pose proof (fun n' k => held_own (l1 ++ l2) n m' n' k Hm Hkey) as Hdis.
  pose proof (node_turn_delivers n m' _ _ Hm Hp) as Hshape.
  assert (at_cells (own_cell n m') (sent ++ d :: rest)) as Hown.
  { destruct Hshape as [->|[(a & -> & Ha)|(a & b & -> & Ha & Hb)]]; [constructor| |];
      repeat constructor; do 2 eexists; (split; [done|]); split; auto. }
  assert (at_cells (own_cell n m') (sent ++ [d])) as Hsd.
  { apply Forall_app in Hown as [? [? _]%Forall_cons]. apply Forall_app. split; [done|by constructor]. }
  pose proof (deliver_last _ _ _ _ _ Hs Hdel) as Hs'.
  rewrite partials_app in Hs'. change (partials (?w :: l2)) with (partial w ++ partials l2)%list in Hs'.
  cbn [partial] in Hs'. rewrite <- !app_assoc in Hs'.
  split; cbn [po_workers po_annos po_turns];
    [rewrite concat_app, partials_app; change (partials (?w :: l2)) with (partial w ++ partials l2)%list|];
    destruct rest as [|d' rest]; cbn [ended partial app concat]; rewrite ?app_nil_r.
  - rewrite <- !app_assoc. rewrite <- Hs'. symmetry.
    rewrite (replay_commit _ _ _ _ _ _ _ _ Hdis Hcells Hsd). by rewrite <- !app_assoc.
  - assert (sent = []) as ->.
    { destruct Hshape as [Hx|[(a & Hx & _)|(a & b & Hx & _)]]; destruct sent as [|? [|? sent]];
        simplify_eq/=; try done; by destruct sent. }
    cbn [app] in *. rewrite <- Hs'. symmetry. rewrite !(app_assoc (concat ts)).
    apply Forall_app in Hcells as [_ Hc2].
    by apply (replay_early _ _ _ _ _ _ Hdis).
  - apply Forall_app. split; [done|]. constructor; [|constructor]. left. eauto.
  - done.
Qed.

Lemma serial_step m0 (p p' : @pool Q) :
  pool_inv (node_process env loc policy) (metric_key policy) p -> serial m0 p ->
  pool_step (node_process env loc policy) (metric_key policy) (foreign_write policy) p p' -> serial m0 p'.
Proof.
  intros Hi Hser Hstep. assert (forall w w' (l1 l2 : list worker_state), partial w = partial w' ->
    partials (l1 ++ w :: l2) = partials (l1 ++ w' :: l2)) as Hsame.
  { intros w w' l1 l2 Hw. rewrite !partials_app. unfold partials. cbn [List.map concat]. by rewrite Hw. }
  destruct Hstep as [q q' l1 l2 m ts key rqs go_on ops Hg Hp|q l1 l2 m m' ts key sent d rest go_on ops Hdel
    |q l1 l2 m ts key sent ops|q l1 l2 m ts key sent ops|q q' l1 l2 m ts ops Hg Hp
    |q ws m ts key Hk|q q' ws m ts Hd|q ws m m' ts d Hf Hdel]; try exact Hser.
  - destruct Hser as [Hs Ht]. split; [|done]. cbn [po_workers po_annos po_turns] in *.
    rewrite <- (Hsame Waiting); [done|by destruct rqs].
  - by apply (serial_send m0 q l1 l2 m m' ts key sent d rest go_on ops).
  - destruct Hser as [Hs Ht]. split; [|done]. cbn [po_workers po_annos po_turns] in *.
    by rewrite <- (Hsame (Handling key sent [] true ops)).
  - destruct Hser as [Hs Ht]. split; [|done]. cbn [po_workers po_annos po_turns] in *.
    by rewrite <- (Hsame (Handling key sent [] false ops)).
  - destruct Hser as [Hs Ht]. split; [|done]. cbn [po_workers po_annos po_turns] in *.
    by rewrite <- (Hsame Waiting).
  - destruct Hser as [Hs Ht]. destruct Hf as (n & k & Hd & Hk). split; cbn [po_workers po_annos po_turns] in *.
    + pose proof (deliver_last _ _ _ _ _ Hs Hdel) as Hs'. rewrite <- Hs', concat_app. cbn [concat].
      rewrite app_nil_r, <- !app_assoc. cbn [app]. destruct Hi as [_ _ Hw _ _]. cbn [po_workers] in Hw.
      symmetry. apply (replay_early (held_cell ws) (fun n' k' => ~ is_metric policy k')).
      * intros n' k' [? _] Hn. by apply Hn.
      * by apply partials_cells.
      * constructor; [by exists n, k|constructor].
    + apply Forall_app. split; [done|]. constructor; [|constructor]. right. eexists. split; [done|]. by exists n, k.
Qed.

Lemma serial_reached count m0 (p : @pool Q) :
  rtc (pool_step (node_process env loc policy) (metric_key policy) (foreign_write policy))
    (pool_start count m0) p ->
  pool_inv (node_process env loc policy) (metric_key policy) p /\ serial m0 p.
Proof.
  assert (pool_inv (node_process env loc policy) (metric_key policy) (pool_start (Q := Q) count m0) /\
    serial m0 (pool_start (Q := Q) count m0)) as H0.
  { split; [by apply pool_start_inv|]. split; [|by constructor].
    cbn [pool_start po_annos po_workers po_turns].
    assert (partials (replicate count Waiting) = []) as -> by (by apply between_partials; induction count).
    done. }
  intros Hr. revert H0. induction Hr as [|p1 p2 p3 Hs _ IH]; [done|]. intros [Hi Hser]. apply IH. split.
  - eapply pool_inv_step; [|done|done]. intros key rqs go_on ops Hp.
    by eapply process_of_ends, node_process_of.
  - by eapply serial_step.
Qed.

End NodeLemmas.

(** A pool that may do less. *)
Lemma pool_step_mono `{WQ : WorkQueue Q} `{JS : JSONPatchServer} (process process' : processing)
    (addable foreign : _ -> Prop) p p' :
  (forall get rqs r, process get rqs r -> process' get rqs r) ->
  pool_step process addable foreign p p' -> pool_step process' addable foreign p p'.
Proof. intros Hp Hs. destruct Hs; econstructor; eauto. Qed.

(** ** Properties *)

(** C22: no key is processed by two workers at once. For each of the five controllers, with any number
    of goroutines, any sync function and any answers: in every reachable state the workers hold
    different keys, exactly those the queue counts as processing. And the deferred [ShutDown] of
    [Run] is never reached: no worker returns, since only a worker that returned would shut the
    queue down (a stopped controller's workers stay in [Get] until the process ends). *)
Theorem one_worker_per_key `{WQ : WorkQueue Q} `{JS : JSONPatchServer} (c : worker)
    (addable : string -> Prop) (foreign : delivery -> Prop) (count : nat) (m : gmap string smap)
    (p : @pool Q) :
  rtc (pool_step (process_of c) addable foreign) (pool_start count m) p ->
  NoDup (held (po_workers p)) /\
  (forall key, key ∈ held (po_workers p) <-> key ∈ wq_processing (po_queue p)) /\
  forallb alive (po_workers p) = true /\ wq_down (po_queue p) = false.
Proof.
  intros Hr. destruct (pool_reached_inv (process_of c) addable foreign (process_of_ends c) count m p Hr)
    as [Hn Hh Hw _ Hu]. split_and!; [done|done| |done].
  apply forallb_forall. intros w Hin%list_elem_of_In. rewrite Forall_forall in Hw.
  specialize (Hw w Hin). by destruct w.
Qed.

(** C11: the turns of concurrent node workers serialize. However the requests of any number of node
    workers interleave with each other and with the other controllers' requests, and whatever is
    accepted, whenever no worker is between its two requests the annotations are exactly those the
    same turns leave when they run whole, with the same answers of the server, one after the
    other, in the order of their last requests. *)
Theorem overlapping_turns_serialize `{QL : QuantityLib} `{JS : JSONPatchServer} `{WQ : WorkQueue Q}
    (env : Env) (loc : Location) (policy : DynamicSchedulerPolicy) (count : nat)
    (m0 : gmap string smap) (p : @pool Q) :
  GetLocation env = Some loc -> sane_policy policy ->
  rtc (pool_step (node_process env loc policy) (metric_key policy) (foreign_write policy))
    (pool_start count m0) p ->
  forallb between_turns (po_workers p) = true ->
  replay m0 (concat (po_turns p)) = Some (po_annos p) /\
  Forall (fun t =>
    (exists key r, metric_key policy key /\ node_process env loc policy (Some key) t r) \/
    (exists d, t = [d] /\ foreign_write policy d)) (po_turns p).
Proof.
  intros Hl Hs Hr Hb. destruct (serial_reached env loc policy Hl Hs count m0 p Hr) as [_ [Ha Ht]].
  split; [|exact Ht]. by rewrite (between_partials _ Hb), app_nil_r in Ha.
Qed.

(** ** Witnesses *)

Section Witnesses.
#[local] Existing Instance MilliQuantities.
#[local] Existing Instance split_server.
#[local] Existing Instance sx_prom_text.

(** A queue that hands out any key that is waiting and not being processed. *)
Record set_queue := { sq_waiting : gset string; sq_processing : gset string; sq_down : bool }.

Definition sq_Get (q : set_queue) : option (option string * set_queue) :=
  match elements (sq_waiting q ∖ sq_processing q) with
  | k :: _ => Some (Some k, {| sq_waiting := sq_waiting q ∖ {[k]};
                               sq_processing := {[k]} ∪ sq_processing q; sq_down := sq_down q |})
  | [] => if sq_down q then Some (None, q) else None
  end.

Definition sq_op (o : queue_op) (q : set_queue) : set_queue :=
  match o with
  | QAdd k | QAddRateLimited k =>
      {| sq_waiting := {[k]} ∪ sq_waiting q; sq_processing := sq_processing q; sq_down := sq_down q |}
  | QForget _ => q
  | QDone k =>
      {| sq_waiting := sq_waiting q; sq_processing := sq_processing q ∖ {[k]}; sq_down := sq_down q |}
  end.

#[local] Program Instance set_work_queue : WorkQueue set_queue := {|
  wq_new := {| sq_waiting := ∅; sq_processing := ∅; sq_down := false |};
  wq_Get := sq_Get;
  wq_op := sq_op;
  wq_ShutDown := fun q => {| sq_waiting := sq_waiting q; sq_processing := sq_processing q; sq_down := true |};
  wq_due := fun q q' => q = q';
  wq_waiting := sq_waiting;
  wq_processing := sq_processing;
  wq_down := sq_down |}.
Next Obligation. done. Qed.
Next Obligation.
  intros q k q'. unfold sq_Get. destruct (elements _) as [|x l] eqn:He; [by destruct (sq_down q)|].
  intros [= <- <-]. assert (x ∈ sq_waiting q ∖ sq_processing q) as Hx.
  { apply elem_of_elements. rewrite He. left. }
  cbn. set_solver.
Qed.
Next Obligation.
  intros q q'. unfold sq_Get. destruct (elements _); [|done]. destruct (sq_down q) eqn:Hd; [|done].
  by intros [= <-].
Qed.
Next Obligation. intros [k|k|k|k] q; cbn; set_solver. Qed.
Next Obligation. by intros [k|k|k|k] q. Qed.
Next Obligation. by intros [k|k|k|k] q. Qed.
Next Obligation. done. Qed.
Next Obligation. by intros q q' ->. Qed.

Definition wx_client : client := fun _ => None.
Definition wx_annos : gmap string smap := {["n1" := ∅; "n2" := ∅]}.
Definition wx_turn (n : string) : list request * go (bool * list queue_op) :=
  let key := n ++ "/cpu" in
  processNextWorkItem (Some key)
    (@syncNode _ sx_prom (fixed_env 0) wx_client (idle_lister wx_annos) sx_policy (fun _ => 0)
       (fun _ => NewBindingRecords 0 0) (fun _ => 0) 0 ).

Definition wx_node (n : string) : Node := idle_node n ∅.
Definition wx_load (n : string) : delivery :=
  (wx_client, node_patch (wx_node n) (patch_annotation "add" "cpu" ("0.90000," ++ Format 0 sx_loc))).
Definition wx_hot (n : string) : delivery :=
  (wx_client, node_patch (wx_node n) (patch_annotation "add" HotValueKey ("0," ++ Format 0 sx_loc))).
Definition wx_ops (n : string) : list queue_op := [QForget (n ++ "/cpu"); QDone (n ++ "/cpu")].

Lemma wx_process n :
  wx_turn n = ([(wx_load n).2; (wx_hot n).2], Ret (true, wx_ops n)) ->
  node_process (fixed_env 0) sx_loc sx_policy (Some (n ++ "/cpu")) [wx_load n; wx_hot n] (true, wx_ops n).
Proof.
  intros Ht. exists sx_prom, wx_client, (idle_lister wx_annos), (fun _ => 0), (fun _ => NewBindingRecords 0 0),
    (fun _ => 0), 0, [(wx_load n).2; (wx_hot n).2].
  split; [apply _|]. split; [apply idle_named|]. split; [apply sx_fine|]. split; [apply sx_fine|].
  split; [reflexivity|exact Ht].
Qed.

(** Two workers whose requests alternate. *)
Definition wx_end : @pool set_queue :=
  {| po_queue := {| sq_waiting := ∅; sq_processing := {["n2/cpu"; "n1/cpu"]}; sq_down := false |};
     po_workers := [Handling "n1/cpu" [wx_load "n1"; wx_hot "n1"] [] true (wx_ops "n1");
                    Handling "n2/cpu" [wx_load "n2"; wx_hot "n2"] [] true (wx_ops "n2")];
     po_annos := default ∅ (replay wx_annos [wx_load "n1"; wx_load "n2"; wx_hot "n1"; wx_hot "n2"]);
     po_turns := [[wx_load "n1"; wx_hot "n1"]; [wx_load "n2"; wx_hot "n2"]] |}.

Lemma wx_key n : n = "n1" \/ n = "n2" -> metric_key sx_policy (n ++ "/cpu").
Proof.
  intros Hn. exists (Ok ["n1"; "n2"]), {| sync_Name := "cpu"; sync_Period := 3 * Minute |}.
  split; [left|]. destruct Hn as [->| ->]; [left|right; left].
Qed.

Lemma wx_run :
  rtc (pool_step (node_process (fixed_env 0) sx_loc sx_policy) (metric_key sx_policy)
         (foreign_write sx_policy)) (pool_start 2 wx_annos) wx_end.
Proof.
  eapply rtc_l; [apply (pool_add _ _ _ _ _ _ _ "n1/cpu"), (wx_key "n1"); by left|].
  eapply rtc_l; [eapply (pool_get _ _ _ _ _ [] [Waiting] _ _ "n1/cpu");
    [vm_compute; reflexivity|apply (wx_process "n1"); vm_compute; reflexivity]|].
  eapply rtc_l; [apply (pool_add _ _ _ _ _ _ _ "n2/cpu"), (wx_key "n2"); by right|].
  eapply rtc_l; [eapply (pool_get _ _ _ _ _ [_] [] _ _ "n2/cpu");
    [vm_compute; reflexivity|apply (wx_process "n2"); vm_compute; reflexivity]|].
  eapply rtc_l; [apply (pool_send _ _ _ _ []), (served_all ∅); vm_compute; reflexivity|].
  eapply rtc_l; [apply (pool_send _ _ _ _ [_]), (served_all ∅); vm_compute; reflexivity|].
  eapply rtc_l; [apply (pool_send _ _ _ _ []), (served_all ∅); vm_compute; reflexivity|].
  eapply rtc_l; [apply (pool_send _ _ _ _ [_]), (served_all ∅); vm_compute; reflexivity|].
  match goal with |- rtc _ ?p _ => assert (p = wx_end) as -> end; [|apply rtc_refl].
  unfold wx_end. by f_equal.
Qed.

Lemma one_worker_per_key_witness :
  NoDup (held (po_workers wx_end)) /\
  (forall key, key ∈ held (po_workers wx_end) <-> key ∈ wq_processing (po_queue wx_end)) /\
  forallb alive (po_workers wx_end) = true /\ wq_down (po_queue wx_end) = false.
Proof.
  apply (one_worker_per_key NodeWorker (metric_key sx_policy) (foreign_write sx_policy) 2 wx_annos).
  eapply rtc_subrel; [|apply wx_run]. intros p p'. apply pool_step_mono. intros get rqs r.
  apply node_process_of.
Defined.

Lemma overlapping_turns_serialize_witness :
  replay wx_annos (concat (po_turns wx_end)) = Some (po_annos wx_end) /\
  Forall (fun t =>
    (exists key r, metric_key sx_policy key /\ node_process (fixed_env 0) sx_loc sx_policy (Some key) t r) \/
    (exists d, t = [d] /\ foreign_write sx_policy d)) (po_turns wx_end).
Proof.
  apply (overlapping_turns_serialize (fixed_env 0) sx_loc sx_policy 2).
  - reflexivity.
  - apply sx_sane.
  - apply wx_run.
  - reflexivity.
Defined.

End Witnesses.
