(* ===== verification/Programs.v ===== *)
(** * The programs (cmd/scheduler/main.go, cmd/controller/main.go)

    The scheduler's program is kube-scheduler with three more plugins: [main_plugins] are the
    factories it is given, and [make_plugins] is what kube-scheduler does with them when it sets
    up its profiles. The annotator's program is the command of Options.v. Random seeds, log flushing
    and klog's flags are left out. *)

From S2P Require Import Prelude GoTime K8s Policy Utils Config Schemes Metrics.
From S2P Require Import Dynamic AppAware Topology TopologyPlugin Options.

Open Scope string_scope.
Open Scope Z_scope.

(** ** cmd/scheduler *)

Section Scheduler.
Context `{QL : QuantityLib} `{MR : MetricsRegistry}.
Context (LoadPolicyFromFile : string -> result DynamicSchedulerPolicy)
        (initTopologyInformer : result (string -> result NodeResourceTopology)).

(** A [framework.Plugin] of the three. *)
Inductive plugin :=
| DynamicPlugin (ds : Dynamic.DynamicScheduler)
| TopologyMatchPlugin (tm : TopologyMatch)
| ApplicationResourceAwarePlugin (ara : ApplicationResourceAware).

Definition DynamicScheduler_Name (ds : Dynamic.DynamicScheduler) : string := Dynamic.Name.
Definition TopologyMatch_Name (tm : TopologyMatch) : string := TopologyPlugin.Name.
Definition ApplicationResourceAware_Name (ara : ApplicationResourceAware) : string := AppAware.Name.

(** [Name()], by the plugin's type. *)
Definition plugin_Name (p : plugin) : string :=
  match p with
  | DynamicPlugin ds => DynamicScheduler_Name ds
  | TopologyMatchPlugin tm => TopologyMatch_Name tm
  | ApplicationResourceAwarePlugin ara => ApplicationResourceAware_Name ara
  end.

(** The assertions on the arguments' type. *)
Definition as_DynamicArgs (o : object) : option DynamicArgs :=
  match o with I_DynamicArgs x => Some x | _ => None end.
Definition as_NodeResourceTopologyMatchArgs (o : object) : option NodeResourceTopologyMatchArgs :=
  match o with I_NodeResourceTopologyMatchArgs x => Some x | _ => None end.
Definition as_ApplicationResourceAwareArgs (o : object) : option ApplicationResourceAwareArgs :=
  match o with I_ApplicationResourceAwareArgs x => Some x | _ => None end.

Abbreviation factory := (object -> registry -> go (registry * result plugin)).

Definition to_plugin {A} (f : A -> plugin) (m : go (registry * result A)) : go (registry * result plugin) :=
  let! (r, a) := m in Ret (r, match a with Ok a => Ok (f a) | Err e => Err e end).

Definition main_plugins : list (string * factory) :=
  [(Dynamic.Name, fun args r =>
      to_plugin DynamicPlugin (NewDynamicScheduler LoadPolicyFromFile (as_DynamicArgs args) r));
   (TopologyPlugin.Name, fun args r =>
      to_plugin TopologyMatchPlugin
        (Ret (r, TopologyPlugin.New (as_NodeResourceTopologyMatchArgs args) initTopologyInformer)));
   (AppAware.Name, fun args r =>
      to_plugin ApplicationResourceAwarePlugin
        (AppAware.New LoadPolicyFromFile (as_ApplicationResourceAwareArgs args) r))].

(** The exit code; [Execute] runs kube-scheduler's command with the factories. *)
Definition scheduler_main (Execute : list (string * factory) -> option error) : Z :=
  match Execute main_plugins with Some _ => 1 | None => 0 end.

(** *** Profiles

    kube-scheduler makes the plugins of its profiles one after another, each by the factory that
    is registered under the plugin's name and with the profile's arguments for it. *)

Definition factory_of (name : string) : option factory :=
  option_map snd (find (fun p => String.eqb (fst p) name) main_plugins).

Fixpoint make_plugins (l : list (string * object)) (r : registry) : go (registry * result (list plugin)) :=
  match l with
  | [] => Ret (r, Ok [])
  | (name, args) :: l' =>
      match factory_of name with
      | None => Ret (r, Err (Errorf "%s does not exist" [name]))
      | Some new =>
          let! (r', p) := new args r in
          match p with
          | Err e => Ret (r', Err e)
          | Ok p =>
              let! (r'', ps) := make_plugins l' r' in
              Ret (r'', match ps with Ok ps => Ok (p :: ps) | Err e => Err e end)
          end
      end
  end.

(** The plugin's arguments are of its type, and its policy file or its informer can be read. *)
Definition loads (c : string * object) : Prop :=
  match c.2 with
  | I_DynamicArgs x => c.1 = Dynamic.Name /\ exists p, LoadPolicyFromFile (da_PolicyConfigPath x) = Ok p
  | I_NodeResourceTopologyMatchArgs x =>
      c.1 = TopologyPlugin.Name /\ exists l, initTopologyInformer = Ok l
  | I_ApplicationResourceAwareArgs x =>
      c.1 = AppAware.Name /\ exists p, LoadPolicyFromFile (aa_PolicyConfigPath x) = Ok p
  | _ => False
  end.

(** The metric that a plugin's factory registers. *)
Definition metric_of (name : string) : option MetricVec :=
  if String.eqb name Dynamic.Name then Some DynamicPriorityAvailableNodesNumber
  else if String.eqb name AppAware.Name then Some ApplicationResourceAwareFilterFiltedNodes
  else None.

Definition metrics_of (l : list (string * object)) : list MetricVec :=
  omap (fun c : string * object => metric_of c.1) l.

Definition is_new (r : registry) (d : MetricVec) : Prop :=
  forall c, registered r c -> fq_name c <> fq_name d.

(** *** Lemmas *)

Lemma metric_names c d c' d' :
  metric_of c = Some d -> metric_of c' = Some d' -> d <> d' -> fq_name d <> fq_name d'.
Proof. unfold metric_of. repeat case_match; intros; simplify_eq; done. Qed.

Lemma metrics_of_elem d l : d ∈ metrics_of l -> exists c, metric_of c = Some d.
Proof. intros (c & _ & Hc)%list_elem_of_omap. by eexists. Qed.

(** What the factory of a plugin does. *)
Lemma factory_runs name args r :
  loads (name, args) ->
  exists new, factory_of name = Some new /\
    match metric_of name with
    | None => exists p, plugin_Name p = name /\ new args r = Ret (r, Ok p)
    | Some d =>
        (registered r d -> exists msg, new args r = Panic msg) /\
        (is_new r d -> exists r' p, plugin_Name p = name /\ new args r = Ret (r', Ok p) /\
           forall c, registered r' c <-> c = d \/ registered r c)
    end.
Proof.
  unfold loads. cbn [fst snd]. intros Hl. destruct args; try done; destruct Hl as [-> [p Hp]];
    eexists; (split; [reflexivity|]); cbn -[fq_name].
  - unfold RegisterDynamicSchedulerMetrics. rewrite Hp. split.
    + intros [msg ->]%register_again. by eexists.
    + intros (r' & -> & Hr)%register_new. exists r'. eexists (DynamicPlugin _). by split_and!.
  - rewrite Hp. by eexists (TopologyMatchPlugin _).
  - unfold RegisterAraSchedulerMetrics. rewrite Hp. split.
    + intros [msg ->]%register_again. by eexists.
    + intros (r' & -> & Hr)%register_new. exists r'. eexists (ApplicationResourceAwarePlugin _).
      by split_and!.
Qed.

(** A metric that is new stays so when another one is registered. *)
Lemma is_new_step r r' c d c' d' :
  metric_of c = Some d -> metric_of c' = Some d' -> d <> d' ->
  (forall x, registered r' x <-> x = d \/ registered r x) -> is_new r d' -> is_new r' d'.
Proof.
  intros Hc Hc' Hne Hr Hn x [->|Hx]%Hr; [by eapply metric_names|by apply Hn].
Qed.

Lemma make_plugins_once l r :
  Forall loads l -> NoDup (metrics_of l) -> (forall d, d ∈ metrics_of l -> is_new r d) ->
  exists r' ps, make_plugins l r = Ret (r', Ok ps) /\ map plugin_Name ps = map fst l.
Proof.
  intros Hl. revert r. induction Hl as [|[name args] l Hc _ IH]; intros r Hd Hn; [by do 2 eexists|].
  destruct (factory_runs name args r Hc) as (new & Hf & Hnew). cbn [make_plugins]. rewrite Hf.
  unfold metrics_of in Hd, Hn. cbn in Hd, Hn. fold (metrics_of l) in Hd, Hn.
  destruct (metric_of name) as [d|] eqn:Hm.
  - destruct Hnew as [_ (r' & p & Hp & -> & Hr)]; [apply Hn; left|]. cbn [go_bind].
    apply NoDup_cons in Hd as [Hnot Hd]. destruct (IH r' Hd) as (r'' & ps & -> & Hps).
    + intros d' Hd'. destruct (metrics_of_elem _ _ Hd') as [c' Hc'].
      eapply (is_new_step r); [exact Hm|exact Hc'|by intros ->|exact Hr|]. apply Hn. by right.
    + exists r'', (p :: ps). cbn. by rewrite Hp, Hps.
  - destruct Hnew as (p & Hp & ->). cbn [go_bind]. destruct (IH r Hd Hn) as (r'' & ps & -> & Hps).
    exists r'', (p :: ps). cbn. by rewrite Hp, Hps.
Qed.

Lemma make_plugins_again l r :
  Forall loads l -> (forall c d, metric_of c = Some d -> registered r d \/ is_new r d) ->
  ~ NoDup (metrics_of l) \/ (exists d, d ∈ metrics_of l /\ registered r d) ->
  exists msg, make_plugins l r = Panic msg.
Proof.
  intros Hl. revert r. induction Hl as [|[name args] l Hc _ IH]; intros r Hcl Hdup.
  { destruct Hdup as [Hd|(d & Hd%elem_of_nil & _)]; [|done]. by destruct Hd; constructor. }
  destruct (factory_runs name args r Hc) as (new & Hf & Hnew). cbn [make_plugins]. rewrite Hf.
  unfold metrics_of in Hdup. cbn in Hdup. fold (metrics_of l) in Hdup.
  destruct (metric_of name) as [d|] eqn:Hm.
  - destruct Hnew as [Hagain Hfresh]. destruct (Hcl _ _ Hm) as [Hreg|Hn].
    { destruct (Hagain Hreg) as [msg ->]. by eexists. }
    destruct (Hfresh Hn) as (r' & p & _ & -> & Hr). cbn [go_bind]. destruct (IH r') as [msg ->].
    + intros c' d' Hc'. destruct (decide (d = d')) as [->|Hne]; [left; apply Hr; by left|].
      destruct (Hcl _ _ Hc') as [Hreg|Hn']; [left; apply Hr; by right|right].
      by eapply (is_new_step r _ name d c').
    + destruct Hdup as [Hd|(d0 & Hd0 & Hreg)].
      * destruct (decide (d ∈ metrics_of l)) as [Hin|Hnin].
        { right. exists d. split; [done|]. apply Hr. by left. }
        left. intros Hnd. apply Hd. by constructor.
      * right. exists d0. split; [|apply Hr; by right]. apply elem_of_cons in Hd0 as [->|Hd0]; [|done].
        by destruct (Hn d Hreg).
    + by eexists.
  - destruct Hnew as (p & _ & ->). cbn [go_bind]. destruct (IH r Hcl Hdup) as [msg ->]. by eexists.
Qed.

End Scheduler.

(** ** Property *)

(** C33: the Dynamic and ApplicationResourceAware plugins can be made once in a process. When all
    plugins of the profiles load and the registry does not hold their metrics yet: if no two of
    them are the same plugin of these two, every plugin is made, and calls itself by the name its
    profile asks for; otherwise, as with a second profile that enables Dynamic, the scheduler
    panics. *)
Theorem plugins_made_once `{QL : QuantityLib} `{MR : MetricsRegistry}
    (LoadPolicyFromFile : string -> result DynamicSchedulerPolicy)
    (initTopologyInformer : result (string -> result NodeResourceTopology))
    (l : list (string * object)) (r : registry) :
  Forall (loads LoadPolicyFromFile initTopologyInformer) l ->
  (forall name d, metric_of name = Some d -> is_new r d) ->
  if decide (NoDup (metrics_of l)) then
    exists r' ps, make_plugins LoadPolicyFromFile initTopologyInformer l r = Ret (r', Ok ps) /\
      map plugin_Name ps = map fst l
  else exists msg, make_plugins LoadPolicyFromFile initTopologyInformer l r = Panic msg.
Proof.
  intros Hl Hn. case_decide as Hd.
  - apply make_plugins_once; [done..|]. intros d [c Hc]%metrics_of_elem. by eapply Hn.
  - apply make_plugins_again; [done| |by left]. intros c d Hc. right. by eapply Hn.
Qed.

(** ** cmd/controller

    [ParseFlags] is cobra's parsing of the command line with the command's flags; it fails on an
    unknown flag or a bad value. *)

Section Controller.
Context {rest clientset prom : Type}.
Context (env : Env) (ParseInt32 : string -> result Z).
Context (LeaderElectionFlags : list (string * (string -> Options -> result Options))).
Context (ParseFlags : list (string * (string -> Options -> result Options)) -> Options -> result Options).
Context (LoadPolicy : string -> result DynamicSchedulerPolicy) (InClusterConfig : result rest).
Context (BuildConfigFromFlags : string -> string -> result rest) (AddUserAgent : rest -> string -> rest).
Context (NewForConfig : rest -> result clientset) (NewPromClient : string -> result prom).

(** The command: the flags it binds and the options they set, which [NewOptions] makes without an
    error, and neither does binding them; its [Run] is in Options.v. *)
Definition NewControllerCommand : list (string * (string -> Options -> result Options)) * Options :=
  (Flags ParseInt32 LeaderElectionFlags, NewOptions env).

Definition controller_main (server : Config -> error + fate) : fate :=
  match ParseFlags NewControllerCommand.1 NewControllerCommand.2 with
  | Err _ => Exits 1
  | Ok o =>
      NewControllerCommand_Run LoadPolicy InClusterConfig BuildConfigFromFlags AddUserAgent NewForConfig
        NewPromClient o server
  end.

End Controller.

(** ** Witness *)

Section Witness.
#[local] Existing Instance MilliQuantities.

Definition pw_load : string -> result DynamicSchedulerPolicy := fun _ =>
  Ok {| policy_APIVersion := "";
        Spec := {| SyncPeriod := []; SyncAppPeriod := []; Predicate := []; Priority := []; HotValue := [] |} |}.
Definition pw_topology : result (string -> result NodeResourceTopology) :=
  Ok (fun _ => Err (Errorf "not found" [])).

Definition pw_empty : @registry ListRegistry := [].

Definition pw_dynamic : string * object := (Dynamic.Name, I_DynamicArgs {| da_PolicyConfigPath := "p" |}).
Definition pw_numa : string * object :=
  (TopologyPlugin.Name, I_NodeResourceTopologyMatchArgs {| na_TopologyAwareResources := ["cpu"] |}).

(** One profile with both plugins, and a second one that enables Dynamic too. *)
Lemma plugins_made_once_witness :
  (exists r' ps, make_plugins pw_load pw_topology [pw_dynamic; pw_numa] pw_empty
     = Ret (r', Ok ps) /\ map plugin_Name ps = ["Dynamic"; "NodeResourceTopologyMatch"]) /\
  exists msg, make_plugins pw_load pw_topology [pw_dynamic; pw_numa; pw_dynamic] pw_empty
    = Panic msg.
Proof.
  split.
  - apply (plugins_made_once pw_load pw_topology [pw_dynamic; pw_numa] pw_empty).
    + repeat constructor; by eexists.
    + by intros name d _ c ?%elem_of_nil.
  - apply (plugins_made_once pw_load pw_topology [pw_dynamic; pw_numa; pw_dynamic] pw_empty).
    + repeat constructor; by eexists.
    + by intros name d _ c ?%elem_of_nil.
Defined.

End Witness.
